(* ===== verification/_CoqProject ===== *)
-Q . S2P
Prelude.v
Bytes.v
Wire.v
Dns.v
DnsFacts.v
DnsProps.v
Text.v
Net.v
Headers.v
Ecs.v
EcsFacts.v
EcsProps.v
RrTypes.v
Msg.v
MsgFacts.v
MsgProps.v
DnsJson.v
DnsJsonFacts.v
DnsJsonProps.v
FastestIpCache.v
FastestIpCacheFacts.v
FastestIpCacheProps.v
Errors.v
Bootstrap.v
BootstrapFacts.v
BootstrapProps.v
F64.v
Upstream.v
UpstreamFacts.v
UpstreamProps.v
FastestAddr.v
FastestAddrFacts.v
FastestAddrProps.v
Proxy.v
ProxyFacts.v
ProxyProps.v
Clients.v
ClientsProps.v
Odoh.v
Http.v
H3Server.v
HttpFacts.v
HttpProps.v
HttpSafety.v
H3Pending.v
H3PendingProps.v
DohPool.v
DohPoolProps.v
Breaker.v
BreakerProps.v
DohClient.v
DohClientFacts.v
DohClientProps.v
Config.v
ConfigProps.v
Serve.v
ServeProps.v
Watcher.v
WatcherProps.v
Connection.v
ConnectionProps.v
Process.v
ProcessProps.v
Server.v
ServerProps.v
ProgramProps.v
