(* ===== verification/Prelude.v ===== *)
(** * Verification of doh-server

    doh-server answers DNS queries over HTTPS (HTTP/1, HTTP/2 and HTTP/3, with
    the wire format, JSON and Oblivious DoH) by asking upstream resolvers over
    UDP and TCP, TLS or HTTPS.  This library models its Rust code and proves
    what makes the parts correct.  Paths below are those of src/libdoh/src
    unless they say otherwise.

    ** How the program works

    The process reads its options (src/config.rs, src/utils.rs), binds its
    listeners and starts the services (lib.rs, tls.rs).  A connection is
    admitted if there is room for a client (globals.rs), a request is
    negotiated and its query decoded (lib.rs), the client's address is found
    in its headers (edns_ecs.rs), and the query goes to [proxy] (lib.rs).
    There it is given an EDNS payload size and perhaps a client-subnet option
    (dns.rs, edns_ecs.rs), and the exchange asks the upstreams in one of three
    modes (upstream/).  A single upstream is asked over UDP with TCP fallback,
    over TLS, or over HTTP/2 or HTTP/3 with retries, a circuit breaker and
    pools of connections (lib.rs); its host name may be resolved by bootstrap
    resolvers (lib.rs).  The response gets a TTL and padding (dns.rs) and goes
    back as an HTTP response, as JSON (dns_json.rs), or encrypted (odoh.rs).

    ** Files

    Each component has a file of definitions, X.v; its lemmas are in XFacts.v
    where there are many; its properties, with a witness at a concrete input
    for each that has hypotheses, in XProps.v.

    - Prelude.v: outcomes ([Ok], [Err], [Panic], [Diverge]), state with
      outcomes ([mutates]), machine integers, and the tactics and hints all
      files share.  Bytes.v: byte buffers and big-endian access.  Wire.v:
      encoded labels.  Text.v: the string functions of the standard library.
      Net.v: IP and socket addresses, printed and parsed as the standard
      library does.  Headers.v: the interface of HTTP header maps.  F64.v:
      binary64 arithmetic.
    - Dns.v (dns.rs): header fields, [skip_name], the walkers over records,
      [min_ttl], the EDNS payload size, padding.
    - Ecs.v (edns_ecs.rs): the client's address and the client-subnet option.
    - RrTypes.v, Msg.v (upstream/rr_types.rs, msg.rs, dns_packet.rs): the
      message decoder and encoder and the rewriting of answer addresses.
    - DnsJson.v (dns_json.rs): JSON queries to packets, packets to JSON.
    - FastestIpCache.v (globals.rs): the cache of ping results, a hash map
      whose entries are linked in order of use.
    - Errors.v (errors.rs, lib.rs): errors, what they print, the status they
      become, and which are worth a retry.
    - Bootstrap.v (lib.rs): resolving upstream hosts, with its cache.
    - Upstream.v (upstream/mod.rs, stats.rs, load_balance.rs, parallel.rs) and
      FastestAddr.v (upstream/fastest_addr.rs): the three modes.
    - Proxy.v (lib.rs, upstream/mod.rs): [proxy], the exchange, and the UDP,
      TCP and TLS transports.
    - Clients.v (globals.rs, lib.rs, tls.rs): counting clients, as a step
      relation on the counter and the connections.
    - Odoh.v (odoh.rs), Http.v, H3Server.v (lib.rs): Oblivious DoH keys, the
      HTTP/1 and HTTP/2 handlers, the HTTP/3 handler and the loop of a
      connection.  HttpSafety.v: they do not panic on any request.
    - H3Pending.v, DohPool.v, Breaker.v, DohClient.v (lib.rs): the requests of
      one HTTP/3 connection to an upstream, the pool of such connections, the
      circuit breaker and the rate of rebuilds, and [proxy_doh] above them.
    - Config.v (src/config.rs, src/utils.rs, src/constants.rs, src/main.rs):
      from the values of the options, whose addresses are resolved again, to
      the settings and the stamps.
    - Serve.v (lib.rs, tls.rs): listeners, certificates and their renewal,
      the HTTP/3 listener with its accept tasks, and its supervisor.
    - Watcher.v (lib.rs): the thread that watches the certificate files.
    - Connection.v (lib.rs, tls.rs): the admission of a connection, the
      settings of hyper and the deadline.
    - Process.v (src/main.rs, lib.rs): [main] and [entrypoint], from the start
      of the process to its exit, in either build profile.
    - Server.v: the components put together, from a request over any version
      of HTTP to the upstreams and back.  ServerProps.v has its lemmas;
      ProgramProps.v gives it the settings of Config.v, so that its theorems
      start from the command line.

    ** How code becomes definitions

    A function of the source is a function of the same name.  Integers are
    [Z] with the wrap-around or the check of the type written out; an index
    out of range, a failed [assert!] or [expect] is [Panic].  A function on
    [&mut] data returns the data on every outcome.  A loop that is not
    structural takes fuel and ends in [Diverge] without it: one more turn than
    the packet has octets where every turn goes on in the packet ([skip_name],
    the codec), the square of that for names with compression pointers in
    Bootstrap.v, three turns for the retries, and so on; for each there is a
    theorem that this is enough, or, for the JSON decoder, that it runs out
    exactly when the program loops for ever.

    An async function is modelled as the sequence of its effects.  What the
    network, the clock and other tasks do is an argument: the results of the
    calls on a socket, the order in which tasks answer, what happens to the
    shared state while one waits.  [Diverge] is a wait that does not end, and
    a timeout turns it into an error.  Where atomics matter (Clients.v,
    Breaker.v) the model is a step relation with one atomic operation a step
    for any number of tasks.  The functions of the breaker are sequences of
    such operations, with what other tasks do before each as an argument, and
    are proved to be the runs of their calls in the step relation.  Where
    tasks share a table behind a lock (H3Pending.v, DohPool.v) they interleave
    at the operations.  A connection (Connection.v) is the list of what hyper
    does on it with the times, cut at the deadline.

    [Panic] is a panic: in a release build, for which src/Cargo.toml sets
    [panic = "abort"], it ends the process, otherwise its task only;
    Process.v has both profiles.

    Code of other crates is a class or an argument, with what is documented
    about it as laws: HTTP headers ([HeaderApi]), big-endian access
    ([ByteOrder]), Oblivious DoH cryptography ([OdohApi]), URLs ([UrlApi],
    [UrlLaws]); base64, percent-decoding, JSON printing, TLS, QUIC and hyper.
    Theorems that use laws have witnesses with concrete instances.

    ** What is proved

    - The packet layer, the codec and the option code neither panic nor loop
      on any packet (DnsProps, MsgProps, EcsProps, BootstrapProps); where they
      do, that is proved too ([EcsProps.add_ecs_panics],
      [DnsJsonProps.json_decoder_hangs]).  They accept exactly the
      well-formed names and messages, and what they write back is one:
      payload size, padding, client subnet, rewritten addresses.  Encoding
      and decoding are inverse (MsgProps, DnsJsonProps, BootstrapProps).
    - The cache refines a bounded list in order of use and answers only with
      live entries (FastestIpCacheProps).
    - For every schedule an exchange ends with a packet an upstream sent or
      with the failures of all (UpstreamProps, FastestAddrProps, ProxyProps);
      datagrams come from the upstream asked, streams are framed, and the TTL
      of an answer is within its bounds (ProxyProps).
    - Any interleaving keeps the count of clients exact and bounded, and
      connections that stop keep their places (ClientsProps).
    - With the settings made of the command line, if there is a timeout,
      every query is answered, whatever the upstreams, the network and other
      tasks do; with client subnets, if it is well-formed; over HTTP/3,
      unless the answer is an error.  Without client subnets no request of
      any kind makes a handler panic (ProgramProps).  These theorems are
      about the handlers: the connection they answer on ends at its own
      deadline (ConnectionProps).
    - Every kind of HTTP/1 or HTTP/2 request has the response stated; HTTP/3
      answers a DoH query with the same, unless it is an error, and its
      content negotiation differs exactly as stated; Oblivious DoH queries
      round-trip (HttpProps).
    - HTTP/3 requests to an upstream get one result each, and none is lost
      when the connection ends (H3PendingProps); the pool stays within its
      bounds (DohPoolProps); the breaker refines its specification over any
      history of calls that do not overlap, with what is left of it when they
      do, and rebuilds are a second apart under any interleaving
      (BreakerProps); requests are tried at most three times, and a query is
      answered when HTTP/2 works and nothing before it hangs (DohClientProps).
    - Accepted options give exactly the settings and stamps they say, or an
      exit with a message (ConfigProps); the server serves exactly what it could bind, with the
      last valid certificates, and the HTTP/3 supervisor ends only when told
      to (ServeProps); the watcher asks for a reload exactly when a batch of
      events shows that a file has changed (WatcherProps); a connection is
      served until it is over or its deadline, no shorter and no longer
      (ConnectionProps); the process exits or aborts only as stated
      (ProcessProps).

    ** Not modelled

    The text of the help and clap itself, the runtime, the allocator and log
    output; the HTTP, TLS and QUIC libraries; the debouncer of file-system
    events.  The channels between tasks appear as the sequence of what
    arrives.  In Server.v the state the exchanges with HTTPS upstreams share
    is part of the world a query finds, kept within its invariant by all;
    what one query leaves is not handed to the next.  Memory orderings weaker
    than sequential consistency are not modelled: the relaxed operations of a
    task happen in the order of the program.  Mutexes are never
    poisoned, as no code panics while it holds one. *)

From Stdlib Require Export ZArith Lia.
From stdpp Require Export prelude strings countable vector gmap.

#[global] Open Scope Z_scope.

Declare Scope doh_scope.
Delimit Scope doh_scope with doh.

(** ** Outcomes of Rust code

    A Rust function returning [Result<A, E>] can do four things that the
    caller can tell apart: return [Ok], return [Err], unwind with a panic
    (an out of range index, a failed [assert!], a checked subtraction below
    zero), or never return.  The last one is what a loop model returns when
    its fuel runs out. *)
Inductive outcome (E A : Type) : Type :=
  | Ok (a : A)
  | Err (e : E)
  | Panic
  | Diverge.
Arguments Ok {E A} a.
Arguments Err {E A} e.
Arguments Panic {E A}.
Arguments Diverge {E A}.

#[global] Instance outcome_eq_dec {E A : Type} `{EqDecision E} `{EqDecision A} :
  EqDecision (outcome E A).
Proof. solve_decision. Defined.

#[global] Instance outcome_ret {E : Type} : MRet (outcome E) := fun _ a => Ok a.
#[global] Instance outcome_bind {E : Type} : MBind (outcome E) :=
  fun _ _ f m =>
    match m with
    | Ok a => f a
    | Err e => Err e
    | Panic => Panic
    | Diverge => Diverge
    end.
#[global] Instance outcome_fmap {E : Type} : FMap (outcome E) :=
  fun _ _ f m =>
    match m with
    | Ok a => Ok (f a)
    | Err e => Err e
    | Panic => Panic
    | Diverge => Diverge
    end.

(** Code that handles every error itself: it has a value, panics or does not
    end. *)
Abbreviation infallible := (outcome Empty_set).

(** [e?] on a result whose error is converted on the way out ([map_err]). *)
Definition map_err {E F A : Type} (f : E -> F) (m : outcome E A) : outcome F A :=
  match m with
  | Ok a => Ok a
  | Err e => Err (f e)
  | Panic => Panic
  | Diverge => Diverge
  end.

(** [ensure!(c, msg)]: return the error unless the condition holds. *)
Definition ensure {E : Type} (c : bool) (e : E) : outcome E unit :=
  if c then Ok tt else Err e.

(** [assert!(c)]. *)
Definition assert_ {E : Type} (c : bool) : outcome E unit :=
  if c then Ok tt else Panic.

(** [o.ok_or(e)]. *)
Definition ok_or {E A : Type} (o : option A) (e : E) : outcome E A :=
  match o with Some a => Ok a | None => Err e end.

(** A library call that panics exactly when it has no value. *)
Definition or_panic {E A : Type} (o : option A) : outcome E A :=
  match o with Some a => Ok a | None => Panic end.

(** [r.ok()], where the call itself may still panic. *)
Definition to_option {E A : Type} (m : outcome E A) : option A :=
  match m with Ok a => Some a | _ => None end.

(** The [anyhow::Error] of src/libdoh/src/dns.rs and its neighbours carries
    only its message. *)
Definition Error : Type := string.

(** ** Machine integers

    An unsigned integer of the source is a [Z]; the operations that can leave
    the type's range are written out.  A plain subtraction on [usize] panics
    below zero in a build with overflow checks; the safety theorems show that
    the subtractions of the source never get there, so a build without the
    checks computes the same. *)
Abbreviation u16_max := 65535.
Abbreviation u32_max := 4294967295.
Abbreviation u64_max := 18446744073709551615.

(** [x as u16], [x as u32], [x as u64]. *)
Definition as_u16 (z : Z) : Z := z mod 65536.
Definition as_u32 (z : Z) : Z := z mod 4294967296.
Definition as_u64 (z : Z) : Z := z mod 18446744073709551616.

Definition usub {E : Type} (a b : Z) : outcome E Z :=
  if b <=? a then Ok (a - b) else Panic.

(** [a.saturating_sub(b)] on unsigned integers, and the 64-bit
    [saturating_add] and [saturating_mul]. *)
Definition saturating_sub (a b : Z) : Z := Z.max 0 (a - b).
Definition saturating_add_u64 (a b : Z) : Z := Z.min u64_max (a + b).
Definition saturating_mul_u64 (a b : Z) : Z := Z.min u64_max (a * b).

(** [x.div_ceil(y)]. *)
Definition div_ceil (a b : Z) : Z := (a + b - 1) / b.

(** The length of a slice, as a [usize]. *)
Definition len {A : Type} (l : list A) : Z := Z.of_nat (length l).

(** ** Reasoning about outcomes

    [returns m Q] says that [m] neither panics nor diverges, and that a value
    it returns satisfies [Q]. *)
Definition returns {E A : Type} (m : outcome E A) (Q : A -> Prop) : Prop :=
  match m with
  | Ok a => Q a
  | Err _ => True
  | Panic => False
  | Diverge => False
  end.

(** [m] comes back with [Ok] or [Err]. *)
Definition total {E A : Type} (m : outcome E A) : Prop := returns m (fun _ => True).

Section outcome_lemmas.
Context {E F A B : Type}.
Implicit Types (m : outcome E A) (f : A -> outcome E B).

Lemma bind_Ok (m : outcome E A) (f : A -> outcome E B) (b : B) :
  (m ≫= f) = Ok b <-> exists a, m = Ok a /\ f a = Ok b.
Proof.
  destruct m; cbn; (split; [intros H; try discriminate; eauto|]);
    intros (x & Hx & H); congruence.
Qed.

Lemma ensure_Ok (c : bool) (e : E) (u : unit) : ensure c e = Ok u <-> c = true.
Proof. destruct c, u; cbn; intuition congruence. Qed.

Lemma usub_Ok (a b c : Z) : @usub E a b = Ok c <-> b <= a /\ c = a - b.
Proof. unfold usub. destruct (Z.leb_spec b a); (split; [intros [= <-]|intros [? ->]]); done || lia. Qed.

Lemma usub_ge (a b : Z) : b <= a -> @usub E a b = Ok (a - b).
Proof. intros. apply usub_Ok. lia. Qed.

Lemma assert_Ok (c : bool) (u : unit) : @assert_ E c = Ok u <-> c = true.
Proof. destruct c, u; cbn; intuition congruence. Qed.

Lemma map_err_Ok (g : E -> F) (m : outcome E A) (a : A) :
  map_err g m = Ok a <-> m = Ok a.
Proof. destruct m; cbn; intuition (try congruence; eauto). Qed.

Lemma returns_bind (m : outcome E A) (f : A -> outcome E B) (Q : B -> Prop) :
  returns m (fun a => returns (f a) Q) -> returns (m ≫= f) Q.
Proof. destruct m; done. Qed.

Lemma returns_mono (m : outcome E A) (P Q : A -> Prop) :
  returns m P -> (forall a, m = Ok a -> P a -> Q a) -> returns m Q.
Proof. destruct m; cbn; auto. Qed.

Lemma returns_ensure (c : bool) (e : E) (Q : unit -> Prop) :
  (c = true -> Q tt) -> returns (ensure c e) Q.
Proof. destruct c; cbn; auto. Qed.

Lemma returns_usub (a b : Z) (Q : Z -> Prop) :
  b <= a -> Q (a - b) -> returns (@usub E a b) Q.
Proof. intros. by rewrite usub_ge. Qed.

Lemma returns_total (m : outcome E A) (P : A -> Prop) : returns m P -> total m.
Proof. destruct m; cbn; auto. Qed.

Lemma returns_Ok (m : outcome E A) (P : A -> Prop) (a : A) :
  returns m P -> m = Ok a -> P a.
Proof. intros H ->. exact H. Qed.

Lemma total_not_panic (m : outcome E A) : total m <-> m <> Panic /\ m <> Diverge.
Proof. destruct m; cbn; intuition (try congruence; eauto). Qed.
End outcome_lemmas.

Lemma len_nonneg {A : Type} (l : list A) : 0 <= len l.
Proof. unfold len; lia. Qed.

Lemma len_app {A : Type} (l k : list A) : len (l ++ k) = len l + len k.
Proof. unfold len. rewrite length_app. lia. Qed.

Lemma len_cons {A : Type} (x : A) (l : list A) : len (x :: l) = 1 + len l.
Proof. unfold len. cbn [length]. lia. Qed.

Lemma len_nil {A : Type} : len (@nil A) = 0.
Proof. done. Qed.

Lemma to_nat_len {A : Type} (l : list A) : Z.to_nat (len l) = length l.
Proof. apply Nat2Z.id. Qed.

(** Testing one bit with a mask. *)
Lemma land_bit (z k : Z) : 0 <= k -> (Z.land z (2 ^ k) =? 0) = negb (Z.testbit z k).
Proof.
  intros Hk. destruct (Z.testbit z k) eqn:Hb.
  - apply Z.eqb_neq. intros H0.
    assert (Z.testbit (Z.land z (2 ^ k)) k = true) as H1.
    { by rewrite Z.land_spec, Hb, Z.pow2_bits_true by lia. }
    by rewrite H0, Z.bits_0 in H1.
  - apply Z.eqb_eq, Z.bits_inj'. intros n Hn.
    rewrite Z.land_spec, Z.bits_0, Z.pow2_bits_eqb by lia.
    destruct (Z.eqb_spec k n); [subst; by rewrite Hb|apply andb_false_r].
Qed.

(** ** Automation

    [doh_len] holds the equations that normalise lengths; [doh_simpl]
    applies them.  [inv_ok] takes a hypothesis [... = Ok _] about a monadic
    definition apart into one hypothesis per step. *)
Create Rewrite HintDb doh_len.
#[export] Hint Rewrite @len_app @len_cons @len_nil : doh_len.

Ltac doh_simpl := autorewrite with doh_len in *.

Ltac inv_ok_step :=
  match goal with
  | H : mbind _ _ = Ok _ |- _ =>
      apply bind_Ok in H; let a := fresh "a" in let Ha := fresh "Ha" in
      destruct H as (a & Ha & H)
  | H : ensure _ _ = Ok _ |- _ => apply ensure_Ok in H
  | H : usub _ _ = Ok _ |- _ => apply usub_Ok in H; destruct H as [? H]; try subst
  | H : assert_ _ = Ok _ |- _ => apply assert_Ok in H
  | H : map_err _ _ = Ok _ |- _ => apply map_err_Ok in H
  | H : Ok _ = Ok _ |- _ => injection H as H; try subst
  | H : Err _ = Ok _ |- _ => discriminate H
  | H : Panic = Ok _ |- _ => discriminate H
  | H : Diverge = Ok _ |- _ => discriminate H
  | H : (match ?x with (_, _) => _ end) = Ok _ |- _ => is_var x; destruct x
  end.

Ltac bool_to_prop :=
  repeat match goal with
  | H : (_ && _) = true |- _ => apply andb_true_iff in H; destruct H
  | H : (_ <? _) = true |- _ => apply Z.ltb_lt in H
  | H : (_ <? _) = false |- _ => apply Z.ltb_ge in H
  | H : (_ <=? _) = true |- _ => apply Z.leb_le in H
  | H : (_ <=? _) = false |- _ => apply Z.leb_gt in H
  | H : (_ =? _) = true |- _ => apply Z.eqb_eq in H
  | H : (_ =? _) = false |- _ => apply Z.eqb_neq in H
  | H : negb _ = true |- _ => apply negb_true_iff in H
  | H : negb _ = false |- _ => apply negb_false_iff in H
  end.

Ltac inv_ok := repeat inv_ok_step; bool_to_prop.

(** ** Functions on a [&mut] argument

    A function that takes [s : &mut S] and returns [Result<A, E>] leaves what
    it has already written in place when it returns [Err]: the state comes
    back on every outcome. *)
Definition mutates (S E A : Type) : Type := S -> outcome E A * S.

#[global] Instance mutates_ret {S E : Type} : MRet (mutates S E) := fun _ a s => (Ok a, s).
#[global] Instance mutates_bind {S E : Type} : MBind (mutates S E) :=
  fun _ _ f m s =>
    match m s with
    | (Ok a, s') => f a s'
    | (Err e, s') => (Err e, s')
    | (Panic, s') => (Panic, s')
    | (Diverge, s') => (Diverge, s')
    end.

(** The current contents, a computation that only reads, and a write. *)
Definition current {S E : Type} : mutates S E S := fun s => (Ok s, s).
Definition lift {S E A : Type} (m : outcome E A) : mutates S E A := fun s => (m, s).
Definition update {S E : Type} (f : S -> outcome E S) : mutates S E unit :=
  fun s =>
    match f s with
    | Ok s' => (Ok tt, s')
    | Err e => (Err e, s)
    | Panic => (Panic, s)
    | Diverge => (Diverge, s)
    end.

Section mutates_lemmas.
Context {S E A B : Type}.

Lemma mutates_bind_Ok (m : mutates S E A) (f : A -> mutates S E B) s b s' :
  (m ≫= f) s = (Ok b, s') <-> exists a s1, m s = (Ok a, s1) /\ f a s1 = (Ok b, s').
Proof.
  unfold mbind, mutates_bind. destruct (m s) as [[a|e| |] s1]; split.
  all: try (intros H; try discriminate H; eauto; fail).
  all: intros (x & s2 & Hx & H); congruence.
Qed.

Lemma lift_Ok (m : outcome E A) (s s' : S) a :
  lift m s = (Ok a, s') <-> m = Ok a /\ s' = s.
Proof. unfold lift. split; [intros [= -> ->]|intros [-> ->]]; done. Qed.

Lemma current_Ok (s s' r : S) : @current S E s = (Ok r, s') <-> r = s /\ s' = s.
Proof. unfold current. split; [intros [= -> ->]|intros [-> ->]]; done. Qed.

Lemma update_Ok (f : S -> outcome E S) s s' u :
  update f s = (Ok u, s') <-> f s = Ok s'.
Proof. unfold update. destruct u, (f s); split; congruence. Qed.
End mutates_lemmas.

(** [returns_from m s Q]: run from [s], [m] neither panics nor diverges, and
    what an [Ok] leaves satisfies [Q]. *)
Definition returns_from {S E A : Type} (m : mutates S E A) (s : S) (Q : A -> S -> Prop) : Prop :=
  match m s with
  | (Ok a, s') => Q a s'
  | (Err _, _) => True
  | _ => False
  end.

Section returns_from_lemmas.
Context {S E A B : Type}.

Lemma returns_from_bind (m : mutates S E A) (f : A -> mutates S E B) s Q :
  returns_from m s (fun a s' => returns_from (f a) s' Q) -> returns_from (m ≫= f) s Q.
Proof.
  unfold returns_from, mbind, mutates_bind. by destruct (m s) as [[]].
Qed.

Lemma returns_from_lift (m : outcome E A) (s : S) (Q : A -> S -> Prop) :
  returns m (fun a => Q a s) -> returns_from (lift m) s Q.
Proof. unfold returns_from, lift. by destruct m. Qed.

Lemma returns_from_current (s : S) (Q : S -> S -> Prop) :
  Q s s -> returns_from (@current S E) s Q.
Proof. done. Qed.

Lemma returns_from_update (f : S -> outcome E S) s (Q : unit -> S -> Prop) :
  returns (f s) (Q tt) -> returns_from (update f) s Q.
Proof. unfold returns_from, update. by destruct (f s). Qed.

Lemma returns_from_mono (m : mutates S E A) s (P Q : A -> S -> Prop) :
  returns_from m s P -> (forall a s', m s = (Ok a, s') -> P a s' -> Q a s') ->
  returns_from m s Q.
Proof. unfold returns_from. destruct (m s) as [[] ]; eauto. Qed.
End returns_from_lemmas.

Ltac inv_mut_step :=
  match goal with
  | H : mbind _ _ _ = (Ok _, _) |- _ =>
      apply mutates_bind_Ok in H; let a := fresh "a" in let s := fresh "s" in
      let Ha := fresh "Ha" in destruct H as (a & s & Ha & H)
  | H : lift _ _ = (Ok _, _) |- _ => apply lift_Ok in H; destruct H as [H ?]; subst
  | H : current _ = (Ok _, _) |- _ => apply current_Ok in H; destruct H; subst
  | H : update _ _ = (Ok _, _) |- _ => apply update_Ok in H
  | H : mret _ _ = (Ok _, _) |- _ => injection H as H; subst
  | H : (Ok _, _) = (Ok _, _) |- _ => injection H as H; subst
  | H : (match ?x with (_, _) => _ end) _ = (Ok _, _) |- _ => is_var x; destruct x
  end.

Ltac inv_mut := repeat (inv_mut_step || inv_ok_step); bool_to_prop.

(** [out_simpl] runs the monad's administrative steps; [cmp_simpl] decides the
    integer comparisons of the goal that follow from the context. *)
Ltac out_simpl :=
  cbn [mbind outcome_bind fmap outcome_fmap mret outcome_ret ensure assert_ map_err or_panic
       ok_or to_option andb orb negb].

Ltac cmp_simpl :=
  repeat match goal with
  | |- context [?a <=? ?b] =>
      first [rewrite (proj2 (Z.leb_le a b)) by lia | rewrite (proj2 (Z.leb_gt a b)) by lia]
  | |- context [?a <? ?b] =>
      first [rewrite (proj2 (Z.ltb_lt a b)) by lia | rewrite (proj2 (Z.ltb_ge a b)) by lia]
  | |- context [?a =? ?b] =>
      first [rewrite (proj2 (Z.eqb_eq a b)) by lia | rewrite (proj2 (Z.eqb_neq a b)) by lia]
  end.

(** [run_ok]: evaluate a monadic goal whose checks all succeed. *)
Ltac run_ok :=
  repeat (out_simpl; first
    [ rewrite usub_ge by lia
    | progress cmp_simpl ]); out_simpl.

(** [safe m Q]: [m] does not panic, and a value it returns satisfies [Q];
    for code whose termination is a separate question. *)
Definition safe {E A : Type} (m : outcome E A) (Q : A -> Prop) : Prop :=
  match m with
  | Ok a => Q a
  | Panic => False
  | _ => True
  end.

Section safe_lemmas.
Context {E A B : Type}.

Lemma safe_bind (m : outcome E A) (f : A -> outcome E B) (Q : B -> Prop) :
  safe m (fun a => safe (f a) Q) -> safe (m ≫= f) Q.
Proof. destruct m; done. Qed.

Lemma safe_mono (m : outcome E A) (P Q : A -> Prop) :
  safe m P -> (forall a, m = Ok a -> P a -> Q a) -> safe m Q.
Proof. destruct m; cbn; auto. Qed.

Lemma safe_ensure (c : bool) (e : E) (Q : unit -> Prop) :
  (c = true -> Q tt) -> safe (ensure c e) Q.
Proof. destruct c; cbn; auto. Qed.

Lemma safe_not_panic (m : outcome E A) (Q : A -> Prop) : safe m Q -> m <> Panic.
Proof. by destruct m. Qed.

Lemma safe_returns (m : outcome E A) (Q : A -> Prop) : returns m Q -> safe m Q.
Proof. by destruct m. Qed.
End safe_lemmas.
