(* ===== verification/Bytes.v ===== *)
(** * Byte buffers

    Slices of bytes, the checked accesses of Rust ([b[i]], [&b[a..c]]), and
    the big-endian accessors of the [byteorder] crate, which is not part of
    the repository: it enters as the class [ByteOrder], whose laws are the
    crate's documented behaviour, and [big_endian] is a concrete instance. *)

From Stdlib Require Export Strings.Byte Init.Byte.
From S2P Require Import Prelude.

Abbreviation bytes := (list byte).

(** ** Bytes and unsigned integers *)
Definition u8 (b : byte) : Z := Z.of_N (Byte.to_N b).

(** [z as u8]. *)
Definition as_u8 (z : Z) : byte :=
  match Byte.of_N (Z.to_N (z mod 256)) with Some b => b | None => x00 end.

(** [z.to_be_bytes()] for [u16] and [u32]. *)
Definition be16 (z : Z) : bytes := [as_u8 (z / 256); as_u8 z].
Definition be32 (z : Z) : bytes :=
  [as_u8 (z / 16777216); as_u8 (z / 65536); as_u8 (z / 256); as_u8 z].

(** The bytes of an ASCII string literal. *)
Definition ascii_bytes (s : string) : bytes := String.list_byte_of_string s.

(** ** Total readers, for specifications *)
Definition get (p : bytes) (i : Z) : byte := nth (Z.to_nat i) p x00.
Definition u8at (p : bytes) (i : Z) : Z := u8 (get p i).
Definition u16at (p : bytes) (i : Z) : Z := u8at p i * 256 + u8at p (i + 1).
Definition u32at (p : bytes) (i : Z) : Z := u16at p i * 65536 + u16at p (i + 2).
Definition sub (p : bytes) (a b : Z) : bytes :=
  firstn (Z.to_nat (b - a)) (skipn (Z.to_nat a) p).

(** ** Checked accesses of the language *)

(** [p[i]] *)
Definition index {E : Type} (p : bytes) (i : Z) : outcome E byte :=
  if (0 <=? i) && (i <? len p) then Ok (get p i) else Panic.

(** [p.get(i)] *)
Definition get_opt (p : bytes) (i : Z) : option byte :=
  if (0 <=? i) && (i <? len p) then Some (get p i) else None.

(** [&p[a..]] and [&p[a..b]] *)
Definition slice_from {E : Type} (p : bytes) (a : Z) : outcome E bytes :=
  if (0 <=? a) && (a <=? len p) then Ok (skipn (Z.to_nat a) p) else Panic.
Definition slice {E : Type} (p : bytes) (a b : Z) : outcome E bytes :=
  if (0 <=? a) && (a <=? b) && (b <=? len p) then Ok (sub p a b) else Panic.

(** [p.truncate(n)] *)
Definition truncate (p : bytes) (n : Z) : bytes := firstn (Z.to_nat n) p.

(** ** The [byteorder] crate *)
Class ByteOrder := {
  BigEndian_read_u16 : bytes -> option Z;
  BigEndian_read_u32 : bytes -> option Z;
  BigEndian_write_u16 : bytes -> Z -> option bytes;
  (** reads the first two (four) bytes, most significant first; panics on a
      shorter buffer *)
  BigEndian_read_u16_law : forall b,
    BigEndian_read_u16 b = if 2 <=? len b then Some (u16at b 0) else None;
  BigEndian_read_u32_law : forall b,
    BigEndian_read_u32 b = if 4 <=? len b then Some (u32at b 0) else None;
  (** replaces the first two bytes; panics on a shorter buffer *)
  BigEndian_write_u16_law : forall b n, 0 <= n <= u16_max ->
    BigEndian_write_u16 b n = if 2 <=? len b then Some (be16 n ++ skipn 2 b) else None
}.

(** A concrete accessor, for evaluating the definitions. *)
Definition be_read_u16 (b : bytes) : option Z :=
  match b with b0 :: b1 :: _ => Some (u8 b0 * 256 + u8 b1) | _ => None end.
Definition be_read_u32 (b : bytes) : option Z :=
  match b with
  | b0 :: b1 :: b2 :: b3 :: _ => Some (((u8 b0 * 256 + u8 b1) * 256 + u8 b2) * 256 + u8 b3)
  | _ => None
  end.
Definition be_write_u16 (b : bytes) (n : Z) : option bytes :=
  match b with _ :: _ :: rest => Some (be16 n ++ rest) | _ => None end.

Lemma be_read_u16_law b : be_read_u16 b = if 2 <=? len b then Some (u16at b 0) else None.
Proof.
  destruct b as [|? [|? ?]]; try done.
  unfold len; cbn [length]. by rewrite (proj2 (Z.leb_le _ _)) by lia.
Qed.

Lemma be_read_u32_law b : be_read_u32 b = if 4 <=? len b then Some (u32at b 0) else None.
Proof.
  destruct b as [|b0 [|b1 [|b2 [|b3 r]]]]; try done.
  unfold len; cbn [length]. rewrite (proj2 (Z.leb_le _ _)) by lia.
  unfold be_read_u32. f_equal. unfold u32at, u16at, u8at, get.
  change (Z.to_nat 0) with 0%nat. change (Z.to_nat (0 + 1)) with 1%nat.
  change (Z.to_nat (0 + 2)) with 2%nat. change (Z.to_nat (0 + 2 + 1)) with 3%nat.
  cbn [nth]. lia.
Qed.

Lemma be_write_u16_law b n :
  0 <= n <= u16_max ->
  be_write_u16 b n = if 2 <=? len b then Some (be16 n ++ skipn 2 b) else None.
Proof.
  intros _. destruct b as [|? [|? ?]]; try done.
  unfold len; cbn [length]. by rewrite (proj2 (Z.leb_le _ _)) by lia.
Qed.

#[export] Instance big_endian : ByteOrder :=
  {| BigEndian_read_u16_law := be_read_u16_law;
     BigEndian_read_u32_law := be_read_u32_law;
     BigEndian_write_u16_law := be_write_u16_law |}.

Section accessors.
Context `{BO : ByteOrder} {E : Type}.

(** [BigEndian::read_u16(&p[off..])] and the 32-bit version *)
Definition read_u16 (p : bytes) (off : Z) : outcome E Z :=
  s ← slice_from p off; or_panic (BigEndian_read_u16 s).
Definition read_u32 (p : bytes) (off : Z) : outcome E Z :=
  s ← slice_from p off; or_panic (BigEndian_read_u32 s).

(** [BigEndian::read_u16(&p[a..b])] and the 32-bit version *)
Definition read_u16_in (p : bytes) (a b : Z) : outcome E Z :=
  s ← slice p a b; or_panic (BigEndian_read_u16 s).
Definition read_u32_in (p : bytes) (a b : Z) : outcome E Z :=
  s ← slice p a b; or_panic (BigEndian_read_u32 s).

(** [BigEndian::write_u16(&mut p[off..], n)] *)
Definition write_u16 (p : bytes) (off n : Z) : outcome E bytes :=
  s ← slice_from p off;
  s' ← or_panic (BigEndian_write_u16 s n);
  Ok (firstn (Z.to_nat off) p ++ s').

(** [BigEndian::write_u16(&mut p[a..b], n)] *)
Definition write_u16_in (p : bytes) (a b n : Z) : outcome E bytes :=
  s ← slice p a b;
  s' ← or_panic (BigEndian_write_u16 s n);
  Ok (firstn (Z.to_nat a) p ++ s' ++ skipn (Z.to_nat b) p).
End accessors.

(** ** Lemmas *)

Lemma u8_bounds (b : byte) : 0 <= u8 b <= 255.
Proof. unfold u8. pose proof (Byte.to_N_bounded b). lia. Qed.

Lemma u8_inj (a b : byte) : u8 a = u8 b -> a = b.
Proof.
  unfold u8. intros H%N2Z.inj.
  pose proof (Byte.of_to_N a) as Ha. pose proof (Byte.of_to_N b) as Hb.
  rewrite H in Ha. congruence.
Qed.

#[export] Instance byte_eq_dec : EqDecision byte.
Proof.
  intros a b. destruct (Byte.eqb a b) eqn:H.
  - left. by apply Byte.byte_dec_bl.
  - right. intros ->. by rewrite (Byte.byte_dec_lb eq_refl) in H.
Defined.

#[export] Program Instance byte_countable : Countable byte :=
  inj_countable Byte.to_N Byte.of_N Byte.of_to_N.

Lemma u8_as_u8 (z : Z) : u8 (as_u8 z) = z mod 256.
Proof.
  unfold u8, as_u8. pose proof (Z.mod_pos_bound z 256 eq_refl).
  destruct (Byte.of_N (Z.to_N (z mod 256))) as [b|] eqn:Hb.
  - apply Byte.to_of_N in Hb. rewrite Hb. lia.
  - apply Byte.of_N_None_iff in Hb. lia.
Qed.

Lemma as_u8_u8 (b : byte) : as_u8 (u8 b) = b.
Proof. apply u8_inj. rewrite u8_as_u8. pose proof (u8_bounds b). apply Z.mod_small. lia. Qed.

Lemma u8at_bounds p i : 0 <= u8at p i <= 255.
Proof. apply u8_bounds. Qed.

Lemma u16at_bounds p i : 0 <= u16at p i <= u16_max.
Proof. unfold u16at. pose proof (u8at_bounds p i). pose proof (u8at_bounds p (i+1)). lia. Qed.

Lemma u32at_bounds p i : 0 <= u32at p i <= u32_max.
Proof.
  unfold u32at. pose proof (u16at_bounds p i). pose proof (u16at_bounds p (i+2)).
  lia.
Qed.

Lemma length_be16 z : length (be16 z) = 2%nat.
Proof. done. Qed.
Lemma length_be32 z : length (be32 z) = 4%nat.
Proof. done. Qed.
Lemma len_be16 z : len (be16 z) = 2.
Proof. done. Qed.
Lemma len_be32 z : len (be32 z) = 4.
Proof. done. Qed.
#[export] Hint Rewrite len_be16 len_be32 : doh_len.

Lemma len_skipn {A} (l : list A) i :
  0 <= i <= len l -> len (skipn (Z.to_nat i) l) = len l - i.
Proof. unfold len. rewrite length_skipn. lia. Qed.

Lemma len_firstn {A} (l : list A) i :
  0 <= i <= len l -> len (firstn (Z.to_nat i) l) = i.
Proof. unfold len. rewrite length_firstn. lia. Qed.

Lemma len_sub p a b : 0 <= a <= b -> b <= len p -> len (sub p a b) = b - a.
Proof.
  intros. unfold sub. rewrite len_firstn; [done|].
  rewrite len_skipn; lia.
Qed.

(** Reading through [firstn], [skipn] and [++]. *)
Lemma get_app_l p q i : 0 <= i < len p -> get (p ++ q) i = get p i.
Proof. unfold get, len. intros. rewrite app_nth1; [done|lia]. Qed.

Lemma get_app_r p q i : len p <= i -> get (p ++ q) i = get q (i - len p).
Proof.
  unfold get, len. intros. rewrite app_nth2 by lia. f_equal. lia.
Qed.

Lemma nth_skipn_add {A} (l : list A) n i d : nth i (skipn n l) d = nth (n + i) l d.
Proof. revert l; induction n as [|n IH]; intros [|x l]; cbn; auto. by destruct i. Qed.

Lemma get_skipn p a i : 0 <= a -> 0 <= i -> get (skipn (Z.to_nat a) p) i = get p (a + i).
Proof. unfold get. intros. rewrite nth_skipn_add. f_equal. lia. Qed.

Lemma nth_firstn_lt {A} (l : list A) n i d : (i < n)%nat -> nth i (firstn n l) d = nth i l d.
Proof.
  revert i l; induction n as [|n IH]; intros i [|x l] H; cbn; try lia; auto.
  destruct i; [done|]. apply IH. lia.
Qed.

Lemma get_firstn p a i : 0 <= i < a -> get (firstn (Z.to_nat a) p) i = get p i.
Proof. unfold get. intros. apply nth_firstn_lt. lia. Qed.

Lemma get_sub p a b i : 0 <= a -> 0 <= i < b - a -> get (sub p a b) i = get p (a + i).
Proof. intros. unfold sub. rewrite get_firstn by lia. apply get_skipn; lia. Qed.

Lemma get_oob p i : len p <= i -> get p i = x00.
Proof. unfold get, len. intros. apply nth_overflow. lia. Qed.

(** Two buffers of one length with the same bytes are equal. *)
Lemma bytes_ext (p q : bytes) :
  len p = len q -> (forall i, 0 <= i < len p -> get p i = get q i) -> p = q.
Proof.
  unfold len, get. intros Hl H. apply (nth_ext _ _ x00 x00); [lia|].
  intros n Hn. specialize (H (Z.of_nat n)). rewrite !Nat2Z.id in H. apply H. lia.
Qed.

Lemma sub_agree (p q : bytes) a b :
  0 <= a -> (forall i, a <= i < b -> get p i = get q i) -> len p = len q ->
  sub p a b = sub q a b.
Proof.
  intros Ha Hag Hl. destruct (Z.le_gt_cases b a).
  { unfold sub. by replace (Z.to_nat (b - a)) with 0%nat by lia. }
  assert (len (sub p a b) = len (sub q a b)) as Hls.
  { unfold sub, len in *. rewrite !length_firstn, !length_skipn. lia. }
  assert (len (sub p a b) <= b - a).
  { unfold sub, len. rewrite length_firstn. lia. }
  apply bytes_ext; [done|]. intros i Hi. rewrite !get_sub by lia. apply Hag. lia.
Qed.

Lemma get_cons_0 b p : get (b :: p) 0 = b.
Proof. done. Qed.

Lemma get_cons_S b p i : 0 < i -> get (b :: p) i = get p (i - 1).
Proof.
  intros. unfold get. replace (Z.to_nat i) with (S (Z.to_nat (i - 1))) by lia. done.
Qed.

Lemma u16at_be16 z : 0 <= z <= u16_max -> u16at (be16 z) 0 = z.
Proof.
  intros. unfold u16at, u8at, be16, get in *. cbn [nth].
  change (Z.to_nat 0) with 0%nat. change (Z.to_nat (0 + 1)) with 1%nat. cbn [nth].
  rewrite !u8_as_u8, (Z.mod_small (z / 256)).
  - pose proof (Z.div_mod z 256). lia.
  - split; [apply Z.div_pos; lia|apply Z.div_lt_upper_bound; lia].
Qed.

Lemma u32at_be32 z : 0 <= z <= u32_max -> u32at (be32 z) 0 = z.
Proof.
  intros. unfold u32at, u16at, u8at, be32, get in *. cbn [nth].
  change (Z.to_nat 0) with 0%nat. change (Z.to_nat (0 + 1)) with 1%nat.
  change (Z.to_nat (0 + 2)) with 2%nat. change (Z.to_nat (0 + 2 + 1)) with 3%nat. cbn [nth].
  rewrite !u8_as_u8.
  rewrite (Z.mod_small (z / 16777216)) by
    (split; [apply Z.div_pos; lia|apply Z.div_lt_upper_bound; lia]).
  change 16777216 with (256 * 256 * 256). change 65536 with (256 * 256) at 1.
  change (z / 65536) with (z / (256 * 256)). rewrite <- !Z.div_div by lia.
  pose proof (Z.div_mod z 256). pose proof (Z.div_mod (z / 256) 256).
  pose proof (Z.div_mod (z / 256 / 256) 256). lia.
Qed.

Section accessor_lemmas.
Context {E : Type}.

Lemma index_ok (p : bytes) i : 0 <= i < len p -> @index E p i = Ok (get p i).
Proof.
  intros. unfold index. by rewrite (proj2 (Z.leb_le _ _)), (proj2 (Z.ltb_lt _ _)) by lia.
Qed.

Lemma index_Ok (p : bytes) i b : @index E p i = Ok b <-> 0 <= i < len p /\ b = get p i.
Proof.
  unfold index. destruct (Z.leb_spec 0 i), (Z.ltb_spec i (len p)); cbn;
    split; (congruence || (intros [= <-]; done) || (intros [? ->]; done || lia)).
Qed.

Lemma slice_from_ok (p : bytes) i :
  0 <= i <= len p -> @slice_from E p i = Ok (skipn (Z.to_nat i) p).
Proof.
  intros. unfold slice_from.
  by rewrite (proj2 (Z.leb_le 0 _)), (proj2 (Z.leb_le _ _)) by lia.
Qed.

Lemma slice_ok (p : bytes) a b :
  0 <= a <= b -> b <= len p -> @slice E p a b = Ok (sub p a b).
Proof.
  intros. unfold slice.
  by rewrite (proj2 (Z.leb_le 0 _)), (proj2 (Z.leb_le _ b)), (proj2 (Z.leb_le _ (len p))) by lia.
Qed.

Lemma slice_Ok (p : bytes) a b s :
  @slice E p a b = Ok s <-> 0 <= a <= b /\ b <= len p /\ s = sub p a b.
Proof.
  unfold slice.
  destruct (Z.leb_spec 0 a), (Z.leb_spec a b), (Z.leb_spec b (len p)); cbn;
    split; (congruence || (intros [= <-]; done) || (intros (? & ? & ->); done || lia)).
Qed.

Context `{BO : ByteOrder}.

Lemma u16at_skipn p a : 0 <= a -> u16at (skipn (Z.to_nat a) p) 0 = u16at p a.
Proof. intros. unfold u16at, u8at. rewrite !get_skipn by lia. by rewrite Z.add_0_r. Qed.

Lemma u32at_skipn p a : 0 <= a -> u32at (skipn (Z.to_nat a) p) 0 = u32at p a.
Proof.
  intros. unfold u32at, u16at, u8at. rewrite !get_skipn by lia.
  rewrite Z.add_0_r, !Z.add_assoc, Z.add_0_r. done.
Qed.

Lemma u16at_sub p a b : 0 <= a -> a + 2 <= b -> u16at (sub p a b) 0 = u16at p a.
Proof. intros. unfold u16at, u8at. rewrite !get_sub by lia. by rewrite Z.add_0_r. Qed.

Lemma u32at_sub p a b : 0 <= a -> a + 4 <= b -> u32at (sub p a b) 0 = u32at p a.
Proof.
  intros. unfold u32at, u16at, u8at. rewrite !get_sub by lia.
  rewrite Z.add_0_r, !Z.add_assoc, Z.add_0_r. done.
Qed.

Lemma read_u16_ok (p : bytes) off :
  0 <= off -> off + 2 <= len p -> @read_u16 BO E p off = Ok (u16at p off).
Proof.
  intros. unfold read_u16. rewrite slice_from_ok by lia. cbn.
  rewrite BigEndian_read_u16_law, len_skipn by lia.
  rewrite (proj2 (Z.leb_le _ _)) by lia. cbn. by rewrite u16at_skipn.
Qed.

Lemma read_u32_ok (p : bytes) off :
  0 <= off -> off + 4 <= len p -> @read_u32 BO E p off = Ok (u32at p off).
Proof.
  intros. unfold read_u32. rewrite slice_from_ok by lia. cbn.
  rewrite BigEndian_read_u32_law, len_skipn by lia.
  rewrite (proj2 (Z.leb_le _ _)) by lia. cbn. by rewrite u32at_skipn.
Qed.

Lemma read_u16_in_ok (p : bytes) a b :
  0 <= a -> b = a + 2 -> b <= len p -> @read_u16_in BO E p a b = Ok (u16at p a).
Proof.
  intros. unfold read_u16_in. rewrite slice_ok by lia. cbn.
  rewrite BigEndian_read_u16_law, len_sub by lia.
  rewrite (proj2 (Z.leb_le _ _)) by lia. cbn. by rewrite u16at_sub by lia.
Qed.

Lemma read_u32_in_ok (p : bytes) a b :
  0 <= a -> b = a + 4 -> b <= len p -> @read_u32_in BO E p a b = Ok (u32at p a).
Proof.
  intros. unfold read_u32_in. rewrite slice_ok by lia. cbn.
  rewrite BigEndian_read_u32_law, len_sub by lia.
  rewrite (proj2 (Z.leb_le _ _)) by lia. cbn. by rewrite u32at_sub by lia.
Qed.

(** The buffer after a two-byte write. *)
Definition put_u16 (p : bytes) (off n : Z) : bytes :=
  firstn (Z.to_nat off) p ++ be16 n ++ skipn (Z.to_nat (off + 2)) p.

Lemma write_u16_ok (p : bytes) off n :
  0 <= off -> off + 2 <= len p -> 0 <= n <= u16_max ->
  @write_u16 BO E p off n = Ok (put_u16 p off n).
Proof.
  intros. unfold write_u16, put_u16. rewrite slice_from_ok by lia. cbn.
  rewrite BigEndian_write_u16_law, len_skipn by lia.
  rewrite (proj2 (Z.leb_le _ _)) by lia. cbn. rewrite skipn_skipn.
  replace (2 + Z.to_nat off)%nat with (Z.to_nat (off + 2)) by lia. done.
Qed.

Lemma write_u16_in_ok (p : bytes) a b n :
  0 <= a -> b = a + 2 -> b <= len p -> 0 <= n <= u16_max ->
  @write_u16_in BO E p a b n = Ok (put_u16 p a n).
Proof.
  intros. unfold write_u16_in, put_u16. rewrite slice_ok by lia. cbn.
  rewrite BigEndian_write_u16_law, len_sub by lia.
  rewrite (proj2 (Z.leb_le _ _)) by lia. cbn.
  unfold sub. rewrite skipn_firstn_comm.
  replace (Z.to_nat (b - a) - 2)%nat with 0%nat by lia. cbn. subst b. done.
Qed.
End accessor_lemmas.

Lemma len_put_u16 p off n : 0 <= off -> off + 2 <= len p -> len (put_u16 p off n) = len p.
Proof.
  intros. unfold put_u16. rewrite !len_app, len_be16, len_firstn, len_skipn by lia. lia.
Qed.

Lemma get_put_u16_other p off n i :
  0 <= off -> off + 2 <= len p -> 0 <= i -> (i < off \/ off + 2 <= i) ->
  get (put_u16 p off n) i = get p i.
Proof.
  intros Ho Hl Hi [Hlt|Hge]; unfold put_u16.
  - rewrite get_app_l by (rewrite len_firstn by lia; lia). apply get_firstn. lia.
  - rewrite get_app_r by (rewrite len_firstn by lia; lia).
    rewrite len_firstn by lia.
    rewrite get_app_r by (rewrite len_be16; lia). rewrite len_be16.
    rewrite get_skipn by lia. f_equal. lia.
Qed.

Lemma u16at_app_l p q i : 0 <= i -> i + 2 <= len p -> u16at (p ++ q) i = u16at p i.
Proof. intros. unfold u16at, u8at. by rewrite !get_app_l by lia. Qed.

Lemma u16at_app_r p q i : len p <= i -> u16at (p ++ q) i = u16at q (i - len p).
Proof.
  intros. unfold u16at, u8at. rewrite !get_app_r by lia.
  by replace (i + 1 - len p) with (i - len p + 1) by lia.
Qed.

Lemma u16at_put_u16 p off n :
  0 <= off -> off + 2 <= len p -> 0 <= n <= u16_max -> u16at (put_u16 p off n) off = n.
Proof.
  intros. unfold put_u16. rewrite u16at_app_r by (rewrite len_firstn by lia; lia).
  rewrite len_firstn by lia. rewrite Z.sub_diag.
  rewrite u16at_app_l by (rewrite ?len_be16; lia). by apply u16at_be16.
Qed.

Lemma u16at_put_u16_other p off n i :
  0 <= off -> off + 2 <= len p -> 0 <= i -> (i + 2 <= off \/ off + 2 <= i) ->
  u16at (put_u16 p off n) i = u16at p i.
Proof. intros. unfold u16at, u8at. rewrite !get_put_u16_other by lia. done. Qed.

(** Replace the checked accesses in hypotheses by the values they return,
    when the bounds are in the context. *)
Ltac inv_access :=
  repeat match goal with
  | H : read_u16 _ _ = Ok _ |- _ => rewrite read_u16_ok in H by lia; injection H as H; subst
  | H : read_u32 _ _ = Ok _ |- _ => rewrite read_u32_ok in H by lia; injection H as H; subst
  | H : read_u16_in _ _ _ = Ok _ |- _ =>
      rewrite read_u16_in_ok in H by lia; injection H as H; subst
  | H : read_u32_in _ _ _ = Ok _ |- _ =>
      rewrite read_u32_in_ok in H by lia; injection H as H; subst
  | H : write_u16 _ _ _ = Ok _ |- _ => rewrite write_u16_ok in H by lia; injection H as H; subst
  | H : write_u16_in _ _ _ _ = Ok _ |- _ =>
      rewrite write_u16_in_ok in H by lia; injection H as H; subst
  | H : index _ _ = Ok _ |- _ => apply index_Ok in H; destruct H as [? H]; subst
  end.
