(* ===== verification/Wire.v ===== *)
(** * Encoded labels

    The wire form of a sequence of labels and lemmas about reading inside a
    concatenation, shared by the components that decode names. *)

From S2P Require Import Prelude Bytes.

(** ** Tags of label bytes *)
Lemma tag_pointer (b : byte) : (Z.land (u8 b) 0xc0 =? 0xc0) = (192 <=? u8 b).
Proof. by destruct b. Qed.
Lemma tag_label (b : byte) : (Z.land (u8 b) 0xc0 =? 0) = (u8 b <? 64).
Proof. by destruct b. Qed.

(** ** Labels *)
(** A label as the wire has it. *)
Definition good_label (l : bytes) : Prop := 0 < len l < 64.
Definition labels_len (ls : list bytes) : Z :=
  fold_right Z.add 0 (map (fun label => 1 + len label) ls).

Lemma labels_len_app ls ls' : labels_len (ls ++ ls') = labels_len ls + labels_len ls'.
Proof.
  unfold labels_len. induction ls as [|l ls IH]; cbn; [done|]. rewrite IH. lia.
Qed.

Lemma labels_len_cons l ls : labels_len (l :: ls) = 1 + len l + labels_len ls.
Proof. unfold labels_len; cbn. lia. Qed.

Lemma labels_len_nonneg ls : 0 <= labels_len ls.
Proof.
  induction ls as [|l ls IH]; [done|]. rewrite labels_len_cons. pose proof (len_nonneg l). lia.
Qed.

Definition enc_labels (ls : list bytes) : bytes := concat (map (fun l => as_u8 (len l) :: l) ls).
Lemma len_enc_labels ls : len (enc_labels ls) = labels_len ls.
Proof.
  unfold enc_labels. induction ls as [|l ls IH]; [done|]. cbn [map concat].
  rewrite labels_len_cons, len_app, IH, len_cons. lia.
Qed.

Lemma length_labels_le ls : Forall good_label ls -> Z.of_nat (length ls) <= labels_len ls.
Proof.
  induction 1 as [|l ls Hl H IH]; [done|]. rewrite labels_len_cons. unfold good_label in Hl.
  cbn [length]. lia.
Qed.

(** ** Reading in the middle *)
Lemma get_middle pre b post : get (pre ++ b :: post) (len pre) = b.
Proof. rewrite get_app_r by lia. by rewrite Z.sub_diag. Qed.

Lemma sub_middle pre mid post : sub (pre ++ mid ++ post) (len pre) (len pre + len mid) = mid.
Proof.
  unfold sub. replace (len pre + len mid - len pre) with (len mid) by lia.
  unfold len. rewrite !Nat2Z.id, skipn_app, skipn_all, Nat.sub_diag, drop_0. cbn [app].
  by rewrite firstn_app, firstn_all, Nat.sub_diag, firstn_0, app_nil_r.
Qed.

Lemma u16at_from pre q i : 0 <= i -> u16at (pre ++ q) (len pre + i) = u16at q i.
Proof. intros. rewrite u16at_app_r by lia. f_equal. lia. Qed.

Lemma u16at_start pre q : u16at (pre ++ q) (len pre) = u16at q 0.
Proof. rewrite <- (Z.add_0_r (len pre)) at 1. by apply u16at_from. Qed.

Lemma u32at_from pre q i : 0 <= i -> u32at (pre ++ q) (len pre + i) = u32at q i.
Proof.
  intros. unfold u32at. rewrite <- Z.add_assoc. by rewrite !u16at_from by lia.
Qed.

(** The fixed part of a resource record. *)
Lemma rr_fields a b t l tail :
  0 <= a <= u16_max -> 0 <= b <= u16_max -> 0 <= t <= u32_max -> 0 <= l <= u16_max ->
  let fields := be16 a ++ be16 b ++ be32 t ++ be16 l ++ tail in
  u16at fields 0 = a /\ u16at fields 2 = b /\ u32at fields 4 = t /\ u16at fields 8 = l /\
  len fields = 10 + len tail.
Proof.
  intros Ha Hb Ht Hl fields.
  assert (u16at fields 0 = u16at (be16 a) 0) as -> by done.
  assert (u16at fields 2 = u16at (be16 b) 0) as -> by done.
  assert (u32at fields 4 = u32at (be32 t) 0) as -> by done.
  assert (u16at fields 8 = u16at (be16 l) 0) as -> by done.
  rewrite !u16at_be16, u32at_be32 by done. split_and!; try done.
  unfold fields. doh_simpl. lia.
Qed.
