(* ===== verification/DnsFacts.v ===== *)
(** * What the DNS packet layer guarantees

    The walkers of [Dns] are characterised by relations on packets
    ([wire_name], [rr_chain], [message]); the properties of [min_ttl],
    [set_edns_max_payload_size] and [add_edns_padding] are stated with them. *)

From S2P Require Import Prelude Bytes Wire Dns.

(** ** Specification relations *)

(** [wire_name p o n e]: a name starts at [o], has [n] octets of labels and
    length bytes, and the byte after it (after its pointer, if it ends in
    one) is at [e]. *)
Inductive wire_name (p : bytes) : Z -> Z -> Z -> Prop :=
  | wire_pointer o : 192 <= u8at p o -> o + 2 <= len p -> wire_name p o 0 (o + 2)
  | wire_root o : u8at p o = 0 -> o + 1 < len p -> wire_name p o 1 (o + 1)
  | wire_label o n e :
      0 < u8at p o < 64 ->
      o + u8at p o + 1 < len p ->
      wire_name p (o + (u8at p o + 1)) n e ->
      wire_name p o (n + (u8at p o + 1)) e.

Section relations.
Context `{BO : ByteOrder}.

(** [rr_chain p o hs e]: from [o] to [e] lie well-formed resource records;
    [hs] are the offsets of their fixed parts (just after the names). *)
Inductive rr_chain (p : bytes) : Z -> list Z -> Z -> Prop :=
  | rr_nil o : rr_chain p o [] o
  | rr_cons o h hs e :
      skip_name p o = Ok h ->
      h + 10 + u16at p (h + 8) <= len p ->
      rr_chain p (h + 10 + u16at p (h + 8)) hs e ->
      rr_chain p o (h :: hs) e.

(** One question, [hs1] answer and authority records, [hs2] additional
    records, the last one ending at [e]. *)
Record message (p : bytes) (hs1 hs2 : list Z) (e : Z) : Prop := {
  message_len : DNS_HEADER_SIZE < len p <= DNS_MAX_PACKET_SIZE;
  message_question : u16at p 4 = 1;
  message_fixed : exists q m,
    skip_name p DNS_OFFSET_QUESTION = Ok q /\ q + 4 <= len p /\
    rr_chain p (q + 4) hs1 m /\ rr_chain p m hs2 e;
  message_counts1 : len hs1 = u16at p 6 + u16at p 8;
  message_counts2 : len hs2 = u16at p 10
}.
End relations.

(** Type, class (the payload size of an OPT record) and TTL of a record. *)
Definition rr_type (p : bytes) (h : Z) : Z := u16at p h.
Definition rr_class (p : bytes) (h : Z) : Z := u16at p (h + 2).
Definition rr_ttl (p : bytes) (h : Z) : Z := u32at p (h + 4).
Definition rr_rdlen (p : bytes) (h : Z) : Z := u16at p (h + 8).
Definition is_opt (p : bytes) (h : Z) : bool := rr_type p h =? DNS_TYPE_OPT.

Section walkers.
Context `{BO : ByteOrder}.

(** ** Names *)
Lemma skip_name_loop_returns fuel p q o :
  0 <= o < len p -> (Z.to_nat (len p - o) <= fuel)%nat ->
  returns (skip_name_loop fuel p q o) (fun e => o < e <= len p).
Proof.
  revert q o; induction fuel as [|fuel IH]; intros q o Ho Hf; [lia|]. cbn.
  rewrite index_ok by lia. cbn. rewrite tag_pointer.
  pose proof (u8at_bounds p o) as Hb. unfold u8at in Hb.
  destruct (Z.leb_spec 192 (u8 (get p o))).
  - apply returns_bind, returns_usub; [lia|].
    apply returns_bind, returns_ensure. intros; bool_to_prop. cbn. lia.
  - apply returns_bind, returns_ensure. intros; bool_to_prop.
    apply returns_bind, returns_usub; [lia|].
    apply returns_bind, returns_usub; [lia|].
    apply returns_bind, returns_ensure. intros; bool_to_prop.
    apply returns_bind, returns_ensure. intros _.
    destruct (Z.eqb_spec (u8 (get p o)) 0); [cbn; lia|].
    eapply returns_mono; [apply IH; lia|]. cbn. lia.
Qed.

Lemma skip_name_returns p o :
  0 <= o -> 1 <= len p -> returns (skip_name p o) (fun e => o < e <= len p).
Proof.
  intros. unfold skip_name. apply returns_bind, returns_usub; [lia|].
  apply returns_bind, returns_ensure. intros; bool_to_prop.
  apply skip_name_loop_returns; unfold len in *; lia.
Qed.

Lemma skip_name_Ok_bounds p o e : 0 <= o -> skip_name p o = Ok e -> o < e <= len p.
Proof.
  intros Ho H. assert (1 <= len p) as Hl.
  { unfold skip_name in H. inv_ok. lia. }
  exact (returns_Ok _ _ _ (skip_name_returns p o Ho Hl) H).
Qed.

Lemma skip_name_loop_sound fuel p q o e :
  0 <= q <= DNS_MAX_HOSTNAME_SIZE -> skip_name_loop fuel p q o = Ok e ->
  exists n, wire_name p o n e /\ q + n <= DNS_MAX_HOSTNAME_SIZE.
Proof.
  revert q o; induction fuel as [|fuel IH]; intros q o Hq H; cbn in H; [discriminate|].
  inv_ok. apply index_Ok in Ha as [Ho ->]. rewrite tag_pointer in H.
  pose proof (u8at_bounds p o) as Hb.
  destruct (Z.leb_spec 192 (u8 (get p o))); inv_ok; subst.
  - exists 0. split; [|lia]. apply wire_pointer; [done|lia].
  - unfold u8at in Hb. destruct (Z.eqb_spec (u8 (get p o)) 0) as [Hz|Hz]; inv_ok.
    + exists 1. rewrite Hz in *. split; [|lia]. apply wire_root; [done|lia].
    + apply IH in H as (n & Hn & Hle); [|lia].
      exists (n + (u8at p o + 1)). unfold u8at at 2. split; [|lia].
      apply wire_label; unfold u8at; [lia|lia|done].
Qed.

Lemma wire_name_mono p o n e : wire_name p o n e -> o < e /\ 0 <= n.
Proof. induction 1; pose proof (u8at_bounds p o); lia. Qed.

Lemma skip_name_loop_complete fuel p q o n e :
  wire_name p o n e -> 0 <= o -> q + n <= DNS_MAX_HOSTNAME_SIZE ->
  (Z.to_nat (len p - o) <= fuel)%nat -> skip_name_loop fuel p q o = Ok e.
Proof.
  intros H; revert fuel q.
  induction H as [o Hb Hl|o Hb Hl|o n e Hb Hl H IH]; intros fuel q Ho Hq Hf;
    (destruct fuel as [|fuel]; [lia|]); cbn [skip_name_loop];
    rewrite index_ok by lia; out_simpl; rewrite tag_pointer; unfold u8at in *.
  - by run_ok.
  - rewrite Hb in *. by run_ok.
  - apply wire_name_mono in H. run_ok. apply IH; lia.
Qed.

Lemma skip_name_Ok p o e :
  0 <= o ->
  skip_name p o = Ok e <->
  o < len p - 1 /\ exists n, wire_name p o n e /\ n <= DNS_MAX_HOSTNAME_SIZE.
Proof.
  intros Ho. unfold skip_name. split.
  - intros H. inv_ok. split; [lia|].
    apply skip_name_loop_sound in H as (n & Hn & Hle); [|unfold DNS_MAX_HOSTNAME_SIZE; lia].
    exists n. split; [done|lia].
  - intros (Hl & n & Hn & Hle). run_ok.
    eapply skip_name_loop_complete; unfold len in *; try done; lia.
Qed.

(** A name is read from its own bytes only: it is found again in any
    packet at least as long that agrees on them. *)
Lemma wire_name_agree p p' o n e :
  wire_name p o n e -> len p <= len p' ->
  (forall i, o <= i < e -> get p' i = get p i) -> wire_name p' o n e.
Proof.
  intros H Hl. induction H as [o Hb Ho|o Hb Ho|o n e Hb Ho H IH]; intros Hag;
    assert (u8at p' o = u8at p o) as Heq by
      (unfold u8at; rewrite Hag; [done|]; try apply wire_name_mono in H; lia).
  - apply wire_pointer; lia.
  - apply wire_root; lia.
  - rewrite <- Heq in *. apply wire_label; [lia..|]. apply IH. intros; apply Hag. lia.
Qed.

Lemma skip_name_agree p p' o e :
  0 <= o -> skip_name p o = Ok e -> len p <= len p' ->
  (forall i, o <= i < e -> get p' i = get p i) -> skip_name p' o = Ok e.
Proof.
  intros Ho. rewrite !skip_name_Ok by done. intros (Hlt & n & Hn & Hle) Hl Hag.
  split; [lia|]. exists n. split; [|done]. by eapply wire_name_agree.
Qed.

(** ** Chains of records *)
Lemma rr_chain_bounds p o hs e :
  rr_chain p o hs e -> 0 <= o <= len p -> o <= e <= len p.
Proof.
  induction 1 as [|o h hs e Hs Hl H IH]; [lia|]. intros Ho.
  apply skip_name_Ok_bounds in Hs; [|lia]. pose proof (u16at_bounds p (h + 8)). lia.
Qed.

Lemma rr_chain_headers p o hs e :
  rr_chain p o hs e -> 0 <= o ->
  Forall (fun h => o < h /\ h + 10 + rr_rdlen p h <= e) hs.
Proof.
  induction 1 as [|o h hs e Hs Hl H IH]; intros Ho; constructor.
  - pose proof (u16at_bounds p (h + 8)). apply skip_name_Ok_bounds in Hs; [|lia].
    apply rr_chain_bounds in H; [|lia]. unfold rr_rdlen. lia.
  - pose proof (u16at_bounds p (h + 8)). apply skip_name_Ok_bounds in Hs; [|lia].
    eapply Forall_impl; [apply IH; lia|]. cbn. lia.
Qed.

Lemma rr_chain_app p o hs m hs' e :
  rr_chain p o hs m -> rr_chain p m hs' e -> rr_chain p o (hs ++ hs') e.
Proof. induction 1; intros; cbn; [done|]. econstructor; eauto. Qed.

Lemma rr_chain_agree p p' o hs e :
  rr_chain p o hs e -> 0 <= o -> len p <= len p' ->
  (forall i, o <= i < e -> get p' i = get p i) -> rr_chain p' o hs e.
Proof.
  induction 1 as [|o h hs e Hs Hl H IH]; intros Ho Hlen Hag; [constructor|].
  pose proof (skip_name_Ok_bounds _ _ _ Ho Hs). pose proof (u16at_bounds p (h + 8)).
  pose proof (rr_chain_bounds _ _ _ _ H ltac:(lia)).
  assert (u16at p' (h + 8) = u16at p (h + 8)) as Heq.
  { unfold u16at, u8at. rewrite !Hag by lia. done. }
  econstructor.
  - eapply skip_name_agree; eauto. intros; apply Hag. lia.
  - rewrite Heq. lia.
  - rewrite Heq. apply IH; [lia..|]. intros; apply Hag. lia.
Qed.

(** Two headers of a chain coincide or lie in different records. *)
Lemma rr_chain_spaced p o hs e :
  rr_chain p o hs e -> 0 <= o -> forall x y, In x hs -> In y hs ->
  x = y \/ x + 10 <= y \/ y + 10 <= x.
Proof.
  induction 1 as [|o h hs e Hs Hl H IH]; intros Ho x y Hx Hy; [done|].
  apply skip_name_Ok_bounds in Hs; [|lia]. pose proof (u16at_bounds p (h + 8)).
  pose proof (rr_chain_headers _ _ _ _ H ltac:(lia)) as Hhs. rewrite List.Forall_forall in Hhs.
  destruct Hx as [->|Hx], Hy as [->|Hy]; [by left| | |apply IH; done || lia].
  - specialize (Hhs y Hy); cbn in Hhs. lia.
  - specialize (Hhs x Hx); cbn in Hhs. lia.
Qed.

Lemma rr_chain_det p o hs hs' e e' :
  rr_chain p o hs e -> rr_chain p o hs' e' -> length hs = length hs' -> hs = hs' /\ e = e'.
Proof.
  intros H; revert hs' e'. induction H as [|o h hs e Hs Hl H IH]; intros hs' e' H' Hlen.
  - inversion H'; subst; done.
  - inversion H' as [|? h' hs'' ? Hs' Hl' H'']; subst; [done|].
    rewrite Hs in Hs'. injection Hs' as <-. cbn in Hlen.
    edestruct (IH hs'' e') as [-> ->]; auto.
Qed.
End walkers.

(** ** The traversals *)

(** Run a callback over record headers, in order. *)
Fixpoint fold_cb {St : Type} (cb : Z -> St -> outcome Error St) (hs : list Z) (st : St)
    : outcome Error St :=
  match hs with
  | [] => Ok st
  | h :: hs => st ← cb h st; fold_cb cb hs st
  end.

Section traversals.
Context `{BO : ByteOrder}.

Lemma traverse_rrs_Ok {St} p o n (cb : Z -> St -> outcome Error St) st e st' :
  0 <= o ->
  traverse_rrs p o n cb st = Ok (e, st') <->
  exists hs, length hs = n /\ rr_chain p o hs e /\ fold_cb cb hs st = Ok st'.
Proof.
  revert o st; induction n as [|n IH]; intros o st Ho; cbn [traverse_rrs]; split.
  - intros [= <- <-]. exists []. repeat split; constructor.
  - intros (hs & Hn & Hc & Hf). destruct hs; [|discriminate].
    inversion Hc; subst. cbn in Hf. congruence.
  - intros H. inv_ok. rename a into h, a1 into st1. pose proof (skip_name_Ok_bounds _ _ _ Ho Ha).
    rewrite read_u16_ok in Ha3 by lia. injection Ha3 as <-.
    apply IH in H as (hs & <- & Hc & Hf); [|pose proof (u16at_bounds p (h+8)); lia].
    exists (h :: hs). split; [done|]. split; [econstructor; eauto; lia|].
    cbn. by rewrite Ha2.
  - intros (hs & Hn & Hc & Hf). destruct hs as [|h hs]; [discriminate|].
    inversion Hc as [|? ? ? ? Hs Hl Hc']; subst. pose proof (skip_name_Ok_bounds _ _ _ Ho Hs).
    cbn in Hf. inv_ok. rename a into st1. pose proof (u16at_bounds p (h+8)).
    rewrite Hs. run_ok. rewrite Ha. run_ok. rewrite read_u16_ok by lia. run_ok.
    apply IH; [lia|]. exists hs. split; [by injection Hn|done].
Qed.

Lemma traverse_rrs_returns {St} p o n (cb : Z -> St -> outcome Error St) st :
  0 <= o -> 1 <= len p ->
  (forall h st, 0 <= h -> h + 10 <= len p -> total (cb h st)) ->
  (o <= len p) ->
  returns (traverse_rrs p o n cb st) (fun '(e, _) => o <= e <= len p).
Proof.
  intros Ho Hp Hcb. revert o st Ho; induction n as [|n IH]; intros o st Ho Hle;
    cbn [traverse_rrs]; [cbn; lia|].
  apply returns_bind. eapply returns_mono; [by apply skip_name_returns|].
  intros h _ Hh; cbn beta in Hh. apply returns_bind, returns_usub; [lia|].
  apply returns_bind, returns_ensure. intros; bool_to_prop.
  apply returns_bind. eapply returns_mono; [apply Hcb; lia|]. intros st1 _ _.
  rewrite read_u16_ok by lia. out_simpl. pose proof (u16at_bounds p (h+8)).
  apply returns_bind, returns_usub; [lia|].
  apply returns_bind, returns_ensure. intros; bool_to_prop.
  eapply returns_mono; [apply IH; lia|]. intros [e st2] _ ?; lia.
Qed.

Lemma traverse_rrs_mut_returns {St} L o n (cb : Z -> St -> mutates bytes Error St) st p :
  0 <= o <= L -> 1 <= L -> len p = L ->
  (forall h st p, len p = L -> 0 <= h -> h + 10 <= L ->
     returns_from (cb h st) p (fun _ p' => len p' = L)) ->
  returns_from (traverse_rrs_mut L o n cb st) p
    (fun '(e, _) p' => o <= e <= L /\ len p' = L).
Proof.
  intros Ho HL Hp Hcb. revert o st p Ho Hp; induction n as [|n IH]; intros o st p Ho Hp;
    cbn [traverse_rrs_mut]; [cbn; lia|].
  apply returns_from_bind, returns_from_current.
  apply returns_from_bind, returns_from_lift.
  eapply returns_mono; [apply skip_name_returns; lia|]. intros h _ Hh; cbn beta in Hh.
  apply returns_from_bind, returns_from_lift, returns_usub; [lia|].
  apply returns_from_bind, returns_from_lift, returns_ensure. intros; bool_to_prop.
  apply returns_from_bind. eapply returns_from_mono; [apply Hcb; lia|].
  intros st1 p1 _ Hp1; cbn beta in Hp1. apply returns_from_bind, returns_from_current.
  apply returns_from_bind, returns_from_lift. rewrite read_u16_ok by lia. cbn [returns].
  pose proof (u16at_bounds p1 (h+8)).
  apply returns_from_bind, returns_from_lift, returns_usub; [lia|].
  apply returns_from_bind, returns_from_lift, returns_ensure. intros; bool_to_prop.
  eapply returns_from_mono; [apply IH; lia|]. intros [e st2] p2 _ ?; lia.
Qed.

Lemma fold_cb_unit hs : fold_cb (fun _ (_ : unit) => Ok tt) hs tt = Ok tt.
Proof. by induction hs. Qed.

(** The callback that changes the payload size. *)
Lemma set_payload_cb_returns v L h st p :
  len p = L -> 0 <= h -> h + 10 <= L -> 0 <= v <= u16_max ->
  returns_from (set_payload_cb v h st) p (fun _ p' => len p' = L).
Proof.
  intros Hp Hh Hl Hv. unfold set_payload_cb.
  apply returns_from_bind, returns_from_current.
  apply returns_from_bind, returns_from_lift. rewrite read_u16_ok by lia. cbn [returns].
  destruct (_ =? _); [|done].
  apply returns_from_bind, returns_from_lift, returns_ensure. intros _.
  apply returns_from_bind, returns_from_update. rewrite write_u16_ok by lia.
  cbn. rewrite len_put_u16; lia.
Qed.

Lemma set_payload_cb_Ok v h st p st' p' :
  0 <= h -> h + 10 <= len p -> 0 <= v <= u16_max ->
  set_payload_cb v h st p = (Ok st', p') ->
  if is_opt p h then st = false /\ st' = true /\ p' = put_u16 p (h + 2) v
  else st' = st /\ p' = p.
Proof.
  intros Hh Hl Hv H. unfold set_payload_cb in H. inv_mut. inv_access. unfold is_opt, rr_type.
  destruct (u16at p h =? DNS_TYPE_OPT); inv_mut; [|done]. inv_access.
  done.
Qed.

Lemma is_opt_put_u16 p off n h :
  0 <= off -> off + 2 <= len p -> 0 <= h -> (h + 2 <= off \/ off + 2 <= h) ->
  is_opt (put_u16 p off n) h = is_opt p h.
Proof. intros. unfold is_opt, rr_type. by rewrite u16at_put_u16_other. Qed.

(** One turn of a mutating traversal, taken apart. *)
Lemma traverse_rrs_mut_S_Ok {St} (cb : Z -> St -> mutates bytes Error St) L n o st p r p' :
  L = len p -> 0 <= o -> traverse_rrs_mut L o (S n) cb st p = (Ok r, p') ->
  exists h st1 p1 rdlen,
    skip_name p o = Ok h /\ o < h /\ h + 10 <= len p /\
    cb h st p = (Ok st1, p1) /\ read_u16 p1 (h + 8) = (Ok rdlen : outcome Error Z) /\
    h + 10 + rdlen <= len p /\
    traverse_rrs_mut L (h + 10 + rdlen) n cb st1 p1 = (Ok r, p').
Proof.
  intros -> Ho H. cbn [traverse_rrs_mut] in H. inv_mut.
  match goal with Hs : skip_name p o = Ok ?h |- _ =>
    pose proof (skip_name_Ok_bounds _ _ _ Ho Hs); exists h end.
  do 3 eexists. repeat split; eauto; lia.
Qed.

Lemma traverse_set_payload_Ok v n o st p e st' p' :
  0 <= o -> 0 <= v <= u16_max ->
  traverse_rrs_mut (len p) o n (set_payload_cb v) st p = (Ok (e, st'), p') ->
  exists hs,
    length hs = n /\ rr_chain p o hs e /\
    match List.filter (is_opt p) hs with
    | [] => st' = st /\ p' = p
    | [h] => st = false /\ st' = true /\ p' = put_u16 p (h + 2) v
    | _ => False
    end.
Proof.
  intros Ho Hv. revert o st p Ho; induction n as [|n IH]; intros o st p Ho H.
  { cbn in H. injection H as <- <- <-. exists []. repeat split; constructor. }
  apply traverse_rrs_mut_S_Ok in H as (h & st1 & p1 & rd & Hs & Hoh & Hl & Hcb & Hrd & Hle & H);
    [|done..].
  apply set_payload_cb_Ok in Hcb; [|lia..].
  assert (len p1 = len p) as Hlen.
  { destruct (is_opt p h); destruct_and!; subst; [|done]. rewrite len_put_u16; lia. }
  rewrite read_u16_ok in Hrd by lia. injection Hrd as <-.
  pose proof (u16at_bounds p1 (h + 8)).
  rewrite <- Hlen in H. apply IH in H as (hs & <- & Hc & Hf); [|lia].
  exists (h :: hs). split; [done|].
  pose proof (rr_chain_headers _ _ _ _ Hc ltac:(lia)) as Hhs.
  destruct (is_opt p h) eqn:Hopt; cbn [List.filter]; rewrite Hopt; destruct_and!; subst.
  - rewrite u16at_put_u16_other in * by lia.
    assert (List.filter (is_opt (put_u16 p (h + 2) v)) hs = List.filter (is_opt p) hs) as Hfe.
    { apply List.filter_ext_in. intros x Hx.
      rewrite List.Forall_forall in Hhs. specialize (Hhs x Hx). cbn in Hhs.
      apply is_opt_put_u16; lia. }
    rewrite Hfe in Hf. destruct (List.filter (is_opt p) hs) as [|? [|]]; destruct_and?; try done.
    split; [|subst; done]. econstructor; [done|done|].
    eapply rr_chain_agree; [exact Hc|lia|lia|].
    intros i Hi. symmetry. apply get_put_u16_other; lia.
  - split; [econstructor; eauto; lia|]. done.
Qed.

(** The callback that looks for the OPT record. *)
Lemma find_opt_cb_returns L h st p :
  len p = L -> 0 <= h -> h + 10 <= L ->
  returns_from (find_opt_cb h st) p (fun _ p' => len p' = L).
Proof.
  intros Hp Hh Hl. unfold find_opt_cb.
  apply returns_from_bind, returns_from_current.
  apply returns_from_bind, returns_from_lift. rewrite read_u16_ok by lia. cbn [returns].
  destruct (_ =? _); [|done].
  by apply returns_from_bind, returns_from_lift, returns_ensure.
Qed.

Lemma traverse_find_opt_Ok n o st p e st' p' :
  0 <= o ->
  traverse_rrs_mut (len p) o n find_opt_cb st p = (Ok (e, st'), p') ->
  p' = p /\ exists hs,
    length hs = n /\ rr_chain p o hs e /\
    match List.filter (is_opt p) hs with
    | [] => st' = st
    | [h] => st = None /\ st' = Some h
    | _ => False
    end.
Proof.
  revert o st; induction n as [|n IH]; intros o st Ho H.
  { cbn in H. injection H as <- <- <-. split; [done|]. exists []. repeat split; constructor. }
  apply traverse_rrs_mut_S_Ok in H as (h & st1 & p1 & rd & Hs & Hoh & Hl & Hcb & Hrd & Hle & H);
    [|done..].
  unfold find_opt_cb in Hcb. inv_mut. inv_access.
  assert (p1 = p) as ->.
  { destruct (u16at p h =? DNS_TYPE_OPT); inv_mut; done. }
  rewrite read_u16_ok in Hrd by lia. injection Hrd as <-. pose proof (u16at_bounds p (h + 8)).
  apply IH in H as (-> & hs & <- & Hc & Hf); [|lia].
  split; [done|]. exists (h :: hs). split; [done|]. split; [econstructor; eauto; lia|].
  cbn [List.filter]. unfold is_opt at 1, rr_type.
  destruct (u16at p h =? DNS_TYPE_OPT); inv_mut; [|done].
  destruct st; [discriminate|].
  destruct (List.filter (is_opt p) hs) as [|? [|]]; destruct_and?; done.
Qed.
End traversals.

(** ** Appending the OPT record *)

Lemma len_opt_rr v : len (opt_rr v) = 11.
Proof. done. Qed.
#[export] Hint Rewrite len_opt_rr : doh_len.

Lemma u16at_concrete (p : bytes) n b0 b1 :
  nth n p x00 = b0 -> nth (S n) p x00 = b1 -> u16at p (Z.of_nat n) = u8 b0 * 256 + u8 b1.
Proof.
  intros <- <-. unfold u16at, u8at, get. rewrite Nat2Z.id.
  by replace (Z.to_nat (Z.of_nat n + 1)) with (S n) by lia.
Qed.

Lemma opt_rr_fields v :
  0 <= v <= u16_max ->
  get (opt_rr v) 0 = x00 /\ is_opt (opt_rr v) 1 = true /\ rr_class (opt_rr v) 1 = v /\
  rr_rdlen (opt_rr v) 1 = 0.
Proof.
  intros Hv. repeat split.
  unfold rr_class. change (1 + 2) with (Z.of_nat 3).
  rewrite (u16at_concrete _ _ _ _ eq_refl eq_refl). cbn [nth opt_rr].
  rewrite !u8_as_u8, Z.shiftr_div_pow2 by lia. change (2 ^ 8) with 256.
  rewrite (Z.mod_small (v / 256)).
  - pose proof (Z.div_mod v 256). lia.
  - split; [apply Z.div_pos; lia|apply Z.div_lt_upper_bound; lia].
Qed.

Section edns_section.
Context `{BO : ByteOrder}.

(** The packet after [add_edns_section]. *)
Definition with_opt (v : Z) (p : bytes) : bytes :=
  put_u16 p 10 (u16at p 10 + 1) ++ opt_rr v.

Lemma add_edns_section_Ok v p u p' :
  DNS_HEADER_SIZE <= len p ->
  add_edns_section v p = (Ok u, p') <->
  len p + 11 <= DNS_MAX_PACKET_SIZE /\ u16at p 10 < 65535 /\ p' = with_opt v p.
Proof.
  unfold DNS_HEADER_SIZE. intros Hp. pose proof (u16at_bounds p 10).
  unfold add_edns_section, arcount_inc, arcount. split.
  - intros H0. inv_mut. inv_access. doh_simpl. inv_mut. inv_access. split_and!; [lia|lia|done].
  - intros (Hl & Hc & ->). unfold mbind, mutates_bind, current, lift, update.
    rewrite usub_ge by lia. rewrite len_opt_rr. cmp_simpl. out_simpl.
    rewrite read_u16_ok by lia. cmp_simpl. out_simpl.
    rewrite write_u16_ok by lia. by destruct u.
Qed.

Lemma add_edns_section_returns v p :
  DNS_HEADER_SIZE <= len p <= DNS_MAX_PACKET_SIZE ->
  returns_from (add_edns_section v) p
    (fun _ p' => p' = with_opt v p /\ len p + 11 <= DNS_MAX_PACKET_SIZE).
Proof.
  unfold DNS_HEADER_SIZE. intros Hp. pose proof (u16at_bounds p 10).
  unfold add_edns_section, arcount_inc, arcount.
  apply returns_from_bind, returns_from_current.
  apply returns_from_bind, returns_from_lift, returns_usub; [lia|].
  apply returns_from_bind, returns_from_lift, returns_ensure. intros; bool_to_prop.
  apply returns_from_bind, returns_from_bind, returns_from_current.
  apply returns_from_bind, returns_from_lift. rewrite read_u16_ok by lia. cbn [returns].
  apply returns_from_bind, returns_from_lift, returns_ensure. intros; bool_to_prop.
  apply returns_from_update. rewrite write_u16_ok by lia. cbn [returns].
  apply returns_from_update. cbn. doh_simpl. split; [done|lia].
Qed.

Lemma len_with_opt v p : DNS_HEADER_SIZE <= len p -> len (with_opt v p) = len p + 11.
Proof.
  unfold DNS_HEADER_SIZE. intros. unfold with_opt. doh_simpl. rewrite len_put_u16; lia.
Qed.

Lemma get_with_opt v p i :
  DNS_HEADER_SIZE <= len p -> 0 <= i < len p -> i < 10 \/ 12 <= i ->
  get (with_opt v p) i = get p i.
Proof.
  unfold DNS_HEADER_SIZE. intros. unfold with_opt.
  rewrite get_app_l by (rewrite len_put_u16; lia). apply get_put_u16_other; lia.
Qed.

Lemma u16at_with_opt v p i :
  DNS_HEADER_SIZE <= len p -> 0 <= i -> i + 2 <= len p -> i + 2 <= 10 \/ 12 <= i ->
  u16at (with_opt v p) i = u16at p i.
Proof. intros. unfold u16at, u8at. rewrite !get_with_opt by lia. done. Qed.

Lemma u16at_with_opt_new v p i :
  DNS_HEADER_SIZE <= len p -> 0 <= i -> u16at (with_opt v p) (len p + i) = u16at (opt_rr v) i.
Proof.
  unfold DNS_HEADER_SIZE. intros. unfold with_opt.
  rewrite u16at_app_r by (rewrite len_put_u16; lia). rewrite len_put_u16 by lia.
  f_equal. lia.
Qed.

Lemma filter_is_opt_agree p p' hs :
  Forall (fun h => u16at p' h = u16at p h) hs ->
  List.filter (is_opt p') hs = List.filter (is_opt p) hs.
Proof.
  intros H. apply List.filter_ext_in. intros x Hx. unfold is_opt, rr_type.
  rewrite List.Forall_forall in H. by rewrite H.
Qed.

Lemma skip_name_root p o : 0 <= o -> get p o = x00 -> o + 1 < len p -> skip_name p o = Ok (o + 1).
Proof.
  intros Ho Hg Hl. apply skip_name_Ok; [done|]. split; [lia|].
  exists 1. split; [|by unfold DNS_MAX_HOSTNAME_SIZE].
  apply wire_root; [|done]. unfold u8at. by rewrite Hg.
Qed.

Lemma message_headers p hs1 hs2 e :
  message p hs1 hs2 e ->
  12 <= e <= len p /\
  Forall (fun h => 12 < h /\ h + 10 + rr_rdlen p h <= e) (hs1 ++ hs2).
Proof.
  intros [Hlen _ (q & m & Hs & Hq & H1 & H2) _ _]. unfold DNS_HEADER_SIZE, DNS_OFFSET_QUESTION in *.
  unfold DNS_HEADER_SIZE in *.
  apply skip_name_Ok_bounds in Hs; [|lia].
  pose proof (rr_chain_bounds _ _ _ _ H1 ltac:(lia)).
  pose proof (rr_chain_bounds _ _ _ _ H2 ltac:(lia)).
  split; [lia|]. pose proof (rr_chain_app _ _ _ _ _ _ H1 H2) as H12.
  eapply Forall_impl; [eapply rr_chain_headers; [exact H12|lia]|]. cbn. lia.
Qed.

(** The record appended to a packet without trailing bytes is one more
    additional record, and the only change the walkers see. *)
Lemma message_with_opt v p hs1 hs2 :
  message p hs1 hs2 (len p) -> 0 <= v <= u16_max ->
  len p + 11 <= DNS_MAX_PACKET_SIZE -> u16at p 10 < 65535 ->
  message (with_opt v p) hs1 (hs2 ++ [len p + 1]) (len (with_opt v p)) /\
  List.filter (is_opt (with_opt v p)) (hs2 ++ [len p + 1]) =
    List.filter (is_opt p) hs2 ++ [len p + 1] /\
  rr_class (with_opt v p) (len p + 1) = v.
Proof.
  intros Hm Hv Hl Hc. pose proof (message_headers _ _ _ _ Hm) as [_ Hhs].
  destruct Hm as [Hlen Hqd (q & m & Hs & Hq & H1 & H2) Hc1 Hc2].
  assert (DNS_HEADER_SIZE <= len p) as Hh by lia.
  pose proof (len_with_opt v p Hh) as Hwl.
  destruct (opt_rr_fields v Hv) as (Hf0 & Hf1 & Hf2 & Hf3).
  unfold DNS_HEADER_SIZE, DNS_OFFSET_QUESTION, DNS_HEADER_SIZE in *.
  pose proof (skip_name_Ok_bounds p 12 q ltac:(lia) Hs).
  pose proof (rr_chain_bounds _ _ _ _ H1 ltac:(lia)).
  split; [|split].
  - split.
    + unfold DNS_HEADER_SIZE. lia.
    + rewrite u16at_with_opt by (unfold DNS_HEADER_SIZE; lia). done.
    + exists q, m. split_and!.
      * eapply skip_name_agree; [|exact Hs|lia|]; [unfold DNS_OFFSET_QUESTION, DNS_HEADER_SIZE; lia|].
        intros i Hi. unfold DNS_OFFSET_QUESTION, DNS_HEADER_SIZE in Hi.
        apply get_with_opt; unfold DNS_HEADER_SIZE; lia.
      * lia.
      * eapply rr_chain_agree; [exact H1|lia|lia|].
        intros i Hi. apply get_with_opt; unfold DNS_HEADER_SIZE; lia.
      * eapply rr_chain_app.
        { eapply rr_chain_agree; [exact H2|lia|lia|].
          intros i Hi. apply get_with_opt; unfold DNS_HEADER_SIZE; lia. }
        assert (u16at (with_opt v p) (len p + 1 + 8) = 0) as Hrd.
        { rewrite <- Z.add_assoc, u16at_with_opt_new by (unfold DNS_HEADER_SIZE; lia). done. }
        rewrite Hwl.
        replace (len p + 11) with (len p + 1 + 10 + u16at (with_opt v p) (len p + 1 + 8)) by lia.
        econstructor; [|lia|constructor].
        apply skip_name_root; [lia| |lia].
        unfold with_opt. rewrite get_app_r by (rewrite len_put_u16; lia).
        rewrite len_put_u16 by lia. by rewrite Z.sub_diag.
    + rewrite !u16at_with_opt by (unfold DNS_HEADER_SIZE; lia). done.
    + doh_simpl. unfold with_opt.
      rewrite u16at_app_l by (rewrite ?len_put_u16; lia).
      rewrite u16at_put_u16 by (pose proof (u16at_bounds p 10); lia). lia.
  - rewrite List.filter_app. f_equal.
    + apply filter_is_opt_agree. apply Forall_app in Hhs as [_ Hhs].
      eapply Forall_impl; [exact Hhs|]. intros h Hh'. cbn in Hh'.
      pose proof (u16at_bounds p (h + 8)). unfold rr_rdlen in Hh'.
      apply u16at_with_opt; unfold DNS_HEADER_SIZE; lia.
    + cbn [List.filter]. unfold is_opt, rr_type.
      rewrite u16at_with_opt_new by (unfold DNS_HEADER_SIZE; lia). done.
  - unfold rr_class. rewrite <- Z.add_assoc, u16at_with_opt_new by (unfold DNS_HEADER_SIZE; lia).
    done.
Qed.
End edns_section.

(** ** The two rewriting functions *)
Section rewriting.
Context `{BO : ByteOrder}.

(** One turn of a mutating traversal whose checks succeed. *)
Lemma traverse_rrs_mut_cons {St} (cb : Z -> St -> mutates bytes Error St) n o st p h st1 p1 :
  0 <= o -> skip_name p o = Ok h -> cb h st p = (Ok st1, p1) -> len p1 = len p ->
  h + 10 + u16at p1 (h + 8) <= len p ->
  traverse_rrs_mut (len p) o (S n) cb st p =
  traverse_rrs_mut (len p1) (h + 10 + u16at p1 (h + 8)) n cb st1 p1.
Proof.
  intros Ho Hs Hcb Hl1 Hl. cbn [traverse_rrs_mut].
  pose proof (skip_name_Ok_bounds _ _ _ Ho Hs). pose proof (u16at_bounds p1 (h + 8)).
  unfold mbind, mutates_bind, current, lift. rewrite Hs. run_ok.
  rewrite Hcb, read_u16_ok by lia. run_ok. by rewrite Hl1.
Qed.

Lemma set_payload_cb_run v h st p :
  0 <= h -> h + 10 <= len p -> 0 <= v <= u16_max -> (is_opt p h = true -> st = false) ->
  set_payload_cb v h st p =
    if is_opt p h then (Ok true, put_u16 p (h + 2) v) else (Ok st, p).
Proof.
  intros Hh Hl Hv Hst.
  unfold set_payload_cb, mbind, mutates_bind, current, lift, update, mret, mutates_ret.
  rewrite read_u16_ok by lia. unfold is_opt, rr_type in *.
  destruct (u16at p h =? DNS_TYPE_OPT); [|done].
  rewrite Hst by done. out_simpl. by rewrite write_u16_ok by lia.
Qed.

Lemma traverse_set_payload_none v o hs e st p :
  rr_chain p o hs e -> 0 <= o -> 0 <= v <= u16_max -> List.filter (is_opt p) hs = [] ->
  traverse_rrs_mut (len p) o (length hs) (set_payload_cb v) st p = (Ok (e, st), p).
Proof.
  intros H; revert st. induction H as [o|o h hs e Hs Hl H IH]; intros st Ho Hv Hf; [done|].
  pose proof (skip_name_Ok_bounds _ _ _ Ho Hs). pose proof (u16at_bounds p (h + 8)).
  cbn [List.filter] in Hf. destruct (is_opt p h) eqn:Hopt; [discriminate|].
  cbn [length]. erewrite traverse_rrs_mut_cons; [apply IH; [lia|done|done]|done|exact Hs| |done|lia].
  rewrite set_payload_cb_run, Hopt by (done || lia || congruence). done.
Qed.

Lemma traverse_set_payload_complete v o hs e p :
  rr_chain p o hs e -> 0 <= o -> 0 <= v <= u16_max ->
  match List.filter (is_opt p) hs with
  | [] => traverse_rrs_mut (len p) o (length hs) (set_payload_cb v) false p = (Ok (e, false), p)
  | [h] => traverse_rrs_mut (len p) o (length hs) (set_payload_cb v) false p =
             (Ok (e, true), put_u16 p (h + 2) v)
  | _ => True
  end.
Proof.
  induction 1 as [o|o h hs e Hs Hl H IH]; intros Ho Hv; [done|].
  pose proof (skip_name_Ok_bounds _ _ _ Ho Hs). pose proof (u16at_bounds p (h + 8)).
  pose proof (rr_chain_headers _ _ _ _ H ltac:(lia)) as Hhs.
  cbn [List.filter length]. destruct (is_opt p h) eqn:Hopt.
  - destruct (List.filter (is_opt p) hs) eqn:Hfil; [|done].
    assert (len (put_u16 p (h + 2) v) = len p) as Hl1 by (rewrite len_put_u16; lia).
    assert (u16at (put_u16 p (h + 2) v) (h + 8) = u16at p (h + 8)) as Hrd
      by (rewrite u16at_put_u16_other; lia).
    erewrite traverse_rrs_mut_cons;
      [|done|exact Hs|rewrite set_payload_cb_run, Hopt by (done || lia); done|done|lia].
    apply traverse_set_payload_none; [|lia|done|].
    + rewrite Hrd. eapply rr_chain_agree; [exact H|lia|lia|].
      intros. apply get_put_u16_other; lia.
    + rewrite <- Hfil. apply List.filter_ext_in. intros x Hx.
      rewrite List.Forall_forall in Hhs. specialize (Hhs x Hx). cbn in Hhs.
      apply is_opt_put_u16; lia.
  - specialize (IH ltac:(lia) Hv).
    destruct (List.filter (is_opt p) hs) as [|? [|]]; [| |done].
    all: erewrite traverse_rrs_mut_cons;
      [exact IH|done|exact Hs|rewrite set_payload_cb_run, Hopt by (done || lia || congruence); done
      |done|lia].
Qed.

(** What [set_edns_max_payload_size] does to the additional records. *)
Definition edns_set (v : Z) (p p' : bytes) (hs2 : list Z) : Prop :=
  match List.filter (is_opt p) hs2 with
  | [] => len p + 11 <= DNS_MAX_PACKET_SIZE /\ u16at p 10 < 65535 /\ p' = with_opt v p
  | [h] => p' = put_u16 p (h + 2) v
  | _ => False
  end.

Lemma set_edns_Ok v p p' :
  0 <= v <= u16_max ->
  set_edns_max_payload_size v p = (Ok tt, p') <->
  exists hs1 hs2 e, message p hs1 hs2 e /\ edns_set v p p' hs2.
Proof.
  intros Hv. pose proof (u16at_bounds p 6). pose proof (u16at_bounds p 8).
  pose proof (u16at_bounds p 10).
  unfold set_edns_max_payload_size, qdcount, ancount, nscount, arcount, edns_set. split.
  - intros H2. unfold DNS_OFFSET_QUESTION, DNS_HEADER_SIZE in *. inv_mut. inv_access.
    match goal with
    | Hs : skip_name p 12 = Ok ?q, Ht : traverse_rrs _ _ _ _ _ = Ok (?m, _),
      Ht' : traverse_rrs_mut _ _ _ _ _ _ = (Ok (?e, _), _) |- _ =>
        pose proof (skip_name_Ok_bounds p 12 q ltac:(lia) Hs);
        apply traverse_rrs_Ok in Ht as (hs1 & Hn1 & Hc1 & _); [|lia];
        pose proof (rr_chain_bounds _ _ _ _ Hc1 ltac:(lia));
        apply traverse_set_payload_Ok in Ht' as (hs2 & Hn2 & Hc2 & Hf); [|lia..];
        exists hs1, hs2, e; split;
          [split; unfold len in *; unfold DNS_OFFSET_QUESTION, DNS_HEADER_SIZE;
             [lia|done|exists q, m; split_and!; done || lia|lia|lia]|]
    end.
    destruct (List.filter (is_opt p) hs2) as [|h [|]]; destruct_and?; subst; [|by inv_mut|done].
    apply add_edns_section_Ok in H2; [|unfold DNS_HEADER_SIZE; lia]. done.
  - intros (hs1 & hs2 & e & Hm & Hs). destruct Hm as [Hlen Hqd (q & m & Hq & Hq4 & Hc1 & Hc2) Hn1 Hn2].
    pose proof (skip_name_Ok_bounds p DNS_OFFSET_QUESTION q ltac:(done) Hq).
    unfold DNS_OFFSET_QUESTION, DNS_HEADER_SIZE in *.
    pose proof (rr_chain_bounds _ _ _ _ Hc1 ltac:(lia)).
    unfold mbind, mutates_bind, current, lift.
    cmp_simpl. out_simpl. rewrite !read_u16_ok by lia. rewrite Hqd, Hq. run_ok.
    rewrite (proj2 (traverse_rrs_Ok p (q + 4) (Z.to_nat (u16at p 6 + u16at p 8)) _ tt m tt
      ltac:(lia))); [|exists hs1; split_and!; [unfold len in *; lia|done|apply fold_cb_unit]].
    pose proof (traverse_set_payload_complete v m hs2 e p Hc2 ltac:(lia) Hv) as Ht.
    replace (Z.to_nat (u16at p 10)) with (length hs2) by (unfold len in *; lia).
    destruct (List.filter (is_opt p) hs2) as [|h [|]]; [| |done]; rewrite Ht; [|by subst].
    apply add_edns_section_Ok; [unfold DNS_HEADER_SIZE; lia|done].
Qed.
End rewriting.

(** ** Padding *)

Lemma padded_len_spec n :
  n <= DNS_MAX_PACKET_SIZE ->
  n <= padded_len n <= DNS_MAX_PACKET_SIZE /\
  (In (padded_len n) BOUNDARIES \/ padded_len n = DNS_MAX_PACKET_SIZE).
Proof.
  intros Hn. unfold padded_len.
  destruct (List.find _ BOUNDARIES) as [b|] eqn:Hb; [|by split; [|right]].
  apply List.find_some in Hb as [Hin Hle]. bool_to_prop. split; [|by left].
  split; [done|]. cbn [BOUNDARIES In] in Hin. unfold DNS_MAX_PACKET_SIZE. lia.
Qed.

(** The option appended by [add_edns_padding]: code, length, filler. *)
Definition padding_option (pad : Z) : bytes :=
  be16 DNS_PTYPE_PADDING ++ be16 pad ++ replicate (Z.to_nat pad) x58.

Lemma len_padding_option pad : 0 <= pad -> len (padding_option pad) = 4 + pad.
Proof.
  intros. unfold padding_option. doh_simpl. unfold len. rewrite length_replicate. lia.
Qed.

Lemma put_padding_header pad :
  0 <= pad ->
  put_u16 (put_u16 (replicate (Z.to_nat (4 + pad)) x58) 0 DNS_PTYPE_PADDING) 2 pad =
  padding_option pad.
Proof.
  intros. replace (Z.to_nat (4 + pad)) with (4 + Z.to_nat pad)%nat by lia.
  cbn [replicate Nat.add]. done.
Qed.

Section padding.
Context `{BO : ByteOrder}.

(** The packet the padding is appended to, and where its OPT record is. *)
Definition padding_base (p : bytes) (hs2 : list Z) : option (bytes * Z) :=
  match List.filter (is_opt p) hs2 with
  | [] => Some (with_opt DNS_MAX_PACKET_SIZE p, len p + 1)
  | [h] => Some (p, h)
  | _ => None
  end.

Definition pad_packet (base : bytes) (off : Z) : bytes :=
  let pad := padded_len (len base) - len base in
  put_u16 base (off + 8) (rr_rdlen base off + (4 + pad)) ++ padding_option pad.

(** The part of [add_edns_padding] after the OPT record is located. *)
Definition pad_tail (edns_offset packet_len : Z) : mutates bytes Error unit :=
  padding_len ← lift (usub (padded_len packet_len) packet_len);
  let edns_padding_prr := replicate (Z.to_nat (4 + padding_len)) x58 in
  edns_padding_prr ← lift (write_u16 edns_padding_prr 0 DNS_PTYPE_PADDING);
  edns_padding_prr ← lift (write_u16 edns_padding_prr 2 (as_u16 padding_len));
  let edns_padding_prr_len := len edns_padding_prr in
  let edns_rdlen_offset := edns_offset + 8 in
  rest ← lift (usub packet_len edns_rdlen_offset);
  lift (ensure (2 <=? rest) "Short packet"%string);;
  packet ← current;
  edns_rdlen ← lift (read_u16 packet edns_rdlen_offset);
  lift (ensure (edns_offset + edns_rdlen <=? packet_len) "Out of range EDNS size"%string);;
  rest ← lift (usub 0xffff edns_rdlen);
  lift (ensure (edns_padding_prr_len <=? rest) "EDNS section too large for padding"%string);;
  rest ← lift (usub DNS_MAX_PACKET_SIZE packet_len);
  lift (ensure (edns_padding_prr_len <=? rest) "Large packet"%string);;
  new_rdlen ← lift (add_u16 edns_rdlen (as_u16 edns_padding_prr_len));
  update (fun packet => write_u16 packet edns_rdlen_offset new_rdlen);;
  update (fun packet => Ok (packet ++ edns_padding_prr)).

Lemma pad_tail_returns off p :
  len p <= DNS_MAX_PACKET_SIZE -> 0 <= off -> off + 10 <= len p ->
  returns_from (pad_tail off (len p)) p
    (fun _ p' => p' = pad_packet p off /\
                 padded_len (len p) + 4 <= DNS_MAX_PACKET_SIZE).
Proof.
  intros Hl Ho Ho'. destruct (padded_len_spec (len p) Hl) as [Hpad _].
  pose proof (u16at_bounds p (off + 8)).
  set (pad := padded_len (len p) - len p). assert (0 <= pad <= 4096) as Hp.
  { unfold pad, DNS_MAX_PACKET_SIZE in *. pose proof (len_nonneg p). lia. }
  assert (len (replicate (Z.to_nat (4 + pad)) x58) = 4 + pad) as Hr.
  { unfold len. rewrite length_replicate. lia. }
  unfold pad_tail. apply returns_from_bind, returns_from_lift, returns_usub; [lia|]. fold pad.
  apply returns_from_bind, returns_from_lift.
  rewrite write_u16_ok by (unfold DNS_PTYPE_PADDING; lia). cbn [returns].
  unfold as_u16. rewrite (Z.mod_small pad) by lia.
  apply returns_from_bind, returns_from_lift.
  rewrite write_u16_ok by (rewrite ?len_put_u16; lia). cbn [returns].
  rewrite put_padding_header, len_padding_option by lia.
  apply returns_from_bind, returns_from_lift, returns_usub; [lia|].
  apply returns_from_bind, returns_from_lift, returns_ensure. intros _.
  apply returns_from_bind, returns_from_current.
  apply returns_from_bind, returns_from_lift. rewrite read_u16_ok by lia. cbn [returns].
  apply returns_from_bind, returns_from_lift, returns_ensure. intros _.
  apply returns_from_bind, returns_from_lift, returns_usub; [lia|].
  apply returns_from_bind, returns_from_lift, returns_ensure. intros H1; bool_to_prop.
  apply returns_from_bind, returns_from_lift, returns_usub; [lia|].
  apply returns_from_bind, returns_from_lift, returns_ensure. intros H2; bool_to_prop.
  rewrite (Z.mod_small (4 + pad)) by lia.
  apply returns_from_bind, returns_from_lift. unfold add_u16. cmp_simpl. cbn [returns].
  apply returns_from_bind, returns_from_update. rewrite write_u16_ok by lia. cbn [returns].
  apply returns_from_update. cbn [returns]. split; [done|]. unfold pad in *. lia.
Qed.

(** What the search for the OPT record found. *)
Lemma padding_base_cases p hs1 hs2 e o :
  message p hs1 hs2 e ->
  match List.filter (is_opt p) hs2 with
  | [] => o = None
  | [h] => @None Z = None /\ o = Some h
  | _ => False
  end ->
  padding_base p hs2 = match o with
    | Some h => Some (p, h)
    | None => Some (with_opt DNS_MAX_PACKET_SIZE p, len p + 1) end /\
  match o with Some h => 12 < h /\ h + 10 <= len p | None => True end /\
  (List.filter (is_opt p) hs2 = [] <-> o = None).
Proof.
  intros Hm Hf. pose proof (message_headers _ _ _ _ Hm) as [He [_ Hh]%Forall_app].
  unfold padding_base.
  destruct (List.filter (is_opt p) hs2) as [|h [|]] eqn:Hfil; [by subst| |done].
  destruct Hf as [_ ->]. split; [done|]. split; [|split; discriminate].
  assert (In h hs2) as Hin by (apply (List.filter_In (is_opt p)); rewrite Hfil; by left).
  rewrite List.Forall_forall in Hh. specialize (Hh h Hin). cbn in Hh. unfold rr_rdlen in Hh.
  pose proof (u16at_bounds p (h + 8)). lia.
Qed.

(** [add_edns_padding] never panics, and this is what it leaves. *)
Lemma add_edns_padding_returns p :
  returns_from add_edns_padding p
    (fun _ p' => exists hs1 hs2 e base off,
       message p hs1 hs2 e /\ padding_base p hs2 = Some (base, off) /\
       0 <= off /\ off + 10 <= len base /\ (len base = len p \/ len base = len p + 11) /\
       (List.filter (is_opt p) hs2 = [] -> u16at p 10 < 65535) /\
       p' = pad_packet base off /\ padded_len (len base) + 4 <= DNS_MAX_PACKET_SIZE).
Proof.
  pose proof (u16at_bounds p 6). pose proof (u16at_bounds p 8). pose proof (u16at_bounds p 10).
  unfold add_edns_padding, qdcount, ancount, nscount, arcount.
  unfold DNS_OFFSET_QUESTION, DNS_HEADER_SIZE.
  apply returns_from_bind, returns_from_current.
  apply returns_from_bind, returns_from_lift, returns_ensure. intros; bool_to_prop.
  apply returns_from_bind, returns_from_lift, returns_ensure. intros; bool_to_prop.
  apply returns_from_bind, returns_from_lift. rewrite read_u16_ok by lia. cbn [returns].
  apply returns_from_bind, returns_from_lift, returns_ensure. intros Hqd; bool_to_prop.
  apply returns_from_bind, returns_from_lift.
  eapply returns_mono; [apply skip_name_returns; lia|]. intros q Hq Hqb; cbn beta in Hqb.
  apply returns_from_bind, returns_from_lift. cmp_simpl. cbn [assert_ returns].
  apply returns_from_bind, returns_from_lift, returns_usub; [lia|].
  apply returns_from_bind, returns_from_lift, returns_ensure. intros; bool_to_prop.
  do 3 (apply returns_from_bind, returns_from_lift; rewrite read_u16_ok by lia; cbn [returns]).
  apply returns_from_bind, returns_from_lift.
  eapply returns_mono; [apply traverse_rrs_returns; (lia || done)|].
  intros [m []] Hm Hmb; cbn beta in Hmb.
  apply traverse_rrs_Ok in Hm as (hs1 & Hn1 & Hc1 & _); [|lia].
  apply returns_from_bind. eapply returns_from_mono.
  { apply traverse_rrs_mut_returns; [lia|lia|done|].
    intros. by apply find_opt_cb_returns. }
  intros [e o] p1 Ht [Heb Hlb].
  apply traverse_find_opt_Ok in Ht as (-> & hs2 & Hn2 & Hc2 & Hf); [|lia].
  assert (message p hs1 hs2 e) as Hmsg.
  { split; unfold len in *; unfold DNS_OFFSET_QUESTION, DNS_HEADER_SIZE;
      [lia|done|exists q, m; split_and!; done || lia|lia|lia]. }
  destruct (padding_base_cases _ _ _ _ _ Hmsg Hf) as (Hbase & Hob & Hno).
  apply returns_from_bind. destruct o as [h|]; cbn beta iota.
  - cbn [returns_from mret mutates_ret].
    eapply returns_from_mono; [apply (pad_tail_returns h p); lia|].
    cbn beta. intros _ p' _ [-> Hpl]. exists hs1, hs2, e, p, h.
    destruct Hob. split_and!; try done; try lia. intros Hx. by apply Hno in Hx.
  - apply returns_from_bind, returns_from_current.
    apply returns_from_bind. eapply returns_from_mono.
    { apply (add_edns_section_returns DNS_MAX_PACKET_SIZE). unfold DNS_HEADER_SIZE. lia. }
    intros [] p1 Hadd [-> Hl1].
    apply add_edns_section_Ok in Hadd as (_ & Har & _); [|unfold DNS_HEADER_SIZE; lia].
    pose proof (len_with_opt DNS_MAX_PACKET_SIZE p ltac:(unfold DNS_HEADER_SIZE; lia)) as Hlw.
    apply returns_from_bind, returns_from_current. cbn [returns_from mret mutates_ret].
    eapply returns_from_mono; [apply (pad_tail_returns (len p + 1)); lia|].
    cbn beta. intros _ p' _ [-> Hpl].
    exists hs1, hs2, e, (with_opt DNS_MAX_PACKET_SIZE p), (len p + 1).
    split_and!; try done; lia.
Qed.
End padding.

(** ** The TTL *)

(** The least TTL among the records that are not OPT, at most [init]. *)
Definition lowest_ttl (p : bytes) (hs : list Z) (init : Z) : Z :=
  fold_left (fun acc h => if is_opt p h then acc else Z.min acc (rr_ttl p h)) hs init.

Section ttl.
Context `{BO : ByteOrder}.

Lemma min_ttl_cb_Ok p h acc :
  0 <= h -> h + 10 <= len p ->
  min_ttl_cb p h acc = Ok (if is_opt p h then acc else Z.min acc (rr_ttl p h)).
Proof.
  intros. unfold min_ttl_cb. rewrite read_u16_ok by lia. out_simpl.
  rewrite read_u32_ok by lia. out_simpl. unfold is_opt, rr_type, rr_ttl.
  destruct (_ =? _); [done|]. out_simpl. destruct (Z.ltb_spec (u32at p (h + 4)) acc);
    f_equal; lia.
Qed.

Lemma fold_min_ttl_cb p hs acc :
  Forall (fun h => 0 <= h /\ h + 10 <= len p) hs ->
  fold_cb (min_ttl_cb p) hs acc = Ok (lowest_ttl p hs acc).
Proof.
  intros H; revert acc; induction H as [|h hs Hh H IH]; intros acc; [done|].
  cbn [fold_cb]. rewrite min_ttl_cb_Ok by lia. out_simpl. apply IH.
Qed.

Lemma lowest_ttl_bounds p hs init : 0 <= init -> 0 <= lowest_ttl p hs init <= init.
Proof.
  unfold lowest_ttl. revert init; induction hs as [|h hs IH]; intros init Hi;
    cbn [fold_left]; [lia|].
  assert (0 <= rr_ttl p h) by apply u32at_bounds.
  destruct (is_opt p h); [by apply IH|].
  specialize (IH (Z.min init (rr_ttl p h))). lia.
Qed.

Lemma lowest_ttl_le p hs init h :
  0 <= init -> In h hs -> is_opt p h = false -> lowest_ttl p hs init <= rr_ttl p h.
Proof.
  unfold lowest_ttl. revert init; induction hs as [|x hs IH]; intros init Hi Hin Hopt; [done|].
  assert (0 <= rr_ttl p x) by apply u32at_bounds.
  cbn [fold_left]. destruct Hin as [->|Hin].
  - rewrite Hopt. pose proof (lowest_ttl_bounds p hs (Z.min init (rr_ttl p h))) as Hb.
    assert (0 <= rr_ttl p h) by apply u32at_bounds.
    unfold lowest_ttl in Hb. lia.
  - apply IH; [|done|done]. destruct (is_opt p x); lia.
Qed.

Lemma rr_chain_app_inv p o hs hs' e :
  rr_chain p o (hs ++ hs') e -> exists m, rr_chain p o hs m /\ rr_chain p m hs' e.
Proof.
  revert o; induction hs as [|h hs IH]; intros o H; cbn in H.
  - exists o. by split; [constructor|].
  - inversion H as [|? ? ? ? Hs Hl H']; subst. destruct (IH _ H') as (m & H1 & H2).
    exists m. split; [by econstructor|done].
Qed.

Lemma rr_chain_nonempty p o hs e : rr_chain p o hs e -> 0 <= o -> hs <> [] <-> o < e.
Proof.
  intros H Ho. inversion H as [|? h hs' ? Hs Hl H']; subst; [split; [done|lia]|].
  split; [|done]. intros _. pose proof (u16at_bounds p (h + 8)).
  apply skip_name_Ok_bounds in Hs; [|done]. apply rr_chain_bounds in H'; lia.
Qed.

Lemma rr_chain_in_packet p o hs e :
  rr_chain p o hs e -> 0 <= o <= len p -> Forall (fun h => 0 <= h /\ h + 10 <= len p) hs.
Proof.
  intros H Ho. pose proof (rr_chain_bounds _ _ _ _ H Ho).
  eapply Forall_impl; [apply (rr_chain_headers _ _ _ _ H); lia|].
  intros h Hh; cbn in *. unfold rr_rdlen in Hh. pose proof (u16at_bounds p (h + 8)). lia.
Qed.

Lemma min_ttl_total p mn mx ft : total (min_ttl p mn mx ft).
Proof.
  pose proof (u16at_bounds p 6). pose proof (u16at_bounds p 8). pose proof (u16at_bounds p 10).
  unfold min_ttl, total, qdcount, ancount, nscount, arcount, DNS_OFFSET_QUESTION, DNS_HEADER_SIZE.
  apply returns_bind, returns_ensure. intros; bool_to_prop.
  apply returns_bind, returns_ensure. intros; bool_to_prop.
  rewrite !read_u16_ok by lia. out_simpl.
  apply returns_bind, returns_ensure. intros _.
  apply returns_bind. eapply returns_mono; [apply skip_name_returns; lia|].
  intros q _ Hq; cbn beta in Hq. cmp_simpl. out_simpl.
  apply returns_bind, returns_usub; [lia|].
  apply returns_bind, returns_ensure. intros; bool_to_prop.
  apply returns_bind. eapply returns_mono.
  { apply traverse_rrs_returns; [lia|lia| |lia].
    intros h st Hh Hl. by rewrite min_ttl_cb_Ok by lia. }
  intros [e t] _ _. apply returns_bind, returns_ensure. done.
Qed.

Lemma min_ttl_Ok p mn mx ft t :
  min_ttl p mn mx ft = Ok t <->
  exists hs1 hs2, message p hs1 hs2 (len p) /\ hs1 ++ hs2 <> [] /\
    t = Z.max mn (lowest_ttl p (hs1 ++ hs2) mx).
Proof.
  pose proof (u16at_bounds p 6). pose proof (u16at_bounds p 8). pose proof (u16at_bounds p 10).
  unfold min_ttl, qdcount, ancount, nscount, arcount, DNS_OFFSET_QUESTION, DNS_HEADER_SIZE. split.
  - intros H2. inv_ok. inv_access. inv_ok. inv_access. inv_ok.
    match goal with
    | Hs : skip_name p 12 = Ok ?q, Ht : traverse_rrs _ _ _ _ _ = Ok _ |- _ =>
        pose proof (skip_name_Ok_bounds p 12 q ltac:(lia) Hs) as Hqb; rename q into q0, Hs into Hq;
        apply traverse_rrs_Ok in Ht as (hs & Hn & Hc & Hf); [|lia]
    end. subst.
    pose proof (rr_chain_nonempty _ _ _ _ Hc ltac:(lia)) as Hne.
    rewrite fold_min_ttl_cb in Hf by (eapply rr_chain_in_packet; [exact Hc|lia]).
    injection Hf as <-.
    set (k := Z.to_nat (u16at p 6 + u16at p 8)).
    rewrite <- (firstn_skipn k hs) in Hc. apply rr_chain_app_inv in Hc as (m & Hc1 & Hc2).
    exists (firstn k hs), (skipn k hs). rewrite firstn_skipn.
    assert (len p - q0 > 4) as Hq4 by lia. split; [split|split].
    + unfold DNS_HEADER_SIZE. lia.
    + done.
    + exists q0, m. split_and!; done || lia.
    + unfold len in *. rewrite length_firstn. lia.
    + unfold len in *. rewrite length_skipn. lia.
    + apply Hne. lia.
    + assert (0 < u16at p 6 + u16at p 8 + u16at p 10).
      { destruct hs; [|cbn [length] in Hn; lia]. destruct Hne as [_ Hne]. by destruct Hne; [lia|]. }
      cmp_simpl. destruct (Z.ltb_spec (lowest_ttl p hs mx) mn); lia.
  - intros (hs1 & hs2 & [Hlen Hqd (q & m & Hq & Hq4 & Hc1 & Hc2) Hn1 Hn2] & Hne & ->).
    pose proof (skip_name_Ok_bounds p DNS_OFFSET_QUESTION q ltac:(done) Hq) as Hqb.
    unfold DNS_OFFSET_QUESTION, DNS_HEADER_SIZE in *.
    pose proof (rr_chain_app _ _ _ _ _ _ Hc1 Hc2) as Hc.
    apply (rr_chain_nonempty _ _ _ _ Hc ltac:(lia)) in Hne as Hlt.
    assert (0 < u16at p 6 + u16at p 8 + u16at p 10).
    { rewrite <- Hn1, <- Hn2, <- len_app. unfold len. destruct (hs1 ++ hs2); [done|]. cbn [length]. lia. }
    cmp_simpl. out_simpl. rewrite !read_u16_ok by lia. rewrite Hqd. out_simpl.
    rewrite Hq. out_simpl. cmp_simpl. out_simpl. rewrite usub_ge by lia. out_simpl.
    cmp_simpl. out_simpl.
    rewrite (proj2 (traverse_rrs_Ok p (q + 4) _ _ mx (len p) (lowest_ttl p (hs1 ++ hs2) mx)
      ltac:(lia))).
    + out_simpl. cmp_simpl. out_simpl.
      destruct (Z.ltb_spec (lowest_ttl p (hs1 ++ hs2) mx) mn); f_equal; lia.
    + exists (hs1 ++ hs2). split_and!; [|done|].
      * rewrite <- Hn1, <- Hn2, <- len_app. unfold len. lia.
      * apply fold_min_ttl_cb. eapply rr_chain_in_packet; [exact Hc|lia].
Qed.
End ttl.

(** ** Rewritten packets are still messages *)
Section rewritten.
Context `{BO : ByteOrder}.

Lemma rr_chain_put_class p o hs e h v :
  rr_chain p o hs e -> 0 <= o -> e <= len p -> In h hs -> rr_chain (put_u16 p (h + 2) v) o hs e.
Proof.
  induction 1 as [|o x hs e Hs Hl H IH]; intros Ho He Hin; [done|].
  pose proof (skip_name_Ok_bounds _ _ _ Ho Hs) as Hx. pose proof (u16at_bounds p (x + 8)).
  pose proof (rr_chain_bounds _ _ _ _ H ltac:(lia)).
  pose proof (rr_chain_headers _ _ _ _ H ltac:(lia)) as Hhs.
  destruct Hin as [->|Hin].
  - assert (u16at (put_u16 p (h + 2) v) (h + 8) = u16at p (h + 8)) as Heq
      by (apply u16at_put_u16_other; lia).
    econstructor.
    + eapply skip_name_agree; [done|exact Hs|rewrite len_put_u16; lia|].
      intros. apply get_put_u16_other; lia.
    + rewrite Heq, len_put_u16; lia.
    + rewrite Heq. eapply rr_chain_agree; [exact H|lia|rewrite len_put_u16; lia|].
      intros. apply get_put_u16_other; lia.
  - rewrite List.Forall_forall in Hhs. specialize (Hhs h Hin). cbn in Hhs.
    unfold rr_rdlen in Hhs. pose proof (u16at_bounds p (h + 8)).
    assert (u16at (put_u16 p (h + 2) v) (x + 8) = u16at p (x + 8)) as Heq
      by (apply u16at_put_u16_other; lia).
    econstructor.
    + eapply skip_name_agree; [done|exact Hs|rewrite len_put_u16; lia|].
      intros. apply get_put_u16_other; lia.
    + rewrite Heq, len_put_u16; lia.
    + rewrite Heq. apply IH; done || lia.
Qed.

(** Writing a class field keeps the packet a message with the same OPT
    records. *)
Lemma message_put_class p hs1 hs2 e h v :
  message p hs1 hs2 e -> In h hs2 -> 0 <= v <= u16_max ->
  message (put_u16 p (h + 2) v) hs1 hs2 e /\
  List.filter (is_opt (put_u16 p (h + 2) v)) hs2 = List.filter (is_opt p) hs2 /\
  rr_class (put_u16 p (h + 2) v) h = v.
Proof.
  intros Hm Hin Hv. pose proof (message_headers _ _ _ _ Hm) as [He [_ Hhs]%Forall_app].
  destruct Hm as [Hlen Hqd (q & m & Hq & Hq4 & Hc1 & Hc2) Hn1 Hn2].
  unfold DNS_OFFSET_QUESTION, DNS_HEADER_SIZE in *.
  pose proof (skip_name_Ok_bounds p 12 q ltac:(lia) Hq).
  pose proof (rr_chain_bounds _ _ _ _ Hc1 ltac:(lia)).
  pose proof (rr_chain_headers _ _ _ _ Hc2 ltac:(lia)) as Hhs'.
  pose proof Hhs as Hh. rewrite List.Forall_forall in Hh, Hhs'. specialize (Hh h Hin).
  specialize (Hhs' h Hin). cbn in Hh, Hhs'.
  unfold rr_rdlen in *. pose proof (u16at_bounds p (h + 8)).
  assert (len (put_u16 p (h + 2) v) = len p) as Hl by (rewrite len_put_u16; lia).
  split; [split|split].
  - unfold DNS_HEADER_SIZE. lia.
  - rewrite u16at_put_u16_other by lia. done.
  - exists q, m. split_and!; [|lia| |].
    + eapply skip_name_agree; [done|exact Hq|lia|]. unfold DNS_OFFSET_QUESTION, DNS_HEADER_SIZE.
      intros. apply get_put_u16_other; lia.
    + eapply rr_chain_agree; [exact Hc1|lia|lia|]. intros. apply get_put_u16_other; lia.
    + apply rr_chain_put_class; done || lia.
  - rewrite !u16at_put_u16_other by lia. done.
  - rewrite u16at_put_u16_other by lia. done.
  - apply filter_is_opt_agree. apply List.Forall_forall. intros x Hx.
    destruct (rr_chain_spaced _ _ _ _ Hc2 ltac:(lia) x h Hx Hin) as [->|];
      apply u16at_put_u16_other; try lia.
    all: rewrite List.Forall_forall in Hhs; specialize (Hhs x Hx); cbn in Hhs; lia.
  - apply u16at_put_u16; lia.
Qed.

(** Appending data to the last record, its length field adjusted. *)
Definition grow_last (p : bytes) (h : Z) (data : bytes) : bytes :=
  put_u16 p (h + 8) (rr_rdlen p h + len data) ++ data.

Lemma len_grow_last p h data :
  0 <= h -> h + 10 <= len p -> len (grow_last p h data) = len p + len data.
Proof. intros. unfold grow_last. doh_simpl. rewrite len_put_u16; lia. Qed.

Lemma get_grow_last p h data i :
  0 <= h -> h + 10 <= len p -> 0 <= i < h + 8 -> get (grow_last p h data) i = get p i.
Proof.
  intros. unfold grow_last. rewrite get_app_l by (rewrite len_put_u16; lia).
  apply get_put_u16_other; lia.
Qed.

Lemma rr_chain_grow_last p o hs h data :
  rr_chain p o (hs ++ [h]) (len p) -> 0 <= o <= len p ->
  rr_rdlen p h + len data <= u16_max ->
  rr_chain (grow_last p h data) o (hs ++ [h]) (len (grow_last p h data)).
Proof.
  intros Hc Ho Hr. pose proof (len_nonneg data). pose proof (u16at_bounds p (h + 8)) as Hrd.
  pose proof (rr_chain_in_packet _ _ _ _ Hc Ho) as Hin.
  apply Forall_app in Hin as [_ Hin%Forall_inv].
  apply rr_chain_app_inv in Hc as (k & Hc1 & Hc2).
  pose proof (rr_chain_bounds _ _ _ _ Hc1 Ho).
  inversion Hc2 as [|? ? ? ? Hs Hl Hnil]; subst. inversion Hnil as [? Hend|]; subst.
  pose proof (skip_name_Ok_bounds p k h ltac:(lia) Hs). unfold rr_rdlen in *.
  pose proof (len_grow_last p h data ltac:(lia) ltac:(lia)) as Hgl.
  assert (u16at (grow_last p h data) (h + 8) = u16at p (h + 8) + len data) as Hg.
  { unfold grow_last. rewrite u16at_app_l by (rewrite ?len_put_u16; lia).
    apply u16at_put_u16; unfold rr_rdlen; lia. }
  eapply rr_chain_app.
  - eapply rr_chain_agree; [exact Hc1|lia|lia|]. intros. apply get_grow_last; lia.
  - replace (len (grow_last p h data))
      with (h + 10 + u16at (grow_last p h data) (h + 8)) by lia.
    econstructor; [|lia|constructor].
    eapply skip_name_agree; [lia|exact Hs|lia|]. intros. apply get_grow_last; lia.
Qed.

Lemma message_grow_last p hs1 hs2 h data :
  message p hs1 (hs2 ++ [h]) (len p) -> rr_rdlen p h + len data <= u16_max ->
  len p + len data <= DNS_MAX_PACKET_SIZE ->
  message (grow_last p h data) hs1 (hs2 ++ [h]) (len (grow_last p h data)) /\
  List.filter (is_opt (grow_last p h data)) (hs2 ++ [h]) = List.filter (is_opt p) (hs2 ++ [h]) /\
  len (grow_last p h data) = len p + len data.
Proof.
  intros Hm Hr Hmax. pose proof (len_nonneg data).
  pose proof (message_headers _ _ _ _ Hm) as [He [_ Hhs]%Forall_app].
  destruct Hm as [Hlen Hqd (q & m & Hq & Hq4 & Hc1 & Hc2) Hn1 Hn2].
  unfold DNS_OFFSET_QUESTION, DNS_HEADER_SIZE in *.
  pose proof (skip_name_Ok_bounds p 12 q ltac:(lia) Hq).
  pose proof (rr_chain_bounds _ _ _ _ Hc1 ltac:(lia)).
  apply rr_chain_app_inv in Hc2 as (k & Hc2 & Hc3).
  pose proof (rr_chain_bounds _ _ _ _ Hc2 ltac:(lia)).
  pose proof (rr_chain_headers _ _ _ _ Hc2 ltac:(lia)) as Hh2.
  pose proof (rr_chain_headers _ _ _ _ Hc3 ltac:(lia)) as Hh3%Forall_inv.
  pose proof (rr_chain_app _ _ _ _ _ _ Hc2 Hc3) as Hc23. cbn beta in Hh3.
  pose proof (u16at_bounds p (h + 8)). unfold rr_rdlen in Hh3.
  pose proof (len_grow_last p h data ltac:(lia) ltac:(lia)) as Hgl.
  assert (forall i, 0 <= i -> i + 2 <= h + 8 -> u16at (grow_last p h data) i = u16at p i) as Hu.
  { intros. unfold u16at, u8at. rewrite !get_grow_last by lia. done. }
  split; [split|split; [|done]].
  - unfold DNS_HEADER_SIZE. lia.
  - rewrite Hu by lia. done.
  - exists q, m. split_and!; [|lia| |apply rr_chain_grow_last; done || lia].
    + eapply skip_name_agree; [done|exact Hq|lia|]. unfold DNS_OFFSET_QUESTION, DNS_HEADER_SIZE.
      intros. apply get_grow_last; lia.
    + eapply rr_chain_agree; [exact Hc1|lia|lia|]. intros. apply get_grow_last; lia.
  - rewrite !Hu by lia. done.
  - rewrite Hu by lia. done.
  - apply filter_is_opt_agree, Forall_app. split; [|by apply Forall_singleton, Hu; lia].
    eapply Forall_impl; [exact Hh2|]. intros x Hx; cbn in Hx. unfold rr_rdlen in Hx.
    pose proof (u16at_bounds p (x + 8)). apply Hu; lia.
Qed.
End rewritten.

Section uniqueness.
Context `{BO : ByteOrder}.

(** The record headers of a packet are determined by it. *)
Lemma message_det p hs1 hs2 e hs1' hs2' e' :
  message p hs1 hs2 e -> message p hs1' hs2' e' -> hs1 = hs1' /\ hs2 = hs2' /\ e = e'.
Proof.
  intros [_ _ (q & m & Hq & _ & Hc1 & Hc2) Hn1 Hn2] [_ _ (q' & m' & Hq' & _ & Hc1' & Hc2') Hn1' Hn2'].
  rewrite Hq in Hq'. injection Hq' as <-. unfold len in *.
  destruct (rr_chain_det _ _ _ _ _ _ Hc1 Hc1') as [-> <-]; [lia|].
  destruct (rr_chain_det _ _ _ _ _ _ Hc2 Hc2') as [-> <-]; [lia|done].
Qed.

(** A response that still has room for the option's header pads to one of
    the listed boundaries. *)
Lemma padded_len_boundary n :
  padded_len n + 4 <= DNS_MAX_PACKET_SIZE -> In (padded_len n) BOUNDARIES.
Proof.
  unfold padded_len. destruct (List.find _ BOUNDARIES) as [b|] eqn:Hb; [|lia].
  by apply List.find_some in Hb as [Hin _].
Qed.

Lemma pad_packet_message base hs1 pre off :
  message base hs1 (pre ++ [off]) (len base) ->
  padded_len (len base) + 4 <= DNS_MAX_PACKET_SIZE ->
  message (pad_packet base off) hs1 (pre ++ [off]) (len (pad_packet base off)) /\
  List.filter (is_opt (pad_packet base off)) (pre ++ [off]) =
    List.filter (is_opt base) (pre ++ [off]) /\
  len (pad_packet base off) - 4 = padded_len (len base).
Proof.
  intros Hm Hpl. pose proof (message_headers _ _ _ _ Hm) as [_ [_ Hh%Forall_app]%Forall_app].
  destruct Hh as [_ Hh%Forall_inv]. cbn beta in Hh.
  pose proof (message_len _ _ _ _ Hm) as Hlen. unfold DNS_MAX_PACKET_SIZE, DNS_HEADER_SIZE in *.
  assert (len base <= padded_len (len base)) by (apply padded_len_spec; unfold DNS_MAX_PACKET_SIZE; lia).
  set (pad := padded_len (len base) - len base).
  assert (pad_packet base off = grow_last base off (padding_option pad)) as ->.
  { unfold pad_packet, grow_last. by rewrite len_padding_option by lia. }
  pose proof (len_padding_option pad ltac:(lia)) as Hpo.
  destruct (message_grow_last base hs1 pre off (padding_option pad) Hm) as (H1 & H2 & H3).
  - unfold rr_rdlen in *. lia.
  - unfold DNS_MAX_PACKET_SIZE. lia.
  - split; [done|]. split; [done|]. lia.
Qed.
End uniqueness.

Section totality.
Context `{BO : ByteOrder}.

Lemma set_edns_returns v p :
  0 <= v <= u16_max -> returns_from (set_edns_max_payload_size v) p (fun _ _ => True).
Proof.
  intros Hv. pose proof (u16at_bounds p 6). pose proof (u16at_bounds p 8).
  pose proof (u16at_bounds p 10).
  unfold set_edns_max_payload_size, qdcount, ancount, nscount, arcount.
  unfold DNS_OFFSET_QUESTION, DNS_HEADER_SIZE.
  apply returns_from_bind, returns_from_current.
  apply returns_from_bind, returns_from_lift, returns_ensure. intros; bool_to_prop.
  apply returns_from_bind, returns_from_lift, returns_ensure. intros; bool_to_prop.
  apply returns_from_bind, returns_from_lift. rewrite read_u16_ok by lia. cbn [returns].
  apply returns_from_bind, returns_from_lift, returns_ensure. intros Hqd; bool_to_prop.
  apply returns_from_bind, returns_from_lift.
  eapply returns_mono; [apply skip_name_returns; lia|]. intros q Hq Hqb; cbn beta in Hqb.
  apply returns_from_bind, returns_from_lift. cmp_simpl. cbn [assert_ returns].
  apply returns_from_bind, returns_from_lift, returns_usub; [lia|].
  apply returns_from_bind, returns_from_lift, returns_ensure. intros; bool_to_prop.
  do 3 (apply returns_from_bind, returns_from_lift; rewrite read_u16_ok by lia; cbn [returns]).
  apply returns_from_bind, returns_from_lift.
  eapply returns_mono; [apply traverse_rrs_returns; (lia || done)|].
  intros [m []] Hm Hmb; cbn beta in Hmb.
  apply returns_from_bind. eapply returns_from_mono.
  { apply traverse_rrs_mut_returns; [lia|lia|done|].
    intros. by apply set_payload_cb_returns. }
  intros [e [|]] p1 Ht [Heb Hlb]; [done|].
  eapply returns_from_mono; [apply add_edns_section_returns|done].
  unfold DNS_HEADER_SIZE. lia.
Qed.
End totality.
