(* ===== verification/DnsProps.v ===== *)
(** * Properties of the DNS packet layer

    The theorems about [Dns], with the packets their witnesses evaluate. *)

From S2P Require Import Prelude Bytes Dns DnsFacts.

(** ** Sample packets *)

(** Header of a packet with one question and the given record counts. *)
Definition sample_header (an ns ar : Z) : bytes :=
  [x12; x34; x81; x80] ++ be16 1 ++ be16 an ++ be16 ns ++ be16 ar.

(** The question [a. IN A]. *)
Definition sample_question : bytes := [x01; x61; x00; x00; x01; x00; x01].

(** [a. A 1.2.3.4] with the given TTL, its name a pointer to the question. *)
Definition sample_a (ttl : Z) : bytes :=
  [xc0; x0c; x00; x01; x00; x01] ++ be32 ttl ++ [x00; x04; x01; x02; x03; x04].

(** An answer, no OPT record. *)
Definition sample_response : bytes := sample_header 1 0 0 ++ sample_question ++ sample_a 300.

(** An answer, then an OPT record of payload size 1232. *)
Definition sample_edns : bytes :=
  sample_header 1 0 1 ++ sample_question ++ sample_a 300 ++ opt_rr 1232.

(** The OPT record comes before another additional record. *)
Definition sample_opt_first : bytes :=
  sample_header 0 0 2 ++ sample_question ++ opt_rr 1232 ++ sample_a 300.

(** A response without any record. *)
Definition sample_empty : bytes := sample_header 0 0 0 ++ sample_question.

Ltac message_run q m :=
  split; [by vm_compute|done| |done|done];
  exists q, m; split_and!; [done|by vm_compute| |];
  repeat (econstructor; [vm_compute; reflexivity|by vm_compute|]); constructor.

Lemma sample_response_message : message sample_response [21] [] (len sample_response).
Proof. message_run 15 35. Qed.

Lemma sample_edns_message : message sample_edns [21] [36] (len sample_edns).
Proof. message_run 15 35. Qed.

Lemma sample_opt_first_message : message sample_opt_first [] [20; 32] (len sample_opt_first).
Proof. message_run 15 19. Qed.

Lemma sample_empty_message : message sample_empty [] [] (len sample_empty).
Proof. message_run 15 19. Qed.

Section properties.
Context `{BO : ByteOrder}.

(** C29: no packet, however malformed, makes the packet functions panic
    (index or slice out of range, failed assertion, subtraction below
    zero) or loop: the TTL extraction, the EDNS rewriting of queries and
    the padding of responses all come back with a result or an error. *)
Theorem packet_functions_total (p : bytes) (v mn mx ft : Z) :
  0 <= v <= u16_max ->
  total (min_ttl p mn mx ft) /\
  returns_from (set_edns_max_payload_size v) p (fun _ _ => True) /\
  returns_from add_edns_padding p (fun _ _ => True).
Proof.
  intros Hv. split_and!; [apply min_ttl_total|by apply set_edns_returns|].
  eapply returns_from_mono; [apply add_edns_padding_returns|done].
Qed.

(** [skip_name] accepts exactly the names of DNS wire format (labels
    below 64 octets ended by the root label or by a pointer, at most 256
    octets, inside the packet) and returns the offset just after the name;
    it never panics or loops. *)
Theorem skip_name_spec (p : bytes) (o : Z) :
  0 <= o -> 1 <= len p ->
  total (skip_name p o) /\
  forall e, skip_name p o = Ok e <->
    o < len p - 1 /\ exists n, wire_name p o n e /\ n <= DNS_MAX_HOSTNAME_SIZE.
Proof.
  intros Ho Hl. split; [by eapply returns_total, skip_name_returns|].
  intros e. by apply skip_name_Ok.
Qed.

(** C27: [min_ttl] succeeds exactly on packets with one question and at least
    one record, every record well-formed and the last one ending the
    packet; it returns the least TTL of the records other than OPT, not
    more than [max_ttl] and not less than [min_ttl]. The TTL for failures
    is never returned: a response without records is an error. *)
Theorem min_ttl_spec (p : bytes) (mn mx ft t : Z) :
  min_ttl p mn mx ft = Ok t <->
  exists hs1 hs2, message p hs1 hs2 (len p) /\ hs1 ++ hs2 <> [] /\
    t = Z.max mn (lowest_ttl p (hs1 ++ hs2) mx).
Proof. apply min_ttl_Ok. Qed.

(** [set_edns_max_payload_size] on a query that ends with its last record. *)
Lemma set_edns_message (p p' : bytes) (hs1 hs2 : list Z) (v : Z) :
  message p hs1 hs2 (len p) -> 0 <= v <= u16_max ->
  set_edns_max_payload_size v p = (Ok tt, p') ->
  exists hs2' h, message p' hs1 hs2' (len p') /\
    List.filter (is_opt p') hs2' = [h] /\ rr_class p' h = v.
Proof.
  intros Hm Hv (hs1' & hs2' & e & Hm' & Hs)%set_edns_Ok; [|done].
  destruct (message_det _ _ _ _ _ _ _ Hm Hm') as (<- & <- & <-). unfold edns_set in Hs.
  destruct (List.filter (is_opt p) hs2) as [|h [|]] eqn:Hf; [| |done].
  - destruct Hs as (Hl & Hc & ->).
    destruct (message_with_opt v p hs1 hs2) as (Hw & Hfw & Hcw); [done..|].
    exists (hs2 ++ [len p + 1]), (len p + 1). by rewrite Hfw, Hf.
  - assert (In h hs2) as Hin by (apply (List.filter_In (is_opt p)); rewrite Hf; by left).
    destruct (message_put_class p hs1 hs2 (len p) h v) as (Hw & Hfw & Hcw); [done..|].
    pose proof (message_headers _ _ _ _ Hm) as [_ [_ Hh]%Forall_app].
    rewrite List.Forall_forall in Hh. specialize (Hh h Hin). cbn in Hh.
    unfold rr_rdlen in Hh. pose proof (u16at_bounds p (h + 8)).
    subst p'. exists hs2, h. rewrite len_put_u16 by lia. by rewrite Hfw, Hf.
Qed.

Lemma set_edns_succeeds (p : bytes) (hs1 hs2 : list Z) (v : Z) :
  message p hs1 hs2 (len p) -> 0 <= v <= u16_max ->
  ((exists p', set_edns_max_payload_size v p = (Ok tt, p')) <->
   match List.filter (is_opt p) hs2 with
   | [] => len p + 11 <= DNS_MAX_PACKET_SIZE /\ len hs2 < 65535
   | [_] => True
   | _ => False
   end).
Proof.
  intros Hm Hv. pose proof (message_counts2 _ _ _ _ Hm) as Hn2. split.
  - intros (p' & (hs1' & hs2' & e & Hm' & Hs)%set_edns_Ok); [|done].
    destruct (message_det _ _ _ _ _ _ _ Hm Hm') as (<- & <- & <-). unfold edns_set in Hs.
    destruct (List.filter (is_opt p) hs2) as [|h [|]]; [|done|done]. lia.
  - intros Hok. assert (exists p', edns_set v p p' hs2) as [p' Hs].
    { unfold edns_set. destruct (List.filter (is_opt p) hs2) as [|h [|]];
        [|by eexists|done]. exists (with_opt v p). split_and!; done || lia. }
    exists p'. apply set_edns_Ok; [done|]. by exists hs1, hs2, (len p).
Qed.

(** C26: on a query that ends with its last record,
    [set_edns_max_payload_size] succeeds exactly when there is at most one
    OPT record and, if there is none, room for one; the result is again
    such a message, its answer and authority records in place, with exactly
    one OPT record, whose payload size is the requested one. *)
Theorem set_edns_spec (p : bytes) (hs1 hs2 : list Z) (v : Z) :
  message p hs1 hs2 (len p) -> 0 <= v <= u16_max ->
  (forall p', set_edns_max_payload_size v p = (Ok tt, p') ->
     exists hs2' h, message p' hs1 hs2' (len p') /\
       List.filter (is_opt p') hs2' = [h] /\ rr_class p' h = v) /\
  ((exists p', set_edns_max_payload_size v p = (Ok tt, p')) <->
   match List.filter (is_opt p) hs2 with
   | [] => len p + 11 <= DNS_MAX_PACKET_SIZE /\ len hs2 < 65535
   | [_] => True
   | _ => False
   end).
Proof.
  intros Hm Hv. split; [intros p' Hp; by eapply set_edns_message|by apply (set_edns_succeeds p hs1 hs2)].
Qed.

(** C28: on a response that ends with its last record and whose OPT record,
    if it has one, is that last record, a successful [add_edns_padding]
    leaves a message with exactly one OPT record, its last record, grown by
    one padding option with which the packet ends. Its length is one of the
    boundaries plus the four octets of the option's header. *)
Theorem add_edns_padding_spec (p p' : bytes) (hs1 hs2 : list Z) :
  message p hs1 hs2 (len p) ->
  List.filter (is_opt p) hs2 = [] \/
    (exists pre h, hs2 = pre ++ [h] /\ List.filter (is_opt p) hs2 = [h]) ->
  add_edns_padding p = (Ok tt, p') ->
  exists pre h pad, message p' hs1 (pre ++ [h]) (len p') /\
    List.filter (is_opt p') (pre ++ [h]) = [h] /\
    (exists q, p' = q ++ padding_option pad) /\
    In (len p' - 4) BOUNDARIES.
Proof.
  intros Hm Hlast Hp. pose proof (add_edns_padding_returns p) as Hr.
  unfold returns_from in Hr. rewrite Hp in Hr.
  destruct Hr as (hs1' & hs2' & e & base & off & Hm' & Hb & Ho & Hob & Hlb & Hc & -> & Hpl).
  destruct (message_det _ _ _ _ _ _ _ Hm Hm') as (<- & <- & <-).
  assert (exists pre, message base hs1 (pre ++ [off]) (len base) /\
            List.filter (is_opt base) (pre ++ [off]) = [off]) as (pre & Hmb & Hfb).
  { unfold padding_base in Hb. destruct Hlast as [Hf|(pre & h & -> & Hf)]; rewrite Hf in Hb;
      injection Hb as <- <-; [|by exists pre].
    exists hs2. pose proof (len_with_opt DNS_MAX_PACKET_SIZE p) as Hlw.
    assert (len p + 11 <= DNS_MAX_PACKET_SIZE).
    { pose proof (message_len _ _ _ _ Hm). rewrite <- Hlw by lia.
      unfold padded_len in Hpl. destruct (List.find _ _) as [b|] eqn:Hfd; [|lia].
      apply List.find_some in Hfd as [_ Hle]. bool_to_prop. lia. }
    destruct (message_with_opt DNS_MAX_PACKET_SIZE p hs1 hs2) as (Hw & Hfw & _); auto.
    { unfold DNS_MAX_PACKET_SIZE; lia. }
    by rewrite Hfw, Hf. }
  exists pre, off, (padded_len (len base) - len base).
  destruct (pad_packet_message base hs1 pre off Hmb Hpl) as (H1 & H2 & H3).
  rewrite H2. split; [done|]. split; [done|]. split; [by eexists|].
  rewrite H3. by apply padded_len_boundary.
Qed.
End properties.

(** ** Witnesses and examples *)

Lemma packet_functions_total_witness :
  0 <= 1232 <= u16_max /\ total (min_ttl sample_response 10 604800 5).
Proof.
  assert (0 <= 1232 <= u16_max) as Hv by lia. split; [exact Hv|].
  exact (proj1 (packet_functions_total sample_response 1232 10 604800 5 Hv)).
Defined.

Lemma skip_name_spec_witness :
  (0 <= 12 /\ 1 <= len sample_response) /\ skip_name sample_response 12 = Ok 15.
Proof.
  split; [by vm_compute|].
  apply (skip_name_spec sample_response 12); [lia|by vm_compute|].
  split; [by vm_compute|]. exists 3. split; [|by vm_compute].
  apply (wire_label sample_response 12 1 15); [by vm_compute|by vm_compute|].
  apply wire_root; by vm_compute.
Defined.

Lemma set_edns_spec_witness :
  message sample_edns [21] [36] (len sample_edns) /\
  exists p', set_edns_max_payload_size 4096 sample_edns = (Ok tt, p').
Proof.
  split; [apply sample_edns_message|].
  apply (set_edns_spec sample_edns [21] [36] 4096 sample_edns_message); [lia|].
  by vm_compute.
Defined.

(** The sample response of 35 octets, given an OPT record and padded. *)
Definition sample_padded : bytes := pad_packet (with_opt DNS_MAX_PACKET_SIZE sample_response) 36.

Lemma add_edns_padding_spec_witness :
  add_edns_padding sample_response = (Ok tt, sample_padded) /\
  In (len sample_padded - 4) BOUNDARIES.
Proof.
  assert (add_edns_padding sample_response = (Ok tt, sample_padded)) as H
    by (vm_compute; reflexivity).
  split; [exact H|].
  destruct (add_edns_padding_spec sample_response sample_padded [21] []
    sample_response_message (or_introl eq_refl) H) as (pre & h & pad & _ & _ & _ & Hin).
  exact Hin.
Defined.

(** Padding appends its option to the packet, not to the OPT record: when
    another record follows the OPT record, the padded response no longer
    parses, and its TTL extraction fails, although the original response is
    well-formed. *)
Theorem add_edns_padding_misplaced :
  message sample_opt_first [] [20; 32] (len sample_opt_first) /\
  min_ttl sample_opt_first 10 604800 5 = Ok 300 /\
  exists p', add_edns_padding sample_opt_first = (Ok tt, p') /\
    forall mn mx ft, min_ttl p' mn mx ft = Err "Long label"%string.
Proof.
  split; [apply sample_opt_first_message|]. split; [by vm_compute|].
  exists (snd (add_edns_padding sample_opt_first)). split; [by vm_compute|].
  intros. by vm_compute.
Qed.
