(* ===== verification/Text.v ===== *)
(** * Text

    [str] and [String] values are their UTF-8 bytes.  The operations of the
    standard library the source applies to them, with the lemmas the
    components share. *)

From S2P Require Import Prelude Bytes.

(** [u8::to_ascii_lowercase], and the same on a string *)
Definition to_ascii_lowercase (b : byte) : byte :=
  if (65 <=? u8 b) && (u8 b <=? 90) then as_u8 (u8 b + 32) else b.
Definition ascii_lowercase (s : bytes) : bytes := map to_ascii_lowercase s.

(** [a.eq_ignore_ascii_case(b)] *)
Definition eq_ignore_ascii_case (a b : bytes) : bool :=
  bool_decide (ascii_lowercase a = ascii_lowercase b).

(** The bytes [str::trim] removes from ASCII text. *)
Definition is_space (b : byte) : bool :=
  ((9 <=? u8 b) && (u8 b <=? 13)) || (u8 b =? 32).

Fixpoint drop_while {A : Type} (f : A -> bool) (l : list A) : list A :=
  match l with
  | [] => []
  | x :: l' => if f x then drop_while f l' else l
  end.

Definition trim_start (s : bytes) : bytes := drop_while is_space s.
Definition trim_end_matches (f : byte -> bool) (s : bytes) : bytes :=
  rev (drop_while f (rev s)).
Definition trim (s : bytes) : bytes := trim_end_matches is_space (trim_start s).

(** [s.split(c)]: never empty *)
Fixpoint split (c : byte) (s : bytes) : list bytes :=
  match s with
  | [] => [[]]
  | b :: s' =>
      if bool_decide (b = c) then [] :: split c s'
      else match split c s' with
           | [] => [[b]]
           | p :: ps => (b :: p) :: ps
           end
  end.

(** [s.splitn(2, c)] as a pair: the part before the first separator, and the
    part after it if there is one *)
Fixpoint split_once (c : byte) (s : bytes) : bytes * option bytes :=
  match s with
  | [] => ([], None)
  | b :: s' =>
      if bool_decide (b = c) then ([], Some s')
      else let '(p, r) := split_once c s' in (b :: p, r)
  end.

(** [s.starts_with(t)], [s.contains(t)] *)
Fixpoint starts_with (t s : bytes) : bool :=
  match t, s with
  | [], _ => true
  | a :: t', b :: s' => bool_decide (a = b) && starts_with t' s'
  | _ :: _, [] => false
  end.
Fixpoint contains (t s : bytes) : bool :=
  starts_with t s || match s with [] => false | _ :: s' => contains t s' end.

(** [char::to_digit(radix)] for radices up to 16 *)
Definition to_digit (radix : Z) (b : byte) : option Z :=
  let d :=
    if (48 <=? u8 b) && (u8 b <=? 57) then u8 b - 48
    else if (97 <=? u8 b) && (u8 b <=? 102) then u8 b - 87
    else if (65 <=? u8 b) && (u8 b <=? 70) then u8 b - 55
    else radix in
  if d <? radix then Some d else None.

(** Decimal digits of an unsigned integer ([u16], [u32], [u64] printing). *)
Definition digit (d : Z) : byte := as_u8 (48 + d).

Fixpoint decimal_loop (fuel : nat) (n : Z) (acc : bytes) : bytes :=
  match fuel with
  | O => acc
  | S fuel =>
      let acc := digit (n mod 10) :: acc in
      if n / 10 =? 0 then acc else decimal_loop fuel (n / 10) acc
  end.
(** Twenty digits print any 64-bit integer. *)
Definition decimal (n : Z) : bytes := decimal_loop 20 n [].

(** [format!("{:x}", n)] for a 16-bit [n] *)
Definition hex_digit (d : Z) : byte := if d <? 10 then as_u8 (48 + d) else as_u8 (87 + d).
Fixpoint hex_loop (fuel : nat) (n : Z) (acc : bytes) : bytes :=
  match fuel with
  | O => acc
  | S fuel =>
      let acc := hex_digit (n mod 16) :: acc in
      if n / 16 =? 0 then acc else hex_loop fuel (n / 16) acc
  end.
Definition hex (n : Z) : bytes := hex_loop 4 n [].

(** [s.parse::<u16>()] and its siblings with maximum [mx]: an optional plus
    sign, at least one digit, no overflow *)
Fixpoint parse_digits (mx : Z) (s : bytes) (acc : Z) : option Z :=
  match s with
  | [] => Some acc
  | b :: s' =>
      match to_digit 10 b with
      | Some d =>
          let acc := acc * 10 + d in
          if acc <=? mx then parse_digits mx s' acc else None
      | None => None
      end
  end.
Definition parse_uint (mx : Z) (s : bytes) : option Z :=
  match s with
  | [] => None
  | b :: s' =>
      if bool_decide (b = x2b) then match s' with [] => None | _ => parse_digits mx s' 0 end
      else parse_digits mx s 0
  end.

(** ** Lemmas *)

Lemma u8_to_ascii_lowercase (b : byte) :
  u8 (to_ascii_lowercase b) = if (65 <=? u8 b) && (u8 b <=? 90) then u8 b + 32 else u8 b.
Proof. by destruct b. Qed.

Lemma to_ascii_lowercase_idem (b : byte) :
  to_ascii_lowercase (to_ascii_lowercase b) = to_ascii_lowercase b.
Proof. by destruct b. Qed.

Lemma ascii_lowercase_idem (s : bytes) : ascii_lowercase (ascii_lowercase s) = ascii_lowercase s.
Proof.
  unfold ascii_lowercase. induction s as [|b s IH]; [done|]. cbn.
  by rewrite to_ascii_lowercase_idem, IH.
Qed.

Lemma len_ascii_lowercase (s : bytes) : len (ascii_lowercase s) = len s.
Proof. unfold len, ascii_lowercase. by rewrite length_map. Qed.
#[export] Hint Rewrite len_ascii_lowercase : doh_len.

Lemma ascii_lowercase_app (s t : bytes) :
  ascii_lowercase (s ++ t) = ascii_lowercase s ++ ascii_lowercase t.
Proof. apply map_app. Qed.

Lemma split_nonempty (c : byte) (s : bytes) : split c s <> [].
Proof.
  induction s as [|b s IH]; cbn; [done|]. case_bool_decide; [done|].
  by destruct (split c s).
Qed.

(** Splitting a string that does not contain the separator, and one joined
    from pieces that do not. *)
Lemma split_none (c : byte) (s : bytes) : ~ In c s -> split c s = [s].
Proof.
  induction s as [|b s IH]; [done|]. cbn. intros Hn. rewrite bool_decide_false by tauto.
  by rewrite IH by tauto.
Qed.

Lemma split_app (c : byte) (s t : bytes) : ~ In c s -> split c (s ++ c :: t) = s :: split c t.
Proof.
  induction s as [|b s IH]; cbn; intros Hn.
  - by rewrite bool_decide_true.
  - rewrite bool_decide_false by tauto. by rewrite IH by tauto.
Qed.

Lemma starts_with_spec (t s : bytes) : starts_with t s = true <-> exists r, s = t ++ r.
Proof.
  revert s; induction t as [|a t IH]; intros s; cbn.
  - split; [by exists s|done].
  - destruct s as [|b s]; [split; [done|by intros [r Hr]]|].
    rewrite andb_true_iff, bool_decide_eq_true, IH. split.
    + intros [-> [r ->]]. by exists r.
    + intros [r [= -> ->]]. split; [done|by exists r].
Qed.
