(* ===== verification/Net.v ===== *)
(** * Addresses

    [std::net]: IP and socket addresses and the address parser of the
    standard library ([core::net::parser]), which the source applies to
    header values, host names and configuration. *)

From S2P Require Import Prelude Bytes Text.

Inductive IpAddr :=
  | V4 (octets : vec byte 4)
  | V6 (octets : vec byte 16).

#[export] Instance IpAddr_eq_dec : EqDecision IpAddr.
Proof. solve_decision. Defined.

(** The octets of either family. *)
Definition octets (ip : IpAddr) : bytes :=
  match ip with V4 o => vec_to_list o | V6 o => vec_to_list o end.

Definition is_v4 (ip : IpAddr) : bool := match ip with V4 _ => true | V6 _ => false end.

(** The address with the given octets, when their number is right. *)
Definition to_vec (n : nat) (l : bytes) : option (vec byte n) :=
  match decide (length l = n) with
  | left H => Some (eq_rect _ (fun n => vec byte n) (list_to_vec l) _ H)
  | right _ => None
  end.
Definition ipv4_of (l : bytes) : option IpAddr := V4 <$> to_vec 4 l.
Definition ipv6_of (l : bytes) : option IpAddr := V6 <$> to_vec 16 l.

Lemma vec_to_list_to_vec n l v : to_vec n l = Some v -> vec_to_list v = l.
Proof.
  unfold to_vec. destruct (decide _) as [<-|]; [|done]. intros [= <-]. cbn.
  apply stdpp.vector.vec_to_list_to_vec.
Qed.

Lemma to_vec_Some n l : length l = n -> exists v, to_vec n l = Some v.
Proof. intros H. unfold to_vec. destruct (decide _); [by eexists|done]. Qed.

Lemma octets_inj ip ip' : octets ip = octets ip' -> ip = ip'.
Proof.
  intros H. assert (length (octets ip) = length (octets ip')) as Hl by congruence.
  destruct ip, ip'; cbn in *; rewrite ?length_vec_to_list in Hl; try discriminate.
  all: f_equal; by apply vec_to_list_inj2.
Qed.

Lemma len_octets ip : len (octets ip) = if is_v4 ip then 4 else 16.
Proof. unfold len. destruct ip; cbn; by rewrite length_vec_to_list. Qed.

Lemma to_vec_vec n (v : vec byte n) : to_vec n (vec_to_list v) = Some v.
Proof.
  destruct (to_vec_Some n (vec_to_list v)) as [w Hw]; [apply length_vec_to_list|].
  rewrite Hw. f_equal. by apply vec_to_list_inj2, vec_to_list_to_vec.
Qed.

Lemma to_vec_None n l : length l <> n -> to_vec n l = None.
Proof. intros. unfold to_vec. by destruct (decide _). Qed.

Definition ip_of_octets (l : bytes) : option IpAddr :=
  match ipv4_of l with Some ip => Some ip | None => ipv6_of l end.

Lemma ip_of_octets_octets ip : ip_of_octets (octets ip) = Some ip.
Proof.
  unfold ip_of_octets, ipv4_of, ipv6_of. destruct ip as [v|v]; cbn [octets].
  - by rewrite to_vec_vec.
  - rewrite (to_vec_None 4) by by rewrite length_vec_to_list. cbn. by rewrite to_vec_vec.
Qed.

#[export] Instance IpAddr_countable : Countable IpAddr :=
  inj_countable octets ip_of_octets ip_of_octets_octets.

(** [Ipv4Addr::UNSPECIFIED] and [Ipv6Addr::UNSPECIFIED] *)
Definition UNSPECIFIED_V4 : IpAddr := V4 (vreplicate 4 x00).
Definition UNSPECIFIED_V6 : IpAddr := V6 (vreplicate 16 x00).
Definition is_unspecified (ip : IpAddr) : bool := forallb (fun b => u8 b =? 0) (octets ip).

Inductive SocketAddr :=
  | SockV4 (octets : vec byte 4) (port : Z)
  | SockV6 (octets : vec byte 16) (port flowinfo scope_id : Z).

#[export] Instance SocketAddr_eq_dec : EqDecision SocketAddr.
Proof. solve_decision. Defined.

#[export] Instance SocketAddr_countable : Countable SocketAddr.
Proof.
  refine (inj_countable
    (fun a => match a with
     | SockV4 o p => (octets (V4 o), p, 0, 0)
     | SockV6 o p f s => (octets (V6 o), p, f, s)
     end)
    (fun '(o, p, f, s) =>
       match ip_of_octets o with
       | Some (V4 o) => Some (SockV4 o p)
       | Some (V6 o) => Some (SockV6 o p f s)
       | None => None
       end) _).
  intros [o p|o p f s].
  - by rewrite ip_of_octets_octets.
  - by rewrite ip_of_octets_octets.
Defined.

Definition sock_ip (a : SocketAddr) : IpAddr :=
  match a with SockV4 o _ => V4 o | SockV6 o _ _ _ => V6 o end.
Definition sock_port (a : SocketAddr) : Z :=
  match a with SockV4 _ p => p | SockV6 _ p _ _ => p end.

(** [SocketAddr::new(ip, port)] *)
Definition SocketAddr_new (ip : IpAddr) (port : Z) : SocketAddr :=
  match ip with V4 o => SockV4 o port | V6 o => SockV6 o port 0 0 end.

(** ** Printing ([Display]) *)

Definition fmt_ipv4 (o : bytes) : bytes :=
  match o with
  | [a; b; c; d] =>
      decimal (u8 a) ++ [x2e] ++ decimal (u8 b) ++ [x2e] ++ decimal (u8 c) ++ [x2e] ++ decimal (u8 d)
  | _ => []
  end.

(** The eight segments of an IPv6 address. *)
Fixpoint segments (o : bytes) : list Z :=
  match o with a :: b :: o => u8 a * 256 + u8 b :: segments o | _ => [] end.

(** The longest run of zero segments, the first of that length: start and
    length; [i] is the index of the first segment, [run] the run that ends
    before it. *)
Fixpoint longest_zeros (i : nat) (segs : list Z) (longest run : nat * nat) : nat * nat :=
  match segs with
  | [] => longest
  | seg :: segs =>
      if seg =? 0 then
        let run := if (snd run =? 0)%nat then (i, 1%nat) else (fst run, S (snd run)) in
        longest_zeros (S i) segs (if (snd longest <? snd run)%nat then run else longest) run
      else longest_zeros (S i) segs longest (0%nat, 0%nat)
  end.

Fixpoint fmt_subslice (segs : list Z) : bytes :=
  match segs with
  | [] => []
  | [seg] => hex seg
  | seg :: segs => hex seg ++ [x3a] ++ fmt_subslice segs
  end.

Definition fmt_ipv6 (o : bytes) : bytes :=
  if bool_decide (firstn 12 o = repeat x00 10 ++ [xff; xff]) then
    ascii_bytes "::ffff:" ++ fmt_ipv4 (skipn 12 o)
  else
    let segs := segments o in
    let '(start, n) := longest_zeros 0 segs (0%nat, 0%nat) (0%nat, 0%nat) in
    if (1 <? n)%nat then
      fmt_subslice (firstn start segs) ++ ascii_bytes "::" ++ fmt_subslice (skipn (start + n) segs)
    else fmt_subslice segs.

Definition fmt_socket_addr (a : SocketAddr) : bytes :=
  match a with
  | SockV4 o port => fmt_ipv4 (vec_to_list o) ++ [x3a] ++ decimal port
  | SockV6 o port _ scope_id =>
      [x5b] ++ fmt_ipv6 (vec_to_list o) ++
      (if scope_id =? 0 then [] else x25 :: decimal scope_id) ++ [x5d; x3a] ++ decimal port
  end.

Example fmt_ipv6_run : fmt_ipv6 (repeat x00 15 ++ [x01]) = ascii_bytes "::1".
Proof. by vm_compute. Qed.
Example fmt_ipv6_mapped :
  fmt_ipv6 (repeat x00 10 ++ [xff; xff; x01; x02; x03; x04]) = ascii_bytes "::ffff:1.2.3.4".
Proof. by vm_compute. Qed.
Example fmt_ipv6_first_run :
  fmt_ipv6 [x20; x01; x0d; xb8; x00; x00; x00; x00; x00; x01; x00; x00; x00; x00; x00; x01]
  = ascii_bytes "2001:db8::1:0:0:1".
Proof. by vm_compute. Qed.

(** ** The parser

    A parser takes the rest of the input; on failure it consumes nothing
    ([read_atomically]). *)
Definition parser (A : Type) : Type := bytes -> option (A * bytes).

Definition read_given_char (c : byte) : parser unit := fun s =>
  match s with
  | b :: s' => if bool_decide (b = c) then Some (tt, s') else None
  | [] => None
  end.

(** The digits at the front, at most [max_digits] of them: an error when
    there are more. *)
Fixpoint read_digits (radix max_digits : Z) (count value : Z) (s : bytes)
    : option (Z * Z * bytes) :=
  match s with
  | b :: s' =>
      match to_digit radix b with
      | Some d =>
          if max_digits <? count + 1 then None
          else read_digits radix max_digits (count + 1) (value * radix + d) s'
      | None => Some (count, value, s)
      end
  | [] => Some (count, value, s)
  end.

(** [read_number(radix, Some(max_digits), allow_zero_prefix)] into an integer
    type with maximum [mx] *)
Definition read_number (radix max_digits : Z) (allow_zero_prefix : bool) (mx : Z) : parser Z :=
  fun s =>
    let has_leading_zero := match s with b :: _ => bool_decide (b = x30) | [] => false end in
    match read_digits radix max_digits 0 0 s with
    | Some (count, value, s') =>
        if count =? 0 then None
        else if negb allow_zero_prefix && has_leading_zero && (1 <? count) then None
        else if value <=? mx then Some (value, s') else None
    | None => None
    end.

(** [read_separator(sep, index, inner)] *)
Definition read_separator {A : Type} (sep : byte) (index : nat) (inner : parser A) : parser A :=
  fun s =>
    match index with
    | O => inner s
    | S _ => match read_given_char sep s with Some (_, s') => inner s' | None => None end
    end.

Fixpoint read_octets (n index : nat) (s : bytes) : option (bytes * bytes) :=
  match n with
  | O => Some ([], s)
  | S n =>
      match read_separator x2e index (read_number 10 3 false 255) s with
      | Some (v, s') =>
          match read_octets n (S index) s' with
          | Some (vs, s'') => Some (as_u8 v :: vs, s'')
          | None => None
          end
      | None => None
      end
  end.

(** [read_ipv4_addr]: four octets *)
Definition read_ipv4_addr : parser bytes := read_octets 4 0.

(** [read_groups(p, &mut groups)] where [groups] has [limit] slots: the
    octets of the groups read, whether they end in an IPv4 address, and the
    rest of the input. *)
Fixpoint read_groups (fuel : nat) (limit i : nat) (s : bytes) : bytes * bool * bytes :=
  match fuel with
  | O => ([], false, s)
  | S fuel =>
      let ipv4 :=
        if (S i <? limit)%nat then read_separator x3a i read_ipv4_addr s else None in
      match ipv4 with
      | Some (v4_addr, s') => (v4_addr, true, s')
      | None =>
          match read_separator x3a i (read_number 16 4 true u16_max) s with
          | Some (g, s') =>
              let '(gs, v4, s'') := read_groups fuel limit (S i) s' in
              (be16 g ++ gs, v4, s'')
          | None => ([], false, s)
          end
      end
  end.

Definition read_ipv6_addr : parser bytes := fun s =>
  let '(head, head_ipv4, s) := read_groups 8 8 0 s in
  if (length head =? 16)%nat then Some (head, s)
  else if (head_ipv4 : bool) then None
  else
    match read_given_char x3a s with
    | Some (_, s) =>
        match read_given_char x3a s with
        | Some (_, s) =>
            let limit := (8 - (length head / 2 + 1))%nat in
            let '(tail, _, s) := read_groups limit limit 0 s in
            Some (head ++ replicate (16 - length head - length tail) x00 ++ tail, s)
        | None => None
        end
    | None => None
    end.

(** [s.parse::<IpAddr>()] *)
Definition parse_ip (s : bytes) : option IpAddr :=
  match read_ipv4_addr s with
  | Some (v4, s') => match s' with [] => ipv4_of v4 | _ => None end
  | None =>
      match read_ipv6_addr s with
      | Some (v6, s') => match s' with [] => ipv6_of v6 | _ => None end
      | None => None
      end
  end.

Example parse_ip_v4 : octets <$> parse_ip (ascii_bytes "192.168.1.1") = Some [xc0; xa8; x01; x01].
Proof. by vm_compute. Qed.
Example parse_ip_octal : parse_ip (ascii_bytes "192.168.01.1") = None.
Proof. by vm_compute. Qed.
Example parse_ip_v6 :
  octets <$> parse_ip (ascii_bytes "2001:db8::1.2.3.4") =
  Some ([x20; x01; x0d; xb8] ++ replicate 8 x00 ++ [x01; x02; x03; x04]).
Proof. by vm_compute. Qed.
Example parse_ip_v6_full :
  octets <$> parse_ip (ascii_bytes "1:2:3:4:5:6:7:8") =
  Some [x00;x01;x00;x02;x00;x03;x00;x04;x00;x05;x00;x06;x00;x07;x00;x08].
Proof. by vm_compute. Qed.
Example parse_ip_v6_any : parse_ip (ascii_bytes "::") = Some UNSPECIFIED_V6.
Proof. by vm_compute. Qed.
Example parse_ip_v6_long : parse_ip (ascii_bytes "1:2:3:4:5:6:7::8") = None.
Proof. by vm_compute. Qed.
