(* ===== verification/Headers.v ===== *)
(** * HTTP headers

    The header map of the [hyper]/[http] crates is not part of the
    repository: it is the class [HeaderApi], whose laws are the documented
    behaviour of [HeaderMap::get], [HeaderValue::as_bytes] and
    [HeaderValue::to_str].
    [assoc_headers] is a concrete instance. *)

From S2P Require Import Prelude Bytes Text.

(** The characters [HeaderValue::to_str] accepts: visible ASCII and tab. *)
Definition visible (b : byte) : bool := ((32 <=? u8 b) && (u8 b <=? 126)) || (u8 b =? 9).

Class HeaderApi := {
  HeaderMap : Type;
  HeaderValue : Type;
  (** [headers.get(name)], with a lower-case name: the first value *)
  header_get : HeaderMap -> bytes -> option HeaderValue;
  (** [value.as_bytes()] *)
  header_as_bytes : HeaderValue -> bytes;
  (** [value.to_str().ok()] *)
  header_to_str : HeaderValue -> option bytes;
  header_to_str_visible : forall v,
    header_to_str v = if forallb visible (header_as_bytes v) then Some (header_as_bytes v) else None
}.

(** [headers.get(name)] and then [to_str().ok()]: the value as text *)
Definition header_str `{HeaderApi} (hs : HeaderMap) (name : bytes) : option bytes :=
  v ← header_get hs name; header_to_str v.

Definition assoc_get (hs : list (bytes * bytes)) (name : bytes) : option bytes :=
  snd <$> List.find (fun '(n, _) => bool_decide (ascii_lowercase n = name)) hs.
Definition assoc_to_str (v : bytes) : option bytes :=
  if forallb visible v then Some v else None.

#[export] Instance assoc_headers : HeaderApi :=
  {| header_get := assoc_get; header_as_bytes := fun v => v; header_to_str := assoc_to_str;
     header_to_str_visible := fun v => eq_refl |}.
