(* ===== verification/Ecs.v ===== *)
(** * EDNS Client Subnet: src/libdoh/src/edns_ecs.rs

    Choosing the client's address, the option it is sent in, and inserting
    that option into the OPT record of a query.

    The walk over the additional records runs [arcount] turns; the walk over
    the options advances by at least four octets per turn up to the record's
    data length, so [S rdlength] turns of fuel are enough. *)

From S2P Require Import Prelude Bytes Text Net Headers Dns.

Definition EDNS_CLIENT_SUBNET : Z := 8.
Definition FAMILY_IPV4 : Z := 1.
Definition FAMILY_IPV6 : Z := 2.

(** ** The client's address *)
Section client.
Context `{HA : HeaderApi}.

Definition extract_client_ip (headers : HeaderMap) (remote_addr : option SocketAddr)
    : option IpAddr :=
  let from_xff :=
    xff_str ← header_str headers (ascii_bytes "x-forwarded-for");
    first_ip ← head (split x2c xff_str);
    parse_ip (trim first_ip) in
  match from_xff with
  | Some ip => Some ip
  | None =>
      let from_xri :=
        xri_str ← header_str headers (ascii_bytes "x-real-ip");
        parse_ip xri_str in
      match from_xri with
      | Some ip => Some ip
      | None => sock_ip <$> remote_addr
      end
  end.
End client.

(** ** The option *)
Definition build_ecs_option (client_ip : IpAddr) (prefix_v4 prefix_v6 : Z) : bytes :=
  match client_ip with
  | V4 addr =>
      let bytes_to_send := div_ceil prefix_v4 8 in
      be16 FAMILY_IPV4 ++ [as_u8 prefix_v4] ++ [x00] ++
      firstn (Z.to_nat (Z.min bytes_to_send 4)) (vec_to_list addr)
  | V6 addr =>
      let bytes_to_send := div_ceil prefix_v6 8 in
      be16 FAMILY_IPV6 ++ [as_u8 prefix_v6] ++ [x00] ++
      firstn (Z.to_nat (Z.min bytes_to_send 16)) (vec_to_list addr)
  end.

Section insert.
Context `{BO : ByteOrder}.

(** The loop over the additional records: the offset of the RDLENGTH field of
    the first OPT record with a root name, and that length. *)
Fixpoint find_opt_record (packet : bytes) (packet_len : Z) (arcount : nat) (offset : Z)
    : outcome Error (option (Z * Z * Z)) :=
  match arcount with
  | O => Ok None
  | S arcount =>
      let rr_start := offset in
      rtype ←
        (if offset <? packet_len then
           b ← index packet offset;
           if u8 b =? 0 then
             rtype ← read_u16_in packet (offset + 1) (offset + 3); Ok (Some rtype)
           else Ok None
         else Ok None);
      if bool_decide (rtype = Some DNS_TYPE_OPT) then
        let rdlength_offset := offset + 9 in
        rdlength ← read_u16_in packet rdlength_offset (rdlength_offset + 2);
        Ok (Some (rr_start, rdlength_offset, rdlength))
      else
        offset ← skip_name packet offset;
        ensure (offset + 10 <=? packet_len) "Incomplete RR"%string;;
        rdlen ← read_u16_in packet (offset + 8) (offset + 10);
        find_opt_record packet packet_len arcount (offset + (10 + rdlen))
  end.

(** The loop over the options of the record: is one a client subnet? *)
Fixpoint find_ecs (fuel : nat) (packet : bytes) (packet_len rdata_start rdlength : Z)
    (rdata_offset : Z) : outcome Error bool :=
  match fuel with
  | O => Diverge
  | S fuel =>
      if rdata_offset <? rdlength then
        if packet_len <? rdata_start + rdata_offset + 4 then Ok false
        else
          opt_code ← read_u16 packet (rdata_start + rdata_offset);
          opt_len ← read_u16 packet (rdata_start + rdata_offset + 2);
          if packet_len <? rdata_start + rdata_offset + 4 + opt_len then Ok false
          else if opt_code =? EDNS_CLIENT_SUBNET then Ok true
          else find_ecs fuel packet packet_len rdata_start rdlength
                 (rdata_offset + (4 + opt_len))
      else Ok false
  end.

Definition ecs_option (ecs_data : bytes) : bytes :=
  be16 EDNS_CLIENT_SUBNET ++ be16 (as_u16 (len ecs_data)) ++ ecs_data.

Definition add_ecs_to_packet (client_ip : IpAddr) (prefix_v4 prefix_v6 : Z)
    : mutates bytes Error unit :=
  packet ← current;
  let packet_len := len packet in
  lift (ensure (12 <=? packet_len) "DNS packet too short"%string);;
  lift (ensure (packet_len <=? 4096) "Packet too large"%string);;
  qd ← lift (qdcount packet);
  lift (ensure (qd =? 1) "No question"%string);;
  offset ← lift (skip_name packet 12);
  rest ← lift (usub packet_len offset);
  lift (ensure (4 <=? rest) "Short packet"%string);;
  let offset := offset + 4 in
  ancount ← lift (ancount packet);
  nscount ← lift (read_u16_in packet 8 10);
  arcount ← lift (arcount packet);
  lift (ensure (0 <? arcount) "No EDNS OPT record found"%string);;
  '(offset, _) ←
    lift (traverse_rrs packet offset (Z.to_nat (ancount + nscount)) (fun _ _ => Ok tt) tt);
  opt_record_info ←
    lift (find_opt_record packet packet_len (Z.to_nat arcount) offset);
  '(_, rdlength_offset, rdlength) ←
    lift (ok_or opt_record_info "No EDNS OPT record found"%string);
  let rdata_start := rdlength_offset + 2 in
  has_ecs ←
    lift (find_ecs (S (Z.to_nat rdlength)) packet packet_len rdata_start rdlength 0);
  if (has_ecs : bool) then mret tt
  else
    let ecs_data := build_ecs_option client_ip prefix_v4 prefix_v6 in
    let ecs_option := ecs_option ecs_data in
    let new_rdlength := rdlength + len ecs_option in
    update (fun packet =>
      write_u16_in packet rdlength_offset (rdlength_offset + 2) (as_u16 new_rdlength));;
    packet ← current;
    let old_rdata_end := rdata_start + rdlength in
    remaining ← lift (if old_rdata_end <? packet_len then slice_from packet old_rdata_end
                      else Ok []);
    update (fun packet => Ok (truncate packet old_rdata_end ++ ecs_option ++ remaining)).
End insert.
