(* ===== verification/EcsFacts.v ===== *)
(** * What the client-subnet code guarantees

    Inserting an option into a record that need not be the last one, and the
    properties of [Ecs]. *)

From S2P Require Import Prelude Bytes Text Net Headers Dns DnsFacts Ecs.

(** ** Insertion *)
Definition insert_at (p : bytes) (i : Z) (d : bytes) : bytes :=
  firstn (Z.to_nat i) p ++ d ++ skipn (Z.to_nat i) p.

Lemma len_insert_at p i d : 0 <= i <= len p -> len (insert_at p i d) = len p + len d.
Proof.
  intros. unfold insert_at. doh_simpl. rewrite len_firstn, len_skipn by lia. lia.
Qed.

Lemma get_insert_before p i d j : 0 <= j < i -> i <= len p -> get (insert_at p i d) j = get p j.
Proof.
  intros. unfold insert_at. rewrite get_app_l by (rewrite len_firstn; lia).
  by apply get_firstn.
Qed.

Lemma get_insert_in p i d j :
  0 <= i <= len p -> 0 <= j < len d -> get (insert_at p i d) (i + j) = get d j.
Proof.
  intros. unfold insert_at. rewrite get_app_r by (rewrite len_firstn; lia).
  rewrite len_firstn by lia. rewrite get_app_l by lia. f_equal. lia.
Qed.

Lemma get_insert_after p i d j :
  0 <= i <= len p -> i <= j -> get (insert_at p i d) (j + len d) = get p j.
Proof.
  intros. pose proof (len_nonneg d). unfold insert_at. rewrite get_app_r by (rewrite len_firstn; lia).
  rewrite len_firstn by lia. rewrite get_app_r by lia.
  rewrite get_skipn by lia. f_equal. lia.
Qed.

Section shifting.
Context `{BO : ByteOrder}.

(** What lies after an insertion is found again, shifted. *)
Lemma wire_name_shift p p' k o n e :
  wire_name p o n e -> len p' = len p + k ->
  (forall i, o <= i -> get p' (i + k) = get p i) -> wire_name p' (o + k) n (e + k).
Proof.
  intros H Hl. induction H as [o Hb Ho|o Hb Ho|o n e Hb Ho H IH]; intros Hag;
    assert (u8at p' (o + k) = u8at p o) as Heq by (unfold u8at; rewrite Hag; [done|lia]).
  - replace (o + 2 + k) with (o + k + 2) by lia. apply wire_pointer; lia.
  - replace (o + 1 + k) with (o + k + 1) by lia. apply wire_root; lia.
  - rewrite <- Heq in *. apply wire_label; [lia..|].
    replace (o + k + (u8at p' (o + k) + 1)) with (o + (u8at p' (o + k) + 1) + k) by lia.
    apply IH. intros; apply Hag. lia.
Qed.

Lemma skip_name_shift p p' k o e :
  0 <= o -> 0 <= k -> skip_name p o = Ok e -> len p' = len p + k ->
  (forall i, o <= i -> get p' (i + k) = get p i) -> skip_name p' (o + k) = Ok (e + k).
Proof.
  intros Ho Hk. rewrite !skip_name_Ok by lia. intros (Hlt & n & Hn & Hle) Hl Hag.
  split; [lia|]. exists n. split; [|done]. by eapply wire_name_shift.
Qed.

Lemma rr_chain_shift p p' k o hs e :
  rr_chain p o hs e -> 0 <= o -> 0 <= k -> len p' = len p + k ->
  (forall i, o <= i -> get p' (i + k) = get p i) ->
  rr_chain p' (o + k) (map (fun h => h + k) hs) (e + k).
Proof.
  induction 1 as [|o h hs e Hs Hl H IH]; intros Ho Hk Hlen Hag; [constructor|].
  pose proof (skip_name_Ok_bounds _ _ _ Ho Hs). pose proof (u16at_bounds p (h + 8)).
  assert (u16at p' (h + k + 8) = u16at p (h + 8)) as Heq.
  { unfold u16at, u8at. replace (h + k + 8) with (h + 8 + k) by lia.
    replace (h + 8 + k + 1) with (h + 8 + 1 + k) by lia. rewrite !Hag by lia. done. }
  cbn [map]. econstructor.
  - by eapply skip_name_shift.
  - rewrite Heq. lia.
  - rewrite Heq. replace (h + k + 10 + u16at p (h + 8)) with (h + 10 + u16at p (h + 8) + k) by lia.
    apply IH; [lia..|]. intros; apply Hag. lia.
Qed.

(** Growing the record at [h] by [d], with the records after it shifted. *)
Definition grow_record (p : bytes) (h : Z) (d : bytes) : bytes :=
  insert_at (put_u16 p (h + 8) (rr_rdlen p h + len d)) (h + 10 + rr_rdlen p h) d.

Section grow.
Context (p d : bytes) (h : Z) (Hh : 0 <= h) (Hfit : h + 10 + rr_rdlen p h <= len p)
  (Hlen : rr_rdlen p h + len d <= u16_max).

Lemma len_grow_record : len (grow_record p h d) = len p + len d.
Proof using Hh Hfit Hlen.
  unfold rr_rdlen in *. pose proof (u16at_bounds p (h + 8)). pose proof (len_nonneg d).
  unfold grow_record, rr_rdlen. by rewrite len_insert_at, len_put_u16 by (rewrite ?len_put_u16; lia).
Qed.

Lemma get_grow_record_before i :
  0 <= i < h + 10 + rr_rdlen p h -> i < h + 8 \/ h + 10 <= i ->
  get (grow_record p h d) i = get p i.
Proof using Hh Hfit Hlen.
  unfold rr_rdlen in *. pose proof (u16at_bounds p (h + 8)). intros Hi Ho.
  unfold grow_record, rr_rdlen. rewrite get_insert_before by (rewrite ?len_put_u16; lia).
  apply get_put_u16_other; lia.
Qed.

Lemma get_grow_record_data i :
  0 <= i < len d -> get (grow_record p h d) (h + 10 + rr_rdlen p h + i) = get d i.
Proof using Hh Hfit Hlen.
  unfold rr_rdlen in *. pose proof (u16at_bounds p (h + 8)). intros Hi.
  unfold grow_record, rr_rdlen. apply get_insert_in; rewrite ?len_put_u16; lia.
Qed.

Lemma get_grow_record_after i :
  h + 10 + rr_rdlen p h <= i -> get (grow_record p h d) (i + len d) = get p i.
Proof using Hh Hfit Hlen.
  unfold rr_rdlen in *. pose proof (u16at_bounds p (h + 8)). intros Hi.
  unfold grow_record, rr_rdlen. rewrite get_insert_after by (rewrite ?len_put_u16; lia).
  apply get_put_u16_other; lia.
Qed.

Lemma rdlen_grow_record : u16at (grow_record p h d) (h + 8) = rr_rdlen p h + len d.
Proof using Hh Hfit Hlen.
  unfold rr_rdlen in *. pose proof (u16at_bounds p (h + 8)). pose proof (len_nonneg d).
  assert (forall q, u16at q (h + 8) = u8at q (h + 8) * 256 + u8at q (h + 8 + 1)) as Hu by done.
  unfold grow_record, rr_rdlen. rewrite Hu. unfold u8at.
  rewrite !get_insert_before by (rewrite ?len_put_u16; lia).
  change (u16at (put_u16 p (h + 8) (u16at p (h + 8) + len d)) (h + 8) = u16at p (h + 8) + len d).
  apply u16at_put_u16; lia.
Qed.

(** A chain through the record becomes a chain through the grown one. *)
Lemma rr_chain_grow_record o pre post e :
  rr_chain p o (pre ++ h :: post) e -> 0 <= o <= len p ->
  rr_chain (grow_record p h d) o (pre ++ h :: map (fun x => x + len d) post) (e + len d).
Proof using Hh Hfit Hlen.
  intros Hc Ho. pose proof (len_nonneg d). pose proof len_grow_record as Hgl.
  pose proof (u16at_bounds p (h + 8)).
  apply rr_chain_app_inv in Hc as (k & Hc1 & Hc2).
  pose proof (rr_chain_bounds _ _ _ _ Hc1 Ho).
  inversion Hc2 as [|? ? ? ? Hs Hl Hpost]; subst.
  pose proof (skip_name_Ok_bounds p k h ltac:(lia) Hs). unfold rr_rdlen in *.
  eapply rr_chain_app.
  - eapply rr_chain_agree; [exact Hc1|lia|lia|].
    intros. apply get_grow_record_before; unfold rr_rdlen; lia.
  - econstructor.
    + eapply skip_name_agree; [lia|exact Hs|lia|].
      intros. apply get_grow_record_before; unfold rr_rdlen; lia.
    + rewrite rdlen_grow_record. unfold rr_rdlen. lia.
    + rewrite rdlen_grow_record. unfold rr_rdlen.
      replace (h + 10 + (u16at p (h + 8) + len d)) with (h + 10 + u16at p (h + 8) + len d) by lia.
      eapply rr_chain_shift; [exact Hpost|lia|lia|done|].
      intros. apply get_grow_record_after. unfold rr_rdlen. lia.
Qed.
End grow.
End shifting.

Section ecs_packet.
Context `{BO : ByteOrder}.

Lemma message_grow_record p d h hs1 pre post e :
  message p hs1 (pre ++ h :: post) e ->
  rr_rdlen p h + len d <= u16_max -> len p + len d <= DNS_MAX_PACKET_SIZE ->
  message (grow_record p h d) hs1 (pre ++ h :: map (fun x => x + len d) post) (e + len d).
Proof.
  intros Hm Hr Hmax. pose proof (len_nonneg d).
  pose proof (message_headers _ _ _ _ Hm) as [He [_ Hhs]%Forall_app].
  apply Forall_app in Hhs as [_ [Hh _]%Forall_cons]. cbn beta in Hh.
  destruct Hm as [Hlen Hqd (q & m & Hq & Hq4 & Hc1 & Hc2) Hn1 Hn2].
  unfold DNS_OFFSET_QUESTION, DNS_HEADER_SIZE in *.
  pose proof (skip_name_Ok_bounds p 12 q ltac:(lia) Hq).
  pose proof (rr_chain_bounds _ _ _ _ Hc1 ltac:(lia)).
  assert (m < h) as Hmh.
  { pose proof (rr_chain_headers _ _ _ _ Hc2 ltac:(lia)) as Hx.
    apply Forall_app in Hx as [_ [Hx _]%Forall_cons]. lia. }
  pose proof (u16at_bounds p (h + 8)). unfold rr_rdlen in *.
  pose proof (len_grow_record p d h ltac:(lia) ltac:(unfold rr_rdlen; lia)
    ltac:(unfold rr_rdlen; lia)) as Hgl.
  assert (forall i, 0 <= i < h + 8 -> get (grow_record p h d) i = get p i) as Hg.
  { intros. apply get_grow_record_before; unfold rr_rdlen; lia. }
  assert (forall i, 0 <= i -> i + 2 <= h + 8 -> u16at (grow_record p h d) i = u16at p i) as Hu.
  { intros. unfold u16at, u8at. by rewrite !Hg by lia. }
  split; unfold DNS_HEADER_SIZE.
  - lia.
  - rewrite Hu; lia.
  - exists q, m. split_and!; [|lia| |].
    + eapply skip_name_agree; [done|exact Hq|lia|]. unfold DNS_OFFSET_QUESTION, DNS_HEADER_SIZE.
      intros. apply Hg. lia.
    + eapply rr_chain_agree; [exact Hc1|lia|lia|]. intros. apply Hg. lia.
    + apply rr_chain_grow_record; unfold rr_rdlen; done || lia.
  - rewrite !Hu by lia. done.
  - rewrite Hu by lia. rewrite <- Hn2. doh_simpl. unfold len. rewrite length_map. lia.
Qed.

(** ** Finding the OPT record *)

(** The first record with a root name and type OPT, among records starting
    at [o]. *)
Inductive first_root_opt (p : bytes) : Z -> list Z -> option (list Z * Z * list Z) -> Prop :=
  | fro_none o : first_root_opt p o [] None
  | fro_here o h post :
      get p o = x00 -> is_opt p h = true ->
      first_root_opt p o (h :: post) (Some ([], h, post))
  | fro_next o x xs r :
      ~ (get p o = x00 /\ is_opt p x = true) ->
      first_root_opt p (x + 10 + rr_rdlen p x) xs r ->
      first_root_opt p o (x :: xs)
        match r with Some (pre, h, post) => Some (x :: pre, h, post) | None => None end.

Lemma u8_zero b : (u8 b =? 0) = bool_decide (b = x00).
Proof. by destruct b. Qed.

Lemma find_opt_record_chain p o hs e :
  rr_chain p o hs e -> 0 <= o <= len p ->
  exists r, first_root_opt p o hs r /\
    find_opt_record p (len p) (length hs) o =
      Ok match r with Some (_, h, _) => Some (h - 1, h + 8, rr_rdlen p h) | None => None end.
Proof.
  induction 1 as [o|o h hs e Hs Hl H IH]; intros Ho.
  { exists None. split; [constructor|done]. }
  pose proof (skip_name_Ok_bounds p o h ltac:(lia) Hs). pose proof (u16at_bounds p (h + 8)).
  destruct IH as (r & Hr & IH); [lia|]. cbn [length find_opt_record].
  cmp_simpl. rewrite index_ok by lia. out_simpl. rewrite u8_zero.
  assert (get p o = x00 -> h = o + 1) as Hroot.
  { intros Hz. rewrite skip_name_root in Hs by (done || lia). by injection Hs. }
  destruct (decide (get p o = x00 /\ is_opt p h = true)) as [[Hz Hopt]|Hno].
  - exists (Some ([], h, hs)). split; [by apply fro_here|]. specialize (Hroot Hz). subst h.
    rewrite bool_decide_true by done. rewrite (read_u16_in_ok p (o + 1) (o + 3)) by lia. out_simpl.
    unfold is_opt, rr_type in Hopt. bool_to_prop. rewrite Hopt. rewrite bool_decide_true by done.
    rewrite read_u16_in_ok by lia. out_simpl. unfold rr_rdlen.
    do 3 f_equal; [f_equal; lia|]. f_equal. lia.
  - eexists. split; [by apply fro_next|].
    assert (exists rt, (if bool_decide (get p o = x00)
        then rtype ← read_u16_in p (o + 1) (o + 3); Ok (Some rtype) else Ok None)
          = (Ok rt : outcome Error _) /\ bool_decide (rt = Some DNS_TYPE_OPT) = false)
      as (rt & Hx & Hrt).
    { case_bool_decide as Hz; [|by exists None]. specialize (Hroot Hz). subst h.
      rewrite read_u16_in_ok by lia. eexists. split; [reflexivity|].
      apply bool_decide_false. intros [= Ht]. apply Hno. split; [done|].
      unfold is_opt, rr_type. by rewrite Ht. }
    rewrite Hx. out_simpl. rewrite Hrt, Hs. run_ok. rewrite read_u16_in_ok by lia. out_simpl.
    replace (h + (10 + u16at p (h + 8))) with (h + 10 + u16at p (h + 8)) by lia.
    rewrite IH. by destruct r as [[[? ?] ?]|].
Qed.

Lemma first_root_opt_split p o hs pre h post :
  first_root_opt p o hs (Some (pre, h, post)) -> hs = pre ++ h :: post /\ is_opt p h = true.
Proof.
  intros H. remember (Some (pre, h, post)) as r eqn:Hr. revert pre Hr.
  induction H as [| |o x xs r Hno H IH]; intros pre' Hr; [done| |].
  - by injection Hr as <- <- <-.
  - destruct r as [[[pre0 h0] post0]|]; [|done]. injection Hr as <- <- <-.
    destruct (IH pre0 eq_refl) as [-> Ho]. done.
Qed.

(** ** Finding the option *)

(** [options p s l ops]: the [l] octets at [s] are exactly the options at
    offsets [ops]. *)
Inductive options (p : bytes) (s l : Z) : Z -> list Z -> Prop :=
  | options_end : options p s l l []
  | options_next o ops :
      0 <= o -> o + 4 <= l -> o + 4 + u16at p (s + o + 2) <= l ->
      options p s l (o + 4 + u16at p (s + o + 2)) ops ->
      options p s l o (o :: ops).

Definition is_ecs (p : bytes) (s o : Z) : bool := u16at p (s + o) =? EDNS_CLIENT_SUBNET.

Lemma find_ecs_total fuel p s l o :
  0 <= s -> 0 <= o -> (Z.to_nat (l - o) < fuel)%nat ->
  exists b, find_ecs fuel p (len p) s l o = Ok b.
Proof.
  intros Hs. revert o; induction fuel as [|fuel IH]; intros o Ho Hf; [lia|]. cbn.
  destruct (Z.ltb_spec o l); [|by eexists].
  destruct (Z.ltb_spec (len p) (s + o + 4)); [by eexists|].
  rewrite !read_u16_ok by lia. out_simpl. pose proof (u16at_bounds p (s + o + 2)).
  destruct (_ <? _); [by eexists|]. destruct (_ =? _); [by eexists|]. apply IH; lia.
Qed.

Lemma find_ecs_options fuel p s l o ops :
  options p s l o ops -> 0 <= s -> 0 <= o -> s + l <= len p -> (Z.to_nat (l - o) < fuel)%nat ->
  find_ecs fuel p (len p) s l o = Ok (existsb (is_ecs p s) ops).
Proof.
  intros H Hs; revert fuel. induction H as [|o ops Ho H4 Hl H IH]; intros fuel Ho' Hlen Hf;
    (destruct fuel as [|fuel]; [lia|]); cbn [find_ecs].
  - by cmp_simpl.
  - pose proof (u16at_bounds p (s + o + 2)). cmp_simpl.
    rewrite !read_u16_ok by lia. out_simpl. cmp_simpl. cbn [existsb]. unfold is_ecs at 1.
    destruct (_ =? _); [done|]. cbn [orb].
    replace (o + (4 + u16at p (s + o + 2))) with (o + 4 + u16at p (s + o + 2)) by lia.
    apply IH; lia.
Qed.

(** ** The option's size *)
Lemma len_firstn_octets n ip :
  0 <= n -> len (firstn (Z.to_nat n) (octets ip)) = Z.min n (if is_v4 ip then 4 else 16).
Proof. intros. rewrite <- len_octets. unfold len. rewrite length_firstn. lia. Qed.

Definition sent_octets (ip : IpAddr) (p4 p6 : Z) : Z :=
  if is_v4 ip then Z.min (div_ceil p4 8) 4 else Z.min (div_ceil p6 8) 16.

Lemma build_ecs_option_eq ip p4 p6 :
  build_ecs_option ip p4 p6 =
  be16 (if is_v4 ip then 1 else 2) ++ [as_u8 (if is_v4 ip then p4 else p6)] ++ [x00] ++
  firstn (Z.to_nat (sent_octets ip p4 p6)) (octets ip).
Proof. by destruct ip. Qed.

Lemma div_ceil_bounds a b : 0 <= a -> 0 < b -> 0 <= div_ceil a b.
Proof. intros. unfold div_ceil. apply Z.div_pos; lia. Qed.

Lemma len_build_ecs_option ip p4 p6 :
  0 <= p4 -> 0 <= p6 -> len (build_ecs_option ip p4 p6) = 4 + sent_octets ip p4 p6.
Proof.
  intros. pose proof (div_ceil_bounds p4 8). pose proof (div_ceil_bounds p6 8).
  rewrite build_ecs_option_eq. doh_simpl. unfold sent_octets.
  destruct ip; cbn [is_v4]; rewrite len_firstn_octets by lia; cbn [is_v4]; lia.
Qed.

Lemma sent_octets_bounds ip p4 p6 : 0 <= p4 -> 0 <= p6 -> 0 <= sent_octets ip p4 p6 <= 16.
Proof.
  intros. pose proof (div_ceil_bounds p4 8). pose proof (div_ceil_bounds p6 8).
  unfold sent_octets. destruct ip; cbn [is_v4]; lia.
Qed.

Lemma len_ecs_option d : len (ecs_option d) = 4 + len d.
Proof. unfold ecs_option. doh_simpl. lia. Qed.

(** ** The whole function *)

(** The additional section starts at [m]. *)
Definition additional (p : bytes) (hs1 : list Z) (m : Z) : Prop :=
  exists q, skip_name p DNS_OFFSET_QUESTION = Ok q /\ q + 4 <= len p /\ rr_chain p (q + 4) hs1 m.

Lemma additional_det p hs1 m m' : additional p hs1 m -> additional p hs1 m' -> m = m'.
Proof.
  intros (q & Hq & _ & Hc) (q' & Hq' & _ & Hc'). rewrite Hq in Hq'. injection Hq' as <-.
  by destruct (rr_chain_det _ _ _ _ _ _ Hc Hc' eq_refl).
Qed.

Lemma additional_agree p p' hs1 m :
  additional p hs1 m -> len p <= len p' -> (forall i, 0 <= i < m -> get p' i = get p i) ->
  additional p' hs1 m.
Proof.
  intros (q & Hq & Hql & Hc) Hl Hag. unfold DNS_OFFSET_QUESTION, DNS_HEADER_SIZE in *.
  pose proof (skip_name_Ok_bounds p 12 q ltac:(lia) Hq).
  pose proof (rr_chain_bounds _ _ _ _ Hc ltac:(lia)).
  exists q. unfold DNS_OFFSET_QUESTION, DNS_HEADER_SIZE. split_and!; [|lia|].
  - eapply skip_name_agree; [done|exact Hq|done|]. intros; apply Hag; lia.
  - eapply rr_chain_agree; [exact Hc|lia|done|]. intros; apply Hag; lia.
Qed.

Lemma first_root_opt_det p o hs r r' :
  first_root_opt p o hs r -> first_root_opt p o hs r' -> r = r'.
Proof.
  intros H; revert r'.
  induction H as [|o h post Hz Ho|o x xs r Hno H IH]; intros r' H'.
  - by inversion H'.
  - inversion H' as [| |? ? ? r0 Hno]; subst; [done|]. by destruct Hno.
  - inversion H' as [|? ? ? Hz Ho|? ? ? r0 Hno' H0]; subst; [by destruct Hno|].
    by rewrite (IH _ H0).
Qed.

(** [add_ecs_to_packet] once the OPT record is located. *)
Definition ecs_tail (ip : IpAddr) (p4 p6 : Z) (r : option (list Z * Z * list Z))
    : mutates bytes Error unit := fun p =>
  match r with
  | None => (Err "No EDNS OPT record found"%string, p)
  | Some (_, h, _) =>
      (has_ecs ← lift (find_ecs (S (Z.to_nat (rr_rdlen p h))) p (len p) (h + 8 + 2) (rr_rdlen p h) 0);
       if (has_ecs : bool) then mret tt
       else
         let opt := ecs_option (build_ecs_option ip p4 p6) in
         update (fun q => write_u16_in q (h + 8) (h + 8 + 2) (as_u16 (rr_rdlen p h + len opt)));;
         q ← current;
         remaining ← lift (if h + 8 + 2 + rr_rdlen p h <? len p
                           then slice_from q (h + 8 + 2 + rr_rdlen p h) else Ok []);
         update (fun q => Ok (truncate q (h + 8 + 2 + rr_rdlen p h) ++ opt ++ remaining))) p
  end.

Lemma ecs_tail_run ip p4 p6 pre h post p :
  0 <= p4 -> 0 <= p6 -> 12 < h -> h + 10 + rr_rdlen p h <= len p -> len p <= 4096 ->
  exists b, find_ecs (S (Z.to_nat (rr_rdlen p h))) p (len p) (h + 10) (rr_rdlen p h) 0 = Ok b /\
    ecs_tail ip p4 p6 (Some (pre, h, post)) p =
      (Ok tt, if b : bool then p
              else grow_record p h (ecs_option (build_ecs_option ip p4 p6))).
Proof.
  intros Hp4 Hp6 Hh Hl Hmax. unfold rr_rdlen in *. pose proof (u16at_bounds p (h + 8)).
  destruct (find_ecs_total (S (Z.to_nat (u16at p (h + 8)))) p (h + 10) (u16at p (h + 8)) 0
    ltac:(lia) ltac:(lia) ltac:(lia)) as (b & Hb).
  pose proof (len_build_ecs_option ip p4 p6 Hp4 Hp6).
  pose proof (sent_octets_bounds ip p4 p6 Hp4 Hp6).
  pose proof (len_ecs_option (build_ecs_option ip p4 p6)) as Hel.
  set (opt := ecs_option (build_ecs_option ip p4 p6)) in *.
  unfold ecs_tail, mbind, mutates_bind, lift, current, update, rr_rdlen. fold opt.
  replace (h + 8 + 2) with (h + 10) by lia.
  exists b. split; [done|]. rewrite Hb. destruct b; [done|].
  unfold as_u16. rewrite Z.mod_small by lia. rewrite write_u16_in_ok by lia.
  unfold grow_record, insert_at, truncate, rr_rdlen.
  set (base := put_u16 p (h + 8) (u16at p (h + 8) + len opt)).
  assert (len base = len p) as Hbl by (apply len_put_u16; lia).
  destruct (Z.ltb_spec (h + 10 + u16at p (h + 8)) (len p)).
  - by rewrite slice_from_ok by lia.
  - rewrite (skipn_all2 base); [done|]. unfold len in *. lia.
Qed.
Lemma add_ecs_run ip p4 p6 p hs1 hs2 e :
  0 <= p4 -> 0 <= p6 -> message p hs1 hs2 e ->
  exists m r, additional p hs1 m /\ rr_chain p m hs2 e /\ 0 <= m <= len p /\ first_root_opt p m hs2 r /\
    match r with
    | None => add_ecs_to_packet ip p4 p6 p = (Err "No EDNS OPT record found"%string, p)
    | Some (pre, h, post) =>
        hs2 = pre ++ h :: post /\ is_opt p h = true /\ 12 < h /\ h + 10 + rr_rdlen p h <= len p /\
        exists b, find_ecs (S (Z.to_nat (rr_rdlen p h))) p (len p) (h + 10) (rr_rdlen p h) 0 = Ok b /\
          add_ecs_to_packet ip p4 p6 p =
            (Ok tt, if b : bool then p
                    else grow_record p h (ecs_option (build_ecs_option ip p4 p6)))
    end.
Proof.
  intros Hp4 Hp6 Hm. pose proof (message_headers _ _ _ _ Hm) as [_ [_ Hhs]%Forall_app].
  destruct Hm as [Hlen Hqd (q & m & Hq & Hq4 & Hc1 & Hc2) Hn1 Hn2].
  unfold DNS_OFFSET_QUESTION, DNS_HEADER_SIZE, DNS_MAX_PACKET_SIZE in *.
  pose proof (skip_name_Ok_bounds p 12 q ltac:(lia) Hq).
  pose proof (rr_chain_bounds _ _ _ _ Hc1 ltac:(lia)).
  pose proof (rr_chain_bounds _ _ _ _ Hc2 ltac:(lia)).
  pose proof (u16at_bounds p 6). pose proof (u16at_bounds p 8). pose proof (u16at_bounds p 10).
  destruct (find_opt_record_chain p m hs2 e Hc2) as (r & Hr & Hf); [lia|].
  exists m, r. split; [by exists q|]. split; [done|]. split; [lia|]. split; [done|].
  assert (add_ecs_to_packet ip p4 p6 p = ecs_tail ip p4 p6 r p) as ->.
  { unfold add_ecs_to_packet, mbind, mutates_bind, current, lift, qdcount, ancount, arcount.
    run_ok. rewrite !read_u16_ok by lia. rewrite Hqd, Hq. run_ok.
    rewrite read_u16_in_ok by lia. destruct (Z.ltb_spec 0 (u16at p 10)) as [Hpos|Hz]; out_simpl.
    - rewrite (proj2 (traverse_rrs_Ok p (q + 4) (Z.to_nat (u16at p 6 + u16at p 8)) _ tt m tt
        ltac:(lia))); [|exists hs1; split_and!; [unfold len in *; lia|done|apply fold_cb_unit]].
      replace (Z.to_nat (u16at p 10)) with (length hs2) by (unfold len in *; lia).
      rewrite Hf. unfold ecs_tail. by destruct r as [[[? ?] ?]|].
    - destruct hs2; [|unfold len in *; cbn [length] in *; lia]. by inversion Hr. }
  destruct r as [[[pre h] post]|]; [|done].
  apply first_root_opt_split in Hr as [-> Hopt].
  apply Forall_app in Hhs as [_ [Hh _]%Forall_cons]. cbn beta in Hh.
  split; [done|]. split; [done|]. split; [lia|]. split; [lia|].
  pose proof (u16at_bounds p (h + 8)). unfold rr_rdlen in *.
  apply ecs_tail_run; unfold rr_rdlen; done || lia.
Qed.

(** On a message it comes back. *)
Lemma add_ecs_returns ip p4 p6 p hs1 hs2 e :
  0 <= p4 -> 0 <= p6 -> message p hs1 hs2 e -> total (fst (add_ecs_to_packet ip p4 p6 p)).
Proof.
  intros Hp4 Hp6 Hm. destruct (add_ecs_run ip p4 p6 p hs1 hs2 e Hp4 Hp6 Hm) as (m & r & _ & _ & _ & _ & Hrun).
  destruct r as [[[pre h] post]|]; [|by rewrite Hrun]. destruct Hrun as (_ & _ & _ & _ & b & _ & ->). done.
Qed.

Lemma first_root_opt_cons p o x xs pre h post :
  first_root_opt p o (x :: xs) (Some (pre, h, post)) ->
  (get p o = x00 /\ is_opt p x = true /\ pre = [] /\ h = x /\ post = xs) \/
  (~ (get p o = x00 /\ is_opt p x = true) /\ exists pre', pre = x :: pre' /\
   first_root_opt p (x + 10 + rr_rdlen p x) xs (Some (pre', h, post))).
Proof.
  remember (x :: xs) as l eqn:Hxs. remember (Some (pre, h, post)) as res eqn:Hres. intros H.
  destruct H as [|o h' post' Hz Ho|o x' xs' r Hno H]; [done| |].
  - injection Hxs as -> ->. injection Hres as <- <- <-. by left.
  - injection Hxs as -> ->. right. split; [done|].
    destruct r as [[[pre0 h0] post0]|]; [|done]. injection Hres as <- <- <-. by exists pre0.
Qed.

(** The grown record is still the first OPT record with a root name. *)
Lemma first_root_opt_grow p d o hs e pre h post :
  rr_chain p o hs e -> 0 <= o <= len p -> first_root_opt p o hs (Some (pre, h, post)) ->
  h + 10 + rr_rdlen p h <= len p -> rr_rdlen p h + len d <= u16_max ->
  first_root_opt (grow_record p h d) o (pre ++ h :: map (fun x => x + len d) post)
    (Some (pre, h, map (fun x => x + len d) post)).
Proof.
  intros Hc Ho Hf Hl Hr. revert o hs Hc Ho Hf; induction pre as [|x pre IH]; intros o hs Hc Ho Hf;
    pose proof (u16at_bounds p (h + 8)); pose proof (first_root_opt_split _ _ _ _ _ _ Hf) as [-> _];
    inversion Hc as [|? ? ? ? Hs Hl' Hc']; subst;
    pose proof (skip_name_Ok_bounds p o _ ltac:(lia) Hs) as Hb; unfold rr_rdlen in *.
  - assert (forall i, 0 <= i < h + 8 -> get (grow_record p h d) i = get p i) as Hg.
    { intros. apply get_grow_record_before; unfold rr_rdlen; lia. }
    apply first_root_opt_cons in Hf as [(Hz & Hopt & _)|(_ & pre' & ? & _)]; [|done].
    apply fro_here; [rewrite Hg by lia; done|].
    unfold is_opt, rr_type, u16at, u8at in *. by rewrite !Hg by lia.
  - pose proof (u16at_bounds p (x + 8)). cbn [app] in *.
    pose proof (rr_chain_headers _ _ _ _ Hc' ltac:(lia)) as Hhs.
    apply Forall_app in Hhs as [_ [Hh _]%Forall_cons]. cbn beta in Hh.
    assert (forall i, 0 <= i < h + 8 -> get (grow_record p h d) i = get p i) as Hg.
    { intros. apply get_grow_record_before; unfold rr_rdlen; lia. }
    assert (u16at (grow_record p h d) (x + 8) = u16at p (x + 8)) as Hrd
      by (unfold u16at, u8at; rewrite !Hg by lia; done).
    apply first_root_opt_cons in Hf as [(_ & _ & ? & _)|(Hno & pre' & [= <-] & Hrest)]; [done|].
    apply (fro_next _ o x _ (Some (pre, h, map (fun x => x + len d) post))).
    + rewrite Hg by lia. unfold is_opt, rr_type, u16at, u8at in *. by rewrite !Hg by lia.
    + unfold rr_rdlen. rewrite Hrd. eapply IH; [exact Hc'|lia|exact Hrest].
Qed.

Lemma options_agree p p' s l o ops :
  options p s l o ops -> 0 <= s ->
  (forall i, s <= i < s + l -> get p' i = get p i) -> options p' s l o ops.
Proof.
  intros H Hs Hag. induction H as [|o ops Ho H4 Hl H IH]; [constructor|].
  pose proof (u16at_bounds p (s + o + 2)).
  assert (u16at p' (s + o + 2) = u16at p (s + o + 2)) as Heq
    by (unfold u16at, u8at; rewrite !Hag by lia; done).
  apply options_next; [done|done|lia|by rewrite Heq].
Qed.

Lemma options_snoc p s l l' o ops :
  options p s l o ops -> 0 <= l -> l + 4 <= l' -> l' = l + 4 + u16at p (s + l + 2) ->
  options p s l' o (ops ++ [l]).
Proof.
  intros H H0 Hl ->. pose proof (u16at_bounds p (s + l + 2)).
  induction H as [|o ops Ho H4 Hle H' IH]; cbn [app].
  - apply options_next; [lia|lia|lia|constructor].
  - apply options_next; [lia|lia|lia|done].
Qed.

Lemma ecs_option_fields ip p4 p6 :
  0 <= p4 -> 0 <= p6 ->
  let o := ecs_option (build_ecs_option ip p4 p6) in
  u16at o 0 = EDNS_CLIENT_SUBNET /\ u16at o 2 = len o - 4 /\ 4 <= len o <= 24.
Proof.
  intros Hp4 Hp6 o. pose proof (len_build_ecs_option ip p4 p6 Hp4 Hp6) as Hl.
  pose proof (sent_octets_bounds ip p4 p6 Hp4 Hp6).
  pose proof (len_ecs_option (build_ecs_option ip p4 p6)) as Hl'. fold o in Hl'.
  split; [done|]. split; [|lia].
  unfold o, ecs_option, as_u16. rewrite Z.mod_small by lia.
  rewrite u16at_app_r by (rewrite len_be16; lia). rewrite len_be16.
  rewrite u16at_app_l by (rewrite ?len_be16; lia). change (2 - 2) with 0.
  rewrite u16at_be16 by lia. doh_simpl. lia.
Qed.

(** The grown record's options are the old ones and the new one. *)
Lemma options_grow p h ip p4 p6 ops :
  let d := ecs_option (build_ecs_option ip p4 p6) in
  0 <= p4 -> 0 <= p6 -> 0 <= h -> h + 10 + rr_rdlen p h <= len p -> len p <= 4096 ->
  options p (h + 10) (rr_rdlen p h) 0 ops ->
  options (grow_record p h d) (h + 10) (rr_rdlen p h + len d) 0 (ops ++ [rr_rdlen p h]) /\
  is_ecs (grow_record p h d) (h + 10) (rr_rdlen p h) = true.
Proof.
  intros d Hp4 Hp6 Hh Hl Hmax Hops. pose proof (ecs_option_fields ip p4 p6 Hp4 Hp6) as (H0 & H2 & Hlen).
  fold d in H0, H2, Hlen. unfold rr_rdlen in *. pose proof (u16at_bounds p (h + 8)).
  assert (forall i, 0 <= i -> i + 2 <= len d ->
    u16at (grow_record p h d) (h + 10 + u16at p (h + 8) + i) = u16at d i) as Hd.
  { intros. unfold u16at at 1 3, u8at. rewrite <- Z.add_assoc with (p := 1).
    rewrite !get_grow_record_data by (unfold rr_rdlen; lia). done. }
  split.
  - apply options_snoc; [|lia|lia|].
    + eapply options_agree; [exact Hops|lia|].
      intros. apply get_grow_record_before; unfold rr_rdlen; lia.
    + rewrite (Hd 2) by lia. lia.
  - unfold is_ecs. specialize (Hd 0). rewrite Z.add_0_r in Hd. rewrite Hd by lia.
    by rewrite H0.
Qed.

(** Running the function again finds the option it inserted. *)
Lemma add_ecs_second ip ip' p4 p6 p4' p6' p p' hs1 pre h post e m (b : bool) ops :
  0 <= p4 -> 0 <= p6 -> 0 <= p4' -> 0 <= p6' ->
  message p hs1 (pre ++ h :: post) e -> additional p hs1 m ->
  rr_chain p m (pre ++ h :: post) e -> 0 <= m <= len p ->
  first_root_opt p m (pre ++ h :: post) (Some (pre, h, post)) ->
  12 < h -> h + 10 + rr_rdlen p h <= len p -> len p + 24 <= 4096 ->
  options p (h + 10) (rr_rdlen p h) 0 ops -> existsb (is_ecs p (h + 10)) ops = b ->
  p' = (if b then p else grow_record p h (ecs_option (build_ecs_option ip p4 p6))) ->
  add_ecs_to_packet ip' p4' p6' p' = (Ok tt, p').
Proof.
  intros Hp4 Hp6 Hp4' Hp6' Hm Had Hc Hmb Hfro Hh Hfit Hroom Hops Hb ->.
  pose proof (ecs_option_fields ip p4 p6 Hp4 Hp6) as (_ & _ & Hol).
  pose proof (u16at_bounds p (h + 8)). unfold rr_rdlen in *.
  set (d := ecs_option (build_ecs_option ip p4 p6)) in *. set (rl := u16at p (h + 8)) in *.
  pose proof (rr_chain_headers _ _ _ _ Hc ltac:(lia)) as Hhs.
  apply Forall_app in Hhs as [_ [Hmh _]%Forall_cons]. cbn beta in Hmh.
  destruct b.
  - destruct (add_ecs_run ip' p4' p6' p _ _ e Hp4' Hp6' Hm) as (m' & r & Had' & _ & _ & Hr & Hrun).
    rewrite (additional_det _ _ _ _ Had' Had) in Hr. rewrite (first_root_opt_det _ _ _ _ _ Hr Hfro) in Hrun.
    destruct Hrun as (_ & _ & _ & _ & b & Hf & ->).
    unfold rr_rdlen in Hf. fold rl in Hf.
    rewrite (find_ecs_options _ _ _ _ _ _ Hops) in Hf by lia. rewrite Hb in Hf.
    by injection Hf as <-.
  - pose proof (len_grow_record p d h ltac:(lia) ltac:(unfold rr_rdlen; lia)
      ltac:(unfold rr_rdlen; lia)) as Hgl.
    assert (message (grow_record p h d) hs1 (pre ++ h :: map (fun x => x + len d) post) (e + len d))
      as Hm' by (apply message_grow_record; [done|unfold rr_rdlen, DNS_MAX_PACKET_SIZE; lia..]).
    destruct (add_ecs_run ip' p4' p6' _ _ _ _ Hp4' Hp6' Hm') as (m' & r & Had' & _ & _ & Hr & Hrun).
    assert (additional (grow_record p h d) hs1 m) as Had2.
    { eapply additional_agree; [exact Had|lia|].
      intros. apply get_grow_record_before; unfold rr_rdlen; lia. }
    rewrite (additional_det _ _ _ _ Had' Had2) in Hr.
    assert (first_root_opt (grow_record p h d) m (pre ++ h :: map (fun x => x + len d) post)
      (Some (pre, h, map (fun x => x + len d) post))) as Hfro'
      by (eapply first_root_opt_grow; [exact Hc|lia|exact Hfro|unfold rr_rdlen; lia..]).
    rewrite (first_root_opt_det _ _ _ _ _ Hr Hfro') in Hrun.
    destruct Hrun as (_ & _ & _ & Hfit' & b & Hf & ->).
    assert (rr_rdlen (grow_record p h d) h = rl + len d) as Hrd
      by (unfold rr_rdlen; rewrite rdlen_grow_record; unfold rr_rdlen; done || lia).
    rewrite Hrd in *.
    destruct (options_grow p h ip p4 p6 ops Hp4 Hp6) as [Hops' Hecs];
      [lia|unfold rr_rdlen; lia|lia|done|]. fold d in Hops', Hecs. unfold rr_rdlen in Hops', Hecs.
    fold rl in Hops', Hecs. rewrite (find_ecs_options _ _ _ _ _ _ Hops') in Hf by lia.
    rewrite existsb_app in Hf. cbn [existsb] in Hf. rewrite Hecs, orb_true_r in Hf.
    by injection Hf as <-.
Qed.
End ecs_packet.

Lemma firstn_sent_octets ip p4 p6 :
  0 <= p4 -> 0 <= p6 ->
  firstn (Z.to_nat (sent_octets ip p4 p6)) (octets ip) =
  firstn (Z.to_nat (div_ceil (if is_v4 ip then p4 else p6) 8)) (octets ip).
Proof.
  intros. pose proof (div_ceil_bounds p4 8). pose proof (div_ceil_bounds p6 8).
  pose proof (len_octets ip) as Hl. unfold len in Hl.
  unfold sent_octets. destruct (is_v4 ip).
  - destruct (Z.le_gt_cases (div_ceil p4 8) 4); [by rewrite Z.min_l by lia|].
    rewrite Z.min_r by lia. by rewrite !firstn_all2 by lia.
  - destruct (Z.le_gt_cases (div_ceil p6 8) 16); [by rewrite Z.min_l by lia|].
    rewrite Z.min_r by lia. by rewrite !firstn_all2 by lia.
Qed.

(** The first piece of a split is what comes before the first separator. *)
Lemma head_split c s : head (split c s) = Some (fst (split_once c s)).
Proof.
  induction s as [|b s IH]; [done|]. cbn. case_bool_decide; [done|].
  destruct (split c s); [done|]. destruct (split_once c s). cbn in *. by injection IH as ->.
Qed.
