(* ===== verification/EcsProps.v ===== *)
(** * Properties of the client-subnet code

    The theorems about [Ecs] and the inputs their witnesses evaluate. *)

From S2P Require Import Prelude Bytes Text Net Headers Dns DnsFacts DnsProps Ecs EcsFacts.

Section properties.
Context `{BO : ByteOrder}.

(** C30: on a message, [add_ecs_to_packet] never panics or loops, an error
    leaves the packet as it was, and success means that the additional section has an
    OPT record which either already held a client-subnet option, and then the
    packet is unchanged, or has grown by exactly the new option, the records
    after it moved up: the result is a message with the same records. When
    the record's options are well-formed, the packet is left alone exactly
    when one of them is a client subnet. *)
Theorem add_ecs_spec (ip : IpAddr) (p4 p6 : Z) (p : bytes) (hs1 hs2 : list Z) (e : Z) :
  0 <= p4 -> 0 <= p6 -> message p hs1 hs2 e ->
  match add_ecs_to_packet ip p4 p6 p with
  | (Ok _, p') =>
      let opt := ecs_option (build_ecs_option ip p4 p6) in
      exists pre h post, hs2 = pre ++ h :: post /\ is_opt p h = true /\
        (p' = p \/
         p' = grow_record p h opt /\
         (len p' <= DNS_MAX_PACKET_SIZE ->
          message p' hs1 (pre ++ h :: map (fun x => x + len opt) post) (e + len opt))) /\
        forall ops, options p (h + 10) (rr_rdlen p h) 0 ops ->
          (p' = p <-> existsb (is_ecs p (h + 10)) ops = true)
  | (Err _, p') => p' = p
  | _ => False
  end.
Proof.
  intros Hp4 Hp6 Hm. pose proof (message_len _ _ _ _ Hm) as Hlen. unfold DNS_MAX_PACKET_SIZE in Hlen.
  destruct (add_ecs_run ip p4 p6 p hs1 hs2 e Hp4 Hp6 Hm) as (m & r & Had & Hc & Hmb & Hr & Hrun).
  destruct r as [[[pre h] post]|]; [|by rewrite Hrun].
  destruct Hrun as (-> & Hopt & Hh & Hfit & b & Hb & ->).
  pose proof (ecs_option_fields ip p4 p6 Hp4 Hp6) as (_ & _ & Hol).
  pose proof (u16at_bounds p (h + 8)). unfold rr_rdlen in *.
  pose proof (len_grow_record p (ecs_option (build_ecs_option ip p4 p6)) h ltac:(lia)
    ltac:(unfold rr_rdlen; lia) ltac:(unfold rr_rdlen; lia)) as Hgl.
  exists pre, h, post. split; [done|]. split; [done|]. split.
  - destruct b; [by left|right]. split; [done|]. intros Hmax.
    apply message_grow_record; unfold rr_rdlen; done || lia.
  - intros ops Hops. pose proof (find_ecs_options (S (Z.to_nat (u16at p (h + 8)))) p (h + 10)
      (u16at p (h + 8)) 0 ops Hops ltac:(lia) ltac:(lia) ltac:(lia) ltac:(lia)) as Hf.
    rewrite Hb in Hf. injection Hf as <-. destruct b; [done|]. split; [|done].
    intros Heq. rewrite Heq in Hgl. lia.
Qed.

(** The client's own choice, or an earlier hop's, is kept: once
    [add_ecs_to_packet] has succeeded on a message whose OPT options are
    well-formed, running it again with any other address and prefixes changes
    nothing. *)
Theorem add_ecs_once (ip ip' : IpAddr) (p4 p6 p4' p6' : Z) (p p' : bytes) (hs1 hs2 : list Z) (e : Z) :
  0 <= p4 -> 0 <= p6 -> 0 <= p4' -> 0 <= p6' -> message p hs1 hs2 e ->
  len p + 24 <= DNS_MAX_PACKET_SIZE ->
  (forall h, In h hs2 -> is_opt p h = true ->
     exists ops, options p (h + 10) (rr_rdlen p h) 0 ops) ->
  add_ecs_to_packet ip p4 p6 p = (Ok tt, p') ->
  add_ecs_to_packet ip' p4' p6' p' = (Ok tt, p').
Proof.
  intros Hp4 Hp6 Hp4' Hp6' Hm Hroom Hwf Hok. unfold DNS_MAX_PACKET_SIZE in Hroom.
  destruct (add_ecs_run ip p4 p6 p hs1 hs2 e Hp4 Hp6 Hm) as (m & r & Had & Hc & Hmb & Hr & Hrun).
  destruct r as [[[pre h] post]|]; [|by rewrite Hrun in Hok].
  destruct Hrun as (-> & Hopt & Hh & Hfit & b & Hb & Hrun). rewrite Hrun in Hok. injection Hok as <-.
  destruct (Hwf h) as [ops Hops]; [apply in_elt|done|]. unfold rr_rdlen in *.
  pose proof (u16at_bounds p (h + 8)).
  pose proof (find_ecs_options (S (Z.to_nat (u16at p (h + 8)))) p (h + 10) _ 0 ops Hops
    ltac:(lia) ltac:(lia) ltac:(lia) ltac:(lia)) as Hf.
  rewrite Hb in Hf. injection Hf as Hf.
  apply (add_ecs_second ip ip' p4 p6 p4' p6' p _ hs1 pre h post e m b ops); done || lia.
Qed.

(** The option built from an address depends on nothing but its family,
    the configured prefix and the first ceil(prefix / 8) octets of the
    address: two clients of one family get the same option exactly when they
    agree on those octets, so with a prefix that is a multiple of eight no
    host bit leaves the server. The option's header fields read back as the
    family, the prefix length and a zero scope. *)
Theorem build_ecs_option_spec (ip ip' : IpAddr) (p4 p6 : Z) :
  0 <= p4 <= 255 -> 0 <= p6 <= 255 -> is_v4 ip = is_v4 ip' ->
  let prefix := if is_v4 ip then p4 else p6 in
  let n := Z.to_nat (div_ceil prefix 8) in
  let o := build_ecs_option ip p4 p6 in
  u16at o 0 = (if is_v4 ip then 1 else 2) /\ u8at o 2 = prefix /\ u8at o 3 = 0 /\
  len o = 4 + Z.min (div_ceil prefix 8) (if is_v4 ip then 4 else 16) /\
  (build_ecs_option ip' p4 p6 = o <-> firstn n (octets ip') = firstn n (octets ip)).
Proof.
  intros Hp4 Hp6 Hfam prefix n o.
  assert (o = be16 (if is_v4 ip then 1 else 2) ++ [as_u8 prefix] ++ [x00] ++ firstn n (octets ip))
    as Ho by (unfold o, n; rewrite build_ecs_option_eq, firstn_sent_octets; done || lia).
  assert (build_ecs_option ip' p4 p6 =
    be16 (if is_v4 ip then 1 else 2) ++ [as_u8 prefix] ++ [x00] ++ firstn n (octets ip')) as Ho'.
  { unfold n, prefix. rewrite build_ecs_option_eq, firstn_sent_octets by lia. by rewrite <- Hfam. }
  split_and!.
  - rewrite Ho. by destruct ip.
  - rewrite Ho. transitivity (u8 (as_u8 prefix)); [by destruct ip|]. rewrite u8_as_u8.
    apply Z.mod_small. unfold prefix. destruct ip; cbn [is_v4]; lia.
  - rewrite Ho. by destruct ip.
  - unfold o. rewrite len_build_ecs_option by lia. unfold sent_octets, prefix. by destruct ip.
  - rewrite Ho, Ho'. split; [|by intros ->]. intros H. by repeat apply app_inv_head in H.
Qed.
End properties.

(** ** Which address is used *)
Section client.
Context `{HA : HeaderApi}.

(** The client's address is the first entry of [X-Forwarded-For] when it
    parses, else [X-Real-IP] when it parses, else the peer's address; a
    header that does not parse is as good as absent. *)
Theorem extract_client_ip_spec (hs : HeaderMap) (remote : option SocketAddr) :
  let xff := header_str hs (ascii_bytes "x-forwarded-for") ≫= fun s =>
    parse_ip (trim (fst (split_once x2c s))) in
  let xri := header_str hs (ascii_bytes "x-real-ip") ≫= parse_ip in
  extract_client_ip hs remote =
    match xff, xri with
    | Some ip, _ => Some ip
    | None, Some ip => Some ip
    | None, None => sock_ip <$> remote
    end.
Proof.
  cbv zeta. unfold extract_client_ip.
  destruct (header_str hs (ascii_bytes "x-forwarded-for")) as [s|]; cbn [mbind option_bind].
  - rewrite head_split. cbn [mbind option_bind].
    destruct (parse_ip _); [done|]. by destruct (header_str hs _ ≫= _).
  - by destruct (header_str hs _ ≫= _).
Qed.
End client.

(** ** Witnesses and examples *)

Definition sample_client : IpAddr := V4 [# xc0; xa8; x01; x64].
Definition sample_client' : IpAddr := V4 [# xc0; xa8; x01; x07].

Definition sample_ecs : bytes :=
  grow_record sample_edns 36 (ecs_option (build_ecs_option sample_client 24 56)).

Lemma sample_ecs_added : add_ecs_to_packet sample_client 24 56 sample_edns = (Ok tt, sample_ecs).
Proof. vm_compute. reflexivity. Qed.

Lemma add_ecs_spec_witness :
  message sample_edns [21] [36] (len sample_edns) /\
  exists pre h post, [36] = pre ++ h :: post /\ is_opt sample_edns h = true.
Proof.
  split; [exact sample_edns_message|].
  pose proof (add_ecs_spec sample_client 24 56 sample_edns [21] [36] (len sample_edns)
    ltac:(lia) ltac:(lia) sample_edns_message) as H.
  rewrite sample_ecs_added in H. destruct H as (pre & h & post & H1 & H2 & _).
  exists pre, h, post. split; [exact H1|exact H2].
Defined.

Lemma add_ecs_once_witness :
  add_ecs_to_packet sample_client 24 56 sample_edns = (Ok tt, sample_ecs) /\
  add_ecs_to_packet sample_client' 32 56 sample_ecs = (Ok tt, sample_ecs).
Proof.
  split; [exact sample_ecs_added|].
  refine (add_ecs_once sample_client sample_client' 24 56 32 56 sample_edns sample_ecs [21] [36]
    (len sample_edns) _ _ _ _ sample_edns_message _ _ sample_ecs_added);
    [lia|lia|lia|lia|by vm_compute|].
  intros h [<-|[]] _. exists []. constructor.
Defined.

Lemma build_ecs_option_spec_witness :
  is_v4 sample_client = is_v4 sample_client' /\
  build_ecs_option sample_client' 24 56 = build_ecs_option sample_client 24 56.
Proof.
  split; [reflexivity|].
  apply (build_ecs_option_spec sample_client sample_client' 24 56); [lia|lia|reflexivity|].
  reflexivity.
Defined.

(** A query of 18 octets that announces one additional record and ends with a
    single zero octet after its question. *)
Definition sample_cut : bytes :=
  sample_header 0 0 1 ++ [x00; x00; x01; x00; x01] ++ [x00].

(** A packet that is not a message can make [add_ecs_to_packet] panic:
    the slice of the record type is taken without a bounds check. The packet
    passes the length checks of the proxy (between 17 and 512 octets), and
    [set_edns_max_payload_size], which runs before and whose error is
    ignored, rejects it and leaves it unchanged. *)
Theorem add_ecs_panics (ip : IpAddr) (p4 p6 : Z) :
  17 <= len sample_cut <= 512 /\
  set_edns_max_payload_size 4096 sample_cut = (Err "Short packet"%string, sample_cut) /\
  fst (add_ecs_to_packet ip p4 p6 sample_cut) = Panic.
Proof. split; [by vm_compute|]. split; [by vm_compute|by vm_compute]. Qed.

(** With a prefix that is not a multiple of eight the option carries
    host bits: two clients that agree on the first 20 bits get different
    options under a /20 prefix. *)
Theorem ecs_keeps_host_bits :
  exists a b : IpAddr,
    u16at (octets a) 0 = u16at (octets b) 0 /\
    Z.shiftr (u8at (octets a) 2) 4 = Z.shiftr (u8at (octets b) 2) 4 /\
    build_ecs_option a 20 56 <> build_ecs_option b 20 56.
Proof.
  exists (V4 [# x0a; x00; x01; x01]), (V4 [# x0a; x00; x02; x01]).
  split; [done|]. split; [done|]. by vm_compute.
Qed.
