(* ===== verification/RrTypes.v ===== *)
(** * Resource record types: src/libdoh/src/upstream/rr_types.rs

    The enumeration and its two conversions to and from the 16-bit code. *)

From S2P Require Import Prelude.

Module RrType.

Inductive t : Type :=
  | None | A | NS | MD | MF | CNAME | SOA | MB | MG | MR | Null | PTR | HINFO | MINFO | MX
  | TXT | RP | AFSDB | X25 | ISDN | RT | NSAPPTR | SIG | KEY | PX | GPOS | AAAA | LOC | NXT
  | EID | NIMLOC | SRV | ATMA | NAPTR | KX | CERT | DNAME | OPT | APL | DS | SSHFP | IPSECKEY
  | RRSIG | NSEC | DNSKEY | DHCID | NSEC3 | NSEC3PARAM | TLSA | SMIMEA | HIP | NINFO | RKEY
  | TALINK | CDS | CDNSKEY | OPENPGPKEY | CSYNC | ZONEMD | SVCB | HTTPS | SPF | UINFO | UID
  | GID | UNSPEC | NID | L32 | L64 | LP | EUI48 | EUI64 | NXNAME | URI | CAA | AVC | AMTRELAY
  | RESINFO | TKEY | TSIG | IXFR | AXFR | MAILB | MAILA | ANY | TA | DLV | Reserved
  | Unknown (code : Z).

Definition from_u16 (code : Z) : t :=
  match code with
  | 0 => None | 1 => A | 2 => NS | 3 => MD | 4 => MF | 5 => CNAME | 6 => SOA | 7 => MB
  | 8 => MG | 9 => MR | 10 => Null | 12 => PTR | 13 => HINFO | 14 => MINFO | 15 => MX
  | 16 => TXT | 17 => RP | 18 => AFSDB | 19 => X25 | 20 => ISDN | 21 => RT | 23 => NSAPPTR
  | 24 => SIG | 25 => KEY | 26 => PX | 27 => GPOS | 28 => AAAA | 29 => LOC | 30 => NXT
  | 31 => EID | 32 => NIMLOC | 33 => SRV | 34 => ATMA | 35 => NAPTR | 36 => KX | 37 => CERT
  | 39 => DNAME | 41 => OPT | 42 => APL | 43 => DS | 44 => SSHFP | 45 => IPSECKEY | 46 => RRSIG
  | 47 => NSEC | 48 => DNSKEY | 49 => DHCID | 50 => NSEC3 | 51 => NSEC3PARAM | 52 => TLSA
  | 53 => SMIMEA | 55 => HIP | 56 => NINFO | 57 => RKEY | 58 => TALINK | 59 => CDS
  | 60 => CDNSKEY | 61 => OPENPGPKEY | 62 => CSYNC | 63 => ZONEMD | 64 => SVCB | 65 => HTTPS
  | 99 => SPF | 100 => UINFO | 101 => UID | 102 => GID | 103 => UNSPEC | 104 => NID
  | 105 => L32 | 106 => L64 | 107 => LP | 108 => EUI48 | 109 => EUI64 | 128 => NXNAME
  | 249 => TKEY | 250 => TSIG | 251 => IXFR | 252 => AXFR | 253 => MAILB | 254 => MAILA
  | 255 => ANY | 256 => URI | 257 => CAA | 258 => AVC | 260 => AMTRELAY | 261 => RESINFO
  | 32768 => TA | 32769 => DLV | 65535 => Reserved
  | _ => Unknown code
  end.

Definition to_u16 (self : t) : Z :=
  match self with
  | None => 0 | A => 1 | NS => 2 | MD => 3 | MF => 4 | CNAME => 5 | SOA => 6 | MB => 7
  | MG => 8 | MR => 9 | Null => 10 | PTR => 12 | HINFO => 13 | MINFO => 14 | MX => 15
  | TXT => 16 | RP => 17 | AFSDB => 18 | X25 => 19 | ISDN => 20 | RT => 21 | NSAPPTR => 23
  | SIG => 24 | KEY => 25 | PX => 26 | GPOS => 27 | AAAA => 28 | LOC => 29 | NXT => 30
  | EID => 31 | NIMLOC => 32 | SRV => 33 | ATMA => 34 | NAPTR => 35 | KX => 36 | CERT => 37
  | DNAME => 39 | OPT => 41 | APL => 42 | DS => 43 | SSHFP => 44 | IPSECKEY => 45 | RRSIG => 46
  | NSEC => 47 | DNSKEY => 48 | DHCID => 49 | NSEC3 => 50 | NSEC3PARAM => 51 | TLSA => 52
  | SMIMEA => 53 | HIP => 55 | NINFO => 56 | RKEY => 57 | TALINK => 58 | CDS => 59
  | CDNSKEY => 60 | OPENPGPKEY => 61 | CSYNC => 62 | ZONEMD => 63 | SVCB => 64 | HTTPS => 65
  | SPF => 99 | UINFO => 100 | UID => 101 | GID => 102 | UNSPEC => 103 | NID => 104
  | L32 => 105 | L64 => 106 | LP => 107 | EUI48 => 108 | EUI64 => 109 | NXNAME => 128
  | TKEY => 249 | TSIG => 250 | IXFR => 251 | AXFR => 252 | MAILB => 253 | MAILA => 254
  | ANY => 255 | URI => 256 | CAA => 257 | AVC => 258 | AMTRELAY => 260 | RESINFO => 261
  | TA => 32768 | DLV => 32769 | Reserved => 65535
  | Unknown code => code
  end.

(** The values [from_u16] produces. *)
Definition canonical (self : t) : Prop :=
  match self with
  | Unknown code => 0 <= code <= u16_max /\ from_u16 code = Unknown code
  | _ => True
  end.

Lemma to_u16_from_u16 (code : Z) : to_u16 (from_u16 code) = code.
Proof.
  unfold from_u16.
  repeat match goal with
  | |- context [match ?x with _ => _ end] => is_var x; destruct x; try reflexivity
  end.
Qed.

Lemma from_u16_to_u16 (self : t) : canonical self -> from_u16 (to_u16 self) = self.
Proof. destruct self; cbn; [reflexivity..|]. by intros [_ H]. Qed.

Lemma canonical_from_u16 (code : Z) : 0 <= code <= u16_max -> canonical (from_u16 code).
Proof.
  intros Hc. pose proof (to_u16_from_u16 code) as H.
  destruct (from_u16 code) as [] eqn:Hf; try exact I. cbn in H. subst. by split.
Qed.

Lemma to_u16_bounds (self : t) : canonical self -> 0 <= to_u16 self <= u16_max.
Proof. destruct self; cbn; [lia..|]. tauto. Qed.

End RrType.
