(* ===== verification/Msg.v ===== *)
(** * The message codec of the upstream side: src/libdoh/src/upstream/msg.rs
      and dns_packet.rs

    [Msg::unpack] and [Msg::pack], the answer addresses of a message, and the
    in-place rewrite of the answer addresses of a packet.

    Fuel: [Name::from_wire] follows at most 128 pointers and collects at most
    255 octets of labels of at least two octets each, so 260 turns suffice;
    [Name::skip_wire] moves right by at least two octets per label and stops at
    the end of the packet, so [S (length packet)] turns suffice. *)

From S2P Require Import Prelude Bytes Net RrTypes.

Definition DNS_HEADER_SIZE : Z := 12.
Definition DNS_CLASS_IN : Z := 1.
Definition MAX_DOMAIN_NAME_WIRE_OCTETS : Z := 255.
Definition MAX_COMPRESSION_POINTERS : Z := 128.

Inductive MsgError :=
  | ShortPacket
  | InvalidName
  | CompressionLoop
  | InvalidLabelLength
  | InvalidRecord
  | TrailingBytes
  | RdataTooLong.

Record MsgHeader := {
  id : Z;
  response : bool;
  opcode : Z;
  authoritative : bool;
  truncated : bool;
  recursion_desired : bool;
  recursion_available : bool;
  zero : bool;
  authenticated_data : bool;
  checking_disabled : bool;
  rcode : Z
}.

(** [bits & (1 << n) != 0] *)
Definition flag (bits n : Z) : bool := negb (Z.land bits (Z.shiftl 1 n) =? 0).

Definition header_from_wire (id bits : Z) : MsgHeader := {|
  id := id;
  response := flag bits 15;
  opcode := Z.land (Z.shiftr bits 11) 0x0f;
  authoritative := flag bits 10;
  truncated := flag bits 9;
  recursion_desired := flag bits 8;
  recursion_available := flag bits 7;
  zero := flag bits 6;
  authenticated_data := flag bits 5;
  checking_disabled := flag bits 4;
  rcode := Z.land bits 0x0f
|}.

Definition set_flag (c : bool) (n bits : Z) : Z :=
  if c then Z.lor bits (Z.shiftl 1 n) else bits.

Definition to_wire_bits (self : MsgHeader) : Z :=
  let bits := Z.shiftl (Z.land (opcode self) 0x0f) 11 in
  let bits := set_flag (response self) 15 bits in
  let bits := set_flag (authoritative self) 10 bits in
  let bits := set_flag (truncated self) 9 bits in
  let bits := set_flag (recursion_desired self) 8 bits in
  let bits := set_flag (recursion_available self) 7 bits in
  let bits := set_flag (zero self) 6 bits in
  let bits := set_flag (authenticated_data self) 5 bits in
  let bits := set_flag (checking_disabled self) 4 bits in
  Z.lor bits (Z.land (rcode self) 0x0f).

(** ** Names *)
Record Name := { labels : list bytes }.

Definition NAME_FUEL : nat := 260.

Fixpoint from_wire_loop (fuel : nat) (packet : bytes) (labels : list bytes) (current : Z)
    (consumed : option Z) (pointers_followed wire_len : Z) : outcome MsgError (Name * Z) :=
  match fuel with
  | O => Diverge
  | S fuel =>
      b ← ok_or (get_opt packet current) ShortPacket;
      let b := u8 b in
      let tag := Z.land b 0xc0 in
      if tag =? 0xc0 then
        b2 ← ok_or (get_opt packet (current + 1)) ShortPacket;
        let ptr := Z.lor (Z.shiftl (Z.land b 0x3f) 8) (u8 b2) in
        if len packet <=? ptr then Err InvalidName
        else
          let consumed := match consumed with None => Some (current + 2) | c => c end in
          let pointers_followed := pointers_followed + 1 in
          if MAX_COMPRESSION_POINTERS <? pointers_followed then Err CompressionLoop
          else from_wire_loop fuel packet labels ptr consumed pointers_followed wire_len
      else if tag =? 0 then
        let label_len := b in
        let current := current + 1 in
        if label_len =? 0 then
          let next := match consumed with Some c => c | None => current end in
          Ok ({| labels := labels |}, next)
        else
          let end_ := current + label_len in
          if len packet <? end_ then Err ShortPacket
          else
            let wire_len := wire_len + (1 + label_len) in
            if MAX_DOMAIN_NAME_WIRE_OCTETS <? wire_len then Err InvalidName
            else
              label ← slice packet current end_;
              from_wire_loop fuel packet (labels ++ [label]) end_ consumed pointers_followed wire_len
      else Err InvalidLabelLength
  end.

Definition from_wire (packet : bytes) (offset : Z) : outcome MsgError (Name * Z) :=
  from_wire_loop NAME_FUEL packet [] offset None 0 1.

Fixpoint skip_wire_loop (fuel : nat) (packet : bytes) (current : Z) : outcome MsgError Z :=
  match fuel with
  | O => Diverge
  | S fuel =>
      b ← ok_or (get_opt packet current) ShortPacket;
      let b := u8 b in
      let tag := Z.land b 0xc0 in
      if tag =? 0xc0 then
        _ ← ok_or (get_opt packet (current + 1)) ShortPacket;
        Ok (current + 2)
      else if tag =? 0 then
        let label_len := b in
        if 0x40 <=? label_len then Err InvalidLabelLength
        else
          let current := current + (1 + label_len) in
          if label_len =? 0 then Ok current
          else if len packet <? current then Err ShortPacket
          else skip_wire_loop fuel packet current
      else Err InvalidLabelLength
  end.

Definition skip_wire (packet : bytes) (offset : Z) : outcome MsgError Z :=
  skip_wire_loop (S (length packet)) packet offset.

Definition wire_len (self : Name) : Z :=
  1 + fold_right Z.add 0 (map (fun label => 1 + len label) (labels self)).

Fixpoint pack_labels (ls : list bytes) (out : bytes) : outcome MsgError bytes :=
  match ls with
  | [] => Ok out
  | label :: ls =>
      if 0x40 <=? len label then Err InvalidLabelLength
      else pack_labels ls (out ++ [as_u8 (len label)] ++ label)
  end.

Definition pack_into (self : Name) (out : bytes) : outcome MsgError bytes :=
  out ← pack_labels (labels self) out; Ok (out ++ [as_u8 0]).

(** ** Messages *)
Record Question := { q_name : Name; qtype : RrType.t; qclass : Z }.

Record ResourceRecord := {
  rr_name : Name;
  rr_type : RrType.t;
  rr_class : Z;
  ttl : Z;
  rdata : bytes
}.

Record Msg := {
  header : MsgHeader;
  compress : bool;
  questions : list Question;
  answers : list ResourceRecord;
  authorities : list ResourceRecord;
  additionals : list ResourceRecord
}.

Section codec.
Context `{BO : ByteOrder}.

Fixpoint unpack_questions (packet : bytes) (offset : Z) (count : nat) (acc : list Question)
    : outcome MsgError (list Question * Z) :=
  match count with
  | O => Ok (acc, offset)
  | S count =>
      '(name, next) ← from_wire packet offset;
      if saturating_sub (len packet) next <? 4 then Err ShortPacket
      else
        qt ← read_u16_in packet next (next + 2);
        qc ← read_u16_in packet (next + 2) (next + 4);
        let q := {| q_name := name; qtype := RrType.from_u16 qt; qclass := qc |} in
        unpack_questions packet (next + 4) count (acc ++ [q])
  end.

Fixpoint unpack_rr_section (packet : bytes) (offset : Z) (count : nat)
    (records : list ResourceRecord) : outcome MsgError (list ResourceRecord * Z) :=
  match count with
  | O => Ok (records, offset)
  | S count =>
      '(name, next) ← from_wire packet offset;
      if saturating_sub (len packet) next <? 10 then Err ShortPacket
      else
        rt ← read_u16_in packet next (next + 2);
        rr_class ← read_u16_in packet (next + 2) (next + 4);
        ttl ← read_u32_in packet (next + 4) (next + 8);
        rdlen ← read_u16_in packet (next + 8) (next + 10);
        let rdata_offset := next + 10 in
        if saturating_sub (len packet) rdata_offset <? rdlen then Err InvalidRecord
        else
          rdata ← slice packet rdata_offset (rdata_offset + rdlen);
          let rr := {| rr_name := name; rr_type := RrType.from_u16 rt; rr_class := rr_class;
                       ttl := ttl; rdata := rdata |} in
          unpack_rr_section packet (rdata_offset + rdlen) count (records ++ [rr])
  end.

Definition unpack (packet : bytes) : outcome MsgError Msg :=
  if len packet <? DNS_HEADER_SIZE then Err ShortPacket
  else
    id ← read_u16_in packet 0 2;
    bits ← read_u16_in packet 2 4;
    qdcount ← read_u16_in packet 4 6;
    ancount ← read_u16_in packet 6 8;
    nscount ← read_u16_in packet 8 10;
    arcount ← read_u16_in packet 10 12;
    '(questions, offset) ← unpack_questions packet DNS_HEADER_SIZE (Z.to_nat qdcount) [];
    '(answers, next) ← unpack_rr_section packet offset (Z.to_nat ancount) [];
    '(authorities, next) ← unpack_rr_section packet next (Z.to_nat nscount) [];
    '(additionals, next) ← unpack_rr_section packet next (Z.to_nat arcount) [];
    if negb (next =? len packet) then Err TrailingBytes
    else Ok {| header := header_from_wire id bits; compress := false; questions := questions;
               answers := answers; authorities := authorities; additionals := additionals |}.

(** [u16::try_from(n)] *)
Definition try_u16 (n : Z) : outcome MsgError Z :=
  if n <=? u16_max then Ok n else Err InvalidRecord.

Definition pack_question (q : Question) (out : bytes) : outcome MsgError bytes :=
  out ← pack_into (q_name q) out;
  Ok (out ++ be16 (RrType.to_u16 (qtype q)) ++ be16 (qclass q)).

Definition pack_rr (rr : ResourceRecord) (out : bytes) : outcome MsgError bytes :=
  if u16_max <? len (rdata rr) then Err RdataTooLong
  else
    out ← pack_into (rr_name rr) out;
    Ok (out ++ be16 (RrType.to_u16 (rr_type rr)) ++ be16 (rr_class rr) ++ be32 (ttl rr) ++
        be16 (as_u16 (len (rdata rr))) ++ rdata rr).

Fixpoint pack_all {A : Type} (f : A -> bytes -> outcome MsgError bytes) (l : list A) (out : bytes)
    : outcome MsgError bytes :=
  match l with
  | [] => Ok out
  | x :: l => out ← f x out; pack_all f l out
  end.

Definition pack (self : Msg) : outcome MsgError bytes :=
  qdcount ← try_u16 (len (questions self));
  ancount ← try_u16 (len (answers self));
  nscount ← try_u16 (len (authorities self));
  arcount ← try_u16 (len (additionals self));
  let out := replicate (Z.to_nat DNS_HEADER_SIZE) x00 in
  out ← write_u16_in out 0 2 (id (header self));
  out ← write_u16_in out 2 4 (to_wire_bits (header self));
  out ← write_u16_in out 4 6 qdcount;
  out ← write_u16_in out 6 8 ancount;
  out ← write_u16_in out 8 10 nscount;
  out ← write_u16_in out 10 12 arcount;
  out ← pack_all pack_question (questions self) out;
  out ← pack_all pack_rr (answers self) out;
  out ← pack_all pack_rr (authorities self) out;
  pack_all pack_rr (additionals self) out.

(** ** Answer addresses of a message *)
Definition msg_qtype (self : Msg) : option RrType.t := qtype <$> head (questions self).

(** The address of one answer record, if it holds one. *)
Definition answer_ip (rr : ResourceRecord) : option IpAddr :=
  if negb (rr_class rr =? DNS_CLASS_IN) then None
  else
    match rr_type rr with
    | RrType.A => if len (rdata rr) =? 4 then ipv4_of (rdata rr) else None
    | RrType.AAAA => if len (rdata rr) =? 16 then ipv6_of (rdata rr) else None
    | _ => None
    end.

Definition answer_ips (self : Msg) : list IpAddr := omap answer_ip (answers self).

Definition contains_answer_ip (self : Msg) (target_ip : IpAddr) : bool :=
  existsb (fun rr =>
    if negb (rr_class rr =? DNS_CLASS_IN) then false
    else
      match rr_type rr, target_ip with
      | RrType.A, V4 ip =>
          if len (rdata rr) =? 4 then bool_decide (rdata rr = vec_to_list ip) else false
      | RrType.AAAA, V6 ip =>
          if len (rdata rr) =? 16 then bool_decide (rdata rr = vec_to_list ip) else false
      | _, _ => false
      end) (answers self).

(** Does an address of this family go into a record of this type and length? *)
Definition rewrites (rr_type : RrType.t) (rdlen : Z) (selected_ip : IpAddr) : bool :=
  match rr_type, selected_ip with
  | RrType.A, V4 _ => rdlen =? 4
  | RrType.AAAA, V6 _ => rdlen =? 16
  | _, _ => false
  end.

Definition rewrite_rr (selected_ip : IpAddr) (rr : ResourceRecord) : ResourceRecord :=
  if negb (rr_class rr =? DNS_CLASS_IN) then rr
  else if rewrites (rr_type rr) (len (rdata rr)) selected_ip then
    {| rr_name := rr_name rr; rr_type := rr_type rr; rr_class := rr_class rr; ttl := ttl rr;
       rdata := octets selected_ip |}
  else rr.

Definition rewrite_answer_ips (self : Msg) (selected_ip : IpAddr) : Msg := {|
  header := header self; compress := compress self; questions := questions self;
  answers := map (rewrite_rr selected_ip) (answers self);
  authorities := authorities self; additionals := additionals self
|}.

(** ** Packets *)
Definition validate_packet (packet : bytes) : outcome MsgError bool :=
  match unpack packet with
  | Ok _ => Ok true
  | Err _ => Ok false
  | Panic => Panic
  | Diverge => Diverge
  end.

Definition qtype_from_packet (packet : bytes) : outcome MsgError (option RrType.t) :=
  qdcount ← (if 6 <=? len packet then read_u16_in packet 4 6 else Ok 0);
  if qdcount =? 0 then Ok None
  else
    match skip_wire packet DNS_HEADER_SIZE with
    | Ok offset =>
        if saturating_sub (len packet) offset <? 4 then Ok None
        else code ← read_u16_in packet offset (offset + 2); Ok (Some (RrType.from_u16 code))
    | Err _ => Ok None
    | Panic => Panic
    | Diverge => Diverge
    end.

Definition extract_answer_ips_from_packet (packet : bytes) : outcome MsgError (list IpAddr) :=
  match unpack packet with
  | Ok msg => Ok (answer_ips msg)
  | Err _ => Ok []
  | Panic => Panic
  | Diverge => Diverge
  end.

Definition contains_answer_ip_in_packet (packet : bytes) (target_ip : IpAddr)
    : outcome MsgError bool :=
  match unpack packet with
  | Ok msg => Ok (contains_answer_ip msg target_ip)
  | Err _ => Ok false
  | Panic => Panic
  | Diverge => Diverge
  end.

(** [packet[a..b].copy_from_slice(src)] *)
Definition copy_from_slice (packet : bytes) (a b : Z) (src : bytes) : outcome MsgError bytes :=
  s ← slice packet a b;
  if len s =? len src
  then Ok (firstn (Z.to_nat a) packet ++ src ++ skipn (Z.to_nat b) packet)
  else Panic.

Fixpoint skip_questions (packet : bytes) (offset : Z) (count : nat) : outcome MsgError Z :=
  match count with
  | O => Ok offset
  | S count =>
      offset ← skip_wire packet offset;
      if saturating_sub (len packet) offset <? 4 then Err ShortPacket
      else skip_questions packet (offset + 4) count
  end.

Fixpoint rewrite_answers (selected_ip : IpAddr) (offset : Z) (count : nat)
    : mutates bytes MsgError Z :=
  match count with
  | O => mret offset
  | S count =>
      packet ← current;
      offset ← lift (skip_wire packet offset);
      if saturating_sub (len packet) offset <? 10 then lift (Err ShortPacket)
      else
        rt ← lift (read_u16_in packet offset (offset + 2));
        let rr_type := RrType.from_u16 rt in
        rr_class ← lift (read_u16_in packet (offset + 2) (offset + 4));
        rdlen ← lift (read_u16_in packet (offset + 8) (offset + 10));
        let rdata_offset := offset + 10 in
        if saturating_sub (len packet) rdata_offset <? rdlen then lift (Err InvalidRecord)
        else
          (if (rr_class =? DNS_CLASS_IN) && rewrites rr_type rdlen selected_ip then
             update (fun packet =>
               copy_from_slice packet rdata_offset
                 (rdata_offset + (if is_v4 selected_ip then 4 else 16)) (octets selected_ip))
           else mret tt);;
          rewrite_answers selected_ip (rdata_offset + rdlen) count
  end.

Fixpoint skip_records (packet : bytes) (offset : Z) (count : nat) : outcome MsgError Z :=
  match count with
  | O => Ok offset
  | S count =>
      offset ← skip_wire packet offset;
      if saturating_sub (len packet) offset <? 10 then Err ShortPacket
      else
        rdlen ← read_u16_in packet (offset + 8) (offset + 10);
        let rdata_offset := offset + 10 in
        if saturating_sub (len packet) rdata_offset <? rdlen then Err InvalidRecord
        else skip_records packet (rdata_offset + rdlen) count
  end.

Definition rewrite_answer_ips_in_packet (selected_ip : IpAddr) : mutates bytes MsgError unit :=
  packet ← current;
  if len packet <? DNS_HEADER_SIZE then lift (Err ShortPacket)
  else
    qdcount ← lift (read_u16_in packet 4 6);
    ancount ← lift (read_u16_in packet 6 8);
    nscount ← lift (read_u16_in packet 8 10);
    arcount ← lift (read_u16_in packet 10 12);
    offset ← lift (skip_questions packet DNS_HEADER_SIZE (Z.to_nat qdcount));
    offset ← rewrite_answers selected_ip offset (Z.to_nat ancount);
    packet ← current;
    offset ← lift (skip_records packet offset (Z.to_nat (nscount + arcount)));
    if negb (offset =? len packet) then lift (Err TrailingBytes) else mret tt.

(** ** dns_packet.rs *)
Inductive PacketError := InvalidPacket.

Definition query_qtype (packet : bytes) : outcome MsgError (option RrType.t) :=
  qtype_from_packet packet.
Definition validate_response_packet (packet : bytes) : outcome MsgError bool :=
  validate_packet packet.
Definition extract_answer_ips (packet : bytes) : outcome MsgError (list IpAddr) :=
  extract_answer_ips_from_packet packet.
(** [contains_answer_ip] of dns_packet.rs *)
Definition packet_contains_answer_ip (packet : bytes) (target_ip : IpAddr)
    : outcome MsgError bool :=
  contains_answer_ip_in_packet packet target_ip.
Definition rewrite_answer_ips_in_place (packet : bytes) (selected_ip : IpAddr)
    : outcome PacketError unit * bytes :=
  let '(r, packet) := rewrite_answer_ips_in_packet selected_ip packet in
  (map_err (fun _ => InvalidPacket) r, packet).
End codec.
