(* ===== verification/MsgFacts.v ===== *)
(** * What the message codec guarantees

    Names, sections and whole messages: no panic, round trips, and the
    agreement of the walker that skips names with the one that decodes them. *)

From S2P Require Import Prelude Bytes Net RrTypes Wire Msg.

Lemma get_opt_Some p i b : get_opt p i = Some b <-> 0 <= i < len p /\ b = get p i.
Proof.
  unfold get_opt. destruct (Z.leb_spec 0 i), (Z.ltb_spec i (len p)); cbn [andb];
    (split; [intros [= <-]|intros [? ->]]); done || lia.
Qed.

Lemma get_opt_ok p i : 0 <= i < len p -> get_opt p i = Some (get p i).
Proof. intros. by apply get_opt_Some. Qed.

Lemma ok_or_Ok {E A} (o : option A) (e : E) a : ok_or o e = Ok a <-> o = Some a.
Proof. destruct o; cbn; split; congruence. Qed.

Lemma returns_get_opt {E} p i (e : E) (Q : byte -> Prop) :
  (0 <= i < len p -> Q (get p i)) -> returns (ok_or (get_opt p i) e) Q.
Proof.
  intros H. destruct (get_opt p i) eqn:Hg; [|done]. apply get_opt_Some in Hg as [Hi ->].
  by apply H.
Qed.

(** A name the decoder produces. *)
Definition good_name (n : Name) : Prop :=
  Forall good_label (labels n) /\ wire_len n <= MAX_DOMAIN_NAME_WIRE_OCTETS.

(** ** Decoding a name *)
Lemma from_wire_loop_returns fuel p ls cur consumed ptrs wl :
  0 <= cur -> ptrs <= 128 -> wl <= 255 -> 2 * (128 - ptrs) + (255 - wl) < 2 * Z.of_nat fuel ->
  wl = 1 + labels_len ls -> Forall good_label ls ->
  match consumed with Some c => c <= len p | None => True end ->
  returns (from_wire_loop fuel p ls cur consumed ptrs wl) (fun '(n, next) =>
    good_name n /\
    match consumed with Some c => next = c | None => cur < next <= len p end).
Proof.
  revert ls cur consumed ptrs wl; induction fuel as [|fuel IH];
    intros ls cur consumed ptrs wl Hc Hp Hw Hf Hwl Hls Hcons; [lia|].
  cbn [from_wire_loop]. apply returns_bind, returns_get_opt. intros Hcur.
  rewrite tag_pointer, tag_label. pose proof (u8_bounds (get p cur)).
  destruct (Z.leb_spec 192 (u8 (get p cur))).
  - apply returns_bind, returns_get_opt. intros Hcur1.
    destruct (Z.leb_spec (len p) (Z.lor (Z.shiftl (Z.land (u8 (get p cur)) 63) 8)
      (u8 (get p (cur + 1))))); [done|].
    unfold MAX_COMPRESSION_POINTERS. destruct (Z.ltb_spec 128 (ptrs + 1)); [done|].
    assert (0 <= Z.lor (Z.shiftl (Z.land (u8 (get p cur)) 63) 8) (u8 (get p (cur + 1)))).
    { apply Z.lor_nonneg. split; [|apply u8_bounds]. apply Z.shiftl_nonneg, Z.land_nonneg. lia. }
    eapply returns_mono; [apply IH; try done; try lia|].
    { by destruct consumed; [|lia]. }
    intros [nm next] _ [Hn Hnext]. split; [done|]. destruct consumed; subst; lia.
  - destruct (Z.ltb_spec (u8 (get p cur)) 64); [|done].
    destruct (Z.eqb_spec (u8 (get p cur)) 0).
    + cbn [returns]. split; [|destruct consumed; lia]. split; [done|].
      unfold wire_len, MAX_DOMAIN_NAME_WIRE_OCTETS. cbn. unfold labels_len in Hwl. lia.
    + destruct (Z.ltb_spec (len p) (cur + 1 + u8 (get p cur))); [done|].
      unfold MAX_DOMAIN_NAME_WIRE_OCTETS.
      destruct (Z.ltb_spec 255 (wl + (1 + u8 (get p cur)))); [done|].
      rewrite slice_ok by lia. out_simpl.
      assert (len (sub p (cur + 1) (cur + 1 + u8 (get p cur))) = u8 (get p cur)) as Hl
        by (rewrite len_sub by lia; lia).
      eapply returns_mono; [apply IH; try done; try lia|].
      * rewrite labels_len_app, labels_len_cons, Hl. cbn. lia.
      * apply Forall_app. split; [done|]. constructor; [|done]. unfold good_label. lia.
      * intros [nm next] _ [Hn Hnext]. split; [done|]. destruct consumed; [done|lia].
Qed.

Lemma from_wire_returns p o :
  0 <= o -> returns (from_wire p o) (fun '(n, next) => good_name n /\ o < next <= len p).
Proof.
  assert (2 * (128 - 0) + (255 - 1) < 2 * Z.of_nat NAME_FUEL) as Hf by done. revert Hf.
  unfold from_wire. generalize NAME_FUEL. intros fuel Hf Ho.
  apply (from_wire_loop_returns fuel p [] o None 0 1); done || lia.
Qed.

Lemma skip_wire_loop_returns fuel p o :
  0 <= o -> (Z.to_nat (len p - o) < fuel)%nat ->
  returns (skip_wire_loop fuel p o) (fun next => o < next <= len p).
Proof.
  revert o; induction fuel as [|fuel IH]; intros o Ho Hf; [lia|]. cbn [skip_wire_loop].
  apply returns_bind, returns_get_opt. intros Hb. rewrite tag_pointer, tag_label.
  pose proof (u8_bounds (get p o)).
  destruct (Z.leb_spec 192 (u8 (get p o))).
  - apply returns_bind, returns_get_opt. cbn. lia.
  - destruct (Z.ltb_spec (u8 (get p o)) 64); [|done]. cmp_simpl.
    destruct (Z.eqb_spec (u8 (get p o)) 0); [cbn; lia|].
    destruct (Z.ltb_spec (len p) (o + (1 + u8 (get p o)))); [done|].
    eapply returns_mono; [apply IH; lia|]. cbn. lia.
Qed.

Lemma skip_wire_returns p o : 0 <= o -> returns (skip_wire p o) (fun next => o < next <= len p).
Proof. intros. unfold skip_wire. apply skip_wire_loop_returns; [done|]. unfold len. lia. Qed.

(** A name that decodes is skipped to the same offset. *)
Lemma from_wire_loop_consumed fuel p ls cur c ptrs wl n next :
  from_wire_loop fuel p ls cur (Some c) ptrs wl = Ok (n, next) -> next = c.
Proof.
  revert ls cur ptrs wl; induction fuel as [|fuel IH]; intros ls cur ptrs wl H; [done|].
  cbn [from_wire_loop] in H. inv_ok.
  destruct (_ =? 192).
  - inv_ok. destruct (_ <=? _); [done|]. destruct (_ <? _); [done|]. by eapply IH.
  - destruct (_ =? 0); [|done]. destruct (_ =? 0); [by injection H as <- <-|].
    destruct (_ <? _); [done|]. destruct (_ <? _); [done|]. inv_ok. by eapply IH.
Qed.

Lemma from_wire_skip_loop fuel fuel' p ls cur ptrs wl n next :
  from_wire_loop fuel p ls cur None ptrs wl = Ok (n, next) -> 0 <= cur ->
  (Z.to_nat (len p - cur) < fuel')%nat -> skip_wire_loop fuel' p cur = Ok next.
Proof.
  revert fuel' ls cur ptrs wl; induction fuel as [|fuel IH]; intros fuel' ls cur ptrs wl H Hc Hf;
    [done|]. destruct fuel' as [|fuel']; [lia|]. cbn [from_wire_loop] in H. cbn [skip_wire_loop].
  inv_ok. rewrite Ha. out_simpl. apply ok_or_Ok, get_opt_Some in Ha as [Hb ->].
  pose proof (u8_bounds (get p cur)). rewrite !tag_pointer, !tag_label in *.
  destruct (Z.leb_spec 192 (u8 (get p cur))).
  - inv_ok. rewrite Ha. out_simpl. destruct (_ <=? _); [done|]. destruct (_ <? _); [done|].
    apply from_wire_loop_consumed in H. by subst.
  - destruct (Z.ltb_spec (u8 (get p cur)) 64); [|done]. cmp_simpl.
    destruct (Z.eqb_spec (u8 (get p cur)) 0).
    + injection H as <- <-. f_equal. lia.
    + destruct (Z.ltb_spec (len p) (cur + 1 + u8 (get p cur))); [done|].
      destruct (_ <? _); [done|]. inv_ok. cmp_simpl.
      replace (cur + (1 + u8 (get p cur))) with (cur + 1 + u8 (get p cur)) by lia.
      eapply IH; [exact H|lia|lia].
Qed.

Lemma from_wire_skip p o n next :
  0 <= o -> from_wire p o = Ok (n, next) -> skip_wire p o = Ok next.
Proof.
  unfold from_wire, skip_wire. generalize NAME_FUEL. intros fuel Ho H.
  eapply from_wire_skip_loop; [exact H|done|]. unfold len. lia.
Qed.

(** ** Well-formed messages *)
Definition good_header (h : MsgHeader) : Prop :=
  0 <= id h <= u16_max /\ 0 <= opcode h < 16 /\ 0 <= rcode h < 16.
Definition good_question (q : Question) : Prop :=
  good_name (q_name q) /\ RrType.canonical (qtype q) /\ 0 <= qclass q <= u16_max.
Definition good_rr (rr : ResourceRecord) : Prop :=
  good_name (rr_name rr) /\ RrType.canonical (rr_type rr) /\ 0 <= rr_class rr <= u16_max /\
  0 <= ttl rr <= u32_max /\ len (rdata rr) <= u16_max.
Definition good_section (rrs : list ResourceRecord) : Prop :=
  Forall good_rr rrs /\ len rrs <= u16_max.

Record good_msg (m : Msg) : Prop := {
  good_msg_header : good_header (header m);
  good_msg_compress : compress m = false;
  good_msg_questions : Forall good_question (questions m) /\ len (questions m) <= u16_max;
  good_msg_answers : good_section (answers m);
  good_msg_authorities : good_section (authorities m);
  good_msg_additionals : good_section (additionals m)
}.

Lemma land_15_bounds z : 0 <= Z.land z 15 < 16.
Proof. change 15 with (Z.ones 4). rewrite Z.land_ones by lia. by apply Z.mod_pos_bound. Qed.

Lemma header_from_wire_good i bits : 0 <= i <= u16_max -> good_header (header_from_wire i bits).
Proof. intros. split; [done|]. split; apply land_15_bounds. Qed.

Section totality.
Context `{BO : ByteOrder}.

Lemma unpack_questions_returns p o n acc :
  0 <= o <= len p -> Forall good_question acc ->
  returns (unpack_questions p o n acc) (fun '(qs, next) =>
    o <= next <= len p /\ Forall good_question qs /\ length qs = (length acc + n)%nat).
Proof.
  revert o acc; induction n as [|n IH]; intros o acc Ho Hacc; [cbn; split_and!; done || lia|].
  cbn [unpack_questions]. apply returns_bind.
  eapply returns_mono; [apply from_wire_returns; lia|]. intros [nm next] _ [Hn Hb].
  unfold saturating_sub. destruct (Z.ltb_spec (Z.max 0 (len p - next)) 4); [done|].
  rewrite !read_u16_in_ok by lia. out_simpl.
  eapply returns_mono; [apply IH; [lia|]|].
  - apply Forall_app. split; [done|]. constructor; [|done]. split; [done|].
    split; [apply RrType.canonical_from_u16|]; apply u16at_bounds.
  - intros [qs next'] _ (? & ? & Hl). rewrite length_app in Hl. cbn in Hl.
    split_and!; done || lia.
Qed.

Lemma unpack_rr_section_returns p o n acc :
  0 <= o <= len p -> Forall good_rr acc ->
  returns (unpack_rr_section p o n acc) (fun '(rrs, next) =>
    o <= next <= len p /\ Forall good_rr rrs /\ length rrs = (length acc + n)%nat).
Proof.
  revert o acc; induction n as [|n IH]; intros o acc Ho Hacc; [cbn; split_and!; done || lia|].
  cbn [unpack_rr_section]. apply returns_bind.
  eapply returns_mono; [apply from_wire_returns; lia|]. intros [nm next] _ [Hn Hb].
  unfold saturating_sub. destruct (Z.ltb_spec (Z.max 0 (len p - next)) 10); [done|].
  rewrite !read_u16_in_ok, read_u32_in_ok by lia. out_simpl.
  pose proof (u16at_bounds p (next + 8)).
  destruct (Z.ltb_spec (Z.max 0 (len p - (next + 10))) (u16at p (next + 8))); [done|].
  rewrite slice_ok by lia. out_simpl.
  eapply returns_mono; [apply IH; [lia|]|].
  - apply Forall_app. split; [done|]. constructor; [|done]. split; [done|].
    split_and!; try apply RrType.canonical_from_u16; try apply u16at_bounds; try apply u32at_bounds.
    cbn. rewrite len_sub by lia. lia.
  - intros [rrs next'] _ (? & ? & Hl). rewrite length_app in Hl. cbn in Hl.
    split_and!; done || lia.
Qed.

Lemma unpack_returns p : returns (unpack p) good_msg.
Proof.
  unfold unpack, DNS_HEADER_SIZE. destruct (Z.ltb_spec (len p) 12); [done|].
  rewrite !read_u16_in_ok by lia. out_simpl.
  pose proof (u16at_bounds p 4). pose proof (u16at_bounds p 6).
  pose proof (u16at_bounds p 8). pose proof (u16at_bounds p 10).
  apply returns_bind. eapply returns_mono; [apply unpack_questions_returns; [lia|constructor]|].
  intros [qs o1] _ (Ho1 & Hqs & Hlq).
  apply returns_bind. eapply returns_mono; [apply unpack_rr_section_returns; [lia|constructor]|].
  intros [ans o2] _ (Ho2 & Hans & Hl2).
  apply returns_bind. eapply returns_mono; [apply unpack_rr_section_returns; [lia|constructor]|].
  intros [aut o3] _ (Ho3 & Haut & Hl3).
  apply returns_bind. eapply returns_mono; [apply unpack_rr_section_returns; [lia|constructor]|].
  intros [add o4] _ (Ho4 & Hadd & Hl4).
  destruct (o4 =? len p); cbn [negb returns]; [|done]. cbn [length] in *.
  split; cbn [header compress questions answers authorities additionals];
    [apply header_from_wire_good, u16at_bounds|done| | | |]; split; try done; unfold len; lia.
Qed.

Lemma skip_questions_returns p o n :
  0 <= o <= len p -> returns (skip_questions p o n) (fun next => o <= next <= len p).
Proof.
  revert o; induction n as [|n IH]; intros o Ho; [cbn; lia|]. cbn [skip_questions].
  apply returns_bind. eapply returns_mono; [apply skip_wire_returns; lia|].
  cbn beta. intros next _ Hb. unfold saturating_sub.
  destruct (Z.ltb_spec (Z.max 0 (len p - next)) 4); [done|].
  eapply returns_mono; [apply IH; lia|]. cbn. lia.
Qed.

Lemma skip_records_returns p o n :
  0 <= o <= len p -> returns (skip_records p o n) (fun next => o <= next <= len p).
Proof.
  revert o; induction n as [|n IH]; intros o Ho; [cbn; lia|]. cbn [skip_records].
  apply returns_bind. eapply returns_mono; [apply skip_wire_returns; lia|].
  cbn beta. intros next _ Hb. unfold saturating_sub.
  destruct (Z.ltb_spec (Z.max 0 (len p - next)) 10); [done|].
  rewrite read_u16_in_ok by lia. out_simpl. pose proof (u16at_bounds p (next + 8)).
  destruct (Z.ltb_spec (Z.max 0 (len p - (next + 10))) (u16at p (next + 8))); [done|].
  eapply returns_mono; [apply IH; lia|]. cbn. lia.
Qed.

Lemma qtype_from_packet_total p : total (qtype_from_packet p).
Proof.
  unfold total, qtype_from_packet. apply returns_bind.
  eapply (returns_mono _ (fun _ => True)).
  { destruct (Z.leb_spec 6 (len p)); [|done]. by rewrite read_u16_in_ok by lia. }
  intros qd _ _. destruct (qd =? 0); [done|].
  pose proof (skip_wire_returns p DNS_HEADER_SIZE ltac:(done)) as Hs.
  destruct (skip_wire p DNS_HEADER_SIZE) as [o| | |]; try done. cbn in Hs.
  unfold DNS_HEADER_SIZE, saturating_sub in *.
  destruct (Z.ltb_spec (Z.max 0 (len p - o)) 4); [done|].
  rewrite read_u16_in_ok by lia. done.
Qed.
End totality.

(** ** The header *)
Lemma flag_testbit bits k : 0 <= k -> flag bits k = Z.testbit bits k.
Proof.
  intros Hk. unfold flag. by rewrite Z.shiftl_1_l, land_bit, negb_involutive.
Qed.

Lemma set_flag_testbit c k bits n :
  0 <= k -> Z.testbit (set_flag c k bits) n = (c && (n =? k)) || Z.testbit bits n.
Proof.
  intros Hk. unfold set_flag. rewrite Z.shiftl_1_l. destruct c; [|done].
  rewrite Z.lor_spec, Z.pow2_bits_eqb by lia. cbn [andb]. rewrite Z.eqb_sym. apply orb_comm.
Qed.

Lemma land_15_testbit z n : 0 <= n -> Z.testbit (Z.land z 15) n = Z.testbit z n && (n <? 4).
Proof.
  intros Hn. change 15 with (Z.ones 4). rewrite Z.land_spec. f_equal.
  destruct (Z.ltb_spec n 4); [by apply Z.ones_spec_low|by apply Z.ones_spec_high].
Qed.

Lemma wire_bits_testbit h n :
  0 <= n ->
  Z.testbit (to_wire_bits h) n =
    (checking_disabled h && (n =? 4)) || ((authenticated_data h && (n =? 5)) ||
    ((zero h && (n =? 6)) || ((recursion_available h && (n =? 7)) ||
    ((recursion_desired h && (n =? 8)) || ((truncated h && (n =? 9)) ||
    ((authoritative h && (n =? 10)) || ((response h && (n =? 15)) ||
    ((11 <=? n) && (Z.testbit (opcode h) (n - 11) && (n <? 15)))))))))) ||
    (Z.testbit (rcode h) n && (n <? 4)).
Proof.
  intros Hn. unfold to_wire_bits. rewrite Z.lor_spec, !set_flag_testbit by lia.
  rewrite Z.shiftl_spec by lia. rewrite (land_15_testbit (rcode h)) by lia.
  assert (Z.testbit (Z.land (opcode h) 15) (n - 11) =
    (11 <=? n) && (Z.testbit (opcode h) (n - 11) && (n <? 15))) as ->; [|done].
  destruct (Z.leb_spec 11 n); [|by rewrite Z.testbit_neg_r by lia].
  rewrite land_15_testbit by lia. cbn [andb]. f_equal.
  destruct (Z.ltb_spec (n - 11) 4), (Z.ltb_spec n 15); lia || done.
Qed.

Lemma testbit_high z n k : 0 <= z < 2 ^ k -> k <= n -> Z.testbit z n = false.
Proof.
  intros Hz Hn. destruct (Z.eq_dec z 0) as [->|]; [apply Z.bits_0|].
  apply Z.bits_above_log2; [lia|]. apply Z.log2_lt_pow2; [lia|].
  apply Z.lt_le_trans with (2 ^ k); [lia|]. apply Z.pow_le_mono_r; lia.
Qed.

Ltac nibble n :=
  assert (15 = n \/ 14 = n \/ 13 = n \/ 12 = n \/ 11 = n \/ 10 = n \/ 9 = n \/ 8 = n \/
    7 = n \/ 6 = n \/ 5 = n \/ 4 = n \/ 3 = n \/ 2 = n \/ 1 = n \/ 0 = n) as Hnib by lia;
  repeat destruct Hnib as [<-|Hnib]; [..|subst n].

Ltac eval_consts :=
  cbn [Z.eqb Pos.eqb Z.leb Z.ltb Z.compare Pos.compare Pos.compare_cont andb orb Z.sub Z.add
       Z.opp Z.pos_sub Pos.pred_double Pos.add Pos.succ].

Lemma to_wire_bits_from_wire i bits :
  0 <= bits <= u16_max -> to_wire_bits (header_from_wire i bits) = bits.
Proof.
  intros Hb. apply Z.bits_inj'. intros n Hn. rewrite wire_bits_testbit by done.
  destruct (Z.lt_ge_cases n 16) as [Hlt|Hge].
  - unfold header_from_wire; cbn [checking_disabled authenticated_data zero recursion_available
      recursion_desired truncated authoritative response opcode rcode].
    rewrite !flag_testbit by lia.
    nibble n; eval_consts; repeat first [rewrite land_15_testbit by lia | rewrite Z.shiftr_spec by lia];
      eval_consts; rewrite ?andb_true_r, ?andb_false_r, ?orb_false_r; done.
  - rewrite (testbit_high bits n 16) by lia.
    assert (Z.testbit (rcode (header_from_wire i bits)) n && (n <? 4) = false) as ->
      by (destruct (Z.ltb_spec n 4); [lia|apply andb_false_r]).
    repeat match goal with |- context [n =? ?k] =>
      rewrite (proj2 (Z.eqb_neq n k)) by lia end.
    rewrite (proj2 (Z.ltb_ge n 15)) by lia. by rewrite !andb_false_r.
Qed.

Lemma wire_bits_bounds h : good_header h -> 0 <= to_wire_bits h <= u16_max.
Proof.
  intros (_ & Ho & Hr).
  assert (to_wire_bits h mod 2 ^ 16 = to_wire_bits h) as Hm.
  { apply Z.bits_inj'. intros n Hn. destruct (Z.lt_ge_cases n 16).
    - apply Z.mod_pow2_bits_low. lia.
    - rewrite Z.mod_pow2_bits_high, wire_bits_testbit by lia.
      repeat match goal with |- context [n =? ?k] => rewrite (proj2 (Z.eqb_neq n k)) by lia end.
      rewrite (proj2 (Z.ltb_ge n 15)), (proj2 (Z.ltb_ge n 4)) by lia. by rewrite !andb_false_r. }
  pose proof (Z.mod_pos_bound (to_wire_bits h) (2 ^ 16) eq_refl). change (2 ^ 16) with 65536 in *. lia.
Qed.

Lemma nibble_wire_bits h n :
  good_header h -> 0 <= n ->
  Z.testbit (Z.land (Z.shiftr (to_wire_bits h) 11) 15) n = Z.testbit (opcode h) n /\
  Z.testbit (Z.land (to_wire_bits h) 15) n = Z.testbit (rcode h) n.
Proof.
  intros (_ & Ho & Hr) Hn. rewrite !land_15_testbit, Z.shiftr_spec by lia.
  destruct (Z.ltb_spec n 4).
  - rewrite !wire_bits_testbit by lia.
    assert (n = 0 \/ n = 1 \/ n = 2 \/ n = 3) as [-> | [-> | [-> | ->]]] by lia;
      eval_consts; rewrite ?andb_true_r, ?andb_false_r, ?orb_false_r; split; reflexivity.
  - rewrite !andb_false_r. by rewrite !(testbit_high _ n 4) by lia.
Qed.

Lemma header_wire h : good_header h -> header_from_wire (id h) (to_wire_bits h) = h.
Proof.
  intros Hg. unfold header_from_wire. rewrite !flag_testbit, !wire_bits_testbit by lia.
  eval_consts. rewrite ?andb_true_r, ?andb_false_r, ?orb_false_r.
  assert (Z.land (Z.shiftr (to_wire_bits h) 11) 15 = opcode h) as ->
    by (apply Z.bits_inj'; intros n Hn; by apply nibble_wire_bits).
  assert (Z.land (to_wire_bits h) 15 = rcode h) as ->
    by (apply Z.bits_inj'; intros n Hn; by apply nibble_wire_bits).
  by destruct h.
Qed.

(** ** The encoding *)
Definition enc_name (n : Name) : bytes := enc_labels (labels n) ++ [x00].
Definition enc_question (q : Question) : bytes :=
  enc_name (q_name q) ++ be16 (RrType.to_u16 (qtype q)) ++ be16 (qclass q).
Definition enc_rr (rr : ResourceRecord) : bytes :=
  enc_name (rr_name rr) ++ be16 (RrType.to_u16 (rr_type rr)) ++ be16 (rr_class rr) ++
  be32 (ttl rr) ++ be16 (len (rdata rr)) ++ rdata rr.
Definition enc_header (m : Msg) : bytes :=
  be16 (id (header m)) ++ be16 (to_wire_bits (header m)) ++ be16 (len (questions m)) ++
  be16 (len (answers m)) ++ be16 (len (authorities m)) ++ be16 (len (additionals m)).
Definition enc_msg (m : Msg) : bytes :=
  enc_header m ++ concat (map enc_question (questions m)) ++ concat (map enc_rr (answers m)) ++
  concat (map enc_rr (authorities m)) ++ concat (map enc_rr (additionals m)).

Lemma pack_labels_enc ls out :
  Forall good_label ls -> pack_labels ls out = Ok (out ++ enc_labels ls).
Proof.
  intros H; revert out. induction H as [|l ls Hl H IH]; intros out; cbn [pack_labels].
  - unfold enc_labels; cbn. by rewrite app_nil_r.
  - unfold good_label in Hl. cmp_simpl. rewrite IH. unfold enc_labels. cbn [map concat].
    by rewrite <- !app_assoc.
Qed.

Lemma pack_into_enc n out : good_name n -> pack_into n out = Ok (out ++ enc_name n).
Proof.
  intros [Hn _]. unfold pack_into. rewrite pack_labels_enc by done. out_simpl.
  unfold enc_name. by rewrite <- app_assoc.
Qed.

Lemma pack_question_enc q out : good_question q -> pack_question q out = Ok (out ++ enc_question q).
Proof.
  intros (Hn & _). unfold pack_question. rewrite pack_into_enc by done. out_simpl.
  unfold enc_question. by rewrite <- app_assoc.
Qed.

Lemma pack_rr_enc rr out : good_rr rr -> pack_rr rr out = Ok (out ++ enc_rr rr).
Proof.
  intros (Hn & _ & _ & _ & Hl). pose proof (len_nonneg (rdata rr)).
  unfold pack_rr. cmp_simpl. rewrite pack_into_enc by done.
  out_simpl. unfold enc_rr, as_u16. rewrite Z.mod_small by lia. by rewrite <- app_assoc.
Qed.

Lemma pack_all_enc {A} (f : A -> bytes -> outcome MsgError bytes) (enc : A -> bytes)
    (P : A -> Prop) l out :
  (forall x out, P x -> f x out = Ok (out ++ enc x)) -> Forall P l ->
  pack_all f l out = Ok (out ++ concat (map enc l)).
Proof.
  intros Hf H; revert out. induction H as [|x l Hx H IH]; intros out; cbn.
  - by rewrite app_nil_r.
  - rewrite Hf by done. out_simpl. by rewrite IH, <- app_assoc.
Qed.

Section encoding.
Context `{BO : ByteOrder}.

Lemma header_bytes a b c d e f :
  put_u16 (put_u16 (put_u16 (put_u16 (put_u16 (put_u16 (replicate 12 x00) 0 a) 2 b) 4 c) 6 d) 8 e) 10 f
  = be16 a ++ be16 b ++ be16 c ++ be16 d ++ be16 e ++ be16 f.
Proof. reflexivity. Qed.

Lemma pack_enc m : good_msg m -> pack m = Ok (enc_msg m).
Proof.
  intros [Hh _ [Hq Hql] [Ha Hal] [Hau Haul] [Had Hadl]].
  pose proof (wire_bits_bounds _ Hh). destruct Hh as [Hid _].
  pose proof (len_nonneg (questions m)). pose proof (len_nonneg (answers m)).
  pose proof (len_nonneg (authorities m)). pose proof (len_nonneg (additionals m)).
  unfold pack, try_u16. change (Z.to_nat DNS_HEADER_SIZE) with 12%nat. run_ok.
  do 6 (rewrite write_u16_in_ok; [out_simpl|lia|lia|rewrite ?len_put_u16; (lia || by vm_compute)|lia]).
  rewrite header_bytes, (pack_all_enc pack_question enc_question good_question)
    by (try apply pack_question_enc; done). out_simpl.
  do 3 (rewrite (pack_all_enc pack_rr enc_rr good_rr) by (try apply pack_rr_enc; done); out_simpl).
  unfold enc_msg, enc_header. by rewrite <- !app_assoc.
Qed.

(** ** Reading the encoding back *)
Lemma from_wire_loop_enc fuel pre ls post acc wl :
  Forall good_label ls -> wl + labels_len ls <= 255 -> (length ls < fuel)%nat ->
  from_wire_loop fuel (pre ++ enc_labels ls ++ x00 :: post) acc (len pre) None 0 wl =
    Ok ({| labels := acc ++ ls |}, len pre + labels_len ls + 1).
Proof.
  intros H; revert fuel pre acc wl.
  induction H as [|l ls Hl H IH]; intros fuel pre acc wl Hwl Hf; (destruct fuel as [|fuel]; [lia|]);
    cbn [from_wire_loop]; pose proof (len_nonneg pre).
  - unfold enc_labels; cbn [map concat app]. pose proof (len_nonneg post).
    rewrite (get_opt_ok _ (len pre)) by (doh_simpl; lia). rewrite get_middle. out_simpl.
    change (u8 x00) with 0. cbn. rewrite app_nil_r. do 2 f_equal. unfold labels_len; cbn. lia.
  - unfold good_label in Hl. cbn [length] in Hf. pose proof (labels_len_nonneg ls). rewrite labels_len_cons in *.
    pose proof (len_nonneg post). pose proof (len_enc_labels ls).
    unfold enc_labels; cbn [map concat app]. fold (enc_labels ls).
    rewrite (get_opt_ok _ (len pre)) by (doh_simpl; lia). rewrite get_middle. out_simpl.
    rewrite tag_pointer, tag_label, u8_as_u8, Z.mod_small by lia. cmp_simpl.
    assert (len (pre ++ as_u8 (len l) :: (l ++ enc_labels ls) ++ x00 :: post) =
      len pre + (1 + (len l + labels_len ls + (1 + len post)))) as Hlen by (doh_simpl; lia).
    cmp_simpl. unfold MAX_DOMAIN_NAME_WIRE_OCTETS. cmp_simpl. rewrite slice_ok by lia. out_simpl.
    replace (pre ++ as_u8 (len l) :: (l ++ enc_labels ls) ++ x00 :: post)
      with ((pre ++ [as_u8 (len l)]) ++ l ++ enc_labels ls ++ x00 :: post)
      by (rewrite <- !app_assoc; done).
    assert (len (pre ++ [as_u8 (len l)]) = len pre + 1) as Hp1 by (doh_simpl; lia).
    rewrite <- Hp1, sub_middle. rewrite app_assoc, <- len_app.
    rewrite IH by lia. rewrite <- app_assoc. do 2 f_equal. rewrite len_app. lia.
Qed.

Lemma from_wire_enc pre n post :
  good_name n ->
  from_wire (pre ++ enc_name n ++ post) (len pre) = Ok (n, len pre + len (enc_name n)).
Proof.
  intros [Hn Hl]. unfold wire_len, MAX_DOMAIN_NAME_WIRE_OCTETS in Hl. fold (labels_len (labels n)) in Hl.
  pose proof (length_labels_le _ Hn).
  assert (length (labels n) < NAME_FUEL)%nat as Hf by (unfold NAME_FUEL; lia). revert Hf.
  unfold from_wire, enc_name. generalize NAME_FUEL. intros fuel Hf. rewrite <- app_assoc. cbn [app].
  rewrite from_wire_loop_enc by (done || lia). destruct n as [ls]; cbn [app labels].
  doh_simpl. rewrite len_enc_labels. do 2 f_equal. lia.
Qed.

Lemma unpack_questions_enc pre qs post acc :
  Forall good_question qs ->
  unpack_questions (pre ++ concat (map enc_question qs) ++ post) (len pre) (length qs) acc =
    Ok (acc ++ qs, len pre + len (concat (map enc_question qs))).
Proof.
  intros H; revert pre acc. induction H as [|q qs (Hn & Ht & Hc) H IH]; intros pre acc.
  { cbn. rewrite app_nil_r. do 2 f_equal. change (len (@nil byte)) with 0. lia. }
  cbn [map concat length unpack_questions]. pose proof (RrType.to_u16_bounds _ Ht).
  set (fields := be16 (RrType.to_u16 (qtype q)) ++ be16 (qclass q) ++
    concat (map enc_question qs) ++ post).
  assert (u16at fields 0 = RrType.to_u16 (qtype q)) as Hf0.
  { unfold fields. rewrite u16at_app_l by (rewrite ?len_be16; lia). by apply u16at_be16. }
  assert (u16at fields 2 = qclass q) as Hf2.
  { unfold fields. rewrite u16at_app_r by (rewrite ?len_be16; lia). rewrite len_be16.
    rewrite u16at_app_l by (rewrite ?len_be16; lia). by apply u16at_be16. }
  assert (4 <= len fields) as Hlf.
  { unfold fields. doh_simpl. pose proof (len_nonneg post).
    pose proof (len_nonneg (concat (map enc_question qs))). lia. }
  assert (pre ++ (enc_question q ++ concat (map enc_question qs)) ++ post =
    pre ++ enc_name (q_name q) ++ fields) as Hp
    by (unfold fields, enc_question; rewrite <- !app_assoc; done).
  rewrite Hp, from_wire_enc by done. out_simpl. rewrite <- len_app.
  rewrite app_assoc. set (pre1 := pre ++ enc_name (q_name q)).
  pose proof (len_nonneg pre1). pose proof (len_app pre1 fields). unfold saturating_sub. cmp_simpl.
  rewrite !read_u16_in_ok by lia. out_simpl.
  rewrite u16at_start, u16at_from, Hf0, Hf2 by lia.
  rewrite RrType.from_u16_to_u16 by done.
  replace (pre1 ++ fields) with ((pre ++ enc_question q) ++ concat (map enc_question qs) ++ post)
    by (unfold pre1, fields, enc_question; rewrite <- !app_assoc; done).
  replace (len pre1 + 4) with (len (pre ++ enc_question q))
    by (unfold pre1, enc_question; doh_simpl; lia).
  rewrite IH, <- app_assoc. destruct q. cbn [app]. do 2 f_equal. rewrite !len_app. lia.
Qed.

Lemma unpack_rr_section_enc pre rrs post acc :
  Forall good_rr rrs ->
  unpack_rr_section (pre ++ concat (map enc_rr rrs) ++ post) (len pre) (length rrs) acc =
    Ok (acc ++ rrs, len pre + len (concat (map enc_rr rrs))).
Proof.
  intros H; revert pre acc. induction H as [|rr rrs (Hn & Ht & Hc & Httl & Hrd) H IH]; intros pre acc.
  { cbn. rewrite app_nil_r. do 2 f_equal. change (len (@nil byte)) with 0. lia. }
  cbn [map concat length unpack_rr_section]. pose proof (RrType.to_u16_bounds _ Ht).
  pose proof (len_nonneg (rdata rr)).
  set (tail := rdata rr ++ concat (map enc_rr rrs) ++ post).
  set (fields := be16 (RrType.to_u16 (rr_type rr)) ++ be16 (rr_class rr) ++ be32 (ttl rr) ++
    be16 (len (rdata rr)) ++ tail).
  destruct (rr_fields (RrType.to_u16 (rr_type rr)) (rr_class rr) (ttl rr) (len (rdata rr)) tail)
    as (Hf0 & Hf2 & Hf4 & Hf8 & Hfl); [lia..|]. fold fields in Hf0, Hf2, Hf4, Hf8, Hfl.
  assert (len (rdata rr) <= len tail) as Hlt.
  { unfold tail. rewrite !len_app. pose proof (len_nonneg post).
    pose proof (len_nonneg (concat (map enc_rr rrs))). lia. }
  assert (pre ++ (enc_rr rr ++ concat (map enc_rr rrs)) ++ post =
    pre ++ enc_name (rr_name rr) ++ fields) as Hp
    by (unfold fields, tail, enc_rr; rewrite <- !app_assoc; done).
  rewrite Hp, from_wire_enc by done. out_simpl. rewrite <- len_app.
  rewrite app_assoc. set (pre1 := pre ++ enc_name (rr_name rr)).
  pose proof (len_nonneg pre1). pose proof (len_app pre1 fields). unfold saturating_sub. cmp_simpl.
  rewrite !read_u16_in_ok, read_u32_in_ok by lia. out_simpl.
  rewrite u16at_start, !u16at_from, u32at_from, Hf0, Hf2, Hf4, Hf8 by lia. cmp_simpl. rewrite slice_ok by lia. out_simpl.
  rewrite RrType.from_u16_to_u16 by done.
  set (hd := be16 (RrType.to_u16 (rr_type rr)) ++ be16 (rr_class rr) ++ be32 (ttl rr) ++
    be16 (len (rdata rr))).
  assert (pre1 ++ fields = (pre1 ++ hd) ++ rdata rr ++ concat (map enc_rr rrs) ++ post) as Hsplit
    by (unfold fields, hd, tail; rewrite <- !app_assoc; done).
  assert (len (pre1 ++ hd) = len pre1 + 10) as Hl10 by (rewrite len_app; done).
  rewrite Hsplit, <- Hl10, sub_middle, <- len_app, <- (app_assoc pre1 hd (rdata rr)).
  assert (pre1 ++ hd ++ rdata rr = pre ++ enc_rr rr) as Henc
    by (unfold pre1, hd, enc_rr; rewrite <- !app_assoc; done).
  rewrite (app_assoc (pre1 ++ hd)), <- (app_assoc pre1 hd (rdata rr)), Henc.
  rewrite IH, <- app_assoc. destruct rr. cbn [app]. do 2 f_equal. rewrite !len_app. lia.
Qed.
End encoding.

Section roundtrip.
Context `{BO : ByteOrder}.

Lemma header_fields m rest :
  good_msg m ->
  let p := enc_header m ++ rest in
  u16at p 0 = id (header m) /\ u16at p 2 = to_wire_bits (header m) /\
  u16at p 4 = len (questions m) /\ u16at p 6 = len (answers m) /\
  u16at p 8 = len (authorities m) /\ u16at p 10 = len (additionals m).
Proof.
  intros [Hh _ [_ Hq] [_ Ha] [_ Hau] [_ Had]] p. pose proof (wire_bits_bounds _ Hh).
  destruct Hh as [Hid _]. pose proof (@len_nonneg _ (questions m)).
  pose proof (@len_nonneg _ (answers m)). pose proof (@len_nonneg _ (authorities m)).
  pose proof (@len_nonneg _ (additionals m)). unfold p, enc_header.
  split_and!; (etransitivity; [|apply u16at_be16; lia]); reflexivity.
Qed.

Lemma unpack_enc m : good_msg m -> unpack (enc_msg m) = Ok m.
Proof.
  intros Hm. pose proof (header_fields m (concat (map enc_question (questions m)) ++
    concat (map enc_rr (answers m)) ++ concat (map enc_rr (authorities m)) ++
    concat (map enc_rr (additionals m))) Hm) as (H0 & H2 & H4 & H6 & H8 & H10).
  destruct Hm as [Hh Hc [Hq _] [Ha _] [Hau _] [Had _]].
  set (qs := concat (map enc_question (questions m))) in *.
  set (an := concat (map enc_rr (answers m))) in *.
  set (au := concat (map enc_rr (authorities m))) in *.
  set (ad := concat (map enc_rr (additionals m))) in *.
  pose proof (unpack_questions_enc (enc_header m) (questions m) (an ++ au ++ ad) [] Hq) as S1.
  pose proof (unpack_rr_section_enc (enc_header m ++ qs) (answers m) (au ++ ad) [] Ha) as S2.
  pose proof (unpack_rr_section_enc ((enc_header m ++ qs) ++ an) (authorities m) ad [] Hau) as S3.
  pose proof (unpack_rr_section_enc (((enc_header m ++ qs) ++ an) ++ au) (additionals m) [] [] Had)
    as S4.
  fold qs an au ad in S1, S2, S3, S4. rewrite app_nil_r in S4. repeat rewrite <- app_assoc in S2; repeat rewrite <- app_assoc in S3; repeat rewrite <- app_assoc in S4.
  cbn [app] in S1, S2, S3, S4. repeat rewrite len_app in S2; repeat rewrite len_app in S3; repeat rewrite len_app in S4.
  assert (len (enc_header m) = 12) as Hl by done. rewrite Hl in *.
  change (enc_msg m) with (enc_header m ++ qs ++ an ++ au ++ ad).
  set (p := enc_header m ++ qs ++ an ++ au ++ ad) in *.
  assert (len p = 12 + (len qs + (len an + (len au + len ad)))) as Hlp
    by (unfold p; rewrite !len_app; done).
  pose proof (len_nonneg qs). pose proof (len_nonneg an). pose proof (len_nonneg au).
  pose proof (len_nonneg ad). unfold unpack, DNS_HEADER_SIZE. cmp_simpl.
  rewrite !read_u16_in_ok by lia. out_simpl. rewrite H0, H2, H4, H6, H8, H10, !to_nat_len.
  repeat rewrite Z.add_assoc in S3. repeat rewrite Z.add_assoc in S4.
  rewrite S1. out_simpl. rewrite S2. out_simpl. rewrite S3. out_simpl. rewrite S4. out_simpl. cmp_simpl. cbn [negb].
  rewrite header_wire by done. rewrite <- Hc. by destruct m.
Qed.
End roundtrip.

(** ** The in-place rewrite *)
Section rewrite.
Context `{BO : ByteOrder}.

(** Names are skipped alike in packets that agree from the name on. *)
Lemma skip_wire_loop_agree fuel p p' o :
  0 <= o -> len p' = len p -> (forall i, o <= i -> get p' i = get p i) ->
  skip_wire_loop fuel p' o = skip_wire_loop fuel p o.
Proof.
  intros Ho Hl; revert o Ho; induction fuel as [|fuel IH]; intros o Ho Hag; [done|].
  cbn [skip_wire_loop]. assert (forall i, o <= i -> get_opt p' i = get_opt p i) as Hg.
  { intros i Hi. unfold get_opt. by rewrite Hl, Hag. }
  rewrite !Hg by lia. destruct (get_opt p o) as [b|]; [|done]. out_simpl.
  pose proof (u8_bounds b). destruct (_ =? 192); [done|]. destruct (_ =? 0); [|done].
  destruct (_ <=? _); [done|]. destruct (_ =? 0); [done|]. rewrite Hl. destruct (_ <? _); [done|].
  apply IH; [lia|]. intros. apply Hag. lia.
Qed.

Lemma skip_wire_agree p p' o :
  0 <= o -> len p' = len p -> (forall i, o <= i -> get p' i = get p i) ->
  skip_wire p' o = skip_wire p o.
Proof.
  intros Ho Hl Hag. unfold skip_wire.
  assert (length p' = length p) as -> by (unfold len in Hl; lia).
  by apply skip_wire_loop_agree.
Qed.

(** Records found by skipping: [hs] are the offsets after their names. *)
Inductive wire_rrs (p : bytes) : Z -> list Z -> Z -> Prop :=
  | wire_rrs_nil o : wire_rrs p o [] o
  | wire_rrs_cons o h hs e :
      skip_wire p o = Ok h -> h + 10 + u16at p (h + 8) <= len p ->
      wire_rrs p (h + 10 + u16at p (h + 8)) hs e -> wire_rrs p o (h :: hs) e.

Lemma skip_wire_bounds p o h : 0 <= o -> skip_wire p o = Ok h -> o < h <= len p.
Proof. intros Ho H. exact (returns_Ok _ _ _ (skip_wire_returns p o Ho) H). Qed.

Lemma wire_rrs_agree p p' o hs e :
  wire_rrs p o hs e -> 0 <= o -> len p' = len p -> (forall i, o <= i -> get p' i = get p i) ->
  wire_rrs p' o hs e.
Proof.
  induction 1 as [|o h hs e Hs Hl H IH]; intros Ho Hlen Hag; [constructor|].
  pose proof (skip_wire_bounds _ _ _ Ho Hs). pose proof (u16at_bounds p (h + 8)).
  assert (u16at p' (h + 8) = u16at p (h + 8)) as Heq
    by (unfold u16at, u8at; by rewrite !Hag by lia).
  econstructor.
  - by rewrite (skip_wire_agree p).
  - by rewrite Heq, Hlen.
  - rewrite Heq. apply IH; [lia|done|]. intros. apply Hag. lia.
Qed.

Definition ip_len (ip : IpAddr) : Z := if is_v4 ip then 4 else 16.

(** The record at [h] holds an address of this family. *)
Definition is_target (p : bytes) (ip : IpAddr) (h : Z) : bool :=
  (u16at p (h + 2) =? DNS_CLASS_IN) &&
  rewrites (RrType.from_u16 (u16at p h)) (u16at p (h + 8)) ip.

Lemma rewrites_len t l ip : rewrites t l ip = true -> l = ip_len ip.
Proof. unfold rewrites, ip_len. destruct t, ip; cbn; try done; intros; bool_to_prop; lia. Qed.

(** Overwriting a range. *)
Definition put_bytes (p : bytes) (a : Z) (src : bytes) : bytes :=
  firstn (Z.to_nat a) p ++ src ++ skipn (Z.to_nat (a + len src)) p.

Lemma copy_from_slice_ok p a b src :
  0 <= a -> b = a + len src -> b <= len p -> copy_from_slice p a b src = Ok (put_bytes p a src).
Proof.
  intros. pose proof (len_nonneg src). subst b. unfold copy_from_slice, put_bytes.
  rewrite slice_ok by lia. out_simpl. rewrite len_sub by lia. by cmp_simpl.
Qed.

Lemma len_put_bytes p a src : 0 <= a -> a + len src <= len p -> len (put_bytes p a src) = len p.
Proof.
  intros. pose proof (len_nonneg src). unfold put_bytes. doh_simpl.
  rewrite len_firstn, len_skipn by lia. lia.
Qed.

Lemma get_put_bytes_other p a src i :
  0 <= a -> a + len src <= len p -> 0 <= i -> (i < a \/ a + len src <= i) ->
  get (put_bytes p a src) i = get p i.
Proof.
  intros Ha Hl Hi [Hlt|Hge]; pose proof (len_nonneg src); unfold put_bytes.
  - rewrite get_app_l by (rewrite len_firstn by lia; lia). apply get_firstn. lia.
  - rewrite get_app_r by (rewrite len_firstn by lia; lia). rewrite len_firstn by lia.
    rewrite get_app_r by lia. rewrite get_skipn by lia. f_equal. lia.
Qed.

Lemma sub_put_bytes p a src :
  0 <= a -> a + len src <= len p -> sub (put_bytes p a src) a (a + len src) = src.
Proof.
  intros. pose proof (len_nonneg src). apply bytes_ext.
  - rewrite len_sub by (rewrite ?len_put_bytes; lia). lia.
  - rewrite len_sub by (rewrite ?len_put_bytes; lia). intros i Hi.
    rewrite get_sub by lia. unfold put_bytes.
    rewrite get_app_r by (rewrite len_firstn by lia; lia). rewrite len_firstn by lia.
    rewrite get_app_l by lia. f_equal. lia.
Qed.

Definition in_target (p : bytes) (ip : IpAddr) (hs : list Z) (i : Z) : Prop :=
  exists h, In h hs /\ is_target p ip h = true /\ h + 10 <= i < h + 10 + ip_len ip.

Lemma wire_rrs_after p o hs e :
  wire_rrs p o hs e -> 0 <= o -> Forall (fun h => o < h /\ h + 10 + u16at p (h + 8) <= len p) hs.
Proof.
  induction 1 as [|o h hs e Hs Hl H IH]; intros Ho; constructor.
  - apply skip_wire_bounds in Hs; lia.
  - pose proof (skip_wire_bounds _ _ _ Ho Hs). pose proof (u16at_bounds p (h + 8)).
    eapply Forall_impl; [apply IH; lia|]. cbn. lia.
Qed.

Lemma wire_rrs_end p o hs e : wire_rrs p o hs e -> 0 <= o -> o <= e.
Proof.
  induction 1 as [|o h hs e Hs Hl H IH]; intros Ho; [lia|].
  apply skip_wire_bounds in Hs; [|lia]. pose proof (u16at_bounds p (h + 8)). lia.
Qed.

(** One answer record. *)
Lemma rewrite_answers_S ip o n p h :
  skip_wire p o = Ok h -> 0 <= o -> h + 10 + u16at p (h + 8) <= len p ->
  rewrite_answers ip o (S n) p =
  rewrite_answers ip (h + 10 + u16at p (h + 8)) n
    (if is_target p ip h then put_bytes p (h + 10) (octets ip) else p).
Proof.
  intros Hs Ho Hl. pose proof (skip_wire_bounds _ _ _ Ho Hs). pose proof (u16at_bounds p (h + 8)).
  cbn [rewrite_answers]. unfold mbind, mutates_bind, current, lift, update. rewrite Hs.
  unfold saturating_sub. cmp_simpl. rewrite !read_u16_in_ok by lia. cmp_simpl.
  unfold is_target. destruct (u16at p (h + 2) =? DNS_CLASS_IN); [|done]. cbn [andb].
  destruct (rewrites _ _ _) eqn:Hr; [|done]. apply rewrites_len in Hr. unfold ip_len in Hr.
  rewrite copy_from_slice_ok; [done|lia|rewrite len_octets; done|destruct (is_v4 ip); lia].
Qed.

Lemma rewrite_answers_Err ip o n p :
  0 <= o <= len p ->
  (exists e, rewrite_answers ip o (S n) p = (Err e, p)) \/
  (exists h, skip_wire p o = Ok h /\ o < h /\ h + 10 + u16at p (h + 8) <= len p).
Proof.
  intros Ho. pose proof (skip_wire_returns p o ltac:(lia)) as Hs.
  cbn [rewrite_answers]. unfold mbind, mutates_bind, current, lift, update.
  destruct (skip_wire p o) as [h|e| |]; [|left; by exists e|done|done]. cbn in Hs.
  pose proof (u16at_bounds p (h + 8)). unfold saturating_sub.
  destruct (Z.ltb_spec (Z.max 0 (len p - h)) 10); [left; by exists ShortPacket|].
  rewrite !read_u16_in_ok by lia.
  destruct (Z.ltb_spec (Z.max 0 (len p - (h + 10))) (u16at p (h + 8))); [left; by exists InvalidRecord|].
  right. exists h. split_and!; done || lia.
Qed.

(** What the loop over the answers does. *)
Lemma rewrite_answers_spec ip o n p :
  0 <= o <= len p ->
  returns_from (rewrite_answers ip o n) p (fun e p' => exists hs,
    length hs = n /\ wire_rrs p o hs e /\ o <= e <= len p /\ len p' = len p /\
    (forall h, In h hs -> is_target p ip h = true ->
       sub p' (h + 10) (h + 10 + ip_len ip) = octets ip) /\
    (forall i, 0 <= i -> ~ in_target p ip hs i -> get p' i = get p i) /\
    (forall i, e <= i -> get p' i = get p i)).
Proof.
  revert o p; induction n as [|n IH]; intros o p Ho.
  { cbn. exists []. split_and!; try done || lia. constructor. }
  destruct (rewrite_answers_Err ip o n p Ho) as [[e He]|(h & Hs & Hoh & Hl)].
  { unfold returns_from. by rewrite He. }
  pose proof (u16at_bounds p (h + 8)). pose proof (len_octets ip) as Hlo.
  unfold returns_from. rewrite (rewrite_answers_S _ _ _ _ _ Hs) by lia.
  set (p1 := if is_target p ip h then _ else p).
  assert (len p1 = len p /\ (forall i, 0 <= i -> ~ (is_target p ip h = true /\
    h + 10 <= i < h + 10 + ip_len ip) -> get p1 i = get p i) /\
    (is_target p ip h = true -> u16at p (h + 8) = ip_len ip /\
      sub p1 (h + 10) (h + 10 + ip_len ip) = octets ip)) as (Hl1 & Hg1 & Ht1).
  { unfold p1. destruct (is_target p ip h) eqn:Ht; [|split_and!; done].
    assert (u16at p (h + 8) = ip_len ip) as Hrl.
    { unfold is_target in Ht. apply andb_true_iff in Ht as [_ Ht]. by apply rewrites_len in Ht. }
    fold (ip_len ip) in Hlo. split_and!.
    - apply len_put_bytes; lia.
    - intros i Hi Hn. apply get_put_bytes_other; lia.
    - intros _. split; [done|]. rewrite <- Hlo. apply sub_put_bytes; lia. }
  assert (forall i, h + 10 + u16at p (h + 8) <= i -> get p1 i = get p i) as Hag.
  { intros i Hi. apply Hg1; [lia|]. intros [Ht Hr]. destruct (Ht1 Ht). lia. }
  specialize (IH (h + 10 + u16at p (h + 8)) p1 ltac:(lia)). unfold returns_from in IH.
  destruct (rewrite_answers ip _ n p1) as [[e|e| |] p']; try done.
  destruct IH as (hs & <- & Hc & He & Hl' & Hin & Hout & Hafter).
  assert (wire_rrs p (h + 10 + u16at p (h + 8)) hs e) as Hcp
    by (eapply wire_rrs_agree; [exact Hc|lia|done|intros; symmetry; by apply Hag]).
  assert (forall x, In x hs -> h + 10 + u16at p (h + 8) < x) as Hx.
  { intros x Hx. pose proof (wire_rrs_after _ _ _ _ Hcp ltac:(lia)) as Ha.
    rewrite List.Forall_forall in Ha. by apply Ha. }
  assert (forall x, In x hs -> is_target p1 ip x = is_target p ip x) as Htx.
  { intros x Hxin. specialize (Hx x Hxin). unfold is_target, u16at, u8at.
    by rewrite !Hag by lia. }
  exists (h :: hs). split_and!; [done|by econstructor|lia|lia|lia| | |].
  - intros x [<-|Hxin] Ht; [|by apply Hin; [|rewrite Htx]].
    destruct (Ht1 Ht) as [Hrl Hsub]. rewrite <- Hsub. apply sub_agree; [lia| |lia].
    intros i Hi. apply Hout; [lia|]. intros (x & Hxin & _ & Hxi). specialize (Hx x Hxin). lia.
  - intros i Hi Hn. rewrite Hout; [apply Hg1; [done|]|done|].
    + intros [Ht Hr]. apply Hn. exists h. split; [by left|done].
    + intros (x & Hxin & Ht & Hr). apply Hn. exists x. rewrite <- Htx by done.
      split; [by right|done].
  - intros i Hi. rewrite Hafter, Hag by lia. done.
Qed.
End rewrite.

(** From here on names are decoded through the lemmas above. *)
#[global] Opaque from_wire skip_wire.

Section rewrite_packet.
Context `{BO : ByteOrder}.

Lemma unpack_questions_skip p o n acc qs e :
  0 <= o <= len p -> unpack_questions p o n acc = Ok (qs, e) ->
  skip_questions p o n = Ok e /\ 0 <= e <= len p.
Proof.
  revert o acc; induction n as [|n IH]; intros o acc Ho H.
  { cbn in *. injection H as <- <-. done. }
  cbn [unpack_questions] in H. apply bind_Ok in H as ([nm next] & Ha & H). cbn beta iota in H.
  pose proof (returns_Ok _ _ _ (from_wire_returns p o ltac:(lia)) Ha) as [_ Hb].
  apply from_wire_skip in Ha; [|lia]. cbn [skip_questions]. rewrite Ha. out_simpl.
  destruct (Z.ltb_spec (saturating_sub (len p) next) 4) as [|Hl]; [done|].
  unfold saturating_sub in Hl. inv_ok. eapply IH; [lia|exact H].
Qed.

(** The records of a decoded section, found by skipping. *)
Lemma unpack_rr_section_walk p o n acc rrs e :
  0 <= o <= len p -> unpack_rr_section p o n acc = Ok (rrs, e) ->
  0 <= e <= len p /\ exists hs, length hs = n /\ wire_rrs p o hs e.
Proof.
  revert o acc; induction n as [|n IH]; intros o acc Ho H.
  { cbn in *. injection H as <- <-. split; [done|]. exists []. split; [done|constructor]. }
  cbn [unpack_rr_section] in H. apply bind_Ok in H as ([nm next] & Ha & H). cbn beta iota in H.
  pose proof (returns_Ok _ _ _ (from_wire_returns p o ltac:(lia)) Ha) as [_ Hb].
  apply from_wire_skip in Ha; [|lia].
  destruct (Z.ltb_spec (saturating_sub (len p) next) 10) as [|Hl]; [done|].
  unfold saturating_sub in *. inv_ok. inv_access.
  pose proof (u16at_bounds p (next + 8)).
  destruct (Z.ltb_spec (Z.max 0 (len p - (next + 10))) (u16at p (next + 8))); [done|].
  inv_ok. apply IH in H as (He & hs & <- & Hc); [|lia].
  split; [done|]. exists (next :: hs). split; [done|]. econstructor; [done|lia|done].
Qed.

Lemma skip_records_wire p o hs e :
  wire_rrs p o hs e -> 0 <= o -> skip_records p o (length hs) = Ok e.
Proof.
  induction 1 as [|o h hs e Hs Hl H IH]; intros Ho; [done|].
  pose proof (skip_wire_bounds _ _ _ Ho Hs). pose proof (u16at_bounds p (h + 8)).
  cbn [length skip_records]. rewrite Hs. out_simpl. unfold saturating_sub. cmp_simpl.
  rewrite read_u16_in_ok by lia. out_simpl. cmp_simpl. apply IH. lia.
Qed.

Lemma wire_rrs_app p o hs hs' m e :
  wire_rrs p o hs m -> wire_rrs p m hs' e -> wire_rrs p o (hs ++ hs') e.
Proof. induction 1; intros; cbn; [done|]. econstructor; eauto. Qed.

Lemma rewrite_answers_wire ip p o hs e :
  wire_rrs p o hs e -> 0 <= o ->
  exists p', rewrite_answers ip o (length hs) p = (Ok e, p') /\ len p' = len p /\
    (forall i, e <= i -> get p' i = get p i).
Proof.
  intros H; revert H. revert p o; induction hs as [|h hs IH]; intros p o H Ho.
  { inversion H; subst. by exists p. }
  inversion H as [|? ? ? ? Hs Hl Hc]; subst.
  pose proof (skip_wire_bounds _ _ _ Ho Hs). pose proof (u16at_bounds p (h + 8)).
  cbn [length]. rewrite (rewrite_answers_S _ _ _ _ _ Hs) by lia.
  set (p1 := if is_target p ip h then _ else p).
  pose proof (len_octets ip) as Hlo. fold (ip_len ip) in Hlo.
  assert (len p1 = len p /\ forall i, h + 10 + u16at p (h + 8) <= i -> get p1 i = get p i)
    as [Hl1 Hg1].
  { unfold p1. destruct (is_target p ip h) eqn:Ht; [|done].
    apply andb_true_iff in Ht as [_ Ht]. apply rewrites_len in Ht.
    split; [apply len_put_bytes; lia|]. intros i Hi. apply get_put_bytes_other; lia. }
  destruct (IH p1 (h + 10 + u16at p (h + 8))) as (p' & Hr & Hl' & Hg'); [|lia|].
  { eapply wire_rrs_agree; [exact Hc|lia|done|done]. }
  assert (h + 10 + u16at p (h + 8) <= e) by (eapply wire_rrs_end; [exact Hc|lia]).
  exists p'. split_and!; [done|lia|]. intros i Hi. rewrite Hg', Hg1 by lia. done.
Qed.

(** Every packet that decodes can be rewritten. *)
Lemma rewrite_decodable ip p m :
  unpack p = Ok m -> exists p', rewrite_answer_ips_in_packet ip p = (Ok tt, p').
Proof.
  intros Hu. unfold unpack, DNS_HEADER_SIZE in Hu.
  destruct (Z.ltb_spec (len p) 12); [done|]. rewrite !read_u16_in_ok in Hu by lia.
  cbn [mbind outcome_bind] in Hu.
  apply bind_Ok in Hu as ([qs o1] & Hq & Hu). apply bind_Ok in Hu as ([an o2] & Ha & Hu).
  apply bind_Ok in Hu as ([au o3] & Hn & Hu). apply bind_Ok in Hu as ([ad o4] & Hd & Hu).
  cbn beta iota in *. destruct (Z.eqb_spec o4 (len p)) as [->|]; [|done]. clear Hu.
  apply unpack_questions_skip in Hq as [Hq Hq1]; [|lia].
  apply unpack_rr_section_walk in Ha as [Ha1 (hs1 & Hl1 & Hc1)]; [|lia].
  apply unpack_rr_section_walk in Hn as [Hn1 (hs2 & Hl2 & Hc2)]; [|lia].
  apply unpack_rr_section_walk in Hd as [Hd1 (hs3 & Hl3 & Hc3)]; [|lia].
  destruct (rewrite_answers_wire ip p o1 hs1 o2 Hc1) as (p' & Hr & Hlp & Hg); [lia|].
  exists p'. unfold rewrite_answer_ips_in_packet, mbind, mutates_bind, current, lift, DNS_HEADER_SIZE.
  cmp_simpl. rewrite !read_u16_in_ok by lia. rewrite Hq, <- Hl1, Hr.
  pose proof (u16at_bounds p 8). pose proof (u16at_bounds p 10).
  replace (Z.to_nat (u16at p 8 + u16at p 10)) with (length (hs2 ++ hs3))
    by (rewrite length_app; lia).
  rewrite (skip_records_wire p' o2 (hs2 ++ hs3) (len p)); [|eapply wire_rrs_agree|lia].
  - by rewrite Hlp, Z.eqb_refl.
  - eapply wire_rrs_app; [exact Hc2|exact Hc3].
  - lia.
  - done.
  - exact Hg.
Qed.

(** What a rewrite that succeeds leaves, and that none panics. *)
Lemma rewrite_in_packet_returns ip p :
  returns_from (rewrite_answer_ips_in_packet ip) p (fun _ p' => exists o hs e,
    skip_questions p DNS_HEADER_SIZE (Z.to_nat (u16at p 4)) = Ok o /\
    len hs = u16at p 6 /\ wire_rrs p o hs e /\ len p' = len p /\
    (forall h, In h hs -> is_target p ip h = true ->
       sub p' (h + 10) (h + 10 + ip_len ip) = octets ip) /\
    (forall i, 0 <= i -> ~ in_target p ip hs i -> get p' i = get p i)).
Proof.
  unfold rewrite_answer_ips_in_packet, DNS_HEADER_SIZE.
  apply returns_from_bind, returns_from_current. destruct (Z.ltb_spec (len p) 12); [done|].
  pose proof (u16at_bounds p 6).
  do 4 (apply returns_from_bind, returns_from_lift; rewrite read_u16_in_ok by lia; cbn [returns]).
  apply returns_from_bind, returns_from_lift.
  eapply returns_mono; [apply skip_questions_returns; lia|]. intros o Hq Ho; cbn beta in Ho.
  apply returns_from_bind. eapply returns_from_mono; [apply rewrite_answers_spec; lia|].
  intros e p' _ (hs & Hl & Hc & He & Hlp & Hin & Hout & _).
  apply returns_from_bind, returns_from_current.
  apply returns_from_bind, returns_from_lift.
  eapply returns_mono; [apply skip_records_returns; lia|]. intros o' _ _.
  destruct (o' =? len p'); cbn [negb]; [|done].
  exists o, hs, e. split_and!; try done. unfold len. lia.
Qed.

(** ** The rewrite of a packed message *)
Lemma put_bytes_middle pre old post src :
  len src = len old -> put_bytes (pre ++ old ++ post) (len pre) src = pre ++ src ++ post.
Proof.
  intros Hl. unfold put_bytes. rewrite Hl. unfold len.
  replace (Z.to_nat (Z.of_nat (length pre) + Z.of_nat (length old))) with (length (pre ++ old))
    by (rewrite length_app; lia).
  rewrite Nat2Z.id, take_app_length. rewrite (app_assoc pre old post), drop_app_length. done.
Qed.

Lemma rdata_rewrite_rr ip rr : len (rdata (rewrite_rr ip rr)) = len (rdata rr).
Proof.
  unfold rewrite_rr. destruct (negb _); [done|]. destruct (rewrites _ _ _) eqn:H; [|done].
  apply rewrites_len in H. cbn [rdata]. rewrite len_octets. unfold ip_len in H. lia.
Qed.

Lemma rewrite_rr_fields ip rr :
  rr_name (rewrite_rr ip rr) = rr_name rr /\ rr_type (rewrite_rr ip rr) = rr_type rr /\
  rr_class (rewrite_rr ip rr) = rr_class rr /\ ttl (rewrite_rr ip rr) = ttl rr.
Proof. unfold rewrite_rr. destruct (negb _); [done|]. by destruct (rewrites _ _ _). Qed.

Lemma len_enc_rewrite_rr ip rr : len (enc_rr (rewrite_rr ip rr)) = len (enc_rr rr).
Proof.
  unfold enc_rr. rewrite !len_app, !len_be16, !len_be32, rdata_rewrite_rr.
  by destruct (rewrite_rr_fields ip rr) as (-> & _).
Qed.

Lemma rewrite_rr_good ip rr : good_rr rr -> good_rr (rewrite_rr ip rr).
Proof.
  intros (Hn & Ht & Hc & Httl & Hrd). destruct (rewrite_rr_fields ip rr) as (H1 & H2 & H3 & H4).
  unfold good_rr. rewrite H1, H2, H3, H4, rdata_rewrite_rr. done.
Qed.

(** Overwriting the data of a record, where the rewrite does. *)
Lemma put_address ip pre rr tail :
  (if (rr_class rr =? DNS_CLASS_IN) && rewrites (rr_type rr) (len (rdata rr)) ip
   then put_bytes (pre ++ enc_rr rr ++ tail) (len (pre ++ enc_name (rr_name rr)) + 10) (octets ip)
   else pre ++ enc_rr rr ++ tail) = pre ++ enc_rr (rewrite_rr ip rr) ++ tail.
Proof.
  unfold rewrite_rr. destruct (rr_class rr =? DNS_CLASS_IN); cbn [negb andb]; [|done].
  destruct (rewrites _ _ _) eqn:Hrw; [|done].
  apply rewrites_len in Hrw. pose proof (len_octets ip) as Hlo. unfold ip_len in Hrw.
  set (hd := be16 (RrType.to_u16 (rr_type rr)) ++ be16 (rr_class rr) ++ be32 (ttl rr) ++ be16 (len (rdata rr))).
  assert (pre ++ enc_rr rr ++ tail = ((pre ++ enc_name (rr_name rr)) ++ hd) ++ rdata rr ++ tail) as ->
    by (unfold enc_rr, hd; rewrite <- !app_assoc; done).
  assert (len (pre ++ enc_name (rr_name rr)) + 10 = len ((pre ++ enc_name (rr_name rr)) ++ hd)) as ->
    by (rewrite (len_app _ hd); done).
  rewrite put_bytes_middle by lia. unfold enc_rr. cbn [rr_name rr_type rr_class ttl rdata]. rewrite Hlo, <- Hrw.
  unfold hd. by rewrite <- !app_assoc.
Qed.

Lemma rewrite_answers_enc ip pre rrs post :
  Forall good_rr rrs ->
  rewrite_answers ip (len pre) (length rrs) (pre ++ concat (map enc_rr rrs) ++ post) =
    (Ok (len pre + len (concat (map enc_rr rrs))),
     pre ++ concat (map enc_rr (map (rewrite_rr ip) rrs)) ++ post).
Proof.
  intros H; revert pre. induction H as [|rr rrs (Hn & Ht & Hc & Httl & Hrd) H IH]; intros pre.
  { cbn. change (len (@nil byte)) with 0. by rewrite Z.add_0_r. }
  cbn [map concat length]. pose proof (RrType.to_u16_bounds _ Ht).
  pose proof (len_nonneg (rdata rr)). pose proof (len_nonneg pre).
  set (pre1 := pre ++ enc_name (rr_name rr)).
  set (tail := rdata rr ++ concat (map enc_rr rrs) ++ post).
  destruct (rr_fields (RrType.to_u16 (rr_type rr)) (rr_class rr) (ttl rr) (len (rdata rr)) tail)
    as (Hf0 & Hf2 & Hf4 & Hf8 & Hfl); [lia..|].
  set (fields := be16 (RrType.to_u16 (rr_type rr)) ++ _) in Hf0, Hf2, Hf4, Hf8, Hfl.
  assert (pre ++ (enc_rr rr ++ concat (map enc_rr rrs)) ++ post = pre1 ++ fields) as Hp
    by (unfold fields, tail, enc_rr, pre1; rewrite <- !app_assoc; done).
  pose proof (len_app pre1 fields). pose proof (len_nonneg pre1). pose proof (len_nonneg post).
  pose proof (len_nonneg (concat (map enc_rr rrs))).
  assert (len tail = len (rdata rr) + (len (concat (map enc_rr rrs)) + len post))
    by (unfold tail; rewrite !len_app; done).
  assert (skip_wire (pre1 ++ fields) (len pre) = Ok (len pre1)) as Hs.
  { unfold pre1. rewrite <- app_assoc, len_app. eapply from_wire_skip; [done|].
    by apply from_wire_enc. }
  rewrite Hp, (rewrite_answers_S _ _ _ _ _ Hs) by (rewrite ?u16at_from by lia; lia).
  unfold is_target. rewrite u16at_start, !u16at_from, Hf0, Hf2, Hf8 by lia.
  rewrite RrType.from_u16_to_u16 by done.
  specialize (IH (pre ++ enc_rr (rewrite_rr ip rr))).
  assert (len (enc_rr (rewrite_rr ip rr)) = len (enc_rr rr)) as Hle by apply len_enc_rewrite_rr.
  assert (len pre1 + 10 + len (rdata rr) = len (pre ++ enc_rr (rewrite_rr ip rr))) as Hoff.
  { rewrite len_app, Hle. unfold pre1, enc_rr. rewrite !len_app.
    rewrite !len_be16, len_be32. lia. }
  pose proof (put_address ip pre rr (concat (map enc_rr rrs) ++ post)) as Hput. fold pre1 in Hput.
  rewrite (app_assoc (enc_rr rr)), Hp, (app_assoc pre) in Hput. rewrite Hput.
  rewrite Hoff, IH. cbn [map concat]. rewrite <- !app_assoc. do 2 f_equal.
  rewrite !len_app, Hle. lia.
Qed.

Lemma rewrite_good ip m : good_msg m -> good_msg (rewrite_answer_ips m ip).
Proof.
  intros [Hh Hc Hq [Ha Hal] Hau Had]. split; try done.
  unfold good_section. cbn [answers rewrite_answer_ips]. split.
  - apply Forall_map. eapply Forall_impl; [exact Ha|]. intros rr. apply rewrite_rr_good.
  - unfold len in *. by rewrite length_map.
Qed.

(** Encoded records at the end of a packet are stepped over. *)
Lemma skip_records_enc pre rrs :
  Forall good_rr rrs ->
  skip_records (pre ++ concat (map enc_rr rrs)) (len pre) (length rrs) = Ok (len pre + len (concat (map enc_rr rrs))).
Proof.
  intros H. pose proof (unpack_rr_section_enc pre rrs [] [] H) as Hu. rewrite app_nil_r in Hu.
  apply unpack_rr_section_walk in Hu as [_ (hs & Hl & Hw)].
  - rewrite <- Hl. apply (skip_records_wire _ _ _ _ Hw). apply len_nonneg.
  - rewrite len_app. pose proof (len_nonneg pre). pose proof (len_nonneg (concat (map enc_rr rrs))). lia.
Qed.

Lemma len_rewritten ip rrs :
  len (concat (map enc_rr (map (rewrite_rr ip) rrs))) = len (concat (map enc_rr rrs)).
Proof.
  induction rrs as [|rr l IH]; [done|]. cbn [map concat]. by rewrite !len_app, len_enc_rewrite_rr, IH.
Qed.

(** The two sections behind the answers. *)
Definition enc_rest (m : Msg) : bytes := concat (map enc_rr (authorities m ++ additionals m)).

Lemma enc_msg_rest m :
  enc_msg m = enc_header m ++ concat (map enc_question (questions m)) ++ concat (map enc_rr (answers m)) ++ enc_rest m.
Proof. unfold enc_rest. by rewrite map_app, concat_app. Qed.

Lemma enc_msg_rewritten ip m :
  enc_msg (rewrite_answer_ips m ip) =
  enc_header m ++ concat (map enc_question (questions m)) ++ concat (map enc_rr (map (rewrite_rr ip) (answers m)))
    ++ enc_rest m.
Proof.
  rewrite enc_msg_rest. unfold enc_rest, enc_header, rewrite_answer_ips.
  cbn [header questions answers authorities additionals]. unfold len at 2. by rewrite length_map.
Qed.

Lemma rewrite_packet_enc ip m :
  good_msg m ->
  rewrite_answer_ips_in_packet ip (enc_msg m) = (Ok tt, enc_msg (rewrite_answer_ips m ip)).
Proof.
  intros Hm. rewrite enc_msg_rest, enc_msg_rewritten.
  pose proof (header_fields m (concat (map enc_question (questions m)) ++
    concat (map enc_rr (answers m)) ++ enc_rest m) Hm) as (_ & _ & H4 & H6 & H8 & H10).
  destruct Hm as [_ _ [Hq _] [Ha _] [Hau _] [Had _]].
  assert (Forall good_rr (authorities m ++ additionals m)) as Hr by by apply Forall_app.
  set (qs := concat (map enc_question (questions m))) in *.
  assert (len (enc_header m) = 12) as Hl by done.
  pose proof (unpack_questions_enc (enc_header m) (questions m)
    (concat (map enc_rr (answers m)) ++ enc_rest m) [] Hq) as S1. fold qs in S1.
  apply unpack_questions_skip in S1 as [S1 _].
  2: { rewrite len_app, Hl. pose proof (len_nonneg (qs ++ concat (map enc_rr (answers m)) ++ enc_rest m)). lia. }
  pose proof (rewrite_answers_enc ip (enc_header m ++ qs) (answers m) (enc_rest m) Ha) as S2.
  rewrite <- !app_assoc in S2. rewrite len_app, Hl in S2. rewrite Hl in S1.
  rewrite <- (len_rewritten ip) in S2.
  set (an' := concat (map enc_rr (map (rewrite_rr ip) (answers m)))) in *.
  pose proof (skip_records_enc (enc_header m ++ qs ++ an') _ Hr) as S3. fold (enc_rest m) in S3.
  rewrite <- !app_assoc, !len_app, Hl, length_app in S3.
  set (p := enc_header m ++ qs ++ concat (map enc_rr (answers m)) ++ enc_rest m) in *.
  assert (len p = 12 + (len qs + (len an' + len (enc_rest m)))) as Hlp
    by (unfold p, an'; rewrite !len_app, len_rewritten; done).
  pose proof (len_nonneg qs). pose proof (len_nonneg an'). pose proof (len_nonneg (enc_rest m)).
  unfold rewrite_answer_ips_in_packet, mbind, mutates_bind, current, lift, DNS_HEADER_SIZE.
  cmp_simpl. rewrite !read_u16_in_ok by lia. rewrite H4, H6, H8, H10, !to_nat_len.
  rewrite S1, S2. unfold len at 3 4. rewrite <- Nat2Z.inj_add, Nat2Z.id.
  replace (12 + len qs + len an') with (12 + (len qs + len an')) by lia. rewrite S3.
  rewrite !len_app, Hl. by cmp_simpl.
Qed.

(** ** Addresses *)
Lemma answer_ip_Some rr ip :
  answer_ip rr = Some ip <->
  rr_class rr = DNS_CLASS_IN /\ rdata rr = octets ip /\
  match ip with V4 _ => rr_type rr = RrType.A | V6 _ => rr_type rr = RrType.AAAA end.
Proof.
  unfold answer_ip. destruct (Z.eqb_spec (rr_class rr) DNS_CLASS_IN); cbn [negb];
    [|split; [done|tauto]].
  assert (forall l, len l = 4 -> ipv4_of l = Some ip -> l = octets ip /\ is_v4 ip = true) as H4.
  { intros l _ H. unfold ipv4_of in H. destruct (to_vec 4 l) eqn:Hv; [|done]. injection H as <-.
    apply vec_to_list_to_vec in Hv. by subst. }
  assert (forall l, len l = 16 -> ipv6_of l = Some ip -> l = octets ip /\ is_v4 ip = false) as H6.
  { intros l _ H. unfold ipv6_of in H. destruct (to_vec 16 l) eqn:Hv; [|done]. injection H as <-.
    apply vec_to_list_to_vec in Hv. by subst. }
  pose proof (len_octets ip) as Hlo. split.
  - intros H. split; [done|]. destruct (rr_type rr) eqn:Ht; try done.
    + destruct (Z.eqb_spec (len (rdata rr)) 4); [|done]. destruct (H4 _ ltac:(done) H) as [Hr Hv].
      by destruct ip.
    + destruct (Z.eqb_spec (len (rdata rr)) 16); [|done]. destruct (H6 _ ltac:(done) H) as [Hr Hv].
      by destruct ip.
  - intros (_ & Hr & Ht). rewrite Hr. destruct ip as [o|o]; rewrite Ht; rewrite Hlo; cbn.
    + unfold ipv4_of. by rewrite to_vec_vec.
    + unfold ipv6_of. by rewrite to_vec_vec.
Qed.

Lemma in_omap {A B} (f : A -> option B) l b :
  In b (omap f l) <-> exists a, In a l /\ f a = Some b.
Proof.
  induction l as [|a l IH]; cbn; [split; [done|by intros (? & [] & _)]|].
  destruct (f a) as [c|] eqn:Hf; cbn; rewrite IH; split.
  - intros [->|(x & Hx & Hb)]; eauto.
  - intros (x & [->|Hx] & Hb); [left; congruence|eauto].
  - intros (x & Hx & Hb); eauto.
  - intros (x & [->|Hx] & Hb); [congruence|eauto].
Qed.

Lemma contains_answer_ip_In m ip : contains_answer_ip m ip = true <-> In ip (answer_ips m).
Proof.
  unfold contains_answer_ip, answer_ips. rewrite List.existsb_exists.
  assert (In ip (omap answer_ip (answers m)) <->
    exists rr, In rr (answers m) /\ answer_ip rr = Some ip) as -> by apply in_omap.
  split; intros (rr & Hin & H); exists rr; (split; [done|]).
  - apply answer_ip_Some. pose proof (len_octets ip) as Hlo.
    destruct (Z.eqb_spec (rr_class rr) DNS_CLASS_IN); [|done]. split; [done|].
    cbn [negb] in H. destruct (rr_type rr), ip; try done; cbn in *.
    + destruct (len (rdata rr) =? 4); [|done]. apply bool_decide_eq_true in H. done.
    + destruct (len (rdata rr) =? 16); [|done]. apply bool_decide_eq_true in H. done.
  - apply answer_ip_Some in H as (-> & -> & Ht). cbn. pose proof (len_octets ip) as Hlo.
    destruct ip as [o|o]; rewrite Ht; cbn [octets] in *; rewrite Hlo; cbn; by apply bool_decide_eq_true.
Qed.

Lemma rewrite_rr_answer_ip ip rr :
  answer_ip (rewrite_rr ip rr) =
    match answer_ip rr with
    | Some old => Some (if Bool.eqb (is_v4 old) (is_v4 ip) then ip else old)
    | None => None
    end.
Proof.
  destruct (answer_ip rr) as [old|] eqn:Hold.
  - apply answer_ip_Some in Hold as (Hc & Hr & Ht). pose proof (len_octets old) as Hlo.
    apply answer_ip_Some. unfold rewrite_rr. rewrite Hc, Hr, Hlo. cbn [negb Z.eqb Pos.eqb DNS_CLASS_IN].
    destruct old, ip; rewrite Ht; cbn; rewrite ?Hc, ?Hr, ?Ht; done.
  - unfold answer_ip, rewrite_rr in *. destruct (rr_class rr =? DNS_CLASS_IN) eqn:Hc; cbn [negb] in *;
      [|by rewrite Hc].
    destruct (rewrites (rr_type rr) (len (rdata rr)) ip) eqn:Hrw; [|by rewrite Hc; cbn [negb]].
    exfalso. unfold rewrites in Hrw. destruct (rr_type rr), ip; try done; rewrite Hrw in Hold;
      bool_to_prop; unfold ipv4_of, ipv6_of in Hold.
    + destruct (to_vec_Some 4 (rdata rr)) as [v Hv]; [unfold len in Hrw; lia|]. by rewrite Hv in Hold.
    + destruct (to_vec_Some 16 (rdata rr)) as [v Hv]; [unfold len in Hrw; lia|]. by rewrite Hv in Hold.
Qed.
End rewrite_packet.
