(* ===== verification/MsgProps.v ===== *)
(** * Properties of the message codec

    The theorems about [Msg] and [RrTypes], with the messages their witnesses
    evaluate. *)

From S2P Require Import Prelude Bytes Net RrTypes Wire Msg MsgFacts.

(** The two conversions of record types are inverse to each other: every
    code comes back, and so does every type the decoder can produce. *)
Theorem rr_type_roundtrip :
  (forall code, RrType.to_u16 (RrType.from_u16 code) = code) /\
  (forall t, RrType.canonical t -> RrType.from_u16 (RrType.to_u16 t) = t).
Proof. split; [apply RrType.to_u16_from_u16|apply RrType.from_u16_to_u16]. Qed.

(** The header's flag word round-trips in both directions: decoding any
    16 bits and encoding them again gives the same bits, and a header whose
    opcode and response code fit four bits is decoded from its encoding. *)
Theorem header_roundtrip :
  (forall i bits, 0 <= bits <= u16_max -> to_wire_bits (header_from_wire i bits) = bits) /\
  (forall h, good_header h ->
     0 <= to_wire_bits h <= u16_max /\ header_from_wire (id h) (to_wire_bits h) = h).
Proof.
  split; [apply to_wire_bits_from_wire|].
  intros h Hh. split; [by apply wire_bits_bounds|by apply header_wire].
Qed.

Section properties.
Context `{BO : ByteOrder}.

(** C25: no packet makes the codec panic or loop, compression loops
    included: [unpack] comes back, and every message it returns is well-formed
    (labels of 1 to 63 octets, names of at most 255, fields in range);
    [qtype_from_packet] and the in-place rewrite come back too. *)
Theorem msg_functions_total (p : bytes) (ip : IpAddr) :
  returns (unpack p) good_msg /\ total (qtype_from_packet p) /\
  returns_from (rewrite_answer_ips_in_packet ip) p (fun _ p' => len p' = len p).
Proof.
  split; [apply unpack_returns|]. split; [apply qtype_from_packet_total|].
  eapply returns_from_mono; [apply rewrite_in_packet_returns|].
  intros [] p' _ (o & hs & e & _ & _ & _ & Hl & _). exact Hl.
Qed.

(** C23: [pack] succeeds on every well-formed message and [unpack] gives the
    message back. *)
Theorem pack_unpack (m : Msg) :
  good_msg m -> exists p, pack m = Ok p /\ unpack p = Ok m.
Proof. intros Hm. exists (enc_msg m). split; [by apply pack_enc|by apply unpack_enc]. Qed.

(** The in-place rewrite overwrites the data of exactly the answer
    records of class IN whose type and length fit the selected address, each
    with that address, and changes no other octet. *)
Theorem rewrite_in_packet_spec (p p' : bytes) (ip : IpAddr) :
  rewrite_answer_ips_in_packet ip p = (Ok tt, p') ->
  exists o hs e,
    skip_questions p DNS_HEADER_SIZE (Z.to_nat (u16at p 4)) = Ok o /\
    len hs = u16at p 6 /\ wire_rrs p o hs e /\ len p' = len p /\
    (forall h, In h hs -> is_target p ip h = true ->
       sub p' (h + 10) (h + 10 + ip_len ip) = octets ip) /\
    (forall i, 0 <= i -> ~ in_target p ip hs i -> get p' i = get p i).
Proof.
  intros H. pose proof (rewrite_in_packet_returns ip p) as Hr. unfold returns_from in Hr.
  by rewrite H in Hr.
Qed.

(** C24: every packet the validator accepts can be rewritten; and on packed
    messages the in-place rewrite is the rewrite of the message: the result is
    the packed form of [rewrite_answer_ips]. *)
Theorem rewrite_refines (ip : IpAddr) :
  (forall p, validate_packet p = Ok true ->
     exists p', rewrite_answer_ips_in_packet ip p = (Ok tt, p')) /\
  (forall m p, good_msg m -> pack m = Ok p ->
     exists p', rewrite_answer_ips_in_packet ip p = (Ok tt, p') /\
       pack (rewrite_answer_ips m ip) = Ok p' /\
       unpack p' = Ok (rewrite_answer_ips m ip)).
Proof.
  split.
  - intros p H. unfold validate_packet in H.
    destruct (unpack p) as [m| | |] eqn:Hu; try done. by eapply rewrite_decodable.
  - intros m p Hm Hp. rewrite pack_enc in Hp by done. injection Hp as <-.
    exists (enc_msg (rewrite_answer_ips m ip)). pose proof (rewrite_good ip m Hm).
    split_and!; [by apply rewrite_packet_enc|by apply pack_enc|by apply unpack_enc].
Qed.

(** [contains_answer_ip] is membership in [answer_ips]; and a rewritten
    message has as many answer addresses as before, those of the selected
    family all equal to the selected address, the others unchanged. *)
Theorem answer_ips_spec (m : Msg) (ip : IpAddr) :
  (contains_answer_ip m ip = true <-> In ip (answer_ips m)) /\
  answer_ips (rewrite_answer_ips m ip) =
    map (fun old => if Bool.eqb (is_v4 old) (is_v4 ip) then ip else old) (answer_ips m).
Proof.
  split; [apply contains_answer_ip_In|].
  unfold answer_ips, rewrite_answer_ips. cbn [answers].
  induction (answers m) as [|rr l IH]; [done|]. cbn [map omap list_omap].
  rewrite rewrite_rr_answer_ip. destruct (answer_ip rr); cbn; by rewrite IH.
Qed.
End properties.

(** ** Witnesses *)
Definition sample_name : Name := {| labels := [ascii_bytes "example"; ascii_bytes "com"] |}.

Definition sample_rr (ip : IpAddr) : ResourceRecord :=
  {| rr_name := sample_name; rr_type := if is_v4 ip then RrType.A else RrType.AAAA;
     rr_class := DNS_CLASS_IN; ttl := 300; rdata := octets ip |}.

Definition sample_v4 (d : byte) : IpAddr := V4 [# x0a; x00; x00; d].

Definition sample_msg : Msg :=
  {| header := header_from_wire 4660 33152; compress := false;
     questions := [{| q_name := sample_name; qtype := RrType.A; qclass := DNS_CLASS_IN |}];
     answers := [sample_rr (sample_v4 x01); sample_rr (sample_v4 x02)];
     authorities := []; additionals := [] |}.

Lemma sample_name_good : good_name sample_name.
Proof. split; [repeat constructor; by vm_compute|by vm_compute]. Qed.

Lemma sample_rr_good ip : good_rr (sample_rr ip).
Proof.
  split; [apply sample_name_good|]. split; [by destruct ip|]. split; [done|]. split; [done|].
  cbn [sample_rr rdata]. rewrite len_octets. destruct ip; cbn [is_v4]; lia.
Qed.

Lemma sample_msg_good : good_msg sample_msg.
Proof.
  split.
  - by apply header_from_wire_good.
  - done.
  - split; [|done]. constructor; [|constructor]. split; [apply sample_name_good|done].
  - split; [|done]. repeat constructor; apply sample_rr_good.
  - split; [constructor|done].
  - split; [constructor|done].
Qed.

Lemma pack_unpack_witness :
  good_msg sample_msg /\ exists p, pack sample_msg = Ok p /\ unpack p = Ok sample_msg.
Proof. split; [exact sample_msg_good|]. exact (pack_unpack sample_msg sample_msg_good). Defined.

Definition sample_packet : bytes := enc_msg sample_msg.
Definition sample_rewritten : bytes :=
  enc_msg (rewrite_answer_ips sample_msg (sample_v4 x09)).

Lemma sample_rewrites :
  rewrite_answer_ips_in_packet (sample_v4 x09) sample_packet = (Ok tt, sample_rewritten).
Proof. vm_compute. reflexivity. Qed.

Lemma rewrite_in_packet_spec_witness :
  rewrite_answer_ips_in_packet (sample_v4 x09) sample_packet = (Ok tt, sample_rewritten) /\
  len sample_rewritten = len sample_packet.
Proof.
  split; [exact sample_rewrites|].
  destruct (rewrite_in_packet_spec sample_packet sample_rewritten (sample_v4 x09) sample_rewrites)
    as (o & hs & e & _ & _ & _ & Hl & _).
  exact Hl.
Defined.

Lemma sample_packed : pack sample_msg = Ok sample_packet.
Proof. vm_compute. reflexivity. Qed.

Lemma rewrite_refines_witness :
  pack sample_msg = Ok sample_packet /\
  exists p', rewrite_answer_ips_in_packet (sample_v4 x09) sample_packet = (Ok tt, p').
Proof.
  split; [exact sample_packed|].
  destruct (rewrite_refines (sample_v4 x09)) as [_ H].
  destruct (H sample_msg sample_packet sample_msg_good sample_packed) as (p' & Hp & _).
  exists p'. exact Hp.
Defined.

Lemma rr_type_roundtrip_witness :
  RrType.canonical (RrType.Unknown 11) /\ RrType.from_u16 (RrType.to_u16 (RrType.Unknown 11)) = RrType.Unknown 11.
Proof.
  assert (RrType.canonical (RrType.Unknown 11)) as H by (split; [lia|reflexivity]).
  split; [exact H|]. exact (proj2 rr_type_roundtrip (RrType.Unknown 11) H).
Defined.

Lemma header_roundtrip_witness :
  0 <= 33152 <= u16_max /\ to_wire_bits (header_from_wire 0 33152) = 33152.
Proof.
  assert (0 <= 33152 <= u16_max) as H by lia. split; [exact H|].
  exact (proj1 header_roundtrip 0 33152 H).
Defined.
