(* ===== verification/DnsJson.v ===== *)
(** * The JSON view of DNS messages: src/libdoh/src/dns_json.rs

    [parse_dns_to_json] decodes a response into the fields of the JSON
    answer; [build_dns_query] makes the packet for the parameters of a JSON
    request.  The [base64] crate's encoder and the two random octets of the
    transaction id are parameters.

    Fuel: the control flow of [parse_name] depends on its offset alone, which
    it checks against the packet's length every turn, so a walk of more than
    [length packet] turns has come back to an offset and never ends;
    [S (length packet)] turns of fuel run out exactly then. *)

From S2P Require Import Prelude Bytes Text Net Dns.

(** ** [String::from_utf8_lossy]

    [utf8_chunk s] inspects the front of a nonempty [s] as the standard
    library does: how many octets it takes, and whether they are one
    character. *)
Definition is_cont (o : option byte) : bool :=
  match o with Some b => Z.land (u8 b) 0xc0 =? 0x80 | None => false end.
Definition between (lo hi : Z) (o : option byte) : bool :=
  match o with Some b => (lo <=? u8 b) && (u8 b <=? hi) | None => false end.

Definition utf8_char_width (b : byte) : Z :=
  if u8 b <? 0x80 then 1
  else if u8 b <? 0xc2 then 0
  else if u8 b <? 0xe0 then 2
  else if u8 b <? 0xf0 then 3
  else if u8 b <? 0xf5 then 4
  else 0.

Definition utf8_chunk (b : byte) (rest : bytes) : nat * bool :=
  let b1 := rest !! 0%nat in
  let b2 := rest !! 1%nat in
  let b3 := rest !! 2%nat in
  let w := utf8_char_width b in
  if w =? 1 then (1%nat, true)
  else if w =? 2 then if is_cont b1 then (2%nat, true) else (1%nat, false)
  else if w =? 3 then
    let second :=
      if u8 b =? 0xe0 then between 0xa0 0xbf b1
      else if u8 b =? 0xed then between 0x80 0x9f b1
      else between 0x80 0xbf b1 in
    if second then if is_cont b2 then (3%nat, true) else (2%nat, false) else (1%nat, false)
  else if w =? 4 then
    let second :=
      if u8 b =? 0xf0 then between 0x90 0xbf b1
      else if u8 b =? 0xf4 then between 0x80 0x8f b1
      else between 0x80 0xbf b1 in
    if second then
      if is_cont b2 then if is_cont b3 then (4%nat, true) else (3%nat, false) else (2%nat, false)
    else (1%nat, false)
  else (1%nat, false).

(** U+FFFD *)
Definition REPLACEMENT : bytes := [xef; xbf; xbd].

Fixpoint utf8_lossy_loop (fuel : nat) (s : bytes) : bytes :=
  match fuel, s with
  | S fuel, b :: rest =>
      let '(n, valid) := utf8_chunk b rest in
      (if valid : bool then firstn n s else REPLACEMENT) ++ utf8_lossy_loop fuel (skipn n s)
  | _, _ => []
  end.
Definition from_utf8_lossy (s : bytes) : bytes := utf8_lossy_loop (length s) s.

(** ** Constants *)
Definition TYPE_A : Z := 1.
Definition TYPE_NS : Z := 2.
Definition TYPE_CNAME : Z := 5.
Definition TYPE_SOA : Z := 6.
Definition TYPE_PTR : Z := 12.
Definition TYPE_MX : Z := 15.
Definition TYPE_TXT : Z := 16.
Definition TYPE_AAAA : Z := 28.
Definition TYPE_SRV : Z := 33.
Definition TYPE_CAA : Z := 257.
Definition CLASS_IN : Z := 1.

(** ** Data *)
Record DnsQuestion := { question_name : bytes; question_qtype : Z }.
Record DnsAnswer := { answer_name : bytes; answer_rtype : Z; answer_ttl : Z; answer_data : bytes }.

Record DnsJsonResponse := {
  status : Z;
  tc : bool;
  rd : bool;
  ra : bool;
  ad : bool;
  cd : bool;
  question : option (list DnsQuestion);
  answer : option (list DnsAnswer);
  authority : option (list DnsAnswer);
  additional : option (list DnsAnswer);
  comment : option bytes
}.

Record DnsJsonQuery := {
  query_name : bytes;
  query_type : option Z;
  query_cd : option bool;
  query_ct : option bytes;
  query_do_ : option bool;
  query_edns_client_subnet : option bytes
}.

Section dns_json.
Context `{BO : ByteOrder} (base64_std_encode : bytes -> bytes).

(** ** Names *)
Fixpoint parse_name_loop (fuel : nat) (packet : bytes) (offset : Z) (name : bytes)
    (jumped : bool) (jump_offset : Z) : outcome Error (bytes * Z) :=
  match fuel with
  | O => Diverge
  | S fuel =>
      ensure (offset <? len packet) "Name extends beyond packet"%string;;
      b ← index packet offset;
      let label_len := u8 b in
      if Z.land label_len 0xc0 =? 0xc0 then
        ensure (offset + 1 <? len packet) "Incomplete compression pointer"%string;;
        let jump_offset := if jumped then jump_offset else offset + 2 in
        b2 ← index packet (offset + 1);
        parse_name_loop fuel packet (Z.lor (Z.shiftl (Z.land label_len 0x3f) 8) (u8 b2)) name
          true jump_offset
      else
        let offset := offset + 1 in
        if label_len =? 0 then Ok (name, if jumped then jump_offset else offset)
        else
          let name := if (length name =? 0)%nat then name else name ++ [x2e] in
          ensure (offset + label_len <=? len packet) "Label extends beyond packet"%string;;
          label ← slice packet offset (offset + label_len);
          parse_name_loop fuel packet (offset + label_len) (name ++ from_utf8_lossy label)
            jumped jump_offset
  end.

Definition parse_name (packet : bytes) (offset : Z) : outcome Error (bytes * Z) :=
  parse_name_loop (S (length packet)) packet offset [] false 0.

(** ** Record data *)
Fixpoint txt_loop (fuel : nat) (packet : bytes) (end_ txt_offset : Z) (txt_data : bytes)
    : outcome Error bytes :=
  match fuel with
  | O => Diverge
  | S fuel =>
      if txt_offset <? end_ then
        b ← index packet txt_offset;
        let txt_len := u8 b in
        let txt_offset := txt_offset + 1 in
        if txt_offset + txt_len <=? end_ then
          let txt_data := if (length txt_data =? 0)%nat then txt_data else txt_data ++ [x20] in
          s ← slice packet txt_offset (txt_offset + txt_len);
          txt_loop fuel packet end_ (txt_offset + txt_len) (txt_data ++ from_utf8_lossy s)
        else Ok txt_data
      else Ok txt_data
  end.

Definition encode_rdata (packet : bytes) (offset rdlength : Z) : outcome Error bytes :=
  s ← slice packet offset (offset + rdlength); Ok (base64_std_encode s).

Definition data_a (packet : bytes) (offset : Z) : outcome Error bytes :=
  a ← index packet offset;
  b ← index packet (offset + 1);
  c ← index packet (offset + 2);
  d ← index packet (offset + 3);
  Ok (decimal (u8 a) ++ [x2e] ++ decimal (u8 b) ++ [x2e] ++ decimal (u8 c) ++ [x2e] ++
      decimal (u8 d)).

Definition data_aaaa (packet : bytes) (offset : Z) : outcome Error bytes :=
  addr ← slice packet offset (offset + 16);
  g0 ← read_u16_in addr 0 2;
  g1 ← read_u16_in addr 2 4;
  g2 ← read_u16_in addr 4 6;
  g3 ← read_u16_in addr 6 8;
  g4 ← read_u16_in addr 8 10;
  g5 ← read_u16_in addr 10 12;
  g6 ← read_u16_in addr 12 14;
  g7 ← read_u16_in addr 14 16;
  Ok (hex g0 ++ [x3a] ++ hex g1 ++ [x3a] ++ hex g2 ++ [x3a] ++ hex g3 ++ [x3a] ++
      hex g4 ++ [x3a] ++ hex g5 ++ [x3a] ++ hex g6 ++ [x3a] ++ hex g7).

Definition data_caa (packet : bytes) (offset rdlength : Z) : outcome Error bytes :=
  if 2 <=? rdlength then
    flags ← index packet offset;
    tag_len ← index packet (offset + 1);
    let tag_len := u8 tag_len in
    if offset + 2 + tag_len <=? offset + rdlength then
      tag ← slice packet (offset + 2) (offset + 2 + tag_len);
      value ← slice packet (offset + 2 + tag_len) (offset + rdlength);
      Ok (decimal (u8 flags) ++ [x20] ++ from_utf8_lossy tag ++ [x20; x22] ++
          from_utf8_lossy value ++ [x22])
    else encode_rdata packet offset rdlength
  else encode_rdata packet offset rdlength.

Definition rdata_text (packet : bytes) (rtype offset rdlength : Z) : outcome Error bytes :=
  if (rtype =? TYPE_A) && (rdlength =? 4) then data_a packet offset
  else if (rtype =? TYPE_AAAA) && (rdlength =? 16) then data_aaaa packet offset
  else if (rtype =? TYPE_CNAME) || (rtype =? TYPE_NS) || (rtype =? TYPE_PTR) then
    '(domain, _) ← parse_name packet offset; Ok domain
  else if (rtype =? TYPE_MX) && (2 <=? rdlength) then
    preference ← read_u16_in packet offset (offset + 2);
    '(exchange, _) ← parse_name packet (offset + 2);
    Ok (decimal preference ++ [x20] ++ exchange)
  else if rtype =? TYPE_TXT then
    txt_loop (S (Z.to_nat rdlength)) packet (offset + rdlength) offset []
  else if rtype =? TYPE_SOA then
    Ok (ascii_bytes "<SOA record, " ++ decimal rdlength ++ ascii_bytes " bytes>")
  else if (rtype =? TYPE_SRV) && (6 <=? rdlength) then
    priority ← read_u16_in packet offset (offset + 2);
    weight ← read_u16_in packet (offset + 2) (offset + 4);
    port ← read_u16_in packet (offset + 4) (offset + 6);
    '(target, _) ← parse_name packet (offset + 6);
    Ok (decimal priority ++ [x20] ++ decimal weight ++ [x20] ++ decimal port ++ [x20] ++ target)
  else if rtype =? TYPE_CAA then data_caa packet offset rdlength
  else encode_rdata packet offset rdlength.

Fixpoint parse_rrs (packet : bytes) (offset : Z) (count : nat) (records : list DnsAnswer)
    : outcome Error (list DnsAnswer * Z) :=
  match count with
  | O => Ok (records, offset)
  | S count =>
      '(name, offset) ← parse_name packet offset;
      ensure (offset + 10 <=? len packet) "Incomplete resource record"%string;;
      rtype ← read_u16_in packet offset (offset + 2);
      class ← read_u16_in packet (offset + 2) (offset + 4);
      ttl ← read_u32_in packet (offset + 4) (offset + 8);
      rdlength ← read_u16_in packet (offset + 8) (offset + 10);
      let offset := offset + 10 in
      ensure (offset + rdlength <=? len packet) "Resource data extends beyond packet"%string;;
      if negb (class =? CLASS_IN) || (rtype =? DNS_TYPE_OPT) then
        parse_rrs packet (offset + rdlength) count records
      else
        data ← rdata_text packet rtype offset rdlength;
        let rr := {| answer_name := name; answer_rtype := rtype; answer_ttl := ttl;
                     answer_data := data |} in
        parse_rrs packet (offset + rdlength) count (records ++ [rr])
  end.

Fixpoint parse_questions (packet : bytes) (offset : Z) (count : nat) (questions : list DnsQuestion)
    : outcome Error (list DnsQuestion * Z) :=
  match count with
  | O => Ok (questions, offset)
  | S count =>
      '(name, offset) ← parse_name packet offset;
      ensure (offset + 4 <=? len packet) "Incomplete question"%string;;
      qtype ← read_u16_in packet offset (offset + 2);
      parse_questions packet (offset + 4) count
        (questions ++ [{| question_name := name; question_qtype := qtype |}])
  end.

(** A section: absent when its count is zero or nothing in it is kept. *)
Definition parse_section (packet : bytes) (offset count : Z)
    : outcome Error (option (list DnsAnswer) * Z) :=
  if 0 <? count then
    '(records, offset) ← parse_rrs packet offset (Z.to_nat count) [];
    Ok (if (length records =? 0)%nat then None else Some records, offset)
  else Ok (None, offset).

Definition parse_dns_to_json (packet : bytes) : outcome Error DnsJsonResponse :=
  ensure (12 <=? len packet) "DNS packet too short"%string;;
  flags ← read_u16_in packet 2 4;
  qdcount ← qdcount packet;
  ancount ← ancount packet;
  nscount ← read_u16_in packet 8 10;
  arcount ← arcount packet;
  rcode ← rcode packet;
  '(questions, offset) ←
    (if 0 <? qdcount then
       '(questions, offset) ← parse_questions packet 12 (Z.to_nat qdcount) [];
       Ok (Some questions, offset)
     else Ok (None, 12));
  '(answers, offset) ← parse_section packet offset ancount;
  '(authorities, offset) ← parse_section packet offset nscount;
  '(additionals, _) ← parse_section packet offset arcount;
  Ok {| status := rcode;
        tc := negb (Z.land flags 0x0200 =? 0); rd := negb (Z.land flags 0x0100 =? 0);
        ra := negb (Z.land flags 0x0080 =? 0); ad := negb (Z.land flags 0x0020 =? 0);
        cd := negb (Z.land flags 0x0010 =? 0);
        question := questions; answer := answers; authority := authorities;
        additional := additionals; comment := None |}.

(** ** The query of a JSON request *)
Definition push_labels (name packet : bytes) : bytes :=
  fold_left (fun packet label =>
    if (length label =? 0)%nat then packet
    else packet ++ [as_u8 (len label)] ++ label) (split x2e name) packet.

(** [subnet.parse::<Ipv4Addr>()], the octets *)
Definition parse_ipv4 (s : bytes) : option bytes :=
  match read_ipv4_addr s with Some (v4, []) => Some v4 | _ => None end.

Definition subnet_option (subnet : option bytes) : outcome Error bytes :=
  match subnet with
  | Some subnet =>
      match parse_ipv4 subnet with
      | Some addr =>
          octets ← slice addr 0 3;
          Ok ([x00; x08] ++ [x00; x07] ++ [x00; x01] ++ [as_u8 24] ++ [x00] ++ octets)
      | None => Ok []
      end
  | None => Ok []
  end.

Definition build_dns_query (random0 random1 : byte) (query : DnsJsonQuery) : outcome Error bytes :=
  let qtype := default TYPE_A (query_type query) in
  let flags3 := if default false (query_cd query) then x10 else x00 in
  let packet := [random0; random1; x01; flags3] ++ replicate 8 x00 in
  packet ← write_u16_in packet 4 6 1;
  let packet := push_labels (query_name query) packet ++ [x00] in
  let packet := packet ++ be16 qtype ++ be16 CLASS_IN in
  let do_ := default false (query_do_ query) in
  if do_ || bool_decide (is_Some (query_edns_client_subnet query)) then
    packet ← write_u16_in packet 10 12 1;
    let packet := packet ++ [x00] ++ be16 DNS_TYPE_OPT ++ [x10; x00] ++ [x00] ++ [x00] in
    let flags := if do_ then Z.lor 0 0x8000 else 0 in
    let packet := packet ++ be16 flags in
    let rdlength_pos := len packet in
    let packet := packet ++ [x00; x00] in
    opt_data ← subnet_option (query_edns_client_subnet query);
    packet ← write_u16_in packet rdlength_pos (rdlength_pos + 2) (as_u16 (len opt_data));
    Ok (packet ++ opt_data)
  else Ok packet.
End dns_json.
