(* ===== verification/DnsJsonFacts.v ===== *)
(** * What the JSON view guarantees

    Memory safety of the decoder, exactness of its fuel, and the decoding of
    the queries the server builds. *)

From Stdlib Require Import ListDec.
From S2P Require Import Prelude Bytes Wire Text Net Dns DnsFacts DnsJson.

Section safety.
Context `{BO : ByteOrder} (enc64 : bytes -> bytes).

(** ** No panics *)
Lemma parse_name_loop_safe fuel p o n j jo :
  0 <= o -> (j = true -> 0 <= jo <= len p) ->
  safe (parse_name_loop fuel p o n j jo) (fun '(_, next) => 0 <= next <= len p).
Proof.
  revert o n j jo; induction fuel as [|fuel IH]; intros o n j jo Ho Hj; [done|].
  cbn [parse_name_loop]. apply safe_bind, safe_ensure. intros; bool_to_prop.
  rewrite (index_ok p o) by lia. out_simpl. rewrite tag_pointer.
  destruct (192 <=? u8 (get p o)).
  - apply safe_bind, safe_ensure. intros; bool_to_prop. rewrite index_ok by lia. out_simpl.
    apply IH; [|destruct j; [done|lia]]. apply Z.lor_nonneg. split; [|apply u8_bounds].
    apply Z.shiftl_nonneg, Z.land_nonneg. lia.
  - destruct (u8 (get p o) =? 0); [destruct j; cbn; [by apply Hj|lia]|].
    pose proof (u8_bounds (get p o)).
    apply safe_bind, safe_ensure. intros; bool_to_prop. rewrite slice_ok by lia. out_simpl.
    apply IH; [lia|done].
Qed.

Lemma parse_name_safe p o : 0 <= o -> safe (parse_name p o) (fun '(_, next) => 0 <= next <= len p).
Proof. intros. by apply parse_name_loop_safe. Qed.

Lemma txt_loop_safe fuel p e o t :
  0 <= o -> e <= len p -> safe (txt_loop fuel p e o t) (fun _ => True).
Proof.
  revert o t; induction fuel as [|fuel IH]; intros o t Ho He; [done|]. cbn [txt_loop].
  destruct (Z.ltb_spec o e); [|done]. rewrite index_ok by lia. out_simpl.
  pose proof (u8_bounds (get p o)). destruct (Z.leb_spec (o + 1 + u8 (get p o)) e); [|done].
  rewrite slice_ok by lia. out_simpl. apply IH; lia.
Qed.

Lemma encode_rdata_safe p o l :
  0 <= o -> 0 <= l -> o + l <= len p -> safe (encode_rdata enc64 p o l) (fun _ => True).
Proof. intros. unfold encode_rdata. by rewrite slice_ok by lia. Qed.

Lemma rdata_text_safe p t o l :
  0 <= o -> 0 <= l -> o + l <= len p -> safe (rdata_text enc64 p t o l) (fun _ => True).
Proof.
  intros Ho Hl Hp. unfold rdata_text.
  assert (forall o, 0 <= o -> safe (parse_name p o) (fun _ => True)) as Hn.
  { intros o' Ho'. eapply safe_mono; [by apply parse_name_safe|done]. }
  destruct (t =? TYPE_A); cbn [andb orb]; [destruct (Z.eqb_spec l 4); cbn [andb]|].
  { unfold data_a. by rewrite !index_ok by lia. }
  all: destruct (t =? TYPE_AAAA); cbn [andb]; [destruct (Z.eqb_spec l 16)|].
  all: try (unfold data_aaaa; rewrite slice_ok by lia; out_simpl;
    assert (len (sub p o (o + 16)) = 16) by (rewrite len_sub by lia; lia);
    by rewrite !read_u16_in_ok by lia).
  all: destruct ((t =? TYPE_CNAME) || (t =? TYPE_NS) || (t =? TYPE_PTR));
    [apply safe_bind; eapply safe_mono; [by apply Hn|by intros []]|].
  all: destruct ((t =? TYPE_MX) && (2 <=? l)) eqn:Hmx; bool_to_prop;
    [rewrite read_u16_in_ok by lia; out_simpl; apply safe_bind;
     eapply safe_mono; [apply Hn; lia|by intros []]|].
  all: destruct (t =? TYPE_TXT); [by apply txt_loop_safe; lia|].
  all: destruct (t =? TYPE_SOA); [done|].
  all: destruct ((t =? TYPE_SRV) && (6 <=? l)) eqn:Hsrv; bool_to_prop;
    [rewrite !read_u16_in_ok by lia; out_simpl; apply safe_bind;
     eapply safe_mono; [apply Hn; lia|by intros []]|].
  all: destruct (t =? TYPE_CAA); [|by apply encode_rdata_safe].
  all: unfold data_caa; destruct (Z.leb_spec 2 l); [|by apply encode_rdata_safe].
  all: rewrite !index_ok by lia; out_simpl; pose proof (u8_bounds (get p (o + 1))).
  all: destruct (Z.leb_spec (o + 2 + u8 (get p (o + 1))) (o + l)); [|by apply encode_rdata_safe].
  all: by rewrite !slice_ok by lia.
Qed.

Lemma parse_rrs_safe p o n acc :
  0 <= o <= len p -> safe (parse_rrs enc64 p o n acc) (fun '(_, next) => 0 <= next <= len p).
Proof.
  revert o acc; induction n as [|n IH]; intros o acc Ho; [done|]. cbn [parse_rrs].
  apply safe_bind. eapply safe_mono; [apply parse_name_safe; lia|].
  intros [nm next] _ Hb. apply safe_bind, safe_ensure. intros; bool_to_prop.
  rewrite !read_u16_in_ok, read_u32_in_ok by lia. out_simpl.
  pose proof (u16at_bounds p (next + 8)).
  apply safe_bind, safe_ensure. intros; bool_to_prop.
  destruct (negb _ || _); [apply IH; lia|].
  apply safe_bind. eapply safe_mono; [apply rdata_text_safe; lia|]. intros d _ _. apply IH. lia.
Qed.

Lemma parse_questions_safe p o n acc :
  0 <= o <= len p -> safe (parse_questions p o n acc) (fun '(_, next) => 0 <= next <= len p).
Proof.
  revert o acc; induction n as [|n IH]; intros o acc Ho; [done|]. cbn [parse_questions].
  apply safe_bind. eapply safe_mono; [apply parse_name_safe; lia|].
  intros [nm next] _ Hb. apply safe_bind, safe_ensure. intros; bool_to_prop.
  rewrite !read_u16_in_ok by lia. out_simpl. apply IH. lia.
Qed.

Lemma parse_section_safe p o n :
  0 <= o <= len p -> safe (parse_section enc64 p o n) (fun '(_, next) => 0 <= next <= len p).
Proof.
  intros Ho. unfold parse_section. destruct (0 <? n); [|done].
  apply safe_bind. eapply safe_mono; [by apply parse_rrs_safe|]. by intros [].
Qed.

Lemma parse_dns_to_json_safe p : safe (parse_dns_to_json enc64 p) (fun _ => True).
Proof.
  unfold parse_dns_to_json, Dns.qdcount, Dns.ancount, Dns.arcount, Dns.rcode.
  apply safe_bind, safe_ensure. intros; bool_to_prop.
  rewrite !read_u16_in_ok, !read_u16_ok, index_ok by lia. out_simpl.
  apply safe_bind. eapply (safe_mono _ (fun '(_, o) => 0 <= o <= len p)).
  { destruct (0 <? u16at p 4); [|cbn; lia]. apply safe_bind.
    eapply safe_mono; [apply parse_questions_safe; lia|]. by intros []. }
  intros [qs o] _ Ho. apply safe_bind. eapply safe_mono; [by apply parse_section_safe|].
  intros [an o1] _ Ho1. apply safe_bind. eapply safe_mono; [by apply parse_section_safe|].
  intros [au o2] _ Ho2. apply safe_bind. eapply safe_mono; [by apply parse_section_safe|].
  by intros [ad o3] _ Ho3.
Qed.
End safety.

(** ** The fuel is exact

    [name_next p o]: the offset of the next turn of the loop, if there is
    one. *)
Definition name_next (p : bytes) (o : Z) : option Z :=
  if (0 <=? o) && (o <? len p) then
    let b := u8at p o in
    if 192 <=? b then
      if o + 1 <? len p
      then Some (Z.lor (Z.shiftl (Z.land b 0x3f) 8) (u8at p (o + 1)))
      else None
    else if b =? 0 then None
    else if o + 1 + b <=? len p then Some (o + 1 + b) else None
  else None.

Fixpoint name_walk (p : bytes) (o : Z) (k : nat) : option Z :=
  match k with
  | O => Some o
  | S k => match name_next p o with Some o' => name_walk p o' k | None => None end
  end.

Lemma name_next_bounds p o o' : name_next p o = Some o' -> 0 <= o < len p /\ 0 <= o'.
Proof.
  unfold name_next. destruct (Z.leb_spec 0 o), (Z.ltb_spec o (len p)); cbn [andb]; try done.
  intros Hn. split; [done|]. pose proof (u8at_bounds p o). pose proof (u8at_bounds p (o + 1)).
  destruct (192 <=? u8at p o).
  - destruct (_ <? _); [|done]. injection Hn as <-. apply Z.lor_nonneg.
    split; [|lia]. apply Z.shiftl_nonneg, Z.land_nonneg. lia.
  - destruct (_ =? 0); [done|]. destruct (_ <=? _); [|done]. injection Hn as <-. lia.
Qed.

Lemma parse_name_loop_walk fuel p o n j jo :
  0 <= o -> parse_name_loop fuel p o n j jo = Diverge <-> is_Some (name_walk p o fuel).
Proof.
  revert o n j jo; induction fuel as [|fuel IH]; intros o n j jo Ho; cbn [parse_name_loop name_walk].
  { split; [by eexists|done]. }
  unfold name_next. rewrite (proj2 (Z.leb_le 0 o)) by done. cbn [andb].
  destruct (Z.ltb_spec o (len p)); cbn [ensure]; [|split; [done|by intros [? ?]]].
  out_simpl. rewrite (index_ok p o) by lia. out_simpl. rewrite tag_pointer.
  fold (u8at p o). pose proof (u8at_bounds p o). pose proof (u8at_bounds p (o + 1)).
  destruct (192 <=? u8at p o).
  - destruct (Z.ltb_spec (o + 1) (len p)); cbn [ensure]; [|split; [done|by intros [? ?]]].
    out_simpl. rewrite index_ok by lia. out_simpl. fold (u8at p (o + 1)). apply IH.
    apply Z.lor_nonneg. split; [|lia]. apply Z.shiftl_nonneg, Z.land_nonneg. lia.
  - destruct (u8at p o =? 0); [split; [done|by intros [? ?]]|].
    destruct (Z.leb_spec (o + 1 + u8at p o) (len p)); cbn [ensure];
      [|split; [done|by intros [? ?]]].
    out_simpl. rewrite slice_ok by lia. out_simpl. apply IH. lia.
Qed.

Lemma name_walk_add p o a b :
  name_walk p o (a + b) = match name_walk p o a with Some o' => name_walk p o' b | None => None end.
Proof.
  revert o; induction a as [|a IH]; intros o; cbn; [done|]. by destruct (name_next p o).
Qed.

Lemma name_walk_prefix p o a b : (a <= b)%nat -> is_Some (name_walk p o b) -> is_Some (name_walk p o a).
Proof.
  intros Hab H. replace b with (a + (b - a))%nat in H by lia. rewrite name_walk_add in H.
  destruct (name_walk p o a); [done|]. by destruct H.
Qed.

Lemma name_walk_cycle p o d k : (0 < d)%nat -> name_walk p o d = Some o -> is_Some (name_walk p o k).
Proof.
  intros Hd Hc. apply (name_walk_prefix p o k (k * d)); [nia|].
  exists o. induction k as [|k IH]; [done|]. cbn [Nat.mul]. by rewrite name_walk_add, Hc.
Qed.

Lemma name_walk_forever p o : 
  0 <= o -> is_Some (name_walk p o (S (length p))) -> forall k, is_Some (name_walk p o k).
Proof.
  intros Ho Hw.
  set (offs := map (fun k => default 0 (name_walk p o k)) (List.seq 0 (S (length p)))).
  assert (forall k, (k <= length p)%nat -> exists x, name_walk p o k = Some x /\ 0 <= x < len p) as Hk.
  { intros k Hle. destruct (name_walk_prefix p o (k + 1) (S (length p))) as [y Hy]; [lia|done|].
    rewrite name_walk_add in Hy. destruct (name_walk p o k) as [x|]; [|done]. exists x.
    split; [done|].     cbn in Hy. destruct (name_next p x) eqn:Hn; [|done].
    apply name_next_bounds in Hn. tauto. }
  assert (~ List.NoDup offs) as Hdup.
  { intros Hnd.
    pose proof (List.NoDup_incl_length (l' := map Z.of_nat (List.seq 0 (length p))) Hnd) as Hlen.
    unfold offs in Hlen. rewrite !length_map, !length_seq in Hlen.
    assert (S (length p) <= length p)%nat; [apply Hlen|lia].
    intros x Hx. apply List.in_map_iff in Hx as (k & <- & Hin). apply List.in_seq in Hin.
    destruct (Hk k) as (y & Hy & Hb); [lia|]. rewrite Hy. cbn.
    apply List.in_map_iff. exists (Z.to_nat y). unfold len in Hb. split; [lia|].
    apply List.in_seq. lia. }
  apply ListDec.not_NoDup in Hdup as (x & l1 & l2 & l3 & Hsplit);
    [|intros a b; destruct (Z.eq_dec a b); [by left|by right]].
  assert (forall i, (i < S (length p))%nat ->
    nth i offs 0 = default 0 (name_walk p o i)) as Hnth.
  { intros i Hi. unfold offs. rewrite (nth_indep _ 0 (default 0 (name_walk p o 0)))
      by (rewrite length_map, length_seq; lia).
    rewrite (map_nth (fun k => default 0 (name_walk p o k))), seq_nth by lia. done. }
  set (i := length l1). set (j := (length l1 + 1 + length l2)%nat).
  assert (length offs = S (length p)) as Hlo by (unfold offs; rewrite length_map, length_seq; done).
  assert (length offs = (j + 1 + length l3)%nat) as Hlo'
    by (rewrite Hsplit; unfold j; rewrite !length_app; cbn; rewrite length_app; cbn; lia).
  assert (nth i offs 0 = x /\ nth j offs 0 = x) as [Hxi Hxj].
  { rewrite Hsplit. unfold i, j. split.
    - by rewrite nth_middle.
    - replace (l1 ++ x :: l2 ++ x :: l3) with ((l1 ++ x :: l2) ++ x :: l3)
        by (rewrite <- app_assoc; done).
      replace (length l1 + 1 + length l2)%nat with (length (l1 ++ x :: l2))
        by (rewrite length_app; cbn; lia). by rewrite nth_middle. }
  rewrite Hnth in Hxi, Hxj by lia.
  destruct (Hk i) as (xi & Hi & _); [unfold i, j in *; lia|].
  destruct (Hk j) as (xj & Hj & _); [lia|]. rewrite Hi in Hxi. rewrite Hj in Hxj. cbn in Hxi, Hxj.
  subst xi xj. intros k.
  apply (name_walk_prefix p o k (i + k)); [lia|]. rewrite name_walk_add, Hi.
  apply (name_walk_cycle p x (j - i)); [unfold i, j; lia|].
  replace j with (i + (j - i))%nat in Hj by (unfold i, j; lia).
  by rewrite name_walk_add, Hi in Hj.
Qed.

Lemma parse_name_forever p o :
  0 <= o -> parse_name p o = Diverge ->
  forall fuel, parse_name_loop fuel p o [] false 0 = Diverge.
Proof.
  intros Ho H fuel. apply parse_name_loop_walk; [done|]. apply name_walk_forever; [done|].
  by apply (parse_name_loop_walk _ p o [] false 0).
Qed.

(** ** Encoded names read back *)

(** Labels as presented: joined by dots. *)
Fixpoint join_dots (ls : list bytes) : bytes :=
  match ls with
  | [] => []
  | [l] => l
  | l :: ls => l ++ [x2e] ++ join_dots ls
  end.

(** A label of UTF-8 text. *)
Definition utf8 (l : bytes) : Prop := from_utf8_lossy l = l.

Definition append_labels (ls : list bytes) (name : bytes) : bytes :=
  fold_left (fun name l => (if (length name =? 0)%nat then name else name ++ [x2e]) ++ l) ls name.

Lemma append_labels_nonempty ls name :
  name <> [] -> append_labels ls name = match ls with [] => name | _ => name ++ [x2e] ++ join_dots ls end.
Proof.
  unfold append_labels. revert name; induction ls as [|l ls IH]; intros name Hn; [done|].
  cbn [fold_left]. destruct name as [|b name]; [done|]. cbn [length Nat.eqb].
  rewrite IH by done. destruct ls as [|l' ls]; [by rewrite <- app_assoc|].
  cbn [join_dots]. by rewrite <- !app_assoc.
Qed.

Lemma append_labels_join ls : Forall good_label ls -> append_labels ls [] = join_dots ls.
Proof.
  intros H. destruct H as [|l ls Hl H]; [done|]. unfold append_labels. cbn [fold_left length Nat.eqb app].
  fold (append_labels ls l). rewrite append_labels_nonempty.
  - by destruct ls.
  - intros ->. unfold good_label in Hl. change (len (@nil byte)) with 0 in Hl. lia.
Qed.

Section names.
Context `{BO : ByteOrder}.

Lemma wire_name_enc pre ls post :
  Forall good_label ls -> 1 <= len post ->
  wire_name (pre ++ enc_labels ls ++ x00 :: post) (len pre) (labels_len ls + 1)
    (len pre + labels_len ls + 1).
Proof.
  intros H Hp; revert pre. induction H as [|l ls Hl H IH]; intros pre.
  - change (enc_labels []) with (@nil byte). change (labels_len []) with 0. rewrite Z.add_0_r.
    cbn [app]. apply wire_root; [unfold u8at; by rewrite get_middle|]. doh_simpl. lia.
  - unfold good_label in Hl. unfold enc_labels; cbn [map concat app]. fold (enc_labels ls).
    pose proof (labels_len_nonneg ls). pose proof (len_enc_labels ls).
    assert (u8at (pre ++ as_u8 (len l) :: (l ++ enc_labels ls) ++ x00 :: post) (len pre) = len l)
      as Hu by (unfold u8at; rewrite get_middle, u8_as_u8; apply Z.mod_small; lia).
    rewrite labels_len_cons.
    replace (1 + len l + labels_len ls + 1) with
      (labels_len ls + 1 + (u8at (pre ++ as_u8 (len l) :: (l ++ enc_labels ls) ++ x00 :: post)
        (len pre) + 1)) by lia.
    apply wire_label; rewrite Hu; [lia|doh_simpl; lia|].
    replace (pre ++ as_u8 (len l) :: (l ++ enc_labels ls) ++ x00 :: post)
      with ((pre ++ as_u8 (len l) :: l) ++ enc_labels ls ++ x00 :: post)
      by (rewrite <- !app_assoc; done).
    specialize (IH (pre ++ as_u8 (len l) :: l)). rewrite len_app, len_cons in IH.
    replace (len pre + (len l + 1)) with (len pre + (1 + len l)) by lia.
    replace (len pre + (1 + len l + labels_len ls) + 1) with
      (len pre + (1 + len l) + labels_len ls + 1) by lia. exact IH.
Qed.

Lemma skip_name_enc pre ls post :
  Forall good_label ls -> 1 <= len post -> labels_len ls <= 255 ->
  skip_name (pre ++ enc_labels ls ++ x00 :: post) (len pre) = Ok (len pre + labels_len ls + 1).
Proof.
  intros H Hp Hl. pose proof (labels_len_nonneg ls). pose proof (len_enc_labels ls).
  pose proof (len_nonneg pre). apply skip_name_Ok; [done|]. split; [doh_simpl; lia|].
  eexists. split; [by apply wire_name_enc|]. unfold DNS_MAX_HOSTNAME_SIZE. lia.
Qed.

Lemma parse_name_loop_enc fuel pre ls post n jo :
  Forall good_label ls -> Forall utf8 ls -> (length ls < fuel)%nat ->
  parse_name_loop fuel (pre ++ enc_labels ls ++ x00 :: post) (len pre) n false jo =
    Ok (append_labels ls n, len pre + labels_len ls + 1).
Proof.
  intros H Hu; revert fuel pre n. induction H as [|l ls Hl H IH]; intros fuel pre n Hf;
    (destruct fuel as [|fuel]; [lia|]); cbn [length] in Hf; cbn [parse_name_loop];
    pose proof (len_nonneg pre); pose proof (len_nonneg post).
  - change (enc_labels []) with (@nil byte). cbn [app].
    assert (len (pre ++ x00 :: post) = len pre + (1 + len post)) by (doh_simpl; done).
    cmp_simpl. out_simpl. rewrite (index_ok _ (len pre)) by lia. out_simpl. rewrite get_middle.
    change (u8 x00) with 0. cbn. do 2 f_equal. change (labels_len []) with 0. lia.
  - unfold good_label in Hl. inversion Hu as [|? ? Hul Huls]; subst.
    pose proof (labels_len_nonneg ls). pose proof (len_enc_labels ls).
    unfold enc_labels; cbn [map concat app]. fold (enc_labels ls).
    set (p := pre ++ as_u8 (len l) :: (l ++ enc_labels ls) ++ x00 :: post).
    assert (len p = len pre + (1 + (len l + labels_len ls + (1 + len post)))) as Hlp
      by (unfold p; doh_simpl; lia).
    cmp_simpl. out_simpl. rewrite (index_ok _ (len pre)) by lia. out_simpl.
    assert (get p (len pre) = as_u8 (len l)) as Hg by apply get_middle.
    rewrite Hg, tag_pointer, u8_as_u8, Z.mod_small by lia. cmp_simpl. out_simpl. rewrite slice_ok by lia. out_simpl.
    assert (p = (pre ++ [as_u8 (len l)]) ++ l ++ enc_labels ls ++ x00 :: post) as Hp1
      by (unfold p; rewrite <- !app_assoc; done).
    assert (len (pre ++ [as_u8 (len l)]) = len pre + 1) as Hl1 by (doh_simpl; lia).
    rewrite Hp1, <- Hl1, sub_middle, Hul, app_assoc, <- len_app.
    rewrite (IH Huls) by lia. unfold append_labels. cbn [fold_left]. do 2 f_equal.
    rewrite labels_len_cons, len_app. lia.
Qed.

Lemma parse_name_enc pre ls post :
  Forall good_label ls -> Forall utf8 ls ->
  parse_name (pre ++ enc_labels ls ++ x00 :: post) (len pre) =
    Ok (join_dots ls, len pre + labels_len ls + 1).
Proof.
  intros H Hu. unfold parse_name. rewrite parse_name_loop_enc; try done.
  - by rewrite append_labels_join.
  - pose proof (length_labels_le _ H). pose proof (len_enc_labels ls) as Hl. unfold len in Hl.
    rewrite !length_app. lia.
Qed.

(** The labels the query builder pushes: the nonempty pieces. *)
Definition name_labels (name : bytes) : list bytes :=
  List.filter (fun l => negb (length l =? 0)%nat) (split x2e name).

Lemma push_labels_enc name packet : push_labels name packet = packet ++ enc_labels (name_labels name).
Proof.
  unfold push_labels, name_labels. revert packet.
  induction (split x2e name) as [|l ls IH]; intros packet; cbn [fold_left List.filter].
  - change (enc_labels []) with (@nil byte). by rewrite app_nil_r.
  - destruct (length l =? 0)%nat eqn:Hl; cbn [negb]; rewrite IH; [done|].
    unfold enc_labels. cbn [map concat]. by rewrite <- !app_assoc.
Qed.
End names.

(** ** The built query *)
Section build.
Context `{BO : ByteOrder} (enc64 : bytes -> bytes).

Definition query_header (r0 r1 : byte) (cd : bool) (ar : byte) : bytes :=
  [r0; r1; x01; if cd then x10 else x00; x00; x01; x00; x00; x00; x00; x00; ar].

(** The OPT record of a query with the DO bit or a client subnet. *)
Definition query_opt (do_ : bool) (opt_data : bytes) : bytes :=
  [x00] ++ be16 DNS_TYPE_OPT ++ [x10; x00; x00; x00] ++ be16 (if do_ then 32768 else 0) ++
  be16 (len opt_data) ++ opt_data.

Definition wants_opt (q : DnsJsonQuery) : bool :=
  default false (query_do_ q) || bool_decide (is_Some (query_edns_client_subnet q)).

Definition query_tail (q : DnsJsonQuery) (opt_data : bytes) : bytes :=
  be16 (default TYPE_A (query_type q)) ++ be16 CLASS_IN ++
  (if wants_opt q then query_opt (default false (query_do_ q)) opt_data else []).

Definition query_packet (r0 r1 : byte) (q : DnsJsonQuery) (opt_data : bytes) : bytes :=
  query_header r0 r1 (default false (query_cd q)) (if wants_opt q then x01 else x00) ++
  enc_labels (name_labels (query_name q)) ++ x00 :: query_tail q opt_data.

Lemma read_octets_length n i s v s' : read_octets n i s = Some (v, s') -> length v = n.
Proof.
  revert i s v s'; induction n as [|n IH]; intros i s v s' H; cbn in H.
  - by injection H as <- <-.
  - destruct (read_separator _ _ _ s) as [[x s1]|]; [|done].
    destruct (read_octets n (S i) s1) as [[vs s2]|] eqn:Hr; [|done]. injection H as <- <-.
    cbn. f_equal. by eapply IH.
Qed.

Lemma subnet_option_ok s : exists d, subnet_option s = Ok d /\ len d <= 11.
Proof.
  unfold subnet_option, parse_ipv4, read_ipv4_addr. destruct s as [s|]; [|by exists []].
  destruct (read_octets 4 0 s) as [[v [|]]|] eqn:Hr; [|by exists []|by exists []].
  apply read_octets_length in Hr. rewrite slice_ok by (unfold len; lia). out_simpl.
  eexists. split; [done|]. rewrite !len_app, len_sub by (unfold len; lia). by vm_compute.
Qed.

Lemma put_u16_end pre v : put_u16 (pre ++ [x00; x00]) (len pre) v = pre ++ be16 v.
Proof.
  unfold put_u16, len. rewrite Nat2Z.id, take_app_length.
  rewrite drop_ge by (rewrite length_app; cbn; lia). by rewrite app_nil_r.
Qed.

Lemma build_dns_query_eq r0 r1 q :
  exists d, subnet_option (query_edns_client_subnet q) = Ok d /\ len d <= 11 /\
    build_dns_query r0 r1 q = Ok (query_packet r0 r1 q d).
Proof.
  destruct (subnet_option_ok (query_edns_client_subnet q)) as (d & Hd & Hl).
  exists d. split; [done|]. split; [done|]. unfold build_dns_query.
  set (cd := default false (query_cd q)). set (do_ := default false (query_do_ q)).
  set (hdr := [r0; r1; x01; if cd then x10 else x00] ++ replicate 8 x00).
  rewrite write_u16_in_ok by (done || lia). out_simpl.
  change (put_u16 hdr 4 1) with (query_header r0 r1 cd x00).
  rewrite push_labels_enc.
  change (do_ || bool_decide (is_Some (query_edns_client_subnet q))) with (wants_opt q).
  unfold query_packet, query_tail. destruct (wants_opt q) eqn:Hw.
  - fold cd do_. rewrite <- !app_assoc.
    set (rest := enc_labels _ ++ _). pose proof (len_nonneg rest).
    rewrite write_u16_in_ok by (rewrite ?len_app; change (len (query_header r0 r1 cd x00)) with 12; lia).
    out_simpl. rewrite Hd. out_simpl. pose proof (len_nonneg d).
    change (put_u16 (query_header r0 r1 cd x00 ++ rest) 10 1)
      with (query_header r0 r1 cd x01 ++ rest).
    rewrite !app_assoc. match goal with |- context [write_u16_in (?pre ++ [x00; x00]) _ _ _] => set (pr := pre) end.
    pose proof (len_nonneg pr). unfold as_u16. rewrite Z.mod_small by lia.
    rewrite write_u16_in_ok by (rewrite ?len_app; change (len [x00; x00]) with 2; lia). out_simpl.
    rewrite put_u16_end. f_equal. unfold pr, query_opt, rest. rewrite <- !app_assoc. by destruct do_.
  - fold cd. rewrite app_nil_r. by rewrite <- !app_assoc.
Qed.

Record good_query (q : DnsJsonQuery) : Prop := {
  good_query_labels : Forall good_label (name_labels (query_name q));
  good_query_utf8 : Forall utf8 (name_labels (query_name q));
  good_query_type : 0 <= default TYPE_A (query_type q) <= u16_max
}.

(** Where the question and the OPT record of the built query are. *)
Lemma query_packet_layout r0 r1 q d :
  good_query q -> len d <= 11 ->
  let p := query_packet r0 r1 q d in
  let o := 12 + labels_len (name_labels (query_name q)) + 1 in
  u16at p 4 = 1 /\ u16at p 6 = 0 /\ u16at p 8 = 0 /\ u16at p 10 = (if wants_opt q then 1 else 0) /\
  parse_name p 12 = Ok (join_dots (name_labels (query_name q)), o) /\
  u16at p o = default TYPE_A (query_type q) /\
  len p = o + 4 + (if wants_opt q then 11 + len d else 0) /\
  (wants_opt q = true ->
     get p (o + 4) = x00 /\ u16at p (o + 5) = DNS_TYPE_OPT /\ u16at p (o + 7) = 4096 /\
     u16at p (o + 13) = len d).
Proof.
  intros [Hg Hu Ht] Hd p o. pose proof (len_nonneg d).
  set (ls := name_labels (query_name q)) in *. pose proof (labels_len_nonneg ls).
  pose proof (len_enc_labels ls) as Hle.
  set (hdr := query_header r0 r1 (default false (query_cd q)) (if wants_opt q then x01 else x00)).
  assert (p = (hdr ++ enc_labels ls ++ [x00]) ++ query_tail q d) as Hp.
  { unfold p, query_packet. fold ls hdr. by rewrite <- !app_assoc. }
  assert (len (hdr ++ enc_labels ls ++ [x00]) = o) as Ho.
  { rewrite !len_app, Hle. unfold o, hdr. change (len (query_header _ _ _ _)) with 12.
    change (len [x00]) with 1. lia. }
  assert (forall i, 0 <= i -> u16at p (o + i) = u16at (query_tail q d) i) as Hti.
  { intros. rewrite Hp, <- Ho. by apply u16at_from. }
  split_and!; try done.
  - unfold p, query_packet. by destruct (wants_opt q).
  - apply (parse_name_enc hdr ls); done.
  - rewrite <- (Z.add_0_r o), Hti by lia. unfold query_tail.
    rewrite u16at_app_l by (rewrite ?len_be16; lia). by apply u16at_be16.
  - rewrite Hp, len_app, Ho. unfold query_tail. rewrite !len_app, !len_be16.
    destruct (wants_opt q); [|change (len (@nil byte)) with 0; lia].
    unfold query_opt. rewrite !len_app, !len_be16. change (len [x00]) with 1.
    change (len [x10; x00; x00; x00]) with 4. lia.
  - intros Hw. rewrite !Hti by lia. unfold query_tail. rewrite Hw. split_and!; try done.
    + rewrite Hp, <- Ho. rewrite get_app_r by lia.
      replace (len (hdr ++ enc_labels ls ++ [x00]) + 4 - len (hdr ++ enc_labels ls ++ [x00])) with 4 by lia.
      unfold query_tail. by rewrite Hw.
    + etransitivity; [|apply (u16at_be16 (len d)); lia]. done.
Qed.

Lemma parse_name_root p o : 0 <= o < len p -> get p o = x00 -> parse_name p o = Ok ([], o + 1).
Proof.
  intros Ho Hg. unfold parse_name. destruct (length p) as [|n] eqn:Hl; [unfold len in Ho; lia|].
  cbn [parse_name_loop]. cmp_simpl. out_simpl. rewrite (index_ok _ o) by lia. out_simpl.
  by rewrite Hg.
Qed.

Definition query_json (q : DnsJsonQuery) : DnsJsonResponse := {|
  status := 0; tc := false; rd := true; ra := false; ad := false;
  cd := default false (query_cd q);
  question := Some [{| question_name := join_dots (name_labels (query_name q));
                       question_qtype := default TYPE_A (query_type q) |}];
  answer := None; authority := None; additional := None; comment := None |}.

Lemma parse_query_packet r0 r1 q d :
  good_query q -> len d <= 11 ->
  parse_dns_to_json enc64 (query_packet r0 r1 q d) = Ok (query_json q).
Proof.
  intros Hg Hd. destruct (query_packet_layout r0 r1 q d Hg Hd)
    as (H4 & H6 & H8 & H10 & Hn & Hqt & Hlen & Hopt).
  pose proof (labels_len_nonneg (name_labels (query_name q))). pose proof (len_nonneg d).
  set (o := 12 + labels_len (name_labels (query_name q)) + 1) in *.
  assert (u16at (query_packet r0 r1 q d) 2 = if default false (query_cd q) then 272 else 256) as H2
    by (unfold query_packet; by destruct (default false (query_cd q))).
  assert (u8at (query_packet r0 r1 q d) 3 = if default false (query_cd q) then 16 else 0) as H3
    by (unfold query_packet; by destruct (default false (query_cd q))).
  set (p := query_packet r0 r1 q d) in *.
  assert (12 <= o) by lia. assert (o + 4 <= len p) by (destruct (wants_opt q); lia).
  unfold parse_dns_to_json, Dns.qdcount, Dns.ancount, Dns.arcount, Dns.rcode. run_ok.
  rewrite !read_u16_in_ok, !read_u16_ok, index_ok by lia. out_simpl.
  rewrite H4, H6, H8, H10. fold (u8at p 3). rewrite H3, H2.
  change (0 <? 1) with true. cbn [Z.to_nat Pos.to_nat Pos.iter_op parse_questions].
  change (Z.to_nat 1) with 1%nat. cbn [parse_questions]. rewrite Hn. run_ok.
  rewrite read_u16_in_ok by lia. out_simpl. rewrite Hqt.
  change (parse_section enc64 p (o + 4) 0) with (Ok (None, o + 4) : outcome Error (option (list DnsAnswer) * Z)).
  out_simpl. change (parse_section enc64 p (o + 4) 0)
    with (Ok (None, o + 4) : outcome Error (option (list DnsAnswer) * Z)).
  out_simpl. unfold parse_section. destruct (wants_opt q) eqn:Hw.
  - destruct (Hopt eq_refl) as (Hz & Ht & Hc & Hrd). change (0 <? 1) with true.
    change (Z.to_nat 1) with 1%nat. cbn [parse_rrs].
    rewrite parse_name_root by (done || lia). run_ok.
    replace (o + 4 + 1) with (o + 5) by lia. rewrite !read_u16_in_ok, read_u32_in_ok by lia.
    out_simpl. replace (o + 5 + 2) with (o + 7) by lia. replace (o + 5 + 8) with (o + 13) by lia.
    rewrite Ht, Hc, Hrd. run_ok. unfold query_json. by destruct (default false (query_cd q)).
  - change (0 <? 0) with false. out_simpl. unfold query_json. by destruct (default false (query_cd q)).
Qed.

Lemma query_packet_message r0 r1 q d :
  good_query q -> len d <= 11 -> labels_len (name_labels (query_name q)) <= 255 ->
  exists hs, message (query_packet r0 r1 q d) [] hs (len (query_packet r0 r1 q d)).
Proof.
  intros Hg Hd Hl. destruct (query_packet_layout r0 r1 q d Hg Hd)
    as (H4 & H6 & H8 & H10 & _ & _ & Hlen & Hopt).
  pose proof (labels_len_nonneg (name_labels (query_name q))). pose proof (len_nonneg d).
  set (ls := name_labels (query_name q)) in *. set (o := 12 + labels_len ls + 1) in *.
  assert (skip_name (query_packet r0 r1 q d) DNS_OFFSET_QUESTION = Ok o) as Hs.
  { destruct Hg as [Hgl _ _]. unfold query_packet. fold ls.
    set (hdr := query_header _ _ _ _). change DNS_OFFSET_QUESTION with (len hdr).
    rewrite skip_name_enc; [done|done| |done]. unfold query_tail. rewrite len_app, len_be16.
    match goal with |- 1 <= 2 + len ?x => pose proof (len_nonneg x) end. lia. }
  set (p := query_packet r0 r1 q d) in *.
  exists (if wants_opt q then [o + 5] else []).
  assert (12 <= o) by lia. assert (o + 4 <= len p) by (destruct (wants_opt q); lia).
  split; unfold DNS_HEADER_SIZE, DNS_MAX_PACKET_SIZE.
  - destruct (wants_opt q); lia.
  - done.
  - exists o, (o + 4). split_and!; [done|done|constructor|].
    destruct (wants_opt q) eqn:Hw; [|replace (len p) with (o + 4) by lia; constructor].
    destruct (Hopt eq_refl) as (Hz & Ht & Hc & Hrd).
    assert (u16at p (o + 5 + 8) = len d) as Hr8 by (replace (o + 5 + 8) with (o + 13) by lia; done).
    replace (len p) with (o + 5 + 10 + u16at p (o + 5 + 8)) by lia.
    econstructor; [|lia|constructor].
    replace (o + 5) with (o + 4 + 1) by lia. apply skip_name_root; done || lia.
  - rewrite H6, H8. done.
  - rewrite H10. by destruct (wants_opt q).
Qed.
End build.
