(* ===== verification/DnsJsonProps.v ===== *)
(** * Properties of the JSON view

    The theorems about [DnsJson], with their witnesses. *)

From S2P Require Import Prelude Bytes Wire Text Net Dns DnsFacts DnsProps Msg DnsJson.
From S2P Require Import DnsJsonFacts.

Section properties.
Context `{BO : ByteOrder} (enc64 : bytes -> bytes).

(** No packet makes the JSON decoder panic: it returns, or it runs for
    ever in [parse_name]; and the model's fuel is exact, so that a name on
    which it runs out has a cycle of pointers, from which the program's loop
    never returns. *)
Theorem json_decoder_safe (p : bytes) (o : Z) :
  0 <= o ->
  parse_dns_to_json enc64 p <> Panic /\
  (parse_name p o = Diverge <->
   forall fuel, parse_name_loop fuel p o [] false 0 = Diverge).
Proof.
  intros Ho. split; [eapply safe_not_panic, parse_dns_to_json_safe|].
  split; [by apply parse_name_forever|]. intros H. apply H.
Qed.

(** The client subnet of a request: the first three octets of an IPv4
    address, for a prefix of 24 bits; nothing for any other text. *)
Definition subnet_bytes (q : DnsJsonQuery) : bytes :=
  match query_edns_client_subnet q ≫= parse_ipv4 with
  | Some [a; b; c; _] => [x00; x08; x00; x07; x00; x01; x18; x00; a; b; c]
  | _ => []
  end.

(** Its OPT record, which is there with the DO bit or a client subnet. *)
Definition opt_bytes (q : DnsJsonQuery) : bytes :=
  if bool_decide (query_do_ q = Some true \/ is_Some (query_edns_client_subnet q)) then
    [x00; x00; x29; x10; x00; x00; x00] ++
    [if bool_decide (query_do_ q = Some true) then x80 else x00; x00] ++
    be16 (len (subnet_bytes q)) ++ subnet_bytes q
  else [].

Lemma subnet_option_bytes q : subnet_option (query_edns_client_subnet q) = Ok (subnet_bytes q).
Proof.
  unfold subnet_option, subnet_bytes. destruct (query_edns_client_subnet q) as [s|]; [|done]. cbn [mbind option_bind].
  destruct (parse_ipv4 s) as [v|] eqn:Hp; [|done].
  unfold parse_ipv4, read_ipv4_addr in Hp. destruct (read_octets 4 0 s) as [[v' [|]]|] eqn:Hr; [|done..].
  injection Hp as ->. apply read_octets_length in Hr.
  destruct v as [|a [|b [|c [|d [|]]]]]; try done.
Qed.

Lemma query_opt_bytes q d :
  d = subnet_bytes q -> (if wants_opt q then query_opt (default false (query_do_ q)) d else []) = opt_bytes q.
Proof.
  intros ->. unfold wants_opt, opt_bytes, query_opt.
  destruct (query_do_ q) as [[]|], (query_edns_client_subnet q) as [s|]; cbn [default orb];
    repeat first [rewrite (bool_decide_true (is_Some _)) by (by eexists)
                 |rewrite (bool_decide_false (is_Some _)) by (by intros [? ?])
                 |rewrite (bool_decide_true (_ \/ _)) by naive_solver
                 |rewrite (bool_decide_false (_ \/ _)) by (intros [?|[? ?]]; done)]; reflexivity.
Qed.

(** C31: a JSON request whose name has labels of 1 to 63 octets that are
    UTF-8 is always built into a packet, which is the header, with recursion
    desired and the CD flag of the request, the question and, with the DO bit
    or a client subnet, an OPT record with both.  Decoding that packet gives
    back the name (without empty labels), the type and the flags of the
    request; and when the name has at most 255 octets the packet is a
    message, so the walkers of [Dns] accept it. *)
Theorem build_parse_query (r0 r1 : byte) (q : DnsJsonQuery) :
  good_query q ->
  exists p, build_dns_query r0 r1 q = Ok p /\
    p = [r0; r1; x01; if bool_decide (query_cd q = Some true) then x10 else x00;
         x00; x01; x00; x00; x00; x00; x00; if bool_decide (opt_bytes q = []) then x00 else x01] ++
        enc_labels (name_labels (query_name q)) ++ [x00] ++
        be16 (default 1 (query_type q)) ++ [x00; x01] ++ opt_bytes q /\
    parse_dns_to_json enc64 p = Ok (query_json q) /\
    (labels_len (name_labels (query_name q)) <= 255 -> exists hs, message p [] hs (len p)).
Proof.
  intros Hq. destruct (build_dns_query_eq r0 r1 q) as (d & Hd & Hl & Hb).
  rewrite subnet_option_bytes in Hd. injection Hd as Hd.
  exists (query_packet r0 r1 q d). split; [done|]. split; [|split; [by apply parse_query_packet|]].
  - pose proof (query_opt_bytes q d (eq_sym Hd)) as Hopt.
    assert ((if bool_decide (opt_bytes q = []) then x00 else x01) = if wants_opt q then x01 else x00) as ->.
    { rewrite <- Hopt. by destruct (wants_opt q). }
    assert ((if bool_decide (query_cd q = Some true) then x10 else x00) =
      if default false (query_cd q) then x10 else x00) as -> by by destruct (query_cd q) as [[]|].
    unfold query_packet, query_tail. by rewrite Hopt.
  - intros. by apply query_packet_message.
Qed.
End properties.

(** ** Witnesses and examples *)
Lemma json_decoder_safe_witness :
  0 <= 12 /\ parse_dns_to_json (fun b => b) sample_response <> Panic.
Proof.
  assert (0 <= 12) as H by lia. split; [exact H|].
  exact (proj1 (json_decoder_safe (fun b => b) sample_response 12 H)).
Defined.

Definition sample_query : DnsJsonQuery :=
  {| query_name := ascii_bytes "www.example.com."; query_type := Some 28; query_cd := Some true;
     query_ct := None; query_do_ := Some true;
     query_edns_client_subnet := Some (ascii_bytes "192.0.2.1") |}.

Lemma sample_query_good : good_query sample_query.
Proof.
  split; [|repeat constructor|cbn; lia].
  repeat (constructor; [by vm_compute|]). constructor.
Qed.

Lemma build_parse_query_witness :
  good_query sample_query /\
  exists p, build_dns_query x12 x34 sample_query = Ok p /\
    parse_dns_to_json (fun b => b) p = Ok (query_json sample_query).
Proof.
  split; [exact sample_query_good|].
  destruct (build_parse_query (fun b => b) x12 x34 sample_query sample_query_good)
    as (p & H1 & _ & H2 & _).
  exists p. split; [exact H1|exact H2].
Defined.

(** A response whose CNAME record's data is a pointer to itself. *)
Definition sample_cycle : bytes :=
  sample_header 1 0 0 ++ sample_question ++
  [xc0; x0c; x00; x05; x00; x01] ++ be32 300 ++ [x00; x02; xc0; x1f].

(** The validation of upstream responses does not follow the names in
    record data, so a response whose CNAME points at itself is accepted,
    gets a TTL, and sends the JSON decoder into an endless loop. *)
Theorem json_decoder_hangs (enc64 : bytes -> bytes) :
  validate_packet sample_cycle = Ok true /\
  min_ttl sample_cycle 10 604800 5 = Ok 300 /\
  parse_dns_to_json enc64 sample_cycle = Diverge /\
  forall fuel, parse_name_loop fuel sample_cycle 31 [] false 0 = Diverge.
Proof.
  split; [by vm_compute|]. split; [by vm_compute|]. split; [by vm_compute|].
  apply parse_name_forever; [lia|by vm_compute].
Qed.
