(* ===== verification/FastestIpCache.v ===== *)
(** * The fastest-address cache: src/libdoh/src/globals.rs

    [FastestIpCache] is a least-recently-used cache: a hash map whose nodes
    carry the keys of their neighbours in a doubly linked list, with the
    most recently used entry at the head.  Each method is a function on the
    record; the eviction loop removes one entry per turn, so one turn more
    than the number of entries is enough fuel. *)

From S2P Require Import Prelude Bytes Net.

Module FastestIpCache.

Inductive FastIpCacheStatus := Success | Failure.

#[global] Instance FastIpCacheStatus_eq_dec : EqDecision FastIpCacheStatus.
Proof. solve_decision. Defined.

Record FastIpCacheEntry := {
  status : FastIpCacheStatus;
  latency_ms : Z;
  expire_at_ms : Z
}.

Definition FASTEST_IP_CACHE_MAX_SIZE : Z := 64 * 1024.

Record FastIpCacheNode := {
  entry : FastIpCacheEntry;
  prev : option IpAddr;
  next : option IpAddr
}.

Record t := {
  max_size : Z;
  head : option IpAddr;
  tail : option IpAddr;
  entries : gmap IpAddr FastIpCacheNode
}.

(** Field updates. *)
Definition set_head (h : option IpAddr) (self : t) : t :=
  {| max_size := max_size self; head := h; tail := tail self; entries := entries self |}.
Definition set_tail (x : option IpAddr) (self : t) : t :=
  {| max_size := max_size self; head := head self; tail := x; entries := entries self |}.
Definition set_entries (m : gmap IpAddr FastIpCacheNode) (self : t) : t :=
  {| max_size := max_size self; head := head self; tail := tail self; entries := m |}.
Definition set_entry (e : FastIpCacheEntry) (n : FastIpCacheNode) : FastIpCacheNode :=
  {| entry := e; prev := prev n; next := next n |}.
Definition set_prev (p : option IpAddr) (n : FastIpCacheNode) : FastIpCacheNode :=
  {| entry := entry n; prev := p; next := next n |}.
Definition set_next (x : option IpAddr) (n : FastIpCacheNode) : FastIpCacheNode :=
  {| entry := entry n; prev := prev n; next := x |}.

(** [if let Some(node) = self.entries.get_mut(&key) { node = f(node) }] *)
Definition get_mut (f : FastIpCacheNode -> FastIpCacheNode) (key : IpAddr) (self : t) : t :=
  set_entries (alter f key (entries self)) self.

Definition with_max_size (max_size : Z) : t :=
  {| max_size := Z.max max_size 1; head := None; tail := None; entries := ∅ |}.

Definition detach (key : IpAddr) (prev next : option IpAddr) (self : t) : t :=
  let self :=
    match prev with
    | Some p => get_mut (set_next next) p self
    | None => set_head next self
    end in
  let self :=
    match next with
    | Some n => get_mut (set_prev prev) n self
    | None => set_tail prev self
    end in
  get_mut (fun current => set_next None (set_prev None current)) key self.

Definition remove (key : IpAddr) (self : t) : option FastIpCacheEntry * t :=
  match entries self !! key with
  | None => (None, self)
  | Some node =>
      let self := detach key (prev node) (next node) self in
      (entry <$> entries self !! key, set_entries (delete key (entries self)) self)
  end.

Definition move_to_front (key : IpAddr) (self : t) : t :=
  if bool_decide (head self = Some key) then self
  else
    match entries self !! key with
    | None => self
    | Some node =>
        let self := detach key (prev node) (next node) self in
        let old_head := head self in
        let self := get_mut (fun current => set_next old_head (set_prev None current)) key self in
        let self :=
          match old_head with
          | Some h => get_mut (set_prev (Some key)) h self
          | None => set_tail (Some key) self
          end in
        set_head (Some key) self
    end.

Fixpoint evict_loop (fuel : nat) (self : t) : infallible t :=
  match fuel with
  | O => Diverge
  | S fuel =>
      if max_size self <? Z.of_nat (size (entries self)) then
        match tail self with
        | None => Ok self
        | Some tail => evict_loop fuel (snd (remove tail self))
        end
      else Ok self
  end.
Definition evict_if_needed (self : t) : infallible t :=
  evict_loop (S (size (entries self))) self.

Definition get (key : IpAddr) (now_ms : Z) (self : t) : option FastIpCacheEntry * t :=
  match entries self !! key with
  | None => (None, self)
  | Some node =>
      if expire_at_ms (entry node) <=? now_ms then (None, snd (remove key self))
      else (Some (entry node), move_to_front key self)
  end.

Definition upsert (key : IpAddr) (e : FastIpCacheEntry) (self : t) : infallible t :=
  match entries self !! key with
  | Some _ => Ok (move_to_front key (get_mut (set_entry e) key self))
  | None =>
      let old_head := head self in
      let self :=
        set_entries (<[key := {| entry := e; prev := None; next := old_head |}]> (entries self))
          self in
      let self :=
        match old_head with
        | Some h => get_mut (set_prev (Some key)) h self
        | None => set_tail (Some key) self
        end in
      evict_if_needed (set_head (Some key) self)
  end.

(** [FastestIpCache::default()] *)
Definition default_cache : t := with_max_size FASTEST_IP_CACHE_MAX_SIZE.

End FastestIpCache.
