(* ===== verification/FastestIpCacheFacts.v ===== *)
(** * The cache implements a most-recently-used list

    [repr c l]: the map and the links of [c] describe the list [l], most
    recently used first.  Every method of the cache computes the matching
    operation on lists, so the cache behaves as the list for any sequence of
    operations. *)

From S2P Require Import Prelude Bytes Net FastestIpCache.
Import FastestIpCache.

(** ** Lists of entries as doubly linked nodes *)
Abbreviation item := (IpAddr * FastIpCacheEntry)%type.

Definition first_key (l : list item) : option IpAddr := fst <$> list.head l.
Definition last_key (l : list item) : option IpAddr := fst <$> last l.

(** The first key of [l], or [n] when there is none; and the last. *)
Definition first_or (l : list item) (n : option IpAddr) : option IpAddr :=
  match l with [] => n | (k, _) :: _ => Some k end.
Definition last_or (p : option IpAddr) (l : list item) : option IpAddr :=
  match last l with None => p | Some (k, _) => Some k end.

(** The node of key [k] in a list between [p] and [n]. *)
Fixpoint node_at (p : option IpAddr) (l : list item) (n : option IpAddr) (k : IpAddr)
    : option FastIpCacheNode :=
  match l with
  | [] => None
  | (x, e) :: l =>
      if decide (x = k) then Some {| entry := e; prev := p; next := first_or l n |}
      else node_at (Some x) l n k
  end.

Record repr (c : t) (l : list item) : Prop := {
  repr_nodup : NoDup l.*1;
  repr_entries : forall k, entries c !! k = node_at None l None k;
  repr_head : head c = first_or l None;
  repr_tail : tail c = last_or None l
}.

Lemma node_at_None p l n k : node_at p l n k = None <-> k ∉ l.*1.
Proof.
  revert p; induction l as [|[x e] l IH]; intros p; cbn.
  - split; [|done]. intros _. apply not_elem_of_nil.
  - rewrite not_elem_of_cons. destruct (decide (x = k)) as [->|].
    + split; [done|]. by intros [].
    + rewrite IH. split; [done|]. by intros [].
Qed.

Lemma last_or_cons p x e l : last_or p ((x, e) :: l) = last_or (Some x) l.
Proof. unfold last_or. destruct l as [|y l]; [done|]. rewrite last_cons_cons.
  destruct (last (y :: l)) as [[z e']|] eqn:H; [done|].
  by apply last_None in H.
Qed.

Lemma node_at_app p l1 l2 n k :
  node_at p (l1 ++ l2) n k =
  match node_at p l1 (first_or l2 n) k with
  | Some nd => Some nd
  | None => node_at (last_or p l1) l2 n k
  end.
Proof.
  revert p; induction l1 as [|[x e] l1 IH]; intros p; [done|]. cbn [app node_at].
  destruct (decide (x = k)).
  - f_equal. f_equal. destruct l1 as [|[]]; done.
  - by rewrite IH, last_or_cons.
Qed.

(** Changing a list's right neighbour changes its last node only. *)
Lemma node_at_next p l n n' k :
  NoDup l.*1 ->
  node_at p l n' k = (if decide (last_or None l = Some k) then set_next n' else (fun x => x)) <$> node_at p l n k.
Proof.
  revert p; induction l as [|[x e] l IH]; intros p Hnd; [done|]. cbn in Hnd.
  apply NoDup_cons in Hnd as [Hx Hnd]. cbn [node_at]. rewrite last_or_cons.
  destruct (decide (x = k)) as [->|Hxk].
  - destruct l as [|[y e'] l]; cbn.
    + unfold last_or; cbn. by rewrite decide_True.
    + rewrite decide_False; [done|]. intros Hl. apply Hx.
      unfold last_or in Hl. destruct (last ((y, e') :: l)) as [[z ?]|] eqn:Hlast; [|by rewrite last_cons in Hlast; destruct (last l)].
      injection Hl as ->. apply last_Some in Hlast as [l' ->]. rewrite fmap_app. set_solver.
  - rewrite (IH (Some x) Hnd). destruct l as [|[y e'] l]; [done|].
    assert (last_or (Some x) ((y, e') :: l) = last_or None ((y, e') :: l)) as -> by by rewrite !last_or_cons.
    done.
Qed.

(** Changing its left neighbour changes its first node only. *)
Lemma node_at_prev p p' l n k :
  node_at p' l n k = (if decide (first_or l None = Some k) then set_prev p' else (fun x => x)) <$> node_at p l n k.
Proof.
  destruct l as [|[x e] l]; [done|]. cbn. destruct (decide (x = k)) as [->|Hxk].
  - by rewrite decide_True.
  - rewrite decide_False by congruence. by destruct (node_at (Some x) l n k).
Qed.

Lemma lookup_get_mut f k c x :
  entries (get_mut f k c) !! x = (if decide (k = x) then f else (fun n => n)) <$> entries c !! x.
Proof.
  unfold get_mut, set_entries; cbn [entries]. rewrite lookup_alter. destruct (decide (k = x)) as [->|]; [done|].
  by destruct (entries c !! x).
Qed.

Lemma first_or_Some l k : first_or l None = Some k -> k ∈ l.*1.
Proof. destruct l as [|[x e] l]; [done|]. intros [= ->]. by left. Qed.

Lemma last_or_Some l k : last_or None l = Some k -> k ∈ l.*1.
Proof.
  unfold last_or. destruct (last l) as [[x e]|] eqn:H; [|done]. intros [= ->].
  apply last_Some in H as [l' ->]. rewrite fmap_app. set_solver.
Qed.

Lemma node_at_Some p l n k nd : node_at p l n k = Some nd -> k ∈ l.*1.
Proof.
  intros H. destruct (decide (k ∈ l.*1)) as [|Hk]; [done|].
  apply (node_at_None p l n) in Hk. congruence.
Qed.

Lemma first_or_app l1 l2 n : first_or (l1 ++ l2) n = first_or l1 (first_or l2 n).
Proof. by destruct l1 as [|[]]. Qed.

Lemma last_or_app p l1 l2 : last_or p (l1 ++ l2) = last_or (last_or p l1) l2.
Proof. unfold last_or. rewrite last_app. by destruct (last l2) as [[]|]. Qed.

(** The node of a key in the middle. *)
Lemma node_at_middle p l1 k e l2 n :
  k ∉ l1.*1 ->
  node_at p (l1 ++ (k, e) :: l2) n k
  = Some {| entry := e; prev := last_or p l1; next := first_or l2 n |}.
Proof.
  intros Hk. rewrite node_at_app. apply (node_at_None p l1 (first_or ((k, e) :: l2) n)) in Hk.
  rewrite Hk. cbn. by rewrite decide_True.
Qed.

Lemma node_at_skip p l1 k e l2 n x :
  x <> k ->
  node_at p (l1 ++ (k, e) :: l2) n x =
  match node_at p l1 (Some k) x with
  | Some nd => Some nd
  | None => node_at (Some k) l2 n x
  end.
Proof. intros. rewrite node_at_app. cbn. by rewrite decide_False. Qed.

(** ** Unlinking a node *)

(** The node is cut out: the rest is linked as the list without it. *)
Record detached (c : t) (k : IpAddr) (e : FastIpCacheEntry) (l : list item) : Prop := {
  detached_nodup : NoDup l.*1;
  detached_fresh : k ∉ l.*1;
  detached_entries : forall x,
    entries c !! x =
      if decide (k = x) then Some {| entry := e; prev := None; next := None |}
      else node_at None l None x;
  detached_head : head c = first_or l None;
  detached_tail : tail c = last_or None l
}.

Lemma repr_middle c l1 k e l2 :
  repr c (l1 ++ (k, e) :: l2) ->
  NoDup (l1 ++ l2).*1 /\ k ∉ (l1 ++ l2).*1 /\
  (forall x, x ∈ l1.*1 -> x ∉ l2.*1) /\
  entries c !! k = Some {| entry := e; prev := last_or None l1; next := first_or l2 None |}.
Proof.
  intros [Hnd He _ _]. rewrite fmap_app in Hnd. cbn in Hnd.
  apply NoDup_app in Hnd as (H1 & H12 & H2). apply NoDup_cons in H2 as [Hk H2].
  assert (k ∉ l1.*1) as Hk1. { intros Hin. apply (H12 k Hin). by left. }
  split_and!.
  - rewrite fmap_app. apply NoDup_app. split_and!; [done| |done]. set_solver.
  - rewrite fmap_app. set_solver.
  - set_solver.
  - rewrite He. by apply node_at_middle.
Qed.

Lemma lookup_detach k p n c x :
  entries (detach k p n c) !! x =
  (if decide (k = x) then fun nd => set_next None (set_prev None nd) else (fun nd => nd)) <$>
  ((if decide (n = Some x) then set_prev p else (fun nd => nd)) <$>
   ((if decide (p = Some x) then set_next n else (fun nd => nd)) <$> entries c !! x)).
Proof.
  assert (forall (o : option FastIpCacheNode), (fun nd => nd) <$> o = o) as Hid by by intros [].
  unfold detach. rewrite lookup_get_mut. f_equal.
  assert (forall c', entries match n with
            | Some n => get_mut (set_prev p) n c'
            | None => set_tail p c' end !! x =
          (if decide (n = Some x) then set_prev p else (fun nd => nd)) <$> entries c' !! x) as ->.
  { intros c'. destruct n as [n|]; [|by rewrite decide_False].
    rewrite lookup_get_mut. by destruct (decide (n = x)), (decide (Some n = Some x)); try congruence. }
  f_equal. destruct p as [p|]; [|by rewrite decide_False].
  rewrite lookup_get_mut. by destruct (decide (p = x)), (decide (Some p = Some x)); try congruence.
Qed.

Lemma detach_head k p n c :
  head (detach k p n c) = match p with Some _ => head c | None => n end.
Proof. by destruct p, n. Qed.

Lemma detach_tail k p n c :
  tail (detach k p n c) = match n with Some _ => tail c | None => p end.
Proof. by destruct p, n. Qed.

Lemma detach_max_size k p n c : max_size (detach k p n c) = max_size c.
Proof. by destruct p, n. Qed.

Lemma detach_detached c l1 k e l2 :
  repr c (l1 ++ (k, e) :: l2) ->
  detached (detach k (last_or None l1) (first_or l2 None) c) k e (l1 ++ l2).
Proof.
  intros Hr. destruct (repr_middle _ _ _ _ _ Hr) as (Hnd & Hk & H12 & Hek).
  destruct Hr as [_ He Hh Ht]. rewrite fmap_app in Hk.
  split; [done|by rewrite fmap_app| | |].
  - intros x. rewrite lookup_detach. destruct (decide (k = x)) as [<-|Hkx].
    { rewrite Hek. by repeat case_decide. }
    rewrite He, node_at_skip by done. rewrite node_at_app.
    rewrite fmap_app in Hnd. apply NoDup_app in Hnd as (H1 & _ & H2).
    rewrite (node_at_next None l1 (Some k) (first_or l2 None) x H1).
    rewrite (node_at_prev (Some k) (last_or None l1) l2 None x).
    destruct (node_at None l1 (Some k) x) as [nd|] eqn:H; cbn.
    + apply node_at_Some in H. rewrite decide_False; [done|].
      intros Hf. apply first_or_Some in Hf. by apply (H12 x).
    + destruct (node_at (Some k) l2 None x) as [nd|] eqn:H'; cbn; [|done].
      apply node_at_Some in H'. rewrite (decide_False (P := last_or None l1 = Some x)); [done|].
      intros Hf. apply last_or_Some in Hf. by apply (H12 x).
  - rewrite detach_head, Hh, !first_or_app. cbn. unfold last_or.
    destruct l1 as [|[x ex] l1]; [done|]. by destruct (last ((x, ex) :: l1)) as [[]|] eqn:H; [|apply last_None in H].
  - rewrite detach_tail, Ht, !last_or_app. rewrite last_or_cons. unfold last_or.
    destruct l2 as [|[x ex] l2]; [done|]. cbn.
    by destruct (last ((x, ex) :: l2)) as [[]|] eqn:H; [|apply last_None in H].
Qed.

(** ** The methods, on lists *)

(** The entry of a key, and the entries but the one of a key. *)
Fixpoint lookup_key (k : IpAddr) (l : list item) : option FastIpCacheEntry :=
  match l with
  | [] => None
  | (x, e) :: l => if decide (x = k) then Some e else lookup_key k l
  end.
Definition drop_key (k : IpAddr) (l : list item) : list item := base.filter (fun i => i.1 <> k) l.

Lemma lookup_key_node p l n k : entry <$> node_at p l n k = lookup_key k l.
Proof.
  revert p. induction l as [|[x e] l IH]; intros p; [done|]. cbn.
  by destruct (decide (x = k)).
Qed.

Lemma lookup_key_Some k l e : lookup_key k l = Some e -> exists l1 l2, l = l1 ++ (k, e) :: l2.
Proof.
  induction l as [|[x e'] l IH]; [done|]. cbn. destruct (decide (x = k)) as [->|].
  - intros [= ->]. by exists [], l.
  - intros H. destruct (IH H) as (l1 & l2 & ->). by exists ((x, e') :: l1), l2.
Qed.

Lemma lookup_key_None k l : lookup_key k l = None <-> k ∉ l.*1.
Proof. by rewrite <- (lookup_key_node None l None), fmap_None, node_at_None. Qed.

Lemma repr_lookup c l k : repr c l -> entry <$> entries c !! k = lookup_key k l.
Proof. intros [_ He _ _]. by rewrite He, lookup_key_node. Qed.

Lemma drop_key_fresh k l : k ∉ l.*1 -> drop_key k l = l.
Proof.
  induction l as [|[x e] l IH]; [done|]. rewrite fmap_cons, not_elem_of_cons. intros [Hx Hl].
  unfold drop_key. rewrite filter_cons_True by (cbn in *; congruence). f_equal. by apply IH.
Qed.

Lemma drop_key_middle k l1 e l2 :
  k ∉ (l1 ++ l2).*1 -> drop_key k (l1 ++ (k, e) :: l2) = l1 ++ l2.
Proof.
  rewrite fmap_app. intros Hk. unfold drop_key. rewrite filter_app, filter_cons_False by (cbn; tauto).
  f_equal; apply drop_key_fresh; set_solver.
Qed.

(** [remove] deletes the key and returns its entry. *)
Lemma remove_repr c l k :
  repr c l ->
  fst (remove k c) = lookup_key k l /\ repr (snd (remove k c)) (drop_key k l) /\
  max_size (snd (remove k c)) = max_size c.
Proof.
  intros Hr. pose proof (repr_lookup c l k Hr) as Hl. unfold remove.
  destruct (entries c !! k) as [nd|] eqn:Hk; cbn in Hl.
  - symmetry in Hl. destruct (lookup_key_Some _ _ _ Hl) as (l1 & l2 & ->). rewrite Hl.
    destruct (repr_middle _ _ _ _ _ Hr) as (Hnd & Hkl & _ & Hk'). rewrite Hk' in Hk.
    injection Hk as <-. cbn [prev next entry].
    pose proof (detach_detached _ _ _ _ _ Hr) as [Hd Hf He Hh Ht].
    rewrite drop_key_middle by done. cbn [fst snd]. split_and!.
    + by rewrite He, decide_True.
    + split; [done| |done|done]. intros x. cbn. rewrite lookup_delete, He.
      case_decide; [|done]. subst x. symmetry. by apply node_at_None.
    + apply detach_max_size.
  - cbn. symmetry in Hl. split_and!; [done| |done].
    rewrite drop_key_fresh; [done|]. by apply lookup_key_None.
Qed.

(** Linking a node in front of the list. *)
Lemma link_front c k e l :
  NoDup l.*1 -> k ∉ l.*1 ->
  (forall x, entries c !! x =
      if decide (k = x) then Some {| entry := e; prev := None; next := head c |}
      else node_at None l None x) ->
  head c = first_or l None -> tail c = last_or None l ->
  repr (set_head (Some k)
          match head c with
          | Some h => get_mut (set_prev (Some k)) h c
          | None => set_tail (Some k) c
          end) ((k, e) :: l).
Proof.
  intros Hnd Hk He Hh Ht. split.
  - cbn. by apply NoDup_cons.
  - intros x. cbn [entries set_head node_at].
    assert (entries match head c with
            | Some h => get_mut (set_prev (Some k)) h c
            | None => set_tail (Some k) c end !! x =
          (if decide (head c = Some x) then set_prev (Some k) else (fun nd => nd)) <$> entries c !! x) as ->.
    { destruct (head c) as [h|] eqn:Hhd.
      - rewrite lookup_get_mut. by destruct (decide (h = x)), (decide (Some h = Some x)); try congruence.
      - rewrite decide_False by done. cbn. by destruct (entries c !! x). }
    rewrite He. destruct (decide (k = x)) as [->|].
    + rewrite decide_False; [by rewrite Hh|]. rewrite Hh. intros Hx. by apply first_or_Some in Hx.
    + by rewrite (node_at_prev None (Some k)), Hh.
  - done.
  - destruct l as [|[y ey] l]; cbn in Hh; rewrite Hh; cbn; [done|].
    by rewrite Ht, !last_or_cons.
Qed.

(** [move_to_front] does what it says. *)
Lemma move_to_front_repr c l k e :
  repr c l -> lookup_key k l = Some e ->
  repr (move_to_front k c) ((k, e) :: drop_key k l) /\ max_size (move_to_front k c) = max_size c.
Proof.
  intros Hr Hl. destruct (lookup_key_Some _ _ _ Hl) as (l1 & l2 & ->). unfold move_to_front.
  destruct (repr_middle _ _ _ _ _ Hr) as (Hnd & Hkl & _ & Hk). rewrite drop_key_middle by done.
  case_bool_decide as Hhd.
  - split; [|done]. destruct l1 as [|[x ex] l1]; [done|].
    rewrite (repr_head _ _ Hr) in Hhd. injection Hhd as ->. exfalso. apply Hkl. by left.
  - rewrite Hk. cbn [prev next].
    pose proof (detach_detached _ _ _ _ _ Hr) as [Hd Hf He Hh Ht].
    set (d := detach k _ _ c) in *. split.
    + apply (link_front (get_mut (fun current => set_next (head d) (set_prev None current)) k d));
        [done|done| |done|done].
      intros x. rewrite lookup_get_mut, He. case_decide; [done|]. cbn.
      by destruct (node_at None (l1 ++ l2) None x).
    + cbn [set_head max_size]. transitivity (max_size d); [|apply detach_max_size].
      by destruct (head d).
Qed.

Lemma set_entry_repr c l1 k e e' l2 :
  repr c (l1 ++ (k, e) :: l2) -> repr (get_mut (set_entry e') k c) (l1 ++ (k, e') :: l2).
Proof.
  intros Hr. destruct (repr_middle _ _ _ _ _ Hr) as (Hnd & Hkl & _ & Hk).
  rewrite fmap_app in Hkl. destruct Hr as [H1 He Hh Ht]. split.
  - by rewrite fmap_app in *.
  - intros x. rewrite lookup_get_mut, He. destruct (decide (k = x)) as [<-|].
    + rewrite !node_at_middle by set_solver. done.
    + rewrite !node_at_skip by done. destruct (node_at None l1 (Some k) x); [done|].
      by destruct (node_at (Some k) l2 None x).
  - cbn. rewrite Hh, !first_or_app. done.
  - cbn. rewrite Ht, !last_or_app, !last_or_cons. done.
Qed.

(** The links never lose or invent a node. *)
Lemma repr_size c l : repr c l -> size (entries c) = length l.
Proof.
  intros [Hnd He _ _]. rewrite <- size_dom.
  assert (dom (entries c) = list_to_set (C := gset IpAddr) l.*1) as ->.
  { apply set_eq. intros k. rewrite elem_of_dom, elem_of_list_to_set, <- not_eq_None_Some, He.
    rewrite node_at_None. destruct (decide (k ∈ l.*1)); tauto. }
  rewrite size_list_to_set by done. apply length_fmap.
Qed.

Lemma with_max_size_repr n : repr (with_max_size n) [].
Proof. split; try done. apply NoDup_nil_2. Qed.

(** Eviction keeps the [max_size] most recently used entries. *)
Lemma evict_loop_repr fuel c l :
  repr c l -> 0 <= max_size c -> (length l < fuel)%nat ->
  exists c', evict_loop fuel c = Ok c' /\ repr c' (take (Z.to_nat (max_size c)) l) /\
    max_size c' = max_size c.
Proof.
  revert c l. induction fuel as [|fuel IH]; intros c l Hr Hm Hf; [lia|].
  cbn [evict_loop]. rewrite (repr_size c l Hr). destruct (Z.ltb_spec (max_size c) (Z.of_nat (length l))).
  - rewrite (repr_tail c l Hr). destruct (exists_last (l := l)) as (l' & [k e] & ->).
    { intros ->. cbn in *. lia. }
    unfold last_or. rewrite last_snoc. rewrite length_app in *. cbn in *.
    destruct (remove_repr c (l' ++ [(k, e)]) k Hr) as (_ & Hr' & Hm').
    destruct (repr_middle _ _ _ _ _ Hr) as (_ & Hk & _).
    rewrite drop_key_middle in Hr' by done. rewrite app_nil_r in Hr'.
    destruct (IH _ _ Hr') as (c' & -> & Hc' & Hmc'); [lia|lia|].
    exists c'. rewrite Hm' in *. rewrite take_app_le by lia. done.
  - exists c. by rewrite take_ge by lia.
Qed.

(** ** The reference machine *)

Definition lru_get (k : IpAddr) (now_ms : Z) (l : list item) : option FastIpCacheEntry * list item :=
  match lookup_key k l with
  | None => (None, l)
  | Some e =>
      if expire_at_ms e <=? now_ms then (None, drop_key k l) else (Some e, (k, e) :: drop_key k l)
  end.
Definition lru_upsert (m : Z) (k : IpAddr) (e : FastIpCacheEntry) (l : list item) : list item :=
  take (Z.to_nat m) ((k, e) :: drop_key k l).

Lemma get_repr c l k now :
  repr c l ->
  fst (get k now c) = fst (lru_get k now l) /\ repr (snd (get k now c)) (snd (lru_get k now l)) /\
  max_size (snd (get k now c)) = max_size c.
Proof.
  intros Hr. pose proof (repr_lookup c l k Hr) as Hl. unfold get, lru_get.
  destruct (entries c !! k) as [nd|]; cbn in Hl; rewrite <- Hl; [|done].
  destruct (remove_repr c l k Hr) as (_ & ? & ?).
  destruct (move_to_front_repr c l k (entry nd) Hr (eq_sym Hl)) as (? & ?).
  by case_match.
Qed.

Lemma length_drop_key k l : (length (drop_key k l) <= length l)%nat.
Proof. apply length_filter. Qed.

Lemma drop_key_found k l e :
  NoDup l.*1 -> lookup_key k l = Some e -> length l = S (length (drop_key k l)).
Proof.
  intros Hnd Hl. destruct (lookup_key_Some _ _ _ Hl) as (l1 & l2 & ->).
  rewrite fmap_app in Hnd. cbn in Hnd. apply NoDup_app in Hnd as (_ & H12 & H2).
  apply NoDup_cons in H2 as [H2 _]. rewrite drop_key_middle.
  - rewrite !length_app. cbn. lia.
  - rewrite fmap_app. set_solver.
Qed.

Lemma upsert_repr c l k e :
  repr c l -> 1 <= max_size c -> len l <= max_size c ->
  exists c', upsert k e c = Ok c' /\ repr c' (lru_upsert (max_size c) k e l) /\
    max_size c' = max_size c.
Proof.
  intros Hr Hm Hlen. pose proof (repr_lookup c l k Hr) as Hl. unfold upsert, lru_upsert.
  destruct (entries c !! k) as [nd|] eqn:Hk; cbn in Hl; symmetry in Hl.
  - pose proof (drop_key_found _ _ _ (repr_nodup _ _ Hr) Hl) as Hsz.
    destruct (lookup_key_Some _ _ _ Hl) as (l1 & l2 & ->).
    destruct (repr_middle _ _ _ _ _ Hr) as (_ & Hkl & _).
    pose proof (set_entry_repr c l1 k _ e l2 Hr) as Hr'.
    destruct (move_to_front_repr _ _ k e Hr') as (Hr'' & Hm').
    { rewrite <- (lookup_key_node None _ None). rewrite node_at_middle; [done|].
      rewrite fmap_app in Hkl. set_solver. }
    eexists. split; [done|]. rewrite Hm'. split; [|done].
    rewrite drop_key_middle in * by done. unfold len in *.
    rewrite take_ge by (cbn [length] in *; lia). done.
  - apply lookup_key_None in Hl. rewrite drop_key_fresh by done.
    set (c1 := set_entries _ c).
    assert (repr (set_head (Some k) match head c with
        | Some h => get_mut (set_prev (Some k)) h c1
        | None => set_tail (Some k) c1 end) ((k, e) :: l)) as Hr'.
    { apply (link_front c1); [apply Hr|done| |apply Hr|apply Hr].
      intros x. cbn. rewrite lookup_insert. case_decide; [done|apply Hr]. }
    assert (max_size (set_head (Some k) match head c with
        | Some h => get_mut (set_prev (Some k)) h c1
        | None => set_tail (Some k) c1 end) = max_size c) as Hmm by by destruct (head c).
    unfold evict_if_needed. rewrite <- Hmm. apply evict_loop_repr; [done|lia|].
    rewrite (repr_size _ _ Hr'). lia.
Qed.
