(* ===== verification/FastestIpCacheProps.v ===== *)
(** * Properties of the fastest-address cache

    Sequences of calls on the cache, run on the hash map with its links and
    on the reference list. *)

From S2P Require Import Prelude Bytes Net FastestIpCache FastestIpCacheFacts.
Import FastestIpCache.

(** One call of a method. *)
Inductive call :=
  | Get (key : IpAddr) (now_ms : Z)
  | Upsert (key : IpAddr) (e : FastIpCacheEntry)
  | Remove (key : IpAddr).

(** The value the call returns and the cache it leaves. *)
Definition run_call (o : call) (c : t) : infallible (option FastIpCacheEntry * t) :=
  match o with
  | Get key now_ms => Ok (get key now_ms c)
  | Upsert key e => c' ← upsert key e c; Ok (None, c')
  | Remove key => Ok (remove key c)
  end.

Fixpoint run_calls (os : list call) (c : t) : infallible (list (option FastIpCacheEntry) * t) :=
  match os with
  | [] => Ok ([], c)
  | o :: os =>
      r ← run_call o c;
      rs ← run_calls os (snd r);
      Ok (fst r :: fst rs, snd rs)
  end.

(** The same on a list of at most [m] entries, most recently used first. *)
Definition lru_call (m : Z) (o : call) (l : list item) : option FastIpCacheEntry * list item :=
  match o with
  | Get key now_ms => lru_get key now_ms l
  | Upsert key e => (None, lru_upsert m key e l)
  | Remove key => (lookup_key key l, drop_key key l)
  end.

Fixpoint lru_calls (m : Z) (os : list call) (l : list item)
    : list (option FastIpCacheEntry) * list item :=
  match os with
  | [] => ([], l)
  | o :: os =>
      let r := lru_call m o l in
      let rs := lru_calls m os (snd r) in
      (fst r :: fst rs, snd rs)
  end.

Lemma lru_call_len m o l :
  1 <= m -> NoDup l.*1 -> len l <= m -> len (snd (lru_call m o l)) <= m.
Proof.
  unfold len. intros Hm Hnd Hl. destruct o as [k now|k e|k]; cbn.
  - unfold lru_get. destruct (lookup_key k l) as [e|] eqn:Hk; [|done].
    pose proof (drop_key_found k l e Hnd Hk).
    case_match; cbn [snd length]; lia.
  - unfold lru_upsert. rewrite length_take. lia.
  - pose proof (length_drop_key k l). lia.
Qed.

Lemma run_call_repr o c l :
  repr c l -> 1 <= max_size c -> len l <= max_size c ->
  exists c', run_call o c = Ok (fst (lru_call (max_size c) o l), c') /\
    repr c' (snd (lru_call (max_size c) o l)) /\ max_size c' = max_size c.
Proof.
  intros Hr Hm Hl. destruct o as [k now|k e|k]; cbn.
  - destruct (get_repr c l k now Hr) as (Hv & Hr' & Hm'). eexists. split; [|done].
    by rewrite <- Hv, <- surjective_pairing.
  - destruct (upsert_repr c l k e Hr Hm Hl) as (c' & -> & Hr' & Hm'). by exists c'.
  - destruct (remove_repr c l k Hr) as (Hv & Hr' & Hm'). eexists. split; [|done].
    by rewrite <- Hv, <- surjective_pairing.
Qed.

Lemma run_calls_repr os c l :
  repr c l -> 1 <= max_size c -> len l <= max_size c ->
  exists c', run_calls os c = Ok (fst (lru_calls (max_size c) os l), c') /\
    repr c' (snd (lru_calls (max_size c) os l)) /\
    max_size c' = max_size c /\ len (snd (lru_calls (max_size c) os l)) <= max_size c.
Proof.
  revert c l. induction os as [|o os IH]; intros c l Hr Hm Hl; [by exists c|].
  cbn [run_calls lru_calls].
  destruct (run_call_repr o c l Hr Hm Hl) as (c1 & -> & Hr1 & Hm1).
  pose proof (lru_call_len _ o l Hm (repr_nodup _ _ Hr) Hl).
  destruct (IH c1 _ Hr1) as (c2 & Heq & Hr2 & Hm2 & Hl2); [lia|lia|].
  rewrite Hm1 in *. exists c2. cbn [mbind outcome_bind snd fst]. by rewrite Heq.
Qed.

(** C7: the hash map with its doubly linked nodes implements a bounded list
    in order of use.  Whatever calls are made on a new cache, the eviction
    loop ends, the values returned are those of the list, and afterwards the
    nodes are linked in the order of the list, without duplicates: [get]
    drops an expired entry and moves a live one to the front, [upsert] puts
    its entry in front and evicts the least recently used entry beyond
    the bound. *)
Theorem cache_refines_lru (n : Z) (os : list call) :
  exists c,
    run_calls os (with_max_size n) = Ok (fst (lru_calls (Z.max n 1) os []), c) /\
    repr c (snd (lru_calls (Z.max n 1) os [])) /\
    Z.of_nat (size (entries c)) <= Z.max n 1.
Proof.
  destruct (run_calls_repr os (with_max_size n) []) as (c & H & Hr & _ & Hl).
  - apply with_max_size_repr.
  - cbn [with_max_size max_size]. lia.
  - cbn [with_max_size max_size]. rewrite len_nil. lia.
  - exists c. split_and!; [done|done|]. by rewrite (repr_size _ _ Hr).
Qed.

(** The entry of the last [upsert] of a key that no [remove] followed. *)
Fixpoint last_upsert (key : IpAddr) (os : list call) : option FastIpCacheEntry :=
  match os with
  | [] => None
  | o :: os =>
      match last_upsert key os, o with
      | Some e, _ => Some e
      | None, Upsert k e => if decide (k = key) then Some e else None
      | None, _ => None
      end
  end.

Lemma last_upsert_snoc key os o :
  last_upsert key (os ++ [o]) =
  match o with
  | Upsert k e => if decide (k = key) then Some e else last_upsert key os
  | _ => last_upsert key os
  end.
Proof.
  induction os as [|o' os IH]; cbn; [by destruct o|]. rewrite IH.
  destruct o as [| |]; try done. by case_decide.
Qed.

Lemma lookup_drop_key k k' l :
  lookup_key k (drop_key k' l) = if decide (k' = k) then None else lookup_key k l.
Proof.
  unfold drop_key. induction l as [|[x e] l IH]; cbn [lookup_key]; [by case_decide|].
  destruct (decide (x = k')) as [->|].
  - rewrite filter_cons_False by (cbn; tauto). rewrite IH. by case_decide.
  - rewrite filter_cons_True by done. cbn. rewrite IH. by repeat case_decide; subst.
Qed.

Lemma lookup_take k n l e : lookup_key k (take n l) = Some e -> lookup_key k l = Some e.
Proof.
  revert n. induction l as [|[x e'] l IH]; intros [|n]; cbn; [done..|].
  case_decide; [done|]. apply IH.
Qed.

Lemma lru_calls_snoc m os o l :
  lru_calls m (os ++ [o]) l =
  (fst (lru_calls m os l) ++ [fst (lru_call m o (snd (lru_calls m os l)))],
   snd (lru_call m o (snd (lru_calls m os l)))).
Proof. revert l. induction os as [|o' os IH]; intros l; [done|]. cbn. by rewrite IH. Qed.

(** What the list holds was put there by the last [upsert] of its key. *)
Lemma lru_last_upsert m os k e :
  lookup_key k (snd (lru_calls m os [])) = Some e -> last_upsert k os = Some e.
Proof.
  revert k e. induction os as [|o os IH] using rev_ind; intros k e; [done|].
  rewrite lru_calls_snoc, last_upsert_snoc. cbn [snd].
  set (l := snd (lru_calls m os [])) in *. destruct o as [k' now|k' e'|k']; cbn [lru_call].
  - unfold lru_get. destruct (lookup_key k' l) as [e'|] eqn:Hk'; [|apply IH].
    case_match; cbn; rewrite lookup_drop_key; repeat case_decide; subst; try done; try apply IH.
    intros [= ->]. by apply IH.
  - unfold lru_upsert. cbn [snd]. intros Hl. apply lookup_take in Hl. cbn in Hl.
    case_decide; [done|]. rewrite lookup_drop_key in Hl. case_decide; [done|]. by apply IH.
  - cbn. rewrite lookup_drop_key. case_decide; [done|]. apply IH.
Qed.

(** After any calls, a [get] answers only with an entry that has not
    expired at the given time and that is the last one stored for that very
    address; and the entry stored last is returned until it expires,
    because the entry just stored is never the one evicted. *)
Theorem cache_get_fresh (n : Z) (os : list call) (key : IpAddr) (now_ms : Z)
    (e : FastIpCacheEntry) :
  match run_calls os (with_max_size n) with
  | Ok (_, c) =>
      match fst (get key now_ms c) with
      | Some e' => now_ms < expire_at_ms e' /\ last_upsert key os = Some e'
      | None => True
      end /\
      match upsert key e c with
      | Ok c' => fst (get key now_ms c') = if expire_at_ms e <=? now_ms then None else Some e
      | _ => False
      end
  | _ => False
  end.
Proof.
  destruct (run_calls_repr os (with_max_size n) []) as (c & -> & Hr & Hm & Hl).
  { apply with_max_size_repr. }
  { cbn [with_max_size max_size]. lia. }
  { cbn [with_max_size max_size]. rewrite len_nil. lia. }
  cbn [max_size with_max_size] in *. split.
  - destruct (get_repr _ _ key now_ms Hr) as (-> & _). unfold lru_get.
    destruct (lookup_key key _) as [e'|] eqn:Hk; [|done].
    destruct (Z.leb_spec (expire_at_ms e') now_ms); [done|]. cbn [fst].
    split; [done|]. by eapply lru_last_upsert.
  - destruct (upsert_repr _ _ key e Hr) as (c' & -> & Hr' & _); [lia|lia|].
    destruct (get_repr _ _ key now_ms Hr') as (-> & _).
    unfold lru_get, lru_upsert. rewrite Hm.
    destruct (Z.to_nat (Z.max n 1)) as [|m] eqn:Hn; [lia|]. cbn.
    rewrite decide_True by done. by case_match.
Qed.
