(* ===== verification/Errors.v ===== *)
(** * Errors: src/libdoh/src/errors.rs

    The errors of the proxy, what they print, the joined error of several
    upstream attempts and the HTTP status each error becomes; and, from
    src/libdoh/src/lib.rs, which errors are worth a retry.

    The error types of the libraries the proxy calls are not part of the
    repository.  A value of such a type is the record of what the source
    observes of it: the text it displays, the predicates it calls, the
    source error it asks for. *)

From S2P Require Import Prelude Bytes Text.

(** ** Errors of the libraries *)

Module ErrorKind.
(** [std::io::ErrorKind]: the kinds the source names, and the others. *)
Inductive t :=
  | InvalidInput
  | InvalidData
  | Unsupported
  | PermissionDenied
  | AlreadyExists
  | AddrInUse
  | AddrNotAvailable
  | Other (kind : Z).

#[export] Instance t_eq_dec : EqDecision t.
Proof. solve_decision. Defined.
End ErrorKind.

(** [hyper::Error] *)
Record hyper_error := {
  hyper_text : bytes;
  is_parse : bool;
  is_parse_too_large : bool;
  is_parse_status : bool;
  is_user : bool;
  is_timeout : bool
}.

(** [tokio_quiche::quiche::h3::Error]: the two transport errors the source
    matches, and the others. *)
Inductive h3_error :=
  | TransportTlsFail
  | TransportCryptoFail
  | H3Other (text : bytes).

(** [H3ConnectionError] *)
Inductive h3_connection_error :=
  | H3 (err : h3_error)
  | NonexistentStream
  | ConnectionOther (text : bytes).

(** [&(dyn Error + 'static)]: an error whose type the source tries by
    [downcast_ref]; and [std::io::Error], which may wrap one ([get_ref]). *)
Inductive std_error :=
  | StdIo (kind : ErrorKind.t) (text : bytes) (inner : option std_error)
  | StdHyper (err : hyper_error)
  | StdHandshake
  | StdConnection (err : h3_connection_error)
  | StdH3 (err : h3_error)
  | StdOther (text : bytes).

Record io_error := {
  io_kind : ErrorKind.t;
  io_text : bytes;
  io_inner : option std_error
}.

(** [io::Error::new(kind, message)]: the message is wrapped as an error of
    no type the source knows. *)
Definition io_error_new (kind : ErrorKind.t) (message : bytes) : io_error :=
  {| io_kind := kind; io_text := message; io_inner := Some (StdOther message) |}.

(** [hyper_util::client::legacy::Error] *)
Record h2_client_error := {
  is_connect : bool;
  h2_source : option std_error
}.

(** ** The kinds of an attempt's error *)

Module UpstreamErrorKind.
Inductive t :=
  | Incomplete
  | InvalidData
  | TooLarge
  | UpstreamIssue
  | UpstreamTimeout
  | StaleKey
  | Hyper
  | Io
  | ODoHConfigError
  | TooManyTcpSessions.

Definition fmt (self : t) : bytes :=
  ascii_bytes
    match self with
    | Incomplete => "incomplete"
    | InvalidData => "invalid_data"
    | TooLarge => "too_large"
    | UpstreamIssue => "upstream_issue"
    | UpstreamTimeout => "upstream_timeout"
    | StaleKey => "stale_key"
    | Hyper => "hyper"
    | Io => "io"
    | ODoHConfigError => "odoh_config_error"
    | TooManyTcpSessions => "too_many_tcp_sessions"
    end.
End UpstreamErrorKind.

(** A duration, in nanoseconds. *)
Definition Duration : Type := Z.
Definition from_secs (s : Z) : Duration := s * 1000000000.
Definition as_millis (d : Duration) : Z := d / 1000000.
Definition as_micros (d : Duration) : Z := d / 1000.

Record UpstreamAttemptError := {
  address : bytes;
  duration : Duration;
  error_kind : UpstreamErrorKind.t;
  error_message : bytes
}.

Module DoHError.
Inductive t :=
  | Incomplete
  | InvalidData
  | TooLarge
  | UpstreamIssue
  | UpstreamTimeout
  | StaleKey
  | Hyper (err : hyper_error)
  | Io (err : io_error)
  | ODoHConfigError (text : bytes)
  | TooManyTcpSessions
  | UpstreamJoined (attempts : list UpstreamAttemptError).

Definition fmt_attempt (attempt : UpstreamAttemptError) : bytes :=
  ascii_bytes "; " ++ address attempt ++ ascii_bytes " (kind="
  ++ UpstreamErrorKind.fmt (error_kind attempt) ++ ascii_bytes ", duration_ms="
  ++ decimal (as_millis (duration attempt)) ++ ascii_bytes "): " ++ error_message attempt.

Definition fmt (self : t) : bytes :=
  match self with
  | Incomplete => ascii_bytes "Incomplete"
  | InvalidData => ascii_bytes "Invalid data"
  | TooLarge => ascii_bytes "Too large"
  | UpstreamIssue => ascii_bytes "Upstream error"
  | UpstreamTimeout => ascii_bytes "Upstream timeout"
  | StaleKey => ascii_bytes "Stale key material"
  | Hyper e => ascii_bytes "HTTP error: " ++ hyper_text e
  | Io e => ascii_bytes "IO error: " ++ io_text e
  | ODoHConfigError e => ascii_bytes "ODoH config error: " ++ e
  | TooManyTcpSessions => ascii_bytes "Too many TCP sessions"
  | UpstreamJoined attempts =>
      ascii_bytes "All upstreams failed" ++ concat (map fmt_attempt attempts)
  end.

Definition from_upstream_attempts (attempts : list UpstreamAttemptError) : t :=
  match attempts with [] => UpstreamIssue | _ => UpstreamJoined attempts end.

(** [StatusCode::from(e)]: the status codes of the [http] crate by their
    numbers *)
Definition status_code (e : t) : Z :=
  match e with
  | Incomplete => 422
  | InvalidData => 400
  | TooLarge => 413
  | UpstreamIssue => 502
  | UpstreamTimeout => 502
  | StaleKey => 401
  | Hyper _ => 503
  | Io _ => 500
  | ODoHConfigError _ => 500
  | TooManyTcpSessions => 503
  | UpstreamJoined _ => 502
  end.
End DoHError.

Definition kind_of_doh_error (err : DoHError.t) : UpstreamErrorKind.t :=
  match err with
  | DoHError.Incomplete => UpstreamErrorKind.Incomplete
  | DoHError.InvalidData => UpstreamErrorKind.InvalidData
  | DoHError.TooLarge => UpstreamErrorKind.TooLarge
  | DoHError.UpstreamIssue => UpstreamErrorKind.UpstreamIssue
  | DoHError.UpstreamTimeout => UpstreamErrorKind.UpstreamTimeout
  | DoHError.StaleKey => UpstreamErrorKind.StaleKey
  | DoHError.Hyper _ => UpstreamErrorKind.Hyper
  | DoHError.Io _ => UpstreamErrorKind.Io
  | DoHError.ODoHConfigError _ => UpstreamErrorKind.ODoHConfigError
  | DoHError.TooManyTcpSessions => UpstreamErrorKind.TooManyTcpSessions
  | DoHError.UpstreamJoined _ => UpstreamErrorKind.UpstreamIssue
  end.

Definition attempt_error (address : bytes) (duration : Duration) (err : DoHError.t)
    : UpstreamAttemptError := {|
  address := address;
  duration := duration;
  error_kind := kind_of_doh_error err;
  error_message := DoHError.fmt err
|}.

(** ** Which errors are worth a retry *)

Definition is_no_rebuild_hyper_error (err : hyper_error) : bool :=
  is_parse err || is_parse_too_large err || is_parse_status err || is_user err.
Definition is_retryable_hyper_error (err : hyper_error) : bool :=
  negb (is_no_rebuild_hyper_error err).

Definition is_no_rebuild_kind (kind : ErrorKind.t) : bool :=
  match kind with
  | ErrorKind.InvalidInput | ErrorKind.InvalidData | ErrorKind.Unsupported
  | ErrorKind.PermissionDenied | ErrorKind.AlreadyExists | ErrorKind.AddrInUse => true
  | _ => false
  end.
Definition is_no_rebuild_io_error (err : io_error) : bool := is_no_rebuild_kind (io_kind err).

Definition is_no_rebuild_h3_error (err : h3_error) : bool :=
  match err with TransportTlsFail | TransportCryptoFail => true | H3Other _ => false end.
Definition is_retryable_h3_error (err : h3_error) : bool := negb (is_no_rebuild_h3_error err).

Definition is_no_rebuild_h3_connection_error (err : h3_connection_error) : bool :=
  match err with
  | H3 h3_err => is_no_rebuild_h3_error h3_err
  | NonexistentStream => true
  | ConnectionOther _ => false
  end.
Definition is_retryable_h3_connection_error (err : h3_connection_error) : bool :=
  negb (is_no_rebuild_h3_connection_error err).

(** [is_retryable_std_error], with [is_retryable_io_error] and
    [is_retryable_quic_error] it calls and is called from. *)
Fixpoint is_retryable_std_error (err : std_error) : bool :=
  match err with
  | StdIo kind _ inner =>
      if is_no_rebuild_kind kind then false
      else match inner with Some source => is_retryable_std_error source | None => true end
  | StdHyper hyper_err => is_retryable_hyper_error hyper_err
  | StdHandshake => true
  | StdConnection conn_err => is_retryable_h3_connection_error conn_err
  | StdH3 h3_err => is_retryable_h3_error h3_err
  | StdOther _ => true
  end.

Definition is_retryable_io_error (err : io_error) : bool :=
  if is_no_rebuild_io_error err then false
  else match io_inner err with Some source => is_retryable_std_error source | None => true end.

Definition is_retryable_quic_error (err : std_error) : bool :=
  match err with
  | StdHandshake => true
  | StdConnection conn_err => is_retryable_h3_connection_error conn_err
  | StdIo kind text inner =>
      is_retryable_io_error {| io_kind := kind; io_text := text; io_inner := inner |}
  | StdH3 h3_err => is_retryable_h3_error h3_err
  | _ => true
  end.

Definition is_no_rebuild_doh_error (err : DoHError.t) : bool :=
  match err with
  | DoHError.Incomplete | DoHError.InvalidData | DoHError.TooLarge | DoHError.StaleKey
  | DoHError.TooManyTcpSessions => true
  | DoHError.Hyper hyper_err => is_no_rebuild_hyper_error hyper_err
  | DoHError.Io io_err => is_no_rebuild_io_error io_err
  | _ => false
  end.
Definition is_retryable_doh_error (err : DoHError.t) : bool :=
  negb (is_no_rebuild_doh_error err).

Definition is_retryable_h2_client_error (err : h2_client_error) : bool :=
  if is_connect err then true
  else match h2_source err with Some source => is_retryable_std_error source | None => true end.

(** ** Failures of an HTTP/2 or HTTP/3 request to an upstream *)

Module H2Failure.
Record t := { err : DoHError.t; retryable : bool }.

Definition from_doh_error (err : DoHError.t) : t :=
  {| err := err; retryable := is_retryable_doh_error err |}.

Definition from_hyper_legacy_error (err : h2_client_error) : t :=
  let timeout := match h2_source err with Some (StdHyper source) => is_timeout source | _ => false end in
  {| err := if timeout then DoHError.UpstreamTimeout else DoHError.UpstreamIssue;
     retryable := is_retryable_h2_client_error err |}.

Definition from_hyper_error (err : hyper_error) : t :=
  {| err := if is_timeout err then DoHError.UpstreamTimeout else DoHError.UpstreamIssue;
     retryable := is_retryable_hyper_error err |}.
End H2Failure.

Module H3Failure.
Record t := { err : DoHError.t; retryable : bool }.

(** [H3Failure::retryable(err)] *)
Definition new_retryable (err : DoHError.t) : t := {| err := err; retryable := true |}.

Definition from_doh_error (err : DoHError.t) : t :=
  {| err := err; retryable := is_retryable_doh_error err |}.

Definition from_io (err : io_error) : t :=
  {| err := DoHError.Io err; retryable := is_retryable_io_error err |}.

Definition from_boxed_sync (err : std_error) : t :=
  {| err :=
       match err with
       | StdIo kind text inner =>
           DoHError.Io {| io_kind := kind; io_text := text; io_inner := inner |}
       | _ => DoHError.UpstreamIssue
       end;
     retryable := is_retryable_quic_error err |}.

Definition from_send_error (err : std_error) : t :=
  {| err :=
       match err with
       | StdIo kind text _ => DoHError.Io (io_error_new kind text)
       | _ => DoHError.UpstreamIssue
       end;
     retryable := is_retryable_std_error err |}.
End H3Failure.
