(* ===== verification/Bootstrap.v ===== *)
(** * Upstream host names: src/libdoh/src/lib.rs

    Names of DoH and DoT upstreams are resolved through the configured
    bootstrap resolvers: [build_bootstrap_dns_query],
    [parse_bootstrap_dns_response] and [parse_dns_name_lower], the resolver
    cache, the choice of a local address of the peer's family, and the chain
    of calls from [resolve_doh_addr] down to [resolve_one_bootstrap].

    Sockets, the clock, the random query id and [lookup_host] of tokio are
    arguments.

    Fuel: [parse_dns_name_lower] follows at most [length packet] pointers, and
    between two of them it reads at most [length packet] labels, so
    [S (length packet) * S (length packet)] turns and one more are enough. *)

From S2P Require Import Prelude Bytes Text Net Dns Errors.

Definition MAX_DNS_RESPONSE_LEN : Z := 4096.
Definition BOOTSTRAP_DNS_FLAG_QR : Z := 0x8000.
Definition BOOTSTRAP_DNS_CLASS_IN : Z := 1.
Definition BOOTSTRAP_DNS_TYPE_A : Z := 1.
Definition BOOTSTRAP_DNS_TYPE_AAAA : Z := 28.

Record BootstrapCacheKey := {
  key_resolver : SocketAddr;
  key_host : bytes
}.
Record BootstrapCacheEntry := {
  cached_addrs : list IpAddr;
  expire_at_ms : Z
}.
Record BootstrapDnsResult := {
  addrs : list IpAddr;
  min_ttl_secs : Z
}.

Definition key_fields (k : BootstrapCacheKey) : SocketAddr * bytes := (key_resolver k, key_host k).
Definition key_of_fields (f : SocketAddr * bytes) : BootstrapCacheKey :=
  {| key_resolver := fst f; key_host := snd f |}.
#[export] Instance BootstrapCacheKey_eq_dec : EqDecision BootstrapCacheKey.
Proof. solve_decision. Defined.
#[export] Instance BootstrapCacheKey_countable : Countable BootstrapCacheKey.
Proof. by refine (inj_countable' key_fields key_of_fields _); intros []. Defined.

Abbreviation cache := (gmap BootstrapCacheKey BootstrapCacheEntry).

(** ** The query *)
Section wire.
Context `{BO : ByteOrder}.

Fixpoint push_labels (labels : list bytes) (packet : bytes) : outcome DoHError.t bytes :=
  match labels with
  | [] => Ok packet
  | label :: labels =>
      if (len label =? 0) || (63 <? len label) || existsb (fun b => bool_decide (b = x00)) label
      then Err DoHError.UpstreamIssue
      else push_labels labels (packet ++ as_u8 (len label) :: label)
  end.

Definition build_bootstrap_dns_query (host : bytes) (qtype query_id : Z)
    : outcome DoHError.t (bytes * Z) :=
  let host := trim_end_matches (fun b => bool_decide (b = x2e)) host in
  if len host =? 0 then Err DoHError.UpstreamIssue
  else
    let packet := repeat x00 12 in
    packet ← write_u16_in packet 0 2 query_id;
    packet ← write_u16_in packet 2 4 0x0100;
    packet ← write_u16_in packet 4 6 1;
    packet ← push_labels (split x2e host) packet;
    let packet := packet ++ [x00] in
    let qtail := repeat x00 4 in
    qtail ← write_u16_in qtail 0 2 qtype;
    qtail ← write_u16_in qtail 2 4 BOOTSTRAP_DNS_CLASS_IN;
    Ok (packet ++ qtail, query_id).

(** ** Names *)

(** The turns of the loop; [jump_count] is the number of pointers followed. *)
Fixpoint parse_dns_name_loop (fuel : nat) (packet : bytes) (cursor next_offset : Z) (jumped : bool)
    (jump_count : Z) (first_label : bool) (name : bytes) : outcome DoHError.t (bytes * Z) :=
  match fuel with
  | O => Diverge
  | S fuel =>
      if len packet <=? cursor then Err DoHError.UpstreamIssue
      else
        b ← index packet cursor;
        let tag := Z.land (u8 b) 0xc0 in
        if tag =? 0xc0 then
          if saturating_sub (len packet) cursor <? 2 then Err DoHError.UpstreamIssue
          else
            b2 ← index packet (cursor + 1);
            let ptr := Z.lor (Z.shiftl (Z.land (u8 b) 0x3f) 8) (u8 b2) in
            if len packet <=? ptr then Err DoHError.UpstreamIssue
            else
              let next_offset := if jumped then next_offset else cursor + 2 in
              let jump_count := jump_count + 1 in
              if len packet <? jump_count then Err DoHError.UpstreamIssue
              else
                parse_dns_name_loop fuel packet ptr next_offset true jump_count first_label name
        else if tag =? 0 then
          let cursor := cursor + 1 in
          if u8 b =? 0 then
            Ok (name ++ [x2e], if jumped then next_offset else cursor)
          else
            let label_len := u8 b in
            if (63 <? label_len) || (saturating_sub (len packet) cursor <? label_len)
            then Err DoHError.UpstreamIssue
            else
              let name := if first_label then name else name ++ [x2e] in
              label ← slice packet cursor (cursor + label_len);
              parse_dns_name_loop fuel packet (cursor + label_len) next_offset jumped jump_count
                false (name ++ ascii_lowercase label)
        else Err DoHError.UpstreamIssue
  end.

Definition NAME_TURNS (packet : bytes) : nat := S (S (length packet) * S (length packet)).

Definition parse_dns_name_lower (packet : bytes) (start_offset : Z)
    : outcome DoHError.t (bytes * Z) :=
  if len packet <=? start_offset then Err DoHError.UpstreamIssue
  else
    parse_dns_name_loop (NAME_TURNS packet) packet start_offset start_offset false 0 true [].

(** ** The response *)
Fixpoint skip_other_questions (packet : bytes) (count : nat) (offset : Z)
    : outcome DoHError.t Z :=
  match count with
  | O => Ok offset
  | S count =>
      offset ← map_err (fun _ => DoHError.UpstreamIssue) (skip_name packet offset);
      if saturating_sub (len packet) offset <? 4 then Err DoHError.UpstreamIssue
      else skip_other_questions packet count (offset + 4)
  end.

(** [Ipv4Addr::new(p[i], ..)] and [Ipv6Addr::from(octets)] of the record data
    at [offset] *)
Definition rdata_ip (packet : bytes) (rr_type offset rdlen : Z)
    : outcome DoHError.t (option IpAddr) :=
  if (rr_type =? BOOTSTRAP_DNS_TYPE_A) && (rdlen =? 4) then
    o0 ← index packet offset;
    o1 ← index packet (offset + 1);
    o2 ← index packet (offset + 2);
    o3 ← index packet (offset + 3);
    Ok (Some (V4 [# o0; o1; o2; o3]))
  else if (rr_type =? BOOTSTRAP_DNS_TYPE_AAAA) && (rdlen =? 16) then
    octets ← slice packet offset (offset + 16);
    ip ← or_panic (ipv6_of octets);
    Ok (Some ip)
  else Ok None.

Fixpoint parse_answers (packet question_name : bytes) (qtype : Z) (count : nat) (offset : Z)
    (addrs : list IpAddr) (min_ttl_secs : Z) : outcome DoHError.t BootstrapDnsResult :=
  match count with
  | O => Ok {| addrs := addrs; min_ttl_secs := min_ttl_secs |}
  | S count =>
      '(owner_name, offset) ← parse_dns_name_lower packet offset;
      if saturating_sub (len packet) offset <? 10 then Err DoHError.UpstreamIssue
      else
        rr_type ← read_u16_in packet offset (offset + 2);
        rr_class ← read_u16_in packet (offset + 2) (offset + 4);
        rr_ttl ← read_u32_in packet (offset + 4) (offset + 8);
        rdlen ← read_u16_in packet (offset + 8) (offset + 10);
        let rdata_offset := offset + 10 in
        if saturating_sub (len packet) rdata_offset <? rdlen then Err DoHError.UpstreamIssue
        else
          found ←
            (if bool_decide (owner_name = question_name) && (rr_class =? BOOTSTRAP_DNS_CLASS_IN)
                && (rr_type =? qtype)
             then rdata_ip packet rr_type rdata_offset rdlen
             else Ok None);
          match found with
          | Some ip =>
              parse_answers packet question_name qtype count (rdata_offset + rdlen)
                (addrs ++ [ip]) (Z.min min_ttl_secs rr_ttl)
          | None =>
              parse_answers packet question_name qtype count (rdata_offset + rdlen)
                addrs min_ttl_secs
          end
  end.

Definition parse_bootstrap_dns_response (packet : bytes) (query_id qtype : Z)
    : outcome DoHError.t BootstrapDnsResult :=
  if len packet <? 12 then Err DoHError.UpstreamIssue
  else
    response_id ← read_u16_in packet 0 2;
    if negb (response_id =? query_id) then Err DoHError.UpstreamIssue
    else
      flags ← read_u16_in packet 2 4;
      if Z.land flags BOOTSTRAP_DNS_FLAG_QR =? 0 then Err DoHError.UpstreamIssue
      else
        qdcount ← read_u16_in packet 4 6;
        ancount ← read_u16_in packet 6 8;
        if qdcount =? 0 then Err DoHError.UpstreamIssue
        else
          '(question_name, offset) ← parse_dns_name_lower packet 12;
          if saturating_sub (len packet) offset <? 4 then Err DoHError.UpstreamIssue
          else
            offset ← skip_other_questions packet (Z.to_nat (qdcount - 1)) (offset + 4);
            parse_answers packet question_name qtype (Z.to_nat ancount) offset [] u32_max.
End wire.

(** ** The cache *)

Definition ends_with_dot (s : bytes) : bool := bool_decide (last s = Some x2e).

Definition normalize_bootstrap_host (host : bytes) : outcome DoHError.t bytes :=
  let trimmed := trim host in
  if len trimmed =? 0 then Err DoHError.UpstreamIssue
  else
    let lower := ascii_lowercase trimmed in
    Ok (if ends_with_dot lower then lower else lower ++ [x2e]).

Definition load_bootstrap_cache (resolver : SocketAddr) (host : bytes) (now : Z) (c : cache)
    : option (list IpAddr) :=
  entry ← c !! {| key_resolver := resolver; key_host := host |};
  if now <=? expire_at_ms entry then Some (cached_addrs entry) else None.

Definition store_bootstrap_cache (resolver : SocketAddr) (host : bytes) (addrs : list IpAddr)
    (ttl_secs now : Z) (c : cache) : cache :=
  let ttl_ms := saturating_mul_u64 ttl_secs 1000 in
  <[ {| key_resolver := resolver; key_host := host |} :=
     {| cached_addrs := addrs; expire_at_ms := saturating_add_u64 now ttl_ms |} ]> c.

Definition local_bind_for_peer (local peer : SocketAddr) : option SocketAddr :=
  match local, peer with
  | SockV4 _ _, SockV4 _ _ => Some local
  | SockV6 _ _ _ _, SockV6 _ _ _ _ => Some local
  | SockV4 o port, SockV6 _ _ _ _ =>
      if is_unspecified (V4 o) then Some (SockV6 (vreplicate 16 x00) port 0 0) else None
  | SockV6 o port _ _, SockV4 _ _ =>
      if is_unspecified (V6 o) then Some (SockV4 (vreplicate 4 x00) port) else None
  end.

(** ** The resolvers *)

(** What the network does to one UDP socket: the results of [bind],
    [connect] and [send], and what arrives after a query. *)
Inductive arrival :=
  | Datagram (d : bytes)
  | RecvError (e : io_error)
  | Silence.
Record UdpSocket := {
  udp_bind : SocketAddr -> option io_error;
  udp_connect : SocketAddr -> option io_error;
  udp_send : bytes -> option io_error;
  udp_recv : bytes -> arrival
}.

Definition io_result (e : option io_error) : outcome DoHError.t unit :=
  match e with None => Ok tt | Some e => Err (DoHError.Io e) end.

Definition family_mismatch_error : DoHError.t :=
  DoHError.Io
    (io_error_new ErrorKind.AddrNotAvailable (ascii_bytes "local bind address family mismatch")).

(** A receive into a buffer of [MAX_DNS_RESPONSE_LEN] octets, bounded by the
    timeout unless it is zero. *)
Definition recv_within (timeout : Duration) (a : arrival) : outcome DoHError.t bytes :=
  match a with
  | Datagram d => Ok (truncate d MAX_DNS_RESPONSE_LEN)
  | RecvError e => Err (DoHError.Io e)
  | Silence => if timeout =? 0 then Diverge else Err DoHError.UpstreamTimeout
  end.

(** [tokio::join!] of two fallible calls and the match on their results. *)
Definition join {A B : Type} (a : outcome DoHError.t A) (b : outcome DoHError.t B)
    : outcome DoHError.t (A * B) :=
  match a, b with
  | Panic, _ => Panic
  | _, Panic => Panic
  | Diverge, _ => Diverge
  | _, Diverge => Diverge
  | Ok x, Ok y => Ok (x, y)
  | Err e, _ => Err e
  | _, Err e => Err e
  end.

(** One run against a resolver: its sockets, the random ids of its two
    queries, and the clock when the cache is read and when it is written. *)
Record resolver_run := {
  resolver : SocketAddr;
  id_a : Z;
  id_aaaa : Z;
  socket_a : UdpSocket;
  socket_aaaa : UdpSocket;
  load_at : Z;
  store_at : Z
}.

Section resolve.
Context `{BO : ByteOrder}.
Context (local_bind_address : SocketAddr) (timeout : Duration).

Definition resolve_one_bootstrap (resolver : SocketAddr) (host : bytes) (qtype id : Z)
    (socket : UdpSocket) : outcome DoHError.t BootstrapDnsResult :=
  '(query_packet, query_id) ← build_bootstrap_dns_query host qtype id;
  bind_addr ← ok_or (local_bind_for_peer local_bind_address resolver) family_mismatch_error;
  _ ← io_result (udp_bind socket bind_addr);
  _ ← io_result (udp_connect socket resolver);
  _ ← io_result (udp_send socket query_packet);
  packet ← recv_within timeout (udp_recv socket query_packet);
  parse_bootstrap_dns_response packet query_id qtype.

Definition resolve_with_bootstrap_resolver (host : bytes) (r : resolver_run)
    : mutates cache DoHError.t (list IpAddr) :=
  normalized_host ← lift (normalize_bootstrap_host host);
  c ← current;
  match load_bootstrap_cache (resolver r) normalized_host (load_at r) c with
  | Some cached_addrs => mret cached_addrs
  | None =>
      let query_host := trim_end_matches (fun b => bool_decide (b = x2e)) normalized_host in
      results ← lift (join
        (resolve_one_bootstrap (resolver r) query_host BOOTSTRAP_DNS_TYPE_A (id_a r) (socket_a r))
        (resolve_one_bootstrap (resolver r) query_host BOOTSTRAP_DNS_TYPE_AAAA (id_aaaa r)
           (socket_aaaa r)));
      let a_addrs := addrs (fst results) ++ addrs (snd results) in
      let ttl_secs := Z.min (min_ttl_secs (fst results)) (min_ttl_secs (snd results)) in
      _ ← update (fun c =>
        Ok (store_bootstrap_cache (resolver r) normalized_host a_addrs ttl_secs (store_at r) c));
      mret a_addrs
  end.

(** The runs of all resolvers, in the order in which they complete.  They
    run concurrently but share no cache key, so running them one after the
    other until the first success leaves the same results. *)
Fixpoint first_success (host : bytes) (runs : list resolver_run) (last_err : option DoHError.t)
    : mutates cache DoHError.t (list IpAddr) := fun c =>
  match runs with
  | [] => (Err (default DoHError.UpstreamIssue last_err), c)
  | r :: runs =>
      match resolve_with_bootstrap_resolver host r c with
      | (Err err, c) => first_success host runs (Some err) c
      | done => done
      end
  end.

Definition resolve_upstream_ips_with_bootstrap (host : bytes) (runs : list resolver_run)
    : mutates cache DoHError.t (list IpAddr) := first_success host runs None.

(** [lookup_host((host, port))] of tokio *)
Context (lookup_host : bytes -> Z -> option (list SocketAddr)).

Definition resolve_upstream_addrs (host : bytes) (port : Z) (bootstrap_dns : list resolver_run)
    : mutates cache DoHError.t (list SocketAddr) :=
  match parse_ip host with
  | Some ip => mret [SocketAddr_new ip port]
  | None =>
      match bootstrap_dns with
      | [] =>
          addrs ← lift (ok_or (lookup_host host port) DoHError.UpstreamIssue);
          lift (match addrs with [] => Err DoHError.UpstreamIssue | _ => Ok addrs end)
      | _ =>
          ips ← resolve_upstream_ips_with_bootstrap host bootstrap_dns;
          let addrs := map (fun ip => SocketAddr_new ip port) ips in
          lift (match addrs with [] => Err DoHError.UpstreamIssue | _ => Ok addrs end)
      end
  end.

(** The first address a UDP socket connects to. *)
Fixpoint connect_first (socket : SocketAddr -> UdpSocket) (addrs : list SocketAddr)
    (last_err : option io_error) (family_mismatch : bool) : outcome DoHError.t SocketAddr :=
  match addrs with
  | [] =>
      match last_err with
      | Some err => Err (DoHError.Io err)
      | None => Err (if family_mismatch then family_mismatch_error else DoHError.UpstreamIssue)
      end
  | addr :: addrs =>
      match local_bind_for_peer local_bind_address addr with
      | None => connect_first socket addrs last_err true
      | Some bind_addr =>
          _ ← io_result (udp_bind (socket addr) bind_addr);
          match udp_connect (socket addr) addr with
          | None => Ok addr
          | Some err => connect_first socket addrs (Some err) family_mismatch
          end
      end
  end.

Definition resolve_doh_addr (host : bytes) (port : Z) (bootstrap_dns : list resolver_run)
    (socket : SocketAddr -> UdpSocket) : mutates cache DoHError.t SocketAddr :=
  addrs ← resolve_upstream_addrs host port bootstrap_dns;
  lift (connect_first socket addrs None false).
End resolve.

(** ** TCP connections *)

(** What the network does to one TCP socket. *)
Inductive connection :=
  | Connected
  | ConnectError (e : io_error)
  | Unanswered.
Record TcpSocket := {
  tcp_new : option io_error;
  tcp_bind : SocketAddr -> option io_error;
  tcp_connect : SocketAddr -> connection
}.

(** Whether a connection is made; [Diverge] when nothing ever answers. *)
Definition connect_tcp_with_local_bind (local_bind_address peer_addr : SocketAddr) (socket : TcpSocket)
    : outcome io_error unit :=
  let of_option (e : option io_error) : outcome io_error unit :=
    match e with None => Ok tt | Some e => Err e end in
  bind_addr ← ok_or (local_bind_for_peer local_bind_address peer_addr)
    (io_error_new ErrorKind.AddrNotAvailable (ascii_bytes "local bind address family mismatch"));
  _ ← of_option (tcp_new socket);
  _ ← of_option (tcp_bind socket bind_addr);
  match tcp_connect socket peer_addr with
  | Connected => Ok tt
  | ConnectError e => Err e
  | Unanswered => Diverge
  end.
