(* ===== verification/BootstrapFacts.v ===== *)
(** * Facts about the bootstrap resolver

    Termination and bounds of the name decoder, its relation to the wire
    form with compression, and the records a response is made of. *)

From S2P Require Import Prelude Bytes Text Wire Net Dns DnsFacts Errors Bootstrap.

(** ** Names on the wire, with compression *)

(** The offset a pointer at [o] leads to. *)
Definition pointer_target (p : bytes) (o : Z) : Z :=
  Z.lor (Z.shiftl (Z.land (u8at p o) 0x3f) 8) (u8at p (o + 1)).

Lemma pointer_target_nonneg p o : 0 <= pointer_target p o.
Proof.
  unfold pointer_target. pose proof (u8at_bounds p (o + 1)).
  apply Z.lor_nonneg. split; [|lia]. apply Z.shiftl_nonneg, Z.land_nonneg. lia.
Qed.

(** [name_at p o ls j e]: the labels [ls] are at [o], [j] pointers have to be
    followed, and the name takes the octets up to [e]. *)
Inductive name_at (p : bytes) : Z -> list bytes -> Z -> Z -> Prop :=
  | name_at_root o :
      0 <= o < len p -> u8at p o = 0 -> name_at p o [] 0 (o + 1)
  | name_at_label o ls j e :
      0 <= o < len p -> 0 < u8at p o < 64 -> o + 1 + u8at p o <= len p ->
      name_at p (o + 1 + u8at p o) ls j e ->
      name_at p o (sub p (o + 1) (o + 1 + u8at p o) :: ls) j e
  | name_at_pointer o ls j e :
      0 <= o -> o + 2 <= len p -> 192 <= u8at p o -> pointer_target p o < len p ->
      name_at p (pointer_target p o) ls j e ->
      name_at p o ls (j + 1) (o + 2).

(** The presentation the source compares: lower case, a dot after each
    label, or a single dot for the root. *)
Fixpoint present_rest (ls : list bytes) : bytes :=
  match ls with
  | [] => [x2e]
  | l :: ls => x2e :: ascii_lowercase l ++ present_rest ls
  end.
Definition present (ls : list bytes) : bytes :=
  match ls with [] => [x2e] | l :: ls => ascii_lowercase l ++ present_rest ls end.

(** What the loop adds to the name it has. *)
Definition present_from (first_label : bool) (ls : list bytes) : bytes :=
  if first_label then present ls else present_rest ls.

Lemma present_from_cons fl l ls :
  present_from fl (l :: ls) =
  (if fl then [] else [x2e]) ++ ascii_lowercase l ++ present_from false ls.
Proof. by destruct fl. Qed.

(** ** The decoder's loop *)
Section loop.
Context (p : bytes).

(** One turn that reads a label, and one that follows a pointer. *)
Lemma parse_dns_name_loop_label fuel o nx jd jc fl n :
  0 <= o < len p -> 0 < u8at p o < 64 -> o + 1 + u8at p o <= len p ->
  parse_dns_name_loop (S fuel) p o nx jd jc fl n =
  parse_dns_name_loop fuel p (o + 1 + u8at p o) nx jd jc false
    ((if fl then n else n ++ [x2e]) ++ ascii_lowercase (sub p (o + 1) (o + 1 + u8at p o))).
Proof.
  intros. cbn [parse_dns_name_loop]. rewrite (proj2 (Z.leb_gt _ _)) by lia.
  rewrite (index_ok p o) by lia. out_simpl. rewrite tag_pointer, tag_label.
  fold (u8at p o). unfold saturating_sub. cmp_simpl. out_simpl. by rewrite slice_ok by lia.
Qed.

Lemma parse_dns_name_loop_pointer fuel o nx jd jc fl n :
  0 <= o -> o + 2 <= len p -> 192 <= u8at p o -> pointer_target p o < len p -> jc < len p ->
  parse_dns_name_loop (S fuel) p o nx jd jc fl n =
  parse_dns_name_loop fuel p (pointer_target p o) (if jd then nx else o + 2) true (jc + 1) fl n.
Proof.
  intros. cbn [parse_dns_name_loop]. rewrite (proj2 (Z.leb_gt _ _)) by lia.
  rewrite (index_ok p o) by lia. out_simpl. rewrite tag_pointer.
  fold (u8at p o). unfold saturating_sub. cmp_simpl.
  rewrite index_ok by lia. out_simpl. fold (u8at p (o + 1)). fold (pointer_target p o).
  rewrite (proj2 (Z.leb_gt _ _)) by lia. cmp_simpl. done.
Qed.

(** The turns left: every pointer followed allows a walk over the packet. *)
Definition turns_left (o jc : Z) : Z := (len p - jc) * (len p + 1) + (len p - o) + 1.

Lemma parse_dns_name_loop_returns fuel o nx jd jc fl n :
  0 <= o <= len p -> 0 <= jc <= len p -> turns_left o jc <= Z.of_nat fuel ->
  returns (parse_dns_name_loop fuel p o nx jd jc fl n)
    (fun '(_, e) => if jd then e = nx else o < e <= len p).
Proof.
  revert o nx jd jc fl n; induction fuel as [|fuel IH]; intros o nx jd jc fl n Ho Hj Hf.
  { unfold turns_left in Hf. nia. }
  cbn [parse_dns_name_loop]. destruct (Z.leb_spec (len p) o); [done|].
  apply returns_bind. rewrite (index_ok p o) by lia. cbn [returns]. rewrite tag_pointer, tag_label.
  fold (u8at p o). pose proof (u8at_bounds p o).
  destruct (Z.leb_spec 192 (u8at p o)).
  - unfold saturating_sub. destruct (Z.ltb_spec (Z.max 0 (len p - o)) 2); [done|].
    apply returns_bind. rewrite index_ok by lia. cbn [returns]. fold (u8at p (o + 1)).
    fold (pointer_target p o). pose proof (pointer_target_nonneg p o).
    destruct (Z.leb_spec (len p) (pointer_target p o)); [done|].
    destruct (Z.ltb_spec (len p) (jc + 1)); [done|].
    eapply returns_mono; [apply IH; unfold turns_left in *; nia|].
    intros [? e] _ He. cbn in He. subst e. destruct jd; [done|lia].
  - destruct (Z.ltb_spec (u8at p o) 64); [|done].
    destruct (Z.eqb_spec (u8at p o) 0); [destruct jd; cbn; [done|lia]|].
    unfold saturating_sub.
    destruct (Z.ltb_spec 63 (u8at p o)); [done|]. cbn [orb].
    destruct (Z.ltb_spec (Z.max 0 (len p - (o + 1))) (u8at p o)); [done|].
    apply returns_bind. rewrite slice_ok by lia. cbn [returns].
    eapply returns_mono; [apply IH; unfold turns_left in *; nia|].
    intros [? e] _. destruct jd; [done|lia].
Qed.

Lemma NAME_TURNS_enough o : 0 <= o -> turns_left o 0 <= Z.of_nat (NAME_TURNS p).
Proof. unfold turns_left, NAME_TURNS, len. nia. Qed.

Lemma parse_dns_name_lower_returns o :
  0 <= o -> returns (parse_dns_name_lower p o) (fun '(_, e) => o < e <= len p).
Proof.
  intros. unfold parse_dns_name_lower. destruct (Z.leb_spec (len p) o); [done|].
  pose proof (len_nonneg p).
  apply (parse_dns_name_loop_returns _ o o false); [lia|lia|]. by apply NAME_TURNS_enough.
Qed.

(** What the loop accepts is a name. *)
Lemma parse_dns_name_loop_sound fuel o nx jd jc fl n m e :
  0 <= o -> 0 <= jc <= len p -> parse_dns_name_loop fuel p o nx jd jc fl n = Ok (m, e) ->
  exists ls j e', name_at p o ls j e' /\ jc + j <= len p /\ m = n ++ present_from fl ls /\
    e = if jd then nx else e'.
Proof.
  revert o nx jd jc fl n; induction fuel as [|fuel IH]; intros o nx jd jc fl n Ho Hj H; [done|].
  cbn [parse_dns_name_loop] in H. destruct (Z.leb_spec (len p) o); [done|].
  rewrite (index_ok p o) in H by lia. cbn [mbind outcome_bind] in H.
  rewrite tag_pointer, tag_label in H. fold (u8at p o) in H. pose proof (u8at_bounds p o).
  unfold saturating_sub in H. destruct (Z.leb_spec 192 (u8at p o)).
  - destruct (Z.ltb_spec (Z.max 0 (len p - o)) 2); [done|].
    rewrite index_ok in H by lia. cbn [mbind outcome_bind] in H. fold (u8at p (o + 1)) in H.
    fold (pointer_target p o) in H. pose proof (pointer_target_nonneg p o).
    destruct (Z.leb_spec (len p) (pointer_target p o)); [done|].
    destruct (Z.ltb_spec (len p) (jc + 1)); [done|].
    apply IH in H as (ls & j & e' & Hn & Hl & -> & ->); [|lia|lia].
    exists ls, (j + 1), (o + 2). split_and!; [|lia|done|by destruct jd].
    eapply name_at_pointer; [lia..|done].
  - destruct (Z.ltb_spec (u8at p o) 64); [|done].
    destruct (Z.eqb_spec (u8at p o) 0).
    { injection H as <- <-. exists [], 0, (o + 1).
      split_and!; [by constructor|lia|by destruct fl|by destruct jd]. }
    destruct (Z.ltb_spec 63 (u8at p o)); [done|]. cbn [orb] in H.
    destruct (Z.ltb_spec (Z.max 0 (len p - (o + 1))) (u8at p o)); [done|].
    rewrite slice_ok in H by lia. cbn [mbind outcome_bind] in H.
    apply IH in H as (ls & j & e' & Hn & Hl & -> & ->); [|lia|lia].
    exists (sub p (o + 1) (o + 1 + u8at p o) :: ls), j, e'.
    split_and!; [apply name_at_label; (done || lia)|lia| |done].
    rewrite present_from_cons. destruct fl; by rewrite <- ?app_assoc.
Qed.

(** And every name with few enough pointers is accepted. *)
Lemma name_at_pointers o ls j e : name_at p o ls j e -> 0 <= j /\ 0 <= o < len p.
Proof. induction 1; lia. Qed.

Lemma parse_dns_name_loop_complete fuel o nx jd jc fl n ls j e :
  name_at p o ls j e -> 0 <= jc -> jc + j <= len p -> turns_left o jc <= Z.of_nat fuel ->
  parse_dns_name_loop fuel p o nx jd jc fl n = Ok (n ++ present_from fl ls, if jd then nx else e).
Proof.
  intros Hn. revert fuel nx jd jc fl n.
  induction Hn as [o Ho H0|o ls j e Ho Hb Hl Hn IH|o ls j e Ho Hl Hb Ht Hn IH];
    intros fuel nx jd jc fl n Hj Hjl Hf; pose proof (len_nonneg p);
    try (pose proof (name_at_pointers _ _ _ _ Hn));
    (destruct fuel as [|fuel]; [unfold turns_left in Hf; nia|]).
  - cbn [parse_dns_name_loop]. rewrite (proj2 (Z.leb_gt _ _)) by lia. rewrite (index_ok p o) by lia.
    out_simpl. rewrite tag_pointer, tag_label. fold (u8at p o). rewrite H0. cbn. by destruct fl.
  - rewrite parse_dns_name_loop_label, IH by (try (unfold turns_left in *; nia)).
    rewrite present_from_cons. destruct fl; by rewrite <- ?app_assoc.
  - rewrite parse_dns_name_loop_pointer, IH by (try (unfold turns_left in *; nia)).
    by destruct jd.
Qed.

Lemma parse_dns_name_lower_iff o n e :
  0 <= o ->
  parse_dns_name_lower p o = Ok (n, e) <->
  exists ls j, name_at p o ls j e /\ j <= len p /\ n = present ls.
Proof.
  intros Ho. unfold parse_dns_name_lower. split.
  - destruct (Z.leb_spec (len p) o); [done|]. intros H'.
    apply parse_dns_name_loop_sound in H' as (ls & j & e' & Hn & Hj & -> & ->);
      [|lia|split; [lia|apply len_nonneg]].
    exists ls, j. by rewrite Z.add_0_l in Hj.
  - intros (ls & j & Hn & Hj & ->). pose proof (name_at_pointers _ _ _ _ Hn).
    rewrite (proj2 (Z.leb_gt _ _)) by lia.
    rewrite (parse_dns_name_loop_complete _ o o false 0 true [] ls j e); (done || lia || idtac).
    by apply NAME_TURNS_enough.
Qed.
End loop.

(** ** Responses *)

(** A decoded answer record, its owner as the labels on the wire. *)
Record answer := {
  owner : list bytes;
  a_type : Z;
  a_class : Z;
  a_ttl : Z;
  a_data : bytes
}.

(** [answers_at p o rrs]: the records [rrs] are at [o], one after the other. *)
Inductive answers_at (p : bytes) : Z -> list answer -> Prop :=
  | answers_nil o : answers_at p o []
  | answers_cons o ls j e rrs :
      name_at p o ls j e -> j <= len p ->
      e + 10 + u16at p (e + 8) <= len p ->
      answers_at p (e + 10 + u16at p (e + 8)) rrs ->
      answers_at p o
        ({| owner := ls; a_type := u16at p e; a_class := u16at p (e + 2);
            a_ttl := u32at p (e + 4);
            a_data := sub p (e + 10) (e + 10 + u16at p (e + 8)) |} :: rrs).

(** [other_questions p n o e]: [n] more questions lie between [o] and [e]. *)
Inductive other_questions (p : bytes) : nat -> Z -> Z -> Prop :=
  | other_questions_O o : other_questions p O o o
  | other_questions_S n o l w e :
      o < len p - 1 -> wire_name p o l w -> l <= DNS_MAX_HOSTNAME_SIZE -> w + 4 <= len p ->
      other_questions p n (w + 4) e ->
      other_questions p (S n) o e.

(** The address in a record's data, when the data has the length of the
    type's addresses. *)
Definition data_ip (rr_type : Z) (data : bytes) : option IpAddr :=
  if rr_type =? BOOTSTRAP_DNS_TYPE_A then ipv4_of data
  else if rr_type =? BOOTSTRAP_DNS_TYPE_AAAA then ipv6_of data
  else None.

(** The address a record contributes: it must answer the question asked. *)
Definition accepted (question_name : bytes) (qtype : Z) (r : answer) : option IpAddr :=
  if bool_decide (present (owner r) = question_name) && (a_class r =? BOOTSTRAP_DNS_CLASS_IN)
     && (a_type r =? qtype)
  then data_ip (a_type r) (a_data r) else None.

(** The least TTL of the records that contribute. *)
Definition least_ttl (question_name : bytes) (qtype : Z) (rrs : list answer) (init : Z) : Z :=
  fold_left (fun m r => match accepted question_name qtype r with
                        | Some _ => Z.min m (a_ttl r) | None => m end) rrs init.

Lemma ipv4_of_None l : len l <> 4 -> ipv4_of l = None.
Proof. intros H. unfold ipv4_of. rewrite to_vec_None; [done|]. unfold len in H. lia. Qed.
Lemma ipv6_of_None l : len l <> 16 -> ipv6_of l = None.
Proof. intros H. unfold ipv6_of. rewrite to_vec_None; [done|]. unfold len in H. lia. Qed.

Lemma sub_4 p o :
  0 <= o -> o + 4 <= len p -> sub p o (o + 4) = [get p o; get p (o + 1); get p (o + 2); get p (o + 3)].
Proof.
  intros. apply bytes_ext; [rewrite len_sub by lia; by rewrite Z.add_simpl_l|].
  intros i Hi. rewrite len_sub in Hi by lia. rewrite get_sub by lia.
  assert (i = 0 \/ i = 1 \/ i = 2 \/ i = 3) as [->|[->|[->| ->]]] by lia; try done.
  by rewrite Z.add_0_r.
Qed.

Lemma rdata_ip_ok p rr_type o n :
  0 <= o -> 0 <= n -> o + n <= len p ->
  rdata_ip p rr_type o n = Ok (data_ip rr_type (sub p o (o + n))).
Proof.
  intros Ho Hn Hl. unfold rdata_ip, data_ip.
  destruct (Z.eqb_spec rr_type BOOTSTRAP_DNS_TYPE_A) as [->|]; cbn [andb].
  - destruct (Z.eqb_spec n 4) as [->|].
    + rewrite sub_4 by lia.
      rewrite (index_ok p o), (index_ok p (o + 1)), (index_ok p (o + 2)), (index_ok p (o + 3)) by lia.
      reflexivity.
    + rewrite ipv4_of_None; [done|]. rewrite len_sub by lia. lia.
  - destruct (Z.eqb_spec rr_type BOOTSTRAP_DNS_TYPE_AAAA) as [->|]; cbn [andb]; [|done].
    destruct (Z.eqb_spec n 16) as [->|].
    + rewrite slice_ok by lia. cbn [mbind outcome_bind]. unfold ipv6_of.
      destruct (to_vec_Some 16 (sub p o (o + 16))) as [v ->]; [|done].
      pose proof (len_sub p o (o + 16)). unfold len in *. lia.
    + rewrite ipv6_of_None; [done|]. rewrite len_sub by lia. lia.
Qed.

Section responses.
Context `{BO : ByteOrder}.

Lemma name_at_end p o ls j e : name_at p o ls j e -> o < e <= len p.
Proof. induction 1; lia. Qed.

(** Names are functional: [parse_dns_name_lower] finds the end. *)
Lemma name_at_det p o ls j e ls' j' e' :
  name_at p o ls j e -> name_at p o ls' j' e' -> ls = ls' /\ j = j' /\ e = e'.
Proof.
  intros H. revert ls' j' e'.
  induction H; intros ls' j' e' H'; inversion H'; subst; try lia; try done.
  - destruct (IHname_at _ _ _ ltac:(eassumption)) as (-> & -> & ->). done.
  - destruct (IHname_at _ _ _ ltac:(eassumption)) as (-> & -> & ->). done.
Qed.

Lemma parse_answers_returns p qn qt count o acc m :
  0 <= o -> total (parse_answers p qn qt count o acc m).
Proof.
  revert o acc m; induction count as [|count IH]; intros o acc m Ho; [done|].
  cbn [parse_answers]. apply returns_bind.
  eapply returns_mono; [by apply parse_dns_name_lower_returns|].
  intros [n e] _ He; cbn beta in He. unfold saturating_sub.
  destruct (Z.ltb_spec (Z.max 0 (len p - e)) 10); [done|].
  rewrite (read_u16_in_ok p e), (read_u16_in_ok p (e + 2)), (read_u32_in_ok p (e + 4)),
    (read_u16_in_ok p (e + 8)) by lia. out_simpl.
  pose proof (u16at_bounds p (e + 8)).
  destruct (Z.ltb_spec (Z.max 0 (len p - (e + 10))) (u16at p (e + 8))); [done|].
  rewrite rdata_ip_ok by lia.
  destruct (bool_decide (n = qn) && (u16at p (e + 2) =? BOOTSTRAP_DNS_CLASS_IN) && (u16at p e =? qt));
    cbn [mbind outcome_bind]; [|apply IH; lia].
  destruct (data_ip _ _); apply IH; lia.
Qed.

(** One turn of the answer loop, where a record lies. *)
Lemma parse_answers_step p qn qt count o acc m ls j e :
  name_at p o ls j e -> j <= len p -> e + 10 + u16at p (e + 8) <= len p ->
  let r := {| owner := ls; a_type := u16at p e; a_class := u16at p (e + 2);
              a_ttl := u32at p (e + 4);
              a_data := sub p (e + 10) (e + 10 + u16at p (e + 8)) |} in
  parse_answers p qn qt (S count) o acc m =
  parse_answers p qn qt count (e + 10 + u16at p (e + 8))
    (acc ++ option_list (accepted qn qt r))
    (match accepted qn qt r with Some _ => Z.min m (a_ttl r) | None => m end).
Proof.
  intros Hn Hj Hl r. pose proof (name_at_pointers _ _ _ _ _ Hn). pose proof (name_at_end _ _ _ _ _ Hn).
  pose proof (u16at_bounds p (e + 8)). cbn [parse_answers].
  rewrite (proj2 (parse_dns_name_lower_iff p o (present ls) e ltac:(lia)))
    by (exists ls, j; done). cbn [mbind outcome_bind].
  unfold saturating_sub. cmp_simpl.
  rewrite (read_u16_in_ok p e), (read_u16_in_ok p (e + 2)), (read_u32_in_ok p (e + 4)),
    (read_u16_in_ok p (e + 8)) by lia. out_simpl. cmp_simpl. rewrite rdata_ip_ok by lia.
  unfold accepted, r; cbn [owner a_class a_type a_data a_ttl].
  destruct (bool_decide _ && _ && _); cbn [mbind outcome_bind option_list]; [|by rewrite app_nil_r].
  destruct (data_ip _ _); cbn [option_list]; [done|by rewrite app_nil_r].
Qed.

Lemma omap_cons_list {A B} (f : A -> option B) x (l : list A) :
  omap f (x :: l) = option_list (f x) ++ omap f l.
Proof. cbn. by destruct (f x). Qed.

Lemma parse_answers_complete p qn qt o rrs acc m :
  answers_at p o rrs ->
  parse_answers p qn qt (length rrs) o acc m =
  Ok {| addrs := acc ++ omap (accepted qn qt) rrs; min_ttl_secs := least_ttl qn qt rrs m |}.
Proof.
  intros H. revert acc m. induction H as [o|o ls j e rrs Hn Hj Hl H IH]; intros acc m.
  - cbn. by rewrite app_nil_r.
  - cbn [length]. rewrite (parse_answers_step _ _ _ _ _ _ _ _ _ _ Hn Hj Hl), IH.
    rewrite omap_cons_list, app_assoc. done.
Qed.

Lemma parse_answers_sound p qn qt count o acc m r :
  0 <= o -> parse_answers p qn qt count o acc m = Ok r ->
  exists rrs, answers_at p o rrs /\ length rrs = count.
Proof.
  revert o acc m. induction count as [|count IH]; intros o acc m Ho H.
  { exists []. by split; [constructor|]. }
  assert (exists ls j e, name_at p o ls j e /\ j <= len p /\ e + 10 + u16at p (e + 8) <= len p)
    as (ls & j & e & Hn & Hj & Hl).
  { cbn [parse_answers] in H. apply bind_Ok in H as ([n e] & Hp & H).
    apply parse_dns_name_lower_iff in Hp as (ls & j & Hn & Hj & ->); [|done].
    pose proof (name_at_end _ _ _ _ _ Hn). exists ls, j, e. split_and!; [done..|].
    unfold saturating_sub in H. destruct (Z.ltb_spec (Z.max 0 (len p - e)) 10); [done|].
    rewrite (read_u16_in_ok p e), (read_u16_in_ok p (e + 2)), (read_u32_in_ok p (e + 4)),
      (read_u16_in_ok p (e + 8)) in H by lia. cbn [mbind outcome_bind] in H.
    destruct (Z.ltb_spec (Z.max 0 (len p - (e + 10))) (u16at p (e + 8))); [done|]. lia. }
  rewrite (parse_answers_step _ _ _ _ _ _ _ _ _ _ Hn Hj Hl) in H.
  pose proof (u16at_bounds p (e + 8)). pose proof (name_at_end _ _ _ _ _ Hn).
  apply IH in H as (rrs & Hrr & <-); [|lia]. eexists. split; [by econstructor|done].
Qed.

Lemma skip_other_questions_returns p n o :
  0 <= o -> 1 <= len p -> returns (skip_other_questions p n o) (fun e => 0 <= e).
Proof.
  revert o; induction n as [|n IH]; intros o Ho Hp; [done|]. cbn [skip_other_questions].
  pose proof (skip_name_returns p o Ho Hp) as Hr.
  destruct (skip_name p o) as [e|err| |]; cbn in Hr |- *; try done.
  case_match; [done|]. apply IH; lia.
Qed.

Lemma skip_other_questions_iff p n o e :
  0 <= o -> skip_other_questions p n o = Ok e <-> other_questions p n o e.
Proof.
  revert o; induction n as [|n IH]; intros o Ho; cbn [skip_other_questions].
  { split; [intros [= ->]; constructor|]. by inversion 1. }
  split.
  - intros H. apply bind_Ok in H as (w & Hw & H). apply map_err_Ok in Hw.
    pose proof (skip_name_Ok_bounds _ _ _ Ho Hw).
    apply skip_name_Ok in Hw as (Hlt & l & Hl & Hmax); [|done].
    unfold saturating_sub in H. destruct (Z.ltb_spec (Z.max 0 (len p - w)) 4); [done|].
    apply IH in H; [|lia]. econstructor; (done || lia).
  - inversion 1 as [|? ? l w ? Hlt Hl Hmax Hw Hrest]; subst.
    assert (skip_name p o = Ok w) as Hs by (apply skip_name_Ok; [done|]; split; [done|by exists l]).
    pose proof (skip_name_Ok_bounds _ _ _ Ho Hs).
    rewrite Hs. cbn. unfold saturating_sub. cmp_simpl. apply IH; [lia|done].
Qed.

(** The packets accepted as responses to a query, and their records. *)
Record response (p : bytes) (query_id : Z) (question_name : bytes) (rrs : list answer) : Prop := {
  response_len : 12 <= len p;
  response_id : u16at p 0 = query_id;
  response_qr : Z.testbit (u16at p 2) 15 = true;
  response_counts : 1 <= u16at p 4 /\ Z.of_nat (length rrs) = u16at p 6;
  response_sections : exists ls j e oa,
    name_at p 12 ls j e /\ j <= len p /\ question_name = present ls /\ e + 4 <= len p /\
    other_questions p (Z.to_nat (u16at p 4 - 1)) (e + 4) oa /\ answers_at p oa rrs
}.

Lemma parse_bootstrap_returns p id qt : total (parse_bootstrap_dns_response p id qt).
Proof.
  unfold parse_bootstrap_dns_response. destruct (Z.ltb_spec (len p) 12); [done|].
  rewrite (read_u16_in_ok p 0), (read_u16_in_ok p 2), (read_u16_in_ok p 4), (read_u16_in_ok p 6) by lia.
  out_simpl. destruct (_ =? id); [|done]. cbn [negb]. destruct (_ =? 0); [done|].
  destruct (_ =? 0); [done|]. apply returns_bind.
  eapply returns_mono; [apply parse_dns_name_lower_returns; lia|]. intros [n e] _ He. cbn in He.
  case_match; [done|]. apply returns_bind.
  eapply returns_mono; [apply skip_other_questions_returns; lia|]. intros o _ Ho.
  by apply parse_answers_returns.
Qed.

Lemma parse_bootstrap_iff p id qt r :
  parse_bootstrap_dns_response p id qt = Ok r <->
  exists question_name rrs, response p id question_name rrs /\
    addrs r = omap (accepted question_name qt) rrs /\
    min_ttl_secs r = least_ttl question_name qt rrs u32_max.
Proof.
  unfold parse_bootstrap_dns_response. destruct (Z.ltb_spec (len p) 12) as [Hs|Hs].
  { split; [done|]. intros (? & ? & [] & _). lia. }
  rewrite (read_u16_in_ok p 0), (read_u16_in_ok p 2), (read_u16_in_ok p 4), (read_u16_in_ok p 6) by lia.
  out_simpl. pose proof (u16at_bounds p 4). pose proof (u16at_bounds p 6).
  destruct (Z.eqb_spec (u16at p 0) id) as [Hid|]; cbn [negb]; [|by split; [|intros (? & ? & [] & _)]].
  change BOOTSTRAP_DNS_FLAG_QR with (2 ^ 15). rewrite land_bit by lia.
  destruct (Z.testbit (u16at p 2) 15) eqn:Hqr; cbn [negb];
    [|by split; [|intros (? & ? & [] & _); congruence]].
  destruct (Z.eqb_spec (u16at p 4) 0) as [|Hqd];
    [split; [done|]; intros (? & ? & [_ _ _ [] _] & _); lia|].
  unfold saturating_sub. split.
  - intros Hrun. apply bind_Ok in Hrun as ([n e] & Hn & Hrun).
    apply parse_dns_name_lower_iff in Hn as (ls & j & Hn & Hj & ->); [|done].
    pose proof (name_at_end _ _ _ _ _ Hn).
    destruct (Z.ltb_spec (Z.max 0 (len p - e)) 4); [done|].
    apply bind_Ok in Hrun as (oa & Hq & Hrun).
    assert (0 <= oa) as Hoa.
    { apply (returns_Ok _ _ _ (skip_other_questions_returns p _ (e + 4) ltac:(lia) ltac:(lia)) Hq). }
    apply skip_other_questions_iff in Hq; [|lia].
    destruct (parse_answers_sound _ _ _ _ _ _ _ _ Hoa Hrun) as (rrs & Hrrs & Hl).
    rewrite <- Hl, (parse_answers_complete _ _ _ _ _ _ _ Hrrs) in Hrun. injection Hrun as <-.
    exists (present ls), rrs. split; [|done].
    split; [lia|done|done|lia|]. exists ls, j, e, oa. split_and!; (done || lia).
  - intros (qn & rrs & [_ _ _ [_ Hc] (ls & j & e & oa & Hn & Hj & -> & He & Hq & Ha)] & Hr1 & Hr2).
    pose proof (name_at_end _ _ _ _ _ Hn).
    rewrite (proj2 (parse_dns_name_lower_iff p 12 (present ls) e ltac:(lia)))
      by (exists ls, j; done). cbn [mbind outcome_bind]. cmp_simpl.
    apply skip_other_questions_iff in Hq; [|lia]. rewrite Hq. cbn [mbind outcome_bind].
    rewrite <- Hc, Nat2Z.id, (parse_answers_complete _ _ _ _ _ _ _ Ha).
    destruct r; cbn in *. by subst.
Qed.
End responses.

(** ** Queries, and the answers of a resolver *)

(** The octets of a query for a sequence of labels. *)
Definition question_octets (ls : list bytes) (qtype : Z) : bytes :=
  enc_labels ls ++ x00 :: be16 qtype ++ be16 1.
Definition query_octets (id : Z) (ls : list bytes) (qtype : Z) : bytes :=
  be16 id ++ be16 0x0100 ++ be16 1 ++ replicate 6 x00 ++ question_octets ls qtype.

(** A label [build_bootstrap_dns_query] takes. *)
Definition host_label (l : bytes) : Prop := good_label l /\ x00 ∉ l.
#[export] Instance host_label_dec l : Decision (host_label l).
Proof. unfold host_label, good_label. apply _. Defined.

Definition host_labels (host : bytes) : list bytes :=
  split x2e (trim_end_matches (fun b => bool_decide (b = x2e)) host).

Lemma push_labels_spec labels packet :
  push_labels labels packet =
  if decide (Forall host_label labels) then Ok (packet ++ enc_labels labels)
  else Err DoHError.UpstreamIssue.
Proof.
  revert packet. induction labels as [|l ls IH]; intros packet; cbn [push_labels].
  { rewrite decide_True by constructor. unfold enc_labels. cbn. by rewrite app_nil_r. }
  pose proof (len_nonneg l).
  assert (existsb (fun b => bool_decide (b = x00)) l = bool_decide (x00 ∈ l)) as ->.
  { apply eq_bool_prop_intro. rewrite bool_decide_spec, list_elem_of_In.
    rewrite Is_true_true, existsb_exists. setoid_rewrite bool_decide_eq_true. naive_solver. }
  destruct (decide (host_label l)) as [[[? ?] Hz]|Hbad].
  - rewrite bool_decide_false by done. cmp_simpl. cbn [orb]. rewrite IH.
    destruct (decide (Forall host_label ls)).
    + rewrite decide_True by by repeat constructor. unfold enc_labels. cbn [map concat].
      by rewrite <- app_assoc.
    + rewrite decide_False; [done|]. by inversion 1.
  - rewrite (decide_False (P := Forall host_label (l :: ls))) by by inversion 1.
    destruct (Z.eqb_spec (len l) 0); [done|]. destruct (Z.ltb_spec 63 (len l)); [done|].
    case_bool_decide; [done|]. destruct Hbad. split; [split; lia|done].
Qed.

Section roundtrip.
Context `{BO : ByteOrder}.

Lemma build_bootstrap_spec host qtype id :
  0 <= id <= u16_max -> 0 <= qtype <= u16_max ->
  build_bootstrap_dns_query host qtype id =
  if decide (Forall host_label (host_labels host))
  then Ok (query_octets id (host_labels host) qtype, id) else Err DoHError.UpstreamIssue.
Proof.
  intros Hid Hqt. unfold build_bootstrap_dns_query. fold (host_labels host).
  set (t := trim_end_matches _ host). change (split x2e t) with (host_labels host).
  destruct (Z.eqb_spec (len t) 0) as [H0|H0].
  { assert (host_labels host = [[]]) as ->.
    { unfold host_labels. fold t. destruct t; [done|]. rewrite len_cons in H0. pose proof (len_nonneg t). lia. }
    rewrite decide_False; [done|]. inversion 1 as [|? ? [[? ?] _] _]. rewrite len_nil in *. lia. }
  rewrite (write_u16_in_ok (repeat x00 12) 0 2) by (done || lia). out_simpl.
  rewrite (write_u16_in_ok _ 2 4) by (rewrite ?len_put_u16 by done; done || lia). out_simpl.
  rewrite (write_u16_in_ok _ 4 6) by (rewrite ?len_put_u16 by (rewrite ?len_put_u16; done); done || lia).
  out_simpl. rewrite push_labels_spec. destruct (decide _); [|done]. out_simpl.
  rewrite (write_u16_in_ok (repeat x00 4) 0 2) by (done || lia). out_simpl.
  rewrite (write_u16_in_ok _ 2 4) by (rewrite ?len_put_u16 by done; done || lia). out_simpl.
  unfold query_octets, question_octets. f_equal. f_equal. by rewrite <- !app_assoc.
Qed.
End roundtrip.

(** A record for the question's name, by a pointer to it, with an address
    and a TTL; and a reply made of such records. *)
Definition ip_type (ip : IpAddr) : Z :=
  if is_v4 ip then BOOTSTRAP_DNS_TYPE_A else BOOTSTRAP_DNS_TYPE_AAAA.
Definition ip_record (r : IpAddr * Z) : bytes :=
  [xc0; x0c] ++ be16 (ip_type (fst r)) ++ be16 1 ++ be32 (snd r) ++
  be16 (len (octets (fst r))) ++ octets (fst r).
Definition reply_octets (id flags : Z) (ls : list bytes) (qtype : Z) (rs : list (IpAddr * Z))
    : bytes :=
  be16 id ++ be16 flags ++ be16 1 ++ be16 (len rs) ++ replicate 4 x00 ++
  question_octets ls qtype ++ concat (map ip_record rs).

Definition ip_answer (ls : list bytes) (r : IpAddr * Z) : answer :=
  {| owner := ls; a_type := ip_type (fst r); a_class := 1; a_ttl := snd r;
     a_data := octets (fst r) |}.

(** The records of a family. *)
Definition of_type (qtype : Z) (rs : list (IpAddr * Z)) : list (IpAddr * Z) :=
  base.filter (fun r => ip_type (fst r) = qtype) rs.

Section replies.
Context `{BO : ByteOrder}.

Lemma name_at_enc pre ls post :
  Forall good_label ls ->
  name_at (pre ++ enc_labels ls ++ x00 :: post) (len pre) ls 0 (len pre + labels_len ls + 1).
Proof.
  intros H; revert pre. induction H as [|l ls [Hl0 Hl] H IH]; intros pre;
    pose proof (len_nonneg pre); pose proof (len_nonneg post).
  - change (enc_labels []) with (@nil byte). cbn [app]. rewrite Z.add_0_r. constructor.
    + rewrite len_app, len_cons. lia.
    + unfold u8at. by rewrite get_middle.
  - pose proof (labels_len_nonneg ls). pose proof (len_enc_labels ls).
    assert (pre ++ enc_labels (l :: ls) ++ x00 :: post =
            (pre ++ as_u8 (len l) :: l) ++ enc_labels ls ++ x00 :: post) as Heq.
    { unfold enc_labels. cbn [map concat]. by rewrite <- !app_assoc. }
    specialize (IH (pre ++ as_u8 (len l) :: l)). rewrite <- Heq in IH.
    assert (u8at (pre ++ enc_labels (l :: ls) ++ x00 :: post) (len pre) = len l) as Hb.
    { rewrite Heq, <- app_assoc. unfold u8at. cbn [app]. rewrite get_middle, u8_as_u8.
      apply Z.mod_small. lia. }
    assert (len (pre ++ enc_labels (l :: ls) ++ x00 :: post) =
            len pre + 1 + len l + labels_len ls + 1 + len post) as Hlen.
    { rewrite Heq. doh_simpl. lia. }
    assert (sub (pre ++ enc_labels (l :: ls) ++ x00 :: post) (len pre + 1) (len pre + 1 + len l) = l)
      as Hsub.
    { rewrite Heq. replace (len pre + 1) with (len (pre ++ [as_u8 (len l)])) by (doh_simpl; lia).
      replace ((pre ++ as_u8 (len l) :: l) ++ enc_labels ls ++ x00 :: post)
        with ((pre ++ [as_u8 (len l)]) ++ l ++ enc_labels ls ++ x00 :: post)
        by by rewrite <- !app_assoc. apply sub_middle. }
    set (p := pre ++ enc_labels (l :: ls) ++ x00 :: post) in *. rewrite labels_len_cons.
    replace (len pre + (1 + len l + labels_len ls) + 1)
      with (len (pre ++ as_u8 (len l) :: l) + labels_len ls + 1) by (doh_simpl; lia).
    pose proof (name_at_label p (len pre) ls 0
      (len (pre ++ as_u8 (len l) :: l) + labels_len ls + 1)) as Hcons.
    rewrite Hb, Hsub in Hcons. apply Hcons; [lia..|].
    replace (len pre + 1 + len l) with (len (pre ++ as_u8 (len l) :: l)) by (doh_simpl; lia).
    done.
Qed.

(** The records of a reply, where they lie. *)
Lemma answers_at_enc ls e p pre rs :
  name_at p 12 ls 0 e -> p = pre ++ concat (map ip_record rs) ->
  Forall (fun r => 0 <= snd r <= u32_max) rs ->
  answers_at p (len pre) (map (ip_answer ls) rs).
Proof.
  intros Hn. revert pre. induction rs as [|[ip ttl] rs IH]; intros pre Hp Hrs; [constructor|].
  inversion Hrs as [|? ? Httl Hrest]; subst. cbn [map concat fst snd] in *.
  set (tail := octets ip ++ concat (map ip_record rs)).
  assert (0 <= ip_type ip <= u16_max) as Ht by by destruct ip.
  assert (0 <= len (octets ip) <= 16) as Hl by (rewrite len_octets; by destruct ip).
  destruct (rr_fields (ip_type ip) 1 ttl (len (octets ip)) tail) as (F0 & F2 & F4 & F8 & Fl); [lia..|].
  set (fields := be16 (ip_type ip) ++ _) in *.
  assert (pre ++ ip_record (ip, ttl) ++ concat (map ip_record rs) = (pre ++ [xc0; x0c]) ++ fields) as Hp1.
  { unfold ip_record, fields, tail. cbn [fst snd]. by rewrite <- !app_assoc. }
  assert (pre ++ ip_record (ip, ttl) ++ concat (map ip_record rs) =
          (pre ++ ip_record (ip, ttl)) ++ concat (map ip_record rs)) as Hp2 by by rewrite app_assoc.
  set (p := pre ++ ip_record (ip, ttl) ++ concat (map ip_record rs)) in *.
  assert (len (pre ++ [xc0; x0c]) = len pre + 2) as Hpre by (doh_simpl; done).
  pose proof (len_nonneg pre). pose proof (len_nonneg (concat (map ip_record rs))).
  assert (len p = len pre + 2 + 10 + len (octets ip) + len (concat (map ip_record rs))) as Hlen.
  { rewrite Hp1, len_app, Fl, Hpre. unfold tail. rewrite len_app. lia. }
  pose proof (name_at_end _ _ _ _ _ Hn).
  assert (u8at p (len pre) = 192 /\ u8at p (len pre + 1) = 12) as [Hb0 Hb1].
  { rewrite Hp1, <- app_assoc. unfold u8at. cbn [app]. split; [by rewrite get_middle|].
    rewrite get_app_r by lia. by replace (len pre + 1 - len pre) with 1 by lia. }
  assert (pointer_target p (len pre) = 12) as Hpt by (unfold pointer_target; by rewrite Hb0, Hb1).
  assert (u16at p (len pre + 2) = ip_type ip /\ u16at p (len pre + 2 + 2) = 1 /\
          u32at p (len pre + 2 + 4) = ttl /\ u16at p (len pre + 2 + 8) = len (octets ip))
    as (R0 & R2 & R4 & R8).
  { rewrite Hp1, <- Hpre. rewrite u16at_start, !u16at_from, u32at_from by lia. done. }
  assert (sub p (len pre + 2 + 10) (len pre + 2 + 10 + len (octets ip)) = octets ip) as Hd.
  { assert (p = (pre ++ [xc0; x0c] ++ be16 (ip_type ip) ++ be16 1 ++ be32 ttl ++
                 be16 (len (octets ip))) ++ octets ip ++ concat (map ip_record rs)) as Hp3.
    { rewrite Hp1. unfold fields, tail. by rewrite <- !app_assoc. }
    rewrite Hp3 at 1.
    replace (len pre + 2 + 10) with (len (pre ++ [xc0; x0c] ++ be16 (ip_type ip) ++ be16 1 ++ be32 ttl ++
                 be16 (len (octets ip)))) by (doh_simpl; cbn; lia).
    apply sub_middle. }
  pose proof (answers_cons p (len pre) ls (0 + 1) (len pre + 2) (map (ip_answer ls) rs)) as Hcons.
  rewrite R0, R2, R4, R8, Hd in Hcons. unfold ip_answer at 1. cbn [fst snd].
  apply Hcons; [|lia|lia|].
  - eapply (name_at_pointer p (len pre) ls 0); rewrite ?Hpt; (exact Hn || lia).
  - replace (len pre + 2 + 10 + len (octets ip)) with (len (pre ++ ip_record (ip, ttl))).
    + by apply IH.
    + unfold ip_record. cbn [fst snd]. doh_simpl. cbn. lia.
Qed.

Lemma ipv_of_octets ip : data_ip (ip_type ip) (octets ip) = Some ip.
Proof.
  unfold data_ip, ip_type. pose proof (ip_of_octets_octets ip) as H. unfold ip_of_octets in H.
  destruct ip as [o|o]; cbn [is_v4 octets] in *; cbn.
  - unfold ipv4_of. by rewrite to_vec_vec.
  - unfold ipv6_of. by rewrite to_vec_vec.
Qed.

Lemma accepted_ip_answer ls qtype r :
  accepted (present ls) qtype (ip_answer ls r) = if decide (ip_type (fst r) = qtype) then Some (fst r) else None.
Proof.
  unfold accepted, ip_answer. cbn [owner a_class a_type a_data]. rewrite bool_decide_true by done.
  cbn [andb]. destruct (Z.eqb_spec (ip_type (fst r)) qtype); case_decide; try done.
  apply ipv_of_octets.
Qed.

Lemma omap_accepted ls qtype rs :
  omap (accepted (present ls) qtype) (map (ip_answer ls) rs) = map fst (of_type qtype rs).
Proof.
  induction rs as [|r rs IH]; [done|]. cbn [map]. rewrite omap_cons_list, accepted_ip_answer.
  unfold of_type. case_decide.
  - rewrite filter_cons_True by done. cbn [map option_list app]. f_equal. exact IH.
  - rewrite filter_cons_False by done. exact IH.
Qed.

Lemma least_ttl_ip ls qtype rs m :
  least_ttl (present ls) qtype (map (ip_answer ls) rs) m =
  fold_left Z.min (map snd (of_type qtype rs)) m.
Proof.
  unfold least_ttl. revert m. induction rs as [|r rs IH]; intros m; [done|]. cbn [map fold_left].
  rewrite accepted_ip_answer. unfold of_type in *. case_decide.
  - rewrite filter_cons_True by done. cbn [map fold_left a_ttl ip_answer]. apply IH.
  - rewrite filter_cons_False by done. apply IH.
Qed.

Lemma reply_response id flags ls qtype rs :
  0 <= id <= u16_max -> 0 <= flags <= u16_max -> Z.testbit flags 15 = true -> Forall good_label ls -> len rs <= u16_max ->
  Forall (fun r => 0 <= snd r <= u32_max) rs ->
  response (reply_octets id flags ls qtype rs) id (present ls) (map (ip_answer ls) rs).
Proof.
  intros Hid Hfl Hqr Hls Hn Hrs. set (p := reply_octets id flags ls qtype rs).
  set (hdr := be16 id ++ be16 flags ++ be16 1 ++ be16 (len rs) ++ replicate 4 x00).
  set (tail := (be16 qtype ++ be16 1) ++ concat (map ip_record rs)).
  assert (p = hdr ++ enc_labels ls ++ x00 :: tail) as Hp.
  { unfold p, reply_octets, hdr, tail, question_octets. by rewrite <- !app_assoc. }
  assert (len hdr = 12) as Hh by (unfold hdr; doh_simpl; done).
  pose proof (len_nonneg (concat (map ip_record rs))) as Hc.
  pose proof (labels_len_nonneg ls) as Hll. pose proof (len_nonneg rs).
  assert (len tail = 4 + len (concat (map ip_record rs))) as Ht by (unfold tail; doh_simpl; cbn; lia).
  assert (len p = 12 + labels_len ls + 1 + len tail) as Hlen.
  { rewrite Hp. doh_simpl. rewrite len_enc_labels. lia. }
  assert (u16at p 0 = id /\ u16at p 2 = flags /\ u16at p 4 = 1 /\ u16at p 6 = len rs)
    as (R0 & R2 & R4 & R6).
  { rewrite Hp. rewrite !u16at_app_l by lia.
    assert (u16at hdr 0 = u16at (be16 id) 0) as -> by done.
    assert (u16at hdr 2 = u16at (be16 flags) 0) as -> by done.
    assert (u16at hdr 6 = u16at (be16 (len rs)) 0) as -> by done.
    rewrite !u16at_be16 by lia. done. }
  pose proof (name_at_enc hdr ls tail Hls) as Hname. rewrite <- Hp, Hh in Hname.
  split.
  - lia.
  - done.
  - by rewrite R2.
  - rewrite R4, R6, length_map. done.
  - exists ls, 0, (12 + labels_len ls + 1), (12 + labels_len ls + 1 + 4).
    split_and!; [done|lia|done|lia|rewrite R4; constructor|].
    set (pre := hdr ++ enc_labels ls ++ x00 :: be16 qtype ++ be16 1).
    replace (12 + labels_len ls + 1 + 4) with (len pre).
    + eapply answers_at_enc; [done| |done].
      rewrite Hp. unfold pre, tail. by rewrite <- !app_assoc.
    + unfold pre. clearbody hdr. rewrite !len_app, len_cons, !len_app, len_enc_labels, !len_be16. lia.
Qed.
End replies.

(** ** No step of the resolution panics *)

(** The random ids of a run are 16-bit numbers. *)
Definition ids_ok (r : resolver_run) : Prop := 0 <= id_a r <= u16_max /\ 0 <= id_aaaa r <= u16_max.

Lemma connect_not_panic local peer socket : connect_tcp_with_local_bind local peer socket <> Panic.
Proof.
  unfold connect_tcp_with_local_bind. destruct (local_bind_for_peer _ _); [|done]. cbn.
  destruct (tcp_new socket); [done|]. cbn. destruct (tcp_bind socket _); [done|]. cbn.
  by destruct (tcp_connect socket peer).
Qed.

Section no_panic.
Context `{BO : ByteOrder}.
Context (local : SocketAddr) (timeout : Duration) (lookup_host : bytes -> Z -> option (list SocketAddr)).

Lemma resolve_one_safe resolver host qtype id socket :
  0 <= id <= u16_max -> 0 <= qtype <= u16_max ->
  safe (resolve_one_bootstrap local timeout resolver host qtype id socket) (fun _ => True).
Proof.
  intros Hid Hqt. unfold resolve_one_bootstrap. rewrite build_bootstrap_spec by done.
  destruct (decide _); [|done]. cbn. destruct (local_bind_for_peer _ _); [|done]. cbn.
  destruct (udp_bind socket _); [done|]. cbn. destruct (udp_connect socket _); [done|]. cbn.
  destruct (udp_send socket _); [done|]. cbn.
  destruct (udp_recv socket _) as [d|e|]; cbn; [|done|by destruct (timeout =? 0)].
  apply safe_returns, parse_bootstrap_returns.
Qed.

Lemma resolve_run_safe host r c : ids_ok r -> fst (resolve_with_bootstrap_resolver local timeout host r c) <> Panic.
Proof.
  intros [Ha Hb]. unfold resolve_with_bootstrap_resolver, normalize_bootstrap_host, lift, current, mbind, mutates_bind.
  destruct (_ =? 0); [done|]. destruct (load_bootstrap_cache _ _ _ _); [done|].
  set (q := trim_end_matches _ _).
  pose proof (resolve_one_safe (resolver r) q BOOTSTRAP_DNS_TYPE_A (id_a r) (socket_a r) Ha ltac:(done)).
  pose proof (resolve_one_safe (resolver r) q BOOTSTRAP_DNS_TYPE_AAAA (id_aaaa r) (socket_aaaa r) Hb ltac:(done)).
  unfold join. by repeat case_match.
Qed.

Lemma first_success_safe host runs last_err c :
  Forall ids_ok runs -> fst (first_success local timeout host runs last_err c) <> Panic.
Proof.
  intros Hr. revert last_err c. induction Hr as [|r runs Hok _ IH]; intros last_err c; [done|].
  cbn [first_success]. pose proof (resolve_run_safe host r c Hok) as Hp.
  destruct (resolve_with_bootstrap_resolver _ _ _ _ _) as [[] c']; done || apply IH.
Qed.

Lemma resolve_upstream_safe host port runs c :
  Forall ids_ok runs -> fst (resolve_upstream_addrs local timeout lookup_host host port runs c) <> Panic.
Proof.
  intros Hr. unfold resolve_upstream_addrs. destruct (parse_ip host); [done|].
  destruct runs as [|r runs].
  - unfold mbind, mutates_bind, lift. destruct (lookup_host host port) as [addrs|]; [|done]. by destruct addrs.
  - unfold mbind, mutates_bind, lift, resolve_upstream_ips_with_bootstrap.
    pose proof (first_success_safe host (r :: runs) None c Hr) as Hp.
    destruct (first_success _ _ _ _ _ _) as [[ips| | |] c']; try done. cbn. by destruct (map _ ips).
Qed.

Lemma connect_first_safe socket addrs last_err mismatch :
  connect_first local socket addrs last_err mismatch <> Panic.
Proof.
  revert last_err mismatch. induction addrs as [|a addrs IH]; intros last_err mismatch.
  - cbn. by destruct last_err.
  - cbn [connect_first]. destruct (local_bind_for_peer _ _); [|apply IH].
    destruct (udp_bind (socket a) _); [done|]. cbn. destruct (udp_connect (socket a) a); [apply IH|done].
Qed.

Lemma resolve_doh_safe host port runs socket c :
  Forall ids_ok runs -> fst (resolve_doh_addr local timeout lookup_host host port runs socket c) <> Panic.
Proof.
  intros Hr. unfold resolve_doh_addr, mbind, mutates_bind.
  pose proof (resolve_upstream_safe host port runs c Hr) as Hp.
  destruct (resolve_upstream_addrs _ _ _ _ _ _ _) as [[addrs| | |] c']; try done. apply connect_first_safe.
Qed.
End no_panic.
