(* ===== verification/BootstrapProps.v ===== *)
(** * Properties of the bootstrap resolver *)

From S2P Require Import Prelude Bytes Text Wire Net Dns DnsFacts Errors Bootstrap BootstrapFacts.

Section properties.
Context `{BO : ByteOrder}.

(** The name decoder always comes back, whatever the packet and however
    its pointers loop; it accepts exactly the compressed names that follow at
    most as many pointers as the packet has octets, and returns their labels
    in lower case, each followed by a dot, and the offset after the name. *)
Theorem parse_dns_name_lower_spec (p : bytes) (o : Z) :
  0 <= o ->
  total (parse_dns_name_lower p o) /\
  (forall n e, parse_dns_name_lower p o = Ok (n, e) <->
     exists ls j, name_at p o ls j e /\ j <= len p /\ n = present ls).
Proof.
  intros Ho. split; [|intros; by apply parse_dns_name_lower_iff].
  eapply returns_total, parse_dns_name_lower_returns, Ho.
Qed.

(** C18: [parse_bootstrap_dns_response] never panics or loops; it succeeds
    exactly on a response (QR bit) with the query's id, a question and
    readable answer records, and returns the addresses of the records, in
    order, that have the first question's owner, class IN, the type asked
    for and data of that type's length, with the least of their TTLs. *)
Theorem parse_bootstrap_spec (p : bytes) (id qtype : Z) (r : BootstrapDnsResult) :
  total (parse_bootstrap_dns_response p id qtype) /\
  (parse_bootstrap_dns_response p id qtype = Ok r <->
   exists question_name rrs, response p id question_name rrs /\
     addrs r = omap (accepted question_name qtype) rrs /\
     min_ttl_secs r = least_ttl question_name qtype rrs u32_max).
Proof. split; [apply parse_bootstrap_returns|apply parse_bootstrap_iff]. Qed.

(** C37: round trip.  For a host of labels of 1 to 63 octets without NUL, any
    final dots dropped, the query that is built carries exactly these labels
    in its question; any other host is refused.  And a reply to that
    question is read back as the addresses it carries of the type asked for,
    in order, with the least of their TTLs, whatever its response code. *)
Theorem bootstrap_roundtrip (host : bytes) (qtype id flags : Z) (rs : list (IpAddr * Z)) :
  let ls := host_labels host in
  0 <= id <= u16_max -> 0 <= qtype <= u16_max ->
  0 <= flags <= u16_max -> Z.testbit flags 15 = true ->
  len rs <= u16_max -> Forall (fun r => 0 <= snd r <= u32_max) rs ->
  if decide (Forall host_label ls) then
    build_bootstrap_dns_query host qtype id = Ok (query_octets id ls qtype, id) /\
    (exists e, parse_dns_name_lower (query_octets id ls qtype) 12 = Ok (present ls, e)) /\
    parse_bootstrap_dns_response (reply_octets id flags ls qtype rs) id qtype =
      Ok {| addrs := map fst (of_type qtype rs);
            min_ttl_secs := fold_left Z.min (map snd (of_type qtype rs)) u32_max |}
  else build_bootstrap_dns_query host qtype id = Err DoHError.UpstreamIssue.
Proof.
  intros ls Hid Hqt Hfl Hqr Hn Hrs. pose proof (build_bootstrap_spec host qtype id Hid Hqt) as Hb.
  fold ls in Hb. destruct (decide (Forall host_label ls)) as [Hls|]; [|done].
  assert (Forall good_label ls) as Hg by (eapply Forall_impl; [exact Hls|by intros ? []]).
  split_and!; [done| |].
  - eexists. apply parse_dns_name_lower_iff; [done|].
    exists ls, 0. split; [|split; [apply len_nonneg|done]].
    apply (name_at_enc (be16 id ++ be16 0x0100 ++ be16 1 ++ replicate 6 x00) ls
      (be16 qtype ++ be16 1) Hg).
  - apply parse_bootstrap_iff. do 2 eexists. split; [by apply reply_response|]. cbn.
    by rewrite omap_accepted, least_ttl_ip.
Qed.

(** ** The cache *)

Lemma load_store_same r h l ttl now at_ c :
  at_ <= saturating_add_u64 now (saturating_mul_u64 ttl 1000) ->
  load_bootstrap_cache r h at_ (store_bootstrap_cache r h l ttl now c) = Some l.
Proof.
  intros H. unfold load_bootstrap_cache, store_bootstrap_cache. rewrite lookup_insert, decide_True by done.
  cbn. by rewrite (proj2 (Z.leb_le _ _)).
Qed.

Section cache.
Context (local_bind_address : SocketAddr) (timeout : Duration).
Abbreviation resolve := (resolve_with_bootstrap_resolver local_bind_address timeout).

Lemma resolve_hit host h r c e :
  normalize_bootstrap_host host = Ok h ->
  c !! {| key_resolver := resolver r; key_host := h |} = Some e -> load_at r <= expire_at_ms e ->
  resolve host r c = (Ok (cached_addrs e), c).
Proof.
  intros Hh He Ht. unfold resolve_with_bootstrap_resolver, lift, current, mbind, mutates_bind.
  rewrite Hh. unfold load_bootstrap_cache. rewrite He. cbn. by rewrite (proj2 (Z.leb_le _ _)).
Qed.

(** There is an entry for the host that has not expired. *)
Definition live (r : resolver_run) (h : bytes) (c : cache) (e : BootstrapCacheEntry) : Prop :=
  c !! {| key_resolver := resolver r; key_host := h |} = Some e /\ load_at r <= expire_at_ms e.

(** What a run asks the resolver. *)
Definition asked (r : resolver_run) (h : bytes) (qtype id : Z) (socket : UdpSocket) : outcome DoHError.t BootstrapDnsResult :=
  resolve_one_bootstrap local_bind_address timeout (resolver r)
    (trim_end_matches (fun b => bool_decide (b = x2e)) h) qtype id socket.

(** C38: a resolver's answer is cached under the resolver and the host's
    lower-case absolute name.  A run that finds an entry that has not expired
    returns its addresses, without its sockets, and leaves the cache as it is.
    Any other run that succeeds returns the addresses of both answers and
    stores them, in the place of an expired entry, until the smaller of the
    two TTLs, in seconds, has passed since the store; no other entry changes.
    So for any spelling of the host, until then, a run against the same
    resolver returns the same addresses.  A run that fails found no such
    entry, and changes nothing. *)
Theorem bootstrap_cache_spec (host : bytes) (r : resolver_run) (c : cache) :
  match resolve host r c with
  | (Ok l, c') =>
      exists h e, normalize_bootstrap_host host = Ok h /\ cached_addrs e = l /\
        (live r h c e /\ c' = c \/
         (forall e', ~ live r h c e') /\ (exists a aaaa,
            asked r h BOOTSTRAP_DNS_TYPE_A (id_a r) (socket_a r) = Ok a /\
            asked r h BOOTSTRAP_DNS_TYPE_AAAA (id_aaaa r) (socket_aaaa r) = Ok aaaa /\
            l = addrs a ++ addrs aaaa /\
            let ttl := Z.min (min_ttl_secs a) (min_ttl_secs aaaa) in
            expire_at_ms e = Z.min u64_max (store_at r + Z.min u64_max (ttl * 1000))) /\
         c' = <[ {| key_resolver := resolver r; key_host := h |} := e ]> c) /\
        forall host' r', normalize_bootstrap_host host' = Ok h -> resolver r' = resolver r ->
          load_at r' <= expire_at_ms e -> resolve host' r' c' = (Ok l, c')
  | (_, c') => c' = c /\ forall h e, normalize_bootstrap_host host = Ok h -> ~ live r h c e
  end.
Proof.
  unfold resolve_with_bootstrap_resolver at 1, lift, current, update, mbind, mutates_bind, live.
  destruct (normalize_bootstrap_host host) as [h| | |] eqn:Hh; try (by split).
  unfold load_bootstrap_cache at 1.
  destruct (c !! _) as [e|] eqn:He; cbn [mbind option_bind];
    [destruct (Z.leb_spec (load_at r) (expire_at_ms e)) as [Ht|Ht]|].
  { cbn. exists h, e. split_and!; [done|done|by left|].
    intros host' r' Hh' Hr Ht'. rewrite <- Hr in He. by apply (resolve_hit _ h). }
  all: assert (forall e', ~ (c !! {| key_resolver := resolver r; key_host := h |} = Some e' /\
         load_at r <= expire_at_ms e')) as Hnone by (intros e' [He' Hle]; rewrite He in He'; naive_solver lia).
  all: destruct (join _ _) as [[a aaaa]| | |] eqn:Hjoin;
    [|split; [done|]; intros h' e' [= <-]; apply Hnone..].
  all: cbn [fst snd mret mutates_ret]; exists h;
    exists {| cached_addrs := addrs a ++ addrs aaaa;
              expire_at_ms := saturating_add_u64 (store_at r)
                (saturating_mul_u64 (Z.min (min_ttl_secs a) (min_ttl_secs aaaa)) 1000) |};
    split_and!; [done|done| |].
  2, 4: intros host' r' Hh' Hr Ht'; set (c' := store_bootstrap_cache _ _ _ _ _ _);
    pose proof (fun He => resolve_hit host' h r' c' _ Hh' He Ht') as Hhit; apply Hhit;
    rewrite Hr; apply lookup_insert_eq.
  all: right; split; [exact Hnone|]; split; [|reflexivity]; exists a, aaaa; unfold asked;
    unfold join in Hjoin;
    destruct (resolve_one_bootstrap _ _ _ _ BOOTSTRAP_DNS_TYPE_A _ _); try (by repeat case_match);
    destruct (resolve_one_bootstrap _ _ _ _ BOOTSTRAP_DNS_TYPE_AAAA _ _); try done;
    injection Hjoin as -> ->; by split_and!.
Qed.

(** The empty answer of a resolver is kept for the largest TTL. *)
Lemma resolve_empty host h r c :
  normalize_bootstrap_host host = Ok h ->
  load_bootstrap_cache (resolver r) h (load_at r) c = None ->
  (forall qt id socket, (qt = BOOTSTRAP_DNS_TYPE_A \/ qt = BOOTSTRAP_DNS_TYPE_AAAA) ->
     (socket = socket_a r \/ socket = socket_aaaa r) -> (id = id_a r \/ id = id_aaaa r) ->
     resolve_one_bootstrap local_bind_address timeout (resolver r)
       (trim_end_matches (fun b => bool_decide (b = x2e)) h) qt id socket
     = Ok {| addrs := []; min_ttl_secs := u32_max |}) ->
  resolve host r c = (Ok [], store_bootstrap_cache (resolver r) h [] u32_max (store_at r) c).
Proof.
  intros Hh Hload Hone.
  unfold resolve_with_bootstrap_resolver, lift, current, update, mbind, mutates_bind.
  rewrite Hh, Hload. rewrite !Hone by tauto. done.
Qed.
End cache.

(** A socket to a resolver that is failing: it sends the query back with the
    QR bit and response code SERVFAIL. *)
Definition servfail_socket : UdpSocket := {|
  udp_bind _ := None; udp_connect _ := None; udp_send _ := None;
  udp_recv q := Datagram (firstn 2 q ++ be16 0x8182 ++ skipn 4 q)
|}.
Definition servfail_run (resolver : SocketAddr) (id load_at store_at : Z) : resolver_run := {|
  resolver := resolver; id_a := id; id_aaaa := id;
  socket_a := servfail_socket; socket_aaaa := servfail_socket;
  load_at := load_at; store_at := store_at
|}.

(** The upstream host of the example, [dns.example], and a resolver. *)
Definition sample_host : bytes := ascii_bytes "dns.example".
Definition sample_resolver : SocketAddr := SockV4 [# x09; x09; x09; x09] 53.
Definition sample_local : SocketAddr := SockV4 (vreplicate 4 x00) 0.

Lemma servfail_one qt id socket :
  0 <= id <= u16_max -> 0 <= qt <= u16_max -> socket = servfail_socket ->
  resolve_one_bootstrap sample_local 1000 sample_resolver sample_host qt id socket
  = Ok {| addrs := []; min_ttl_secs := u32_max |}.
Proof.
  intros Hid Hqt ->. unfold resolve_one_bootstrap. rewrite build_bootstrap_spec by done.
  rewrite decide_True by (vm_compute; repeat constructor; try discriminate; set_solver).
  cbn [mbind outcome_bind]. change (local_bind_for_peer sample_local sample_resolver) with (Some sample_local).
  cbn [ok_or mbind outcome_bind io_result servfail_socket udp_bind udp_connect udp_send udp_recv recv_within].
  change (firstn 2 (query_octets id (host_labels sample_host) qt) ++ be16 0x8182 ++
      skipn 4 (query_octets id (host_labels sample_host) qt))
    with (reply_octets id 0x8182 (host_labels sample_host) qt []).
  change (truncate _ _) with (reply_octets id 0x8182 (host_labels sample_host) qt []).
  apply parse_bootstrap_iff. do 2 eexists. split.
  - apply reply_response; try done. vm_compute. repeat constructor; discriminate.
  - done.
Qed.

(** One failing answer of a resolver keeps an upstream unresolvable.  The
    response code is not looked at, so a SERVFAIL without records counts as a
    success with no address and the largest TTL: for the following
    4294967295 seconds the empty answer is served from the cache, and the
    address of the upstream is not found whatever the resolver would answer
    by then. *)
Theorem bootstrap_failure_cached (id load_at store_at port : Z) (r' : resolver_run)
    (lookup_host : bytes -> Z -> option (list SocketAddr)) :
  let c := snd (resolve_with_bootstrap_resolver sample_local 1000 sample_host
                  (servfail_run sample_resolver id load_at store_at) ∅) in
  0 <= id <= u16_max -> 0 <= store_at -> store_at + 4294967295 * 1000 <= u64_max ->
  resolver r' = sample_resolver -> Bootstrap.load_at r' <= store_at + 4294967295 * 1000 ->
  resolve_upstream_addrs sample_local 1000 lookup_host sample_host port [r'] c
  = (Err DoHError.UpstreamIssue, c).
Proof.
  intros c Hid Hs Hmax Hr Ht.
  assert (normalize_bootstrap_host sample_host = Ok (ascii_bytes "dns.example.")) as Hn by by vm_compute.
  unfold c. rewrite (resolve_empty _ _ _ (ascii_bytes "dns.example.")); [|done|done|].
  2:{ intros qt id' socket Hqt Hsock Hid'. cbn in Hsock, Hid'. apply servfail_one;
      [by destruct Hid' as [-> | ->]|by destruct Hqt as [-> | ->]|tauto]. }
  cbn [snd servfail_run resolver Bootstrap.store_at].
  set (key := {| key_resolver := sample_resolver; key_host := ascii_bytes "dns.example." |}).
  set (c1 := store_bootstrap_cache _ _ _ _ _ _).
  assert (c1 !! key = Some {| cached_addrs := []; expire_at_ms := store_at + 4294967295 * 1000 |})
    as Hkey.
  { unfold c1, store_bootstrap_cache, saturating_add_u64, saturating_mul_u64.
    rewrite lookup_insert_eq. do 2 f_equal. lia. }
  set (e := {| cached_addrs := []; expire_at_ms := store_at + 4294967295 * 1000 |}) in *.
  pose proof (fun He => resolve_hit sample_local 1000 sample_host _ r' c1 e Hn He Ht) as Hhit.
  rewrite Hr in Hhit. specialize (Hhit Hkey).
  unfold resolve_upstream_addrs. change (parse_ip sample_host) with (@None IpAddr).
  unfold resolve_upstream_ips_with_bootstrap, first_success, lift, mbind, mutates_bind.
  by rewrite Hhit.
Qed.
(** ** Choosing the address of an upstream *)

Definition same_family (a b : SocketAddr) : Prop := is_v4 (sock_ip a) = is_v4 (sock_ip b).

(** A socket of the peer's family on the local port: the local address
    itself, or the unspecified address of the other family. *)
Lemma local_bind_for_peer_spec local peer :
  match local_bind_for_peer local peer with
  | Some b => same_family b peer /\ sock_port b = sock_port local /\
      (b = local \/ is_unspecified (sock_ip local) = true /\ is_unspecified (sock_ip b) = true)
  | None => ~ same_family local peer /\ is_unspecified (sock_ip local) = false
  end.
Proof.
  unfold same_family. destruct local as [o p|o p f s], peer as [o' p'|o' p' f' s'];
    cbn [local_bind_for_peer]; try (by repeat split; left).
  all: destruct (is_unspecified _) eqn:Hu; cbn [sock_ip sock_port is_v4]; split; try done.
  all: split; [done|right; by split].
Qed.

(** How the addresses before the chosen one were passed over, and what the
    chosen one has. *)
Definition passed_over (local : SocketAddr) (socket : SocketAddr -> UdpSocket) (a : SocketAddr) : Prop :=
  match local_bind_for_peer local a with
  | None => True
  | Some b => udp_bind (socket a) b = None /\ udp_connect (socket a) a <> None
  end.
Definition connects (local : SocketAddr) (socket : SocketAddr -> UdpSocket) (a : SocketAddr) : Prop :=
  exists b, local_bind_for_peer local a = Some b /\ same_family b a /\ sock_port b = sock_port local /\
    (b = local \/ is_unspecified (sock_ip local) = true /\ is_unspecified (sock_ip b) = true) /\
    udp_bind (socket a) b = None /\ udp_connect (socket a) a = None.

(** Of the addresses of an upstream the first one is chosen that has a
    local address of its family (the configured one, or the unspecified
    address of the other family when the configured one is unspecified, with
    the configured port), binds and connects; those before it had none or
    failed to connect. *)
Theorem connect_first_spec (local : SocketAddr) (socket : SocketAddr -> UdpSocket)
    (addrs : list SocketAddr) (a : SocketAddr) :
  connect_first local socket addrs None false = Ok a <->
  exists l1 l2, addrs = l1 ++ a :: l2 /\ Forall (passed_over local socket) l1 /\
    connects local socket a.
Proof.
  generalize (@None io_error), false.
  induction addrs as [|x addrs IH]; intros err mism; cbn [connect_first].
  { split; [by destruct err|]. intros ([|] & ? & ? & _); done. }
  destruct (local_bind_for_peer local x) as [b|] eqn:Hb.
  - destruct (udp_bind (socket x) b) as [e|] eqn:Hbind; cbn [io_result mbind outcome_bind].
    + split; [done|]. intros ([|y l1] & l2 & Heq & Hl1 & Hc); injection Heq as <- ->.
      * destruct Hc as (b' & ? & _ & _ & _ & ? & _). congruence.
      * inversion Hl1 as [|? ? Hx _]; subst. unfold passed_over in Hx. rewrite Hb in Hx.
        destruct Hx. congruence.
    + destruct (udp_connect (socket x) x) as [e|] eqn:Hconn.
      * rewrite IH. split.
        -- intros (l1 & l2 & -> & Hl1 & Hc). exists (x :: l1), l2. split_and!; [done| |done].
           constructor; [|done]. unfold passed_over. rewrite Hb. by rewrite Hconn.
        -- intros ([|y l1] & l2 & Heq & Hl1 & Hc); injection Heq as <- ->.
           ++ destruct Hc as (b' & ? & _ & _ & _ & _ & ?). congruence.
           ++ exists l1, l2. split_and!; [done|by inversion Hl1|done].
      * split.
        -- intros [= <-]. exists [], addrs. split_and!; [done|constructor|].
           pose proof (local_bind_for_peer_spec local x) as Hs. rewrite Hb in Hs.
           exists b. tauto.
        -- intros ([|y l1] & l2 & Heq & Hl1 & Hc); injection Heq as <- ->; [done|].
           inversion Hl1 as [|? ? Hx _]; subst. unfold passed_over in Hx. rewrite Hb in Hx.
           destruct Hx. congruence.
  - rewrite IH. split.
    + intros (l1 & l2 & -> & Hl1 & Hc). exists (x :: l1), l2. split_and!; [done| |done].
      constructor; [|done]. unfold passed_over. by rewrite Hb.
    + intros ([|y l1] & l2 & Heq & Hl1 & Hc); injection Heq as <- ->.
      * destruct Hc as (b' & ? & _). congruence.
      * exists l1, l2. split_and!; [done|by inversion Hl1|done].
Qed.
End properties.

Lemma parse_dns_name_lower_spec_witness :
  0 <= 12 /\ total (parse_dns_name_lower (repeat x00 12 ++ [xc0; x0c]) 12).
Proof.
  split; [done|]. exact (proj1 (parse_dns_name_lower_spec (repeat x00 12 ++ [xc0; x0c]) 12 ltac:(done))).
Defined.

(** A reply with an A and an AAAA record to the A query for [dns.example]. *)
Definition sample_records : list (IpAddr * Z) :=
  [(V4 [# x0a; x00; x00; x01], 300); (UNSPECIFIED_V6, 60); (V4 [# x0a; x00; x00; x02], 120)].

Lemma bootstrap_roundtrip_witness :
  parse_bootstrap_dns_response (reply_octets 7 0x8180 (host_labels sample_host) 1 sample_records) 7 1
  = Ok {| addrs := [V4 [# x0a; x00; x00; x01]; V4 [# x0a; x00; x00; x02]]; min_ttl_secs := 120 |}.
Proof.
  pose proof (bootstrap_roundtrip sample_host 1 7 0x8180 sample_records
    ltac:(done) ltac:(done) ltac:(done) ltac:(done) ltac:(done)
    ltac:(repeat constructor; cbn; lia)) as H.
  cbv zeta in H. rewrite decide_True in H by (vm_compute; repeat constructor; try discriminate; set_solver).
  exact (proj2 (proj2 H)).
Defined.

(** The resolver works again when it is asked next, an hour later. *)
Definition sample_later : resolver_run := {|
  resolver := sample_resolver; id_a := 8; id_aaaa := 9;
  socket_a := {| udp_bind _ := None; udp_connect _ := None; udp_send _ := None;
    udp_recv _ := Datagram (reply_octets 8 0x8180 (host_labels sample_host) 1 sample_records) |};
  socket_aaaa := {| udp_bind _ := None; udp_connect _ := None; udp_send _ := None;
    udp_recv _ := Datagram (reply_octets 9 0x8180 (host_labels sample_host) 28 sample_records) |};
  load_at := 3601005; store_at := 3601010
|}.

Lemma bootstrap_failure_cached_witness :
  let run := servfail_run sample_resolver 7 1000 1005 in
  let c := snd (resolve_with_bootstrap_resolver sample_local 1000 sample_host run ∅) in
  resolve_upstream_addrs sample_local 1000 (fun _ _ => None) sample_host 443 [sample_later] c
  = (Err DoHError.UpstreamIssue, c).
Proof.
  exact (bootstrap_failure_cached 7 1000 1005 443 sample_later (fun _ _ => None)
    ltac:(lia) ltac:(lia) ltac:(lia) eq_refl ltac:(cbn; lia)).
Defined.
