(* ===== verification/F64.v ===== *)
(** * 64-bit floating point

    [f64] as IEEE 754 binary64, by the executable specification of the
    Standard Library ([SpecFloat]): round to nearest, ties to even. *)

From Stdlib Require Import Floats.SpecFloat.
From S2P Require Import Prelude.

Definition f64 : Type := spec_float.

Definition prec : Z := 53.
Definition emax : Z := 1024.

(** [n as f64] *)
Definition of_int (n : Z) : f64 := binary_normalize prec emax n 0 false.
Definition add (a b : f64) : f64 := SFadd prec emax a b.
Definition minus (a b : f64) : f64 := SFsub prec emax a b.
Definition times (a b : f64) : f64 := SFmul prec emax a b.
Definition over (a b : f64) : f64 := SFdiv prec emax a b.
Definition lt (a b : f64) : bool := SFltb a b.
Definition le (a b : f64) : bool := SFleb a b.

Definition zero : f64 := of_int 0.
Definition one : f64 := of_int 1.

(** [x.is_finite()] *)
Definition is_finite (a : f64) : bool :=
  match a with S754_zero _ | S754_finite _ _ _ => true | _ => false end.

Example one_third_rounds : over one (of_int 3) = S754_finite false 6004799503160661 (-54).
Proof. by vm_compute. Qed.
