(* ===== verification/Upstream.v ===== *)
(** * Exchanging a query with the upstreams

    src/libdoh/src/upstream/mod.rs, stats.rs, load_balance.rs and
    parallel.rs, and the types of src/libdoh/src/globals.rs they use.

    Asking one upstream ([exchange_single]) and the time it takes are
    arguments, as is the stream of random numbers of the load balancer.  The
    tasks of the parallel mode answer in some order: the sequence of their
    messages is an argument. *)

From S2P Require Import Prelude Bytes Text Net RrTypes Msg Errors F64.

(** ** Upstreams *)

(** The configuration of a DoH upstream; the atomics and clients of
    [DohUpstream] are the state of Breaker.v and DohClient.v. *)
Record DohUpstream := {
  url : bytes;
  doh_host : bytes;
  doh_port : Z;
  path : bytes;
  authority : bytes;
  h3_only : bool
}.
Record DotUpstream := {
  dot_host : bytes;
  dot_port : Z
}.
Module Upstream.
Inductive t :=
  | Dns (server_address : SocketAddr)
  | Doh (doh : DohUpstream)
  | Dot (dot : DotUpstream).
End Upstream.

Module UpstreamMode.
Inductive t := LoadBalance | Parallel | FastestAddr.

Definition from_str (value : bytes) : option t :=
  if bool_decide (value = ascii_bytes "load_balance") then Some LoadBalance
  else if bool_decide (value = ascii_bytes "parallel") then Some Parallel
  else if bool_decide (value = ascii_bytes "fastest_addr") then Some FastestAddr
  else None.
End UpstreamMode.

Definition upstream_address (upstream : Upstream.t) : bytes :=
  match upstream with
  | Upstream.Dns addr => fmt_socket_addr addr
  | Upstream.Doh doh => url doh
  | Upstream.Dot dot => ascii_bytes "tls://" ++ dot_host dot ++ [x3a] ++ decimal (dot_port dot)
  end.

(** ** Statistics *)
Module UpstreamStatistics.
Record t := {
  error : option bytes;
  address : bytes;
  query_duration : Duration;
  is_cached : bool
}.

Definition success (address : bytes) (query_duration : Duration) : t :=
  {| error := None; address := address; query_duration := query_duration; is_cached := false |}.
Definition failure (address : bytes) (query_duration : Duration) (error : bytes) : t :=
  {| error := Some error; address := address; query_duration := query_duration; is_cached := false |}.
End UpstreamStatistics.

Record QueryStatistics := {
  main : list UpstreamStatistics.t;
  fallback : list UpstreamStatistics.t
}.
Definition QueryStatistics_default : QueryStatistics := {| main := []; fallback := [] |}.
Definition with_main (main : list UpstreamStatistics.t) : QueryStatistics :=
  {| main := main; fallback := [] |}.

(** A [Result<Vec<u8>, DoHError>] kept as a value. *)
Definition reply : Type := DoHError.t + bytes.

Record ExchangeOutcome := {
  packet : reply;
  query_stats : QueryStatistics
}.

(** [call.await] whose result is inspected. *)
Definition settle (m : outcome DoHError.t bytes) : infallible reply :=
  match m with
  | Ok a => Ok (inr a)
  | Err e => Ok (inl e)
  | Panic => Panic
  | Diverge => Diverge
  end.

(** The statistics of one attempt. *)
Definition attempt_stat (address : bytes) (duration : Duration) (r : reply) : UpstreamStatistics.t :=
  match r with
  | inr _ => UpstreamStatistics.success address duration
  | inl err => UpstreamStatistics.failure address duration (DoHError.fmt err)
  end.

(** [Vec<Option<UpstreamStatistics>>] with one place per upstream. *)
Abbreviation attempts_t := (list (option UpstreamStatistics.t)).
Definition flatten {A : Type} (l : list (option A)) : list A := omap (fun x => x) l.

(** [v[i]] and [v[i] = x] *)
Definition at_index {E A : Type} (l : list A) (i : nat) : outcome E A := or_panic (l !! i).
Definition set_index {E A : Type} (l : list A) (i : nat) (x : A) : outcome E (list A) :=
  _ ← at_index l i; Ok (<[i := x]> l).

(** [v.swap_remove(i)] *)
Definition swap_remove {E A : Type} (l : list A) (i : nat) : outcome E (A * list A) :=
  x ← at_index l i;
  match last l with
  | Some y => Ok (x, removelast (<[i := y]> l))
  | None => Panic
  end.

(** ** Round-trip times *)
Record UpstreamRttStats := {
  rtt_sum_us : f64;
  req_num : f64
}.
Definition UpstreamRttStats_default : UpstreamRttStats := {| rtt_sum_us := zero; req_num := zero |}.
Definition rtt_update (self : UpstreamRttStats) (rtt : Duration) : UpstreamRttStats := {|
  rtt_sum_us := add (rtt_sum_us self) (of_int (as_micros rtt));
  req_num := add (req_num self) one
|}.

Abbreviation rtt_stats := (gmap bytes UpstreamRttStats).

Section exchange.
Context `{BO : ByteOrder}.

Definition validate_exchange_packet (packet : bytes) : outcome DoHError.t bytes :=
  valid ← map_err (fun _ => DoHError.UpstreamIssue) (validate_response_packet packet);
  if (valid : bool) then Ok packet else Err DoHError.UpstreamIssue.

(** [exchange_single(doh, query, upstream)], and the time of the attempt at
    the upstream of an index. *)
Context (exchange_single : bytes -> Upstream.t -> outcome DoHError.t bytes).
Context (elapsed : nat -> Duration).

(** [exchange_single(..).await.and_then(validate_exchange_packet)] *)
Definition ask (query : bytes) (upstream : Upstream.t) : outcome DoHError.t bytes :=
  exchange_single query upstream ≫= validate_exchange_packet.

(** The case of a single upstream, the same in both modes. *)
Definition exchange_only (query : bytes) (upstream : Upstream.t) : infallible ExchangeOutcome :=
  result ← settle (ask query upstream);
  let address := upstream_address upstream in
  Ok {| packet := result; query_stats := with_main [attempt_stat address (elapsed 0) result] |}.

(** ** The load balancer *)
Definition LOAD_BALANCE_FAILURE_PENALTY : Duration := from_secs 10.

Definition upstream_key (upstream : Upstream.t) : bytes := upstream_address upstream.

Definition weight_of (stat : UpstreamRttStats) : f64 :=
  if le (rtt_sum_us stat) zero || le (req_num stat) zero then one
  else over one (over (rtt_sum_us stat) (req_num stat)).

Definition calc_weights (stats : rtt_stats) (upstreams : list Upstream.t) : list f64 :=
  map (fun upstream => weight_of (default UpstreamRttStats_default (stats !! upstream_key upstream)))
    upstreams.

(** Only finite positive weights count. *)
Definition counts (w : f64) : bool := is_finite w && lt zero w.

Fixpoint total_weight (weights : list f64) (remaining : list nat) (total : f64) : infallible f64 :=
  match remaining with
  | [] => Ok total
  | idx :: remaining =>
      w ← at_index weights idx;
      total_weight weights remaining (if counts w then add total w else total)
  end.

Fixpoint pick_from (weights : list f64) (remaining : list nat) (pos : nat) (cursor : f64)
    : infallible nat :=
  match remaining with
  | [] => Ok 0%nat
  | idx :: remaining =>
      w ← at_index weights idx;
      if negb (is_finite w) || le w zero then pick_from weights remaining (S pos) cursor
      else if le cursor w then Ok pos
      else pick_from weights remaining (S pos) (minus cursor w)
  end.

(** [random] is [rand::random::<f64>()]. *)
Definition sample_weighted_index (random : f64) (remaining : list nat) (weights : list f64)
    : infallible nat :=
  total ← total_weight weights remaining zero;
  if le total zero then Ok 0%nat
  else pick_from weights remaining 0 (times random total).

Definition update_rtt (upstream : Upstream.t) (elapsed : Duration) (stats : rtt_stats) : rtt_stats :=
  let key := upstream_key upstream in
  let current := default UpstreamRttStats_default (stats !! key) in
  <[key := rtt_update current elapsed]> stats.

(** The loop: one turn per upstream that remains; [randoms] are the numbers
    drawn from here on. *)
Fixpoint balance_loop (fuel : nat) (query : bytes) (upstreams : list Upstream.t) (weights : list f64)
    (randoms : nat -> f64) (remaining : list nat) (failures : list UpstreamAttemptError)
    (attempts : attempts_t) : mutates rtt_stats Empty_set ExchangeOutcome :=
  match remaining with
  | [] =>
      mret {| packet := inl (DoHError.from_upstream_attempts failures);
              query_stats := with_main (flatten attempts) |}
  | _ =>
      match fuel with
      | O => lift Diverge
      | S fuel =>
          pick_pos ← lift (sample_weighted_index (randoms 0%nat) remaining weights);
          '(idx, remaining) ← lift (swap_remove remaining pick_pos);
          upstream ← lift (at_index upstreams idx);
          result ← lift (settle (ask query upstream));
          let duration := elapsed idx in
          let address := upstream_address upstream in
          match result with
          | inr packet =>
              _ ← update (fun stats => Ok (update_rtt upstream duration stats));
              attempts ← lift
                (set_index attempts idx (Some (UpstreamStatistics.success address duration)));
              stat ← lift (at_index attempts idx);
              stat ← lift (or_panic stat);
              mret {| packet := inr packet; query_stats := with_main [stat] |}
          | inl err =>
              let failures := failures ++ [attempt_error address duration err] in
              _ ← update (fun stats => Ok (update_rtt upstream LOAD_BALANCE_FAILURE_PENALTY stats));
              attempts ← lift
                (set_index attempts idx
                   (Some (UpstreamStatistics.failure address duration (DoHError.fmt err))));
              balance_loop fuel query upstreams weights (fun n => randoms (S n)) remaining failures
                attempts
          end
      end
  end.

Definition exchange_load_balance (randoms : nat -> f64) (query : bytes) (upstreams : list Upstream.t)
    : mutates rtt_stats Empty_set ExchangeOutcome :=
  match upstreams with
  | [upstream] => lift (exchange_only query upstream)
  | _ =>
      stats ← current;
      let weights := calc_weights stats upstreams in
      balance_loop (length upstreams) query upstreams weights randoms
        (seq 0 (length upstreams)) [] (replicate (length upstreams) None)
  end.

(** ** The parallel mode *)

(** The message of a task. *)
Record AttemptOutcome := {
  ao_idx : nat;
  ao_result : reply;
  ao_duration : Duration
}.

(** What the task of an upstream sends. *)
Definition attempt_task (query : bytes) (upstreams : list Upstream.t) (i : nat)
    : infallible AttemptOutcome :=
  upstream ← at_index upstreams i;
  r ← settle (ask query upstream);
  Ok {| ao_idx := i; ao_result := r; ao_duration := elapsed i |}.

(** The channel of the tasks: the upstreams in the order in which their
    tasks send, and whether it is closed afterwards, which takes the other
    tasks to have died; while one of them runs, receiving waits. *)
Record channel := {
  arrivals : list nat;
  closed : bool
}.

(** [for _ in 0..upstreams.len() { match rx.recv().await .. }] *)
Fixpoint parallel_loop (query : bytes) (upstreams : list Upstream.t) (count : nat)
    (arrivals : list nat) (closed : bool) (failures : list UpstreamAttemptError)
    (attempts : attempts_t) : infallible ExchangeOutcome :=
  let finish :=
    Ok {| packet := inl (DoHError.from_upstream_attempts failures);
          query_stats := with_main (flatten attempts) |} in
  match count with
  | O => finish
  | S count =>
      match arrivals with
      | [] => if closed then finish else Diverge
      | i :: arrivals =>
          m ← attempt_task query upstreams i;
          upstream ← at_index upstreams (ao_idx m);
          let address := upstream_address upstream in
          match ao_result m with
          | inr packet =>
              Ok {| packet := inr packet;
                    query_stats := with_main [UpstreamStatistics.success address (ao_duration m)] |}
          | inl err =>
              attempts ← set_index attempts (ao_idx m)
                (Some (UpstreamStatistics.failure address (ao_duration m) (DoHError.fmt err)));
              parallel_loop query upstreams count arrivals closed
                (failures ++ [attempt_error address (ao_duration m) err]) attempts
          end
      end
  end.

Definition exchange_parallel (rx : channel) (query : bytes) (upstreams : list Upstream.t)
    : infallible ExchangeOutcome :=
  match upstreams with
  | [upstream] => exchange_only query upstream
  | _ =>
      parallel_loop query upstreams (length upstreams) (arrivals rx) (closed rx) []
        (replicate (length upstreams) None)
  end.
End exchange.
