(* ===== verification/UpstreamFacts.v ===== *)
(** * Facts about the exchange with the upstreams

    Picking from a list, and what the attempts made so far leave behind. *)

From S2P Require Import Prelude Bytes Net Msg Errors F64 Upstream.

(** ** Lists *)
Lemma at_index_ok {E A} (l : list A) i x : l !! i = Some x -> @at_index E A l i = Ok x.
Proof. unfold at_index. by intros ->. Qed.

Lemma at_index_lt {E A} (l : list A) i :
  (i < length l)%nat -> exists x, @at_index E A l i = Ok x /\ l !! i = Some x.
Proof.
  intros H. destruct (lookup_lt_is_Some_2 l i H) as [x Hx]. exists x. by rewrite (at_index_ok l i x).
Qed.

Lemma set_index_ok {E A} (l : list A) i x :
  (i < length l)%nat -> @set_index E A l i x = Ok (<[i := x]> l).
Proof. intros H. unfold set_index. by destruct (at_index_lt (E := E) l i H) as (y & -> & _). Qed.

Lemma swap_remove_ok {E A} (l : list A) i :
  (i < length l)%nat -> exists x l', @swap_remove E A l i = Ok (x, l') /\ l ≡ₚ x :: l'.
Proof.
  intros Hi. unfold swap_remove. destruct (at_index_lt (E := E) l i Hi) as (x & -> & Hx).
  cbn [mbind outcome_bind]. destruct l as [|y0 l0 _] using rev_ind; [cbn in Hi; lia|].
  rewrite last_snoc. do 2 eexists. split; [done|]. rewrite length_app in Hi. cbn in Hi.
  destruct (decide (i = length l0)) as [->|Hne].
  - rewrite list_lookup_middle in Hx by done. injection Hx as ->.
    rewrite insert_app_r_alt by lia. rewrite Nat.sub_diag. cbn.
    rewrite removelast_last. by rewrite Permutation_app_comm.
  - rewrite lookup_app_l in Hx by lia. rewrite insert_app_l by lia. rewrite removelast_last.
    rewrite <- (take_drop_middle l0 i x Hx) at 1. rewrite insert_take_drop by lia.
    rewrite Permutation_app_comm. cbn.
    change (y0 :: take i l0 ++ x :: drop (S i) l0) with ((y0 :: take i l0) ++ x :: drop (S i) l0).
    rewrite <- Permutation_middle. f_equiv. by rewrite <- Permutation_middle.
Qed.

(** The attempts vector of [n] upstreams with the statistics [f] of those
    that have been tried. *)
Definition attempts_of (n : nat) (f : nat -> UpstreamStatistics.t) (tried : list nat) : attempts_t :=
  map (fun i => if decide (i ∈ tried) then Some (f i) else None) (seq 0 n).

Lemma length_attempts_of n f tried : length (attempts_of n f tried) = n.
Proof. unfold attempts_of. by rewrite length_map, length_seq. Qed.

Lemma attempts_of_lookup n f tried i :
  (i < n)%nat -> attempts_of n f tried !! i = Some (if decide (i ∈ tried) then Some (f i) else None).
Proof. intros. unfold attempts_of. rewrite list_lookup_fmap, lookup_seq_lt by done. done. Qed.

Lemma attempts_of_nil n f : attempts_of n f [] = replicate n None.
Proof.
  apply list_eq. intros i. destruct (decide (i < n)%nat).
  - rewrite attempts_of_lookup, lookup_replicate_2 by done. done.
  - rewrite !lookup_ge_None_2; [done|rewrite length_replicate; lia|rewrite length_attempts_of; lia].
Qed.

Lemma attempts_of_set n f tried i :
  (i < n)%nat -> <[i := Some (f i)]> (attempts_of n f tried) = attempts_of n f (tried ++ [i]).
Proof.
  intros Hi. apply list_eq. intros j. destruct (decide (j < n)%nat) as [Hj|Hj].
  - destruct (decide (j = i)) as [->|Hne].
    + rewrite list_lookup_insert_eq by by rewrite length_attempts_of.
      rewrite attempts_of_lookup by done. rewrite decide_True; [done|]. set_solver.
    + rewrite list_lookup_insert_ne by done. rewrite !attempts_of_lookup by done.
      f_equal. apply decide_ext. set_solver.
  - rewrite !lookup_ge_None_2; [done|rewrite length_attempts_of; lia|].
    rewrite length_insert, length_attempts_of. lia.
Qed.

Lemma flatten_map_Some {A B} (f : A -> B) (l : list A) : flatten (map (fun x => Some (f x)) l) = map f l.
Proof. unfold flatten. induction l as [|x l IH]; cbn; [done|]. by rewrite <- IH. Qed.

(** When all have been tried, the statistics are those of all upstreams, in
    order. *)
Lemma attempts_of_all n f tried :
  tried ≡ₚ seq 0 n -> flatten (attempts_of n f tried) = map f (seq 0 n).
Proof.
  intros Hp. rewrite <- flatten_map_Some. f_equal. unfold attempts_of.
  apply map_ext_in. intros i Hi. rewrite decide_True; [done|]. rewrite Hp.
  by apply list_elem_of_In.
Qed.

(** ** The choice of the load balancer *)
Lemma total_weight_ok weights remaining total :
  Forall (fun i => (i < length weights)%nat) remaining ->
  exists t, total_weight weights remaining total = Ok t.
Proof.
  intros H; revert total. induction H as [|i remaining Hi H IH]; intros total; [by eexists|].
  cbn [total_weight]. destruct (at_index_lt (E := Empty_set) weights i Hi) as (w & -> & _). apply IH.
Qed.

Lemma pick_from_ok weights remaining pos cursor :
  Forall (fun i => (i < length weights)%nat) remaining ->
  exists k, pick_from weights remaining pos cursor = Ok k /\
    (k = 0%nat \/ (pos <= k < pos + length remaining)%nat).
Proof.
  intros H; revert pos cursor. induction H as [|i remaining Hi H IH]; intros pos cursor.
  { exists 0%nat. split; [done|by left]. }
  cbn [pick_from]. destruct (at_index_lt (E := Empty_set) weights i Hi) as (w & -> & _).
  cbn [mbind outcome_bind length].
  destruct (negb (is_finite w) || le w zero); [|destruct (le cursor w)].
  - destruct (IH (S pos) cursor) as (k & -> & Hk). exists k. split; [done|]. lia.
  - exists pos. split; [done|right; lia].
  - destruct (IH (S pos) (minus cursor w)) as (k & -> & Hk). exists k. split; [done|]. lia.
Qed.

(** Whatever the weights and the random number, the choice is a position. *)
Lemma sample_weighted_index_ok random remaining weights :
  remaining <> [] -> Forall (fun i => (i < length weights)%nat) remaining ->
  exists k, sample_weighted_index random remaining weights = Ok k /\ (k < length remaining)%nat.
Proof.
  intros Hne H. assert (0 < length remaining)%nat by (destruct remaining; cbn; [done|lia]).
  unfold sample_weighted_index. destruct (total_weight_ok weights remaining zero H) as (t & ->).
  cbn [mbind outcome_bind]. destruct (le t zero); [by exists 0%nat|].
  destruct (pick_from_ok weights remaining 0 (times random t) H) as (k & -> & Hk).
  exists k. split; [done|]. destruct Hk as [->|]; lia.
Qed.

(** ** Attempts *)
Section attempts.
Context `{BO : ByteOrder}.
Context (exchange_single : bytes -> Upstream.t -> outcome DoHError.t bytes).
Context (elapsed : nat -> Duration).
Context (query : bytes) (upstreams : list Upstream.t).
Abbreviation n := (length upstreams).
Abbreviation ask := (ask exchange_single query).

(** The upstream of an index answers with a packet, or fails with an error. *)
Definition answers (i : nat) (p : bytes) : Prop :=
  exists u, upstreams !! i = Some u /\ ask u = Ok p.
Definition fails (i : nat) (e : DoHError.t) : Prop :=
  exists u, upstreams !! i = Some u /\ ask u = Err e.

(** Each attempt ends. *)
Definition all_end : Prop := Forall (fun u => total (ask u)) upstreams.

Definition address_at (i : nat) : bytes := default [] (upstream_address <$> upstreams !! i).
Definition error_at (i : nat) : DoHError.t :=
  match ask <$> upstreams !! i with Some (Err e) => e | _ => DoHError.UpstreamIssue end.
Definition failure_at (i : nat) : UpstreamAttemptError :=
  attempt_error (address_at i) (elapsed i) (error_at i).
Definition failure_stat_at (i : nat) : UpstreamStatistics.t :=
  UpstreamStatistics.failure (address_at i) (elapsed i) (DoHError.fmt (error_at i)).
Definition success_stat_at (i : nat) : UpstreamStatistics.t :=
  UpstreamStatistics.success (address_at i) (elapsed i).

(** The attempts vector after the upstreams [tried] have failed. *)
Definition tried_attempts (tried : list nat) : attempts_t := attempts_of n failure_stat_at tried.

Lemma upstream_at i : (i < n)%nat -> exists u, upstreams !! i = Some u.
Proof. apply lookup_lt_is_Some_2. Qed.

(** One attempt, once it has ended. *)
Lemma settle_ask i u :
  all_end -> upstreams !! i = Some u ->
  (exists p, ask u = Ok p /\ settle (ask u) = Ok (inr p) /\ answers i p) \/
  (ask u = Err (error_at i) /\ settle (ask u) = Ok (inl (error_at i)) /\ fails i (error_at i)).
Proof.
  intros Hall Hu. pose proof (Forall_lookup_1 _ _ _ _ Hall Hu) as Ht.
  unfold error_at. rewrite Hu. cbn.
  unfold total in Ht. destruct (ask u) as [p|e| |] eqn:Ha; cbn in Ht; try done.
  - left. exists p. split_and!; [done|done|by exists u].
  - right. split_and!; [done|done|by exists u].
Qed.
(** The statistics of the load balancer after attempts. *)
Definition rtt_at (i : nat) (d : Duration) (s : rtt_stats) : rtt_stats :=
  match upstreams !! i with Some u => update_rtt u d s | None => s end.
Definition penalties (tried : list nat) (s : rtt_stats) : rtt_stats :=
  fold_left (fun s i => rtt_at i LOAD_BALANCE_FAILURE_PENALTY s) tried s.

Lemma penalties_snoc tried i s :
  penalties (tried ++ [i]) s = rtt_at i LOAD_BALANCE_FAILURE_PENALTY (penalties tried s).
Proof. unfold penalties. by rewrite fold_left_app. Qed.

(** How an exchange ends: upstreams were tried one at a time, each at most
    once; they failed, until one answered or none was left. *)
Inductive exchanged (oc : ExchangeOutcome) : list nat -> option nat -> Prop :=
  | answered tried i p :
      NoDup (tried ++ [i]) -> Forall (fun j => exists e, fails j e) tried -> answers i p ->
      oc = {| packet := inr p; query_stats := with_main [success_stat_at i] |} ->
      exchanged oc tried (Some i)
  | exhausted tried :
      tried ≡ₚ seq 0 n -> Forall (fun j => exists e, fails j e) tried ->
      oc = {| packet := inl (DoHError.from_upstream_attempts (map failure_at tried));
              query_stats := with_main (map failure_stat_at (seq 0 n)) |} ->
      exchanged oc tried None.

(** The statistics an exchange of the load balancer leaves. *)
Definition stats_after (tried : list nat) (winner : option nat) (s : rtt_stats) : rtt_stats :=
  match winner with
  | Some i => rtt_at i (elapsed i) (penalties tried s)
  | None => penalties tried s
  end.

Lemma balance_loop_spec fuel weights randoms tried remaining s :
  length weights = n -> all_end -> tried ++ remaining ≡ₚ seq 0 n -> (length remaining <= fuel)%nat ->
  Forall (fun j => exists e, fails j e) tried ->
  exists oc tried' winner,
    balance_loop exchange_single elapsed fuel query upstreams weights randoms remaining
      (map failure_at tried) (tried_attempts tried) (penalties tried s)
    = (Ok oc, stats_after tried' winner s) /\ exchanged oc tried' winner.
Proof.
  unfold tried_attempts. intros Hw Hall. revert randoms tried remaining.
  induction fuel as [|fuel IH]; intros randoms tried remaining Hp Hf Hfail.
  { destruct remaining; [|cbn in Hf; lia]. rewrite app_nil_r in Hp. cbn [balance_loop].
    eexists _, tried, None. split; [done|]. constructor; [done|done|]. by rewrite attempts_of_all. }
  destruct remaining as [|r0 rs].
  { rewrite app_nil_r in Hp. cbn [balance_loop].
    eexists _, tried, None. split; [done|]. constructor; [done|done|]. by rewrite attempts_of_all. }
  assert (forall i, i ∈ r0 :: rs -> (i < n)%nat) as Hlt.
  { intros i Hi. assert (i ∈ seq 0 n) as Hs by (rewrite <- Hp; set_solver).
    apply elem_of_seq in Hs. lia. }
  assert (Forall (fun i => (i < length weights)%nat) (r0 :: rs)) as Hb.
  { apply Forall_forall. rewrite Hw. exact Hlt. }
  destruct (sample_weighted_index_ok (randoms 0%nat) (r0 :: rs) weights ltac:(done) Hb) as (k & Hk & Hkl).
  destruct (swap_remove_ok (E := Empty_set) (r0 :: rs) k Hkl) as (i & rest & Hsw & Hperm).
  assert (i < n)%nat as Hi by (apply Hlt; rewrite Hperm; by left).
  destruct (upstream_at i Hi) as [u Hu].
  assert ((tried ++ [i]) ++ rest ≡ₚ seq 0 n) as Hp'.
  { rewrite <- app_assoc. cbn. by rewrite <- Hperm. }
  assert (address_at i = upstream_address u) as Haddr by (unfold address_at; by rewrite Hu).
  cbn [balance_loop].
  unfold mbind, mutates_bind, lift, update. rewrite Hk, Hsw.
  rewrite (at_index_ok (E := Empty_set) upstreams i u Hu).
  destruct (settle_ask i u Hall Hu) as [(p & Hask & -> & Hans)|(Hask & -> & Hfl)].
  - rewrite (set_index_ok (E := Empty_set)) by by rewrite length_attempts_of.
    rewrite (at_index_ok (E := Empty_set) (<[i := _]> (attempts_of n failure_stat_at tried)) i
      (Some (success_stat_at i)))
      by (rewrite list_lookup_insert_eq by (by rewrite length_attempts_of);
          unfold success_stat_at; by rewrite Haddr).
    eexists _, tried, (Some i). split.
    + cbn [or_panic mret mutates_ret]. unfold stats_after, rtt_at. by rewrite Hu.
    + econstructor; [|done|done|done].
      assert (NoDup ((tried ++ [i]) ++ rest)) as Hnd by (rewrite Hp'; apply NoDup_seq).
      by apply NoDup_app in Hnd as (? & _).
  - rewrite (set_index_ok (E := Empty_set)) by by rewrite length_attempts_of.
    destruct (IH (fun n => randoms (S n)) (tried ++ [i]) rest Hp') as (oc & tried' & w & Heq & Hex).
    { apply Permutation_length in Hperm. cbn in Hperm, Hf. lia. }
    { apply Forall_app. split; [done|]. repeat constructor. by eexists. }
    exists oc, tried', w. split; [|done]. rewrite <- Heq, penalties_snoc, map_app.
    rewrite <- attempts_of_set by done. unfold rtt_at. rewrite Hu.
    assert (map failure_at [i] = [attempt_error (upstream_address u) (elapsed i) (error_at i)])
      as -> by (cbn; unfold failure_at; by rewrite Haddr).
    unfold failure_stat_at. by rewrite Haddr.
Qed.

Lemma parallel_loop_spec count arrivals is_closed tried :
  all_end -> NoDup (tried ++ arrivals) -> Forall (fun i => (i < n)%nat) (tried ++ arrivals) ->
  Forall (fun j => exists e, fails j e) tried -> (length tried + count = n)%nat ->
  match parallel_loop exchange_single elapsed query upstreams count arrivals is_closed
          (map failure_at tried) (tried_attempts tried) with
  | Ok oc =>
      (exists l i p, l ++ [i] `prefix_of` tried ++ arrivals /\
         Forall (fun j => exists e, fails j e) l /\ answers i p /\
         oc = {| packet := inr p; query_stats := with_main [success_stat_at i] |}) \/
      ((length (tried ++ arrivals) = n \/ is_closed = true) /\
       Forall (fun j => exists e, fails j e) (tried ++ arrivals) /\
       oc = {| packet := inl (DoHError.from_upstream_attempts (map failure_at (tried ++ arrivals)));
               query_stats := with_main (flatten (tried_attempts (tried ++ arrivals))) |})
  | Diverge =>
      is_closed = false /\ (length (tried ++ arrivals) < n)%nat /\
      Forall (fun j => exists e, fails j e) (tried ++ arrivals)
  | _ => False
  end.
Proof.
  unfold tried_attempts. intros Hall. revert arrivals tried.
  induction count as [|count IH]; intros arrivals tried Hnd Hlt Hfail Hc; cbn [parallel_loop].
  { assert (arrivals = []) as ->.
    { assert (tried ++ arrivals ⊆+ seq 0 n) as Hsub.
      { apply NoDup_submseteq; [done|]. intros x Hx. apply elem_of_seq.
        pose proof (proj1 (Forall_forall _ _) Hlt x Hx) as Hxl. cbn in Hxl. lia. }
      apply submseteq_length in Hsub. rewrite length_app, length_seq in Hsub.
      destruct arrivals; [done|cbn in Hsub; lia]. }
    rewrite app_nil_r in *. right. split; [left; lia|]. done. }
  destruct arrivals as [|i arrivals].
  { rewrite app_nil_r in *. destruct is_closed; [by right; split; [right|]|].
    split; [done|]. split; [lia|done]. }
  assert (i < n)%nat as Hi by (apply (proj1 (Forall_forall _ _) Hlt); set_solver).
  destruct (upstream_at i Hi) as [u Hu].
  assert (address_at i = upstream_address u) as Haddr by (unfold address_at; by rewrite Hu).
  unfold attempt_task. rewrite (at_index_ok (E := Empty_set) upstreams i u Hu). cbn [mbind outcome_bind].
  destruct (settle_ask i u Hall Hu) as [(p & Hask & -> & Hans)|(Hask & -> & Hfl)];
    cbn [mbind outcome_bind ao_idx ao_result ao_duration];
    rewrite (at_index_ok (E := Empty_set) upstreams i u Hu); cbn [mbind outcome_bind].
  - left. exists tried, i, p. split_and!; [|done|done|].
    + exists arrivals. by rewrite <- app_assoc.
    + unfold success_stat_at. by rewrite Haddr.
  - rewrite (set_index_ok (E := Empty_set)) by by rewrite length_attempts_of.
    cbn [mbind outcome_bind].
    assert (tried ++ i :: arrivals = (tried ++ [i]) ++ arrivals) as Heq by by rewrite <- app_assoc.
    rewrite Heq in *.
    specialize (IH arrivals (tried ++ [i]) Hnd Hlt).
    rewrite map_app, <- attempts_of_set in IH by done.
    assert (map failure_at [i] = [attempt_error (upstream_address u) (elapsed i) (error_at i)])
      as Hfi by (cbn; unfold failure_at; by rewrite Haddr).
    rewrite Hfi in IH. unfold failure_stat_at at 1 in IH. rewrite Haddr in IH. apply IH.
    + apply Forall_app. split; [done|]. repeat constructor. by eexists.
    + rewrite length_app. cbn. lia.
Qed.
End attempts.

(** ** What the two modes come to *)
Section modes.
Context `{BO : ByteOrder}.
Context (exchange_single : bytes -> Upstream.t -> outcome DoHError.t bytes).
Context (elapsed : nat -> Duration).

(** One upstream: its own result, and one line of statistics. *)
Lemma exchange_only_spec query u :
  total (ask exchange_single query u) ->
  exists r, settle (ask exchange_single query u) = Ok r /\
    exchange_only exchange_single elapsed query u =
      Ok {| packet := r; query_stats := with_main [attempt_stat (upstream_address u) (elapsed 0) r] |}.
Proof.
  intros Ht. unfold exchange_only. unfold total in Ht.
  destruct (ask exchange_single query u) as [p|e| |]; cbn in *; try done; by eexists.
Qed.

Definition load_balance_result (randoms : nat -> f64) (query : bytes) (upstreams : list Upstream.t)
    (s : rtt_stats) : Prop :=
  match upstreams with
  | [u] => exists r, settle (ask exchange_single query u) = Ok r /\
      exchange_load_balance exchange_single elapsed randoms query upstreams s =
        (Ok {| packet := r;
               query_stats := with_main [attempt_stat (upstream_address u) (elapsed 0) r] |}, s)
  | _ => exists oc tried winner,
      exchange_load_balance exchange_single elapsed randoms query upstreams s =
        (Ok oc, stats_after elapsed upstreams tried winner s) /\
      exchanged exchange_single elapsed query upstreams oc tried winner /\
      (forall i p, answers exchange_single query upstreams i p -> is_Some winner)
  end.

Lemma load_balance_outcome randoms query upstreams s :
  all_end exchange_single query upstreams -> load_balance_result randoms query upstreams s.
Proof.
  intros Hall. unfold load_balance_result.
  assert (exists oc tried winner,
    balance_loop exchange_single elapsed (length upstreams) query upstreams (calc_weights s upstreams)
      randoms (seq 0 (length upstreams)) [] (replicate (length upstreams) None) s
    = (Ok oc, stats_after elapsed upstreams tried winner s) /\
    exchanged exchange_single elapsed query upstreams oc tried winner /\
    (forall i p, answers exchange_single query upstreams i p -> is_Some winner)) as Hloop.
  { rewrite <- (attempts_of_nil _ (failure_stat_at exchange_single elapsed query upstreams)).
    destruct (balance_loop_spec exchange_single elapsed query upstreams (length upstreams)
      (calc_weights s upstreams) randoms [] (seq 0 (length upstreams)) s)
      as (oc & tried & w & Heq & Hex); [by unfold calc_weights; rewrite length_map|done|done|by rewrite length_seq|done|].
    exists oc, tried, w. split; [exact Heq|]. split; [done|]. intros i p (u & Hu & Hans).
    destruct Hex as [|tried Hp Hf]; [done|]. exfalso.
    assert (i ∈ tried) as Hi.
    { rewrite Hp. apply elem_of_seq. apply lookup_lt_Some in Hu. lia. }
    destruct (proj1 (Forall_forall _ _) Hf i Hi) as (e & u' & Hu' & Hfl). congruence. }
  destruct upstreams as [|u [|u' us]]; [exact Hloop| |exact Hloop].
  destruct (exchange_only_spec query u) as (r & Hr & Heq); [by inversion Hall|].
  exists r. split; [done|]. unfold exchange_load_balance, lift. by rewrite Heq.
Qed.

Definition parallel_result (rx : channel) (query : bytes) (upstreams : list Upstream.t) : Prop :=
  match exchange_parallel exchange_single elapsed rx query upstreams with
  | Ok oc =>
      (exists l i p, l ++ [i] `prefix_of` arrivals rx /\
         Forall (fun j => exists e, fails exchange_single query upstreams j e) l /\
         answers exchange_single query upstreams i p /\
         oc = {| packet := inr p;
                 query_stats := with_main [success_stat_at elapsed upstreams i] |}) \/
      ((arrivals rx ≡ₚ seq 0 (length upstreams) \/ closed rx = true) /\
       Forall (fun j => exists e, fails exchange_single query upstreams j e) (arrivals rx) /\
       oc = {| packet := inl (DoHError.from_upstream_attempts
                 (map (failure_at exchange_single elapsed query upstreams) (arrivals rx)));
               query_stats := with_main (flatten
                 (tried_attempts exchange_single elapsed query upstreams (arrivals rx))) |})
  | Diverge =>
      closed rx = false /\ (length (arrivals rx) < length upstreams)%nat /\
      Forall (fun j => exists e, fails exchange_single query upstreams j e) (arrivals rx)
  | _ => False
  end.

Lemma parallel_outcome rx query upstreams :
  all_end exchange_single query upstreams -> length upstreams <> 1%nat ->
  NoDup (arrivals rx) -> Forall (fun i => (i < length upstreams)%nat) (arrivals rx) ->
  parallel_result rx query upstreams.
Proof.
  intros Hall Hn Hnd Hlt. unfold parallel_result.
  assert (exchange_parallel exchange_single elapsed rx query upstreams =
    parallel_loop exchange_single elapsed query upstreams (length upstreams) (arrivals rx) (closed rx)
      [] (replicate (length upstreams) None)) as ->.
  { destruct upstreams as [|u [|u' us]]; (done || cbn in Hn; done). }
  rewrite <- (attempts_of_nil _ (failure_stat_at exchange_single elapsed query upstreams)).
  pose proof (parallel_loop_spec exchange_single elapsed query upstreams (length upstreams)
    (arrivals rx) (closed rx) [] Hall Hnd Hlt ltac:(done) ltac:(done)) as H.
  cbn [app map] in H. destruct (parallel_loop _ _ _ _ _ _ _ _ _) as [oc| | |]; try done.
  destruct H as [|[Hl H]]; [by left|right]. split; [|done].
  destruct Hl as [Hl|]; [left|by right].
  apply submseteq_length_Permutation; [|by rewrite length_seq, Hl].
  apply NoDup_submseteq; [done|]. intros x Hx. apply elem_of_seq.
  pose proof (proj1 (Forall_forall _ _) Hlt x Hx) as Hxl. cbn in Hxl. lia.
Qed.
End modes.
