(* ===== verification/UpstreamProps.v ===== *)
(** * Properties of the exchange with the upstreams *)

From S2P Require Import Prelude Bytes Net Msg MsgProps Errors F64 Upstream UpstreamFacts.

Section properties.
Context `{BO : ByteOrder}.
Context (exchange_single : bytes -> Upstream.t -> outcome DoHError.t bytes).
Context (elapsed : nat -> Duration).

(** C17: the load balancer, for any statistics and any random numbers.  It
    picks upstreams until one answers with a valid packet or none is left,
    never the same one twice and never out of range; a success reports that
    attempt alone, and a failure all attempts, joined in the order they were
    made, with statistics in the order of the configuration.  Each failure
    adds ten seconds to its upstream's statistics, the success its own time.
    So the query fails only if every upstream fails. *)
Theorem load_balance_spec (randoms : nat -> f64) (query : bytes) (upstreams : list Upstream.t)
    (s : rtt_stats) :
  all_end exchange_single query upstreams ->
  match upstreams with
  | [u] => exists r, settle (ask exchange_single query u) = Ok r /\
      exchange_load_balance exchange_single elapsed randoms query upstreams s =
        (Ok {| packet := r;
               query_stats := with_main [attempt_stat (upstream_address u) (elapsed 0) r] |}, s)
  | _ => exists oc tried winner,
      exchange_load_balance exchange_single elapsed randoms query upstreams s =
        (Ok oc, stats_after elapsed upstreams tried winner s) /\
      exchanged exchange_single elapsed query upstreams oc tried winner /\
      (forall i p, answers exchange_single query upstreams i p -> is_Some winner)
  end.
Proof. apply load_balance_outcome. Qed.

(** C11: the parallel mode, for any order in which the tasks answer.  The
    first success in that order is the result, with its statistics alone; if
    all fail, the failures are joined in order of arrival and the statistics
    are in the order of the configuration; and as long as a task is still
    running and none has succeeded, the exchange waits. *)
Theorem parallel_spec (rx : channel) (query : bytes) (upstreams : list Upstream.t) :
  all_end exchange_single query upstreams -> length upstreams <> 1%nat ->
  NoDup (arrivals rx) -> Forall (fun i => (i < length upstreams)%nat) (arrivals rx) ->
  match exchange_parallel exchange_single elapsed rx query upstreams with
  | Ok oc =>
      (exists l i p, l ++ [i] `prefix_of` arrivals rx /\
         Forall (fun j => exists e, fails exchange_single query upstreams j e) l /\
         answers exchange_single query upstreams i p /\
         oc = {| packet := inr p;
                 query_stats := with_main [success_stat_at elapsed upstreams i] |}) \/
      ((arrivals rx ≡ₚ seq 0 (length upstreams) \/ closed rx = true) /\
       Forall (fun j => exists e, fails exchange_single query upstreams j e) (arrivals rx) /\
       oc = {| packet := inl (DoHError.from_upstream_attempts
                 (map (failure_at exchange_single elapsed query upstreams) (arrivals rx)));
               query_stats := with_main (flatten
                 (tried_attempts exchange_single elapsed query upstreams (arrivals rx))) |})
  | Diverge =>
      closed rx = false /\ (length (arrivals rx) < length upstreams)%nat /\
      Forall (fun j => exists e, fails exchange_single query upstreams j e) (arrivals rx)
  | _ => False
  end.
Proof. apply parallel_outcome. Qed.
End properties.

(** Two upstreams: the first times out, the second answers after 20 ms. *)
Definition sample_upstreams : list Upstream.t :=
  [Upstream.Dns (SockV4 [# x0a; x00; x00; x01] 53); Upstream.Dns (SockV4 [# x0a; x00; x00; x02] 53)].
Definition sample_exchange (query : bytes) (u : Upstream.t) : outcome DoHError.t bytes :=
  match u with
  | Upstream.Dns (SockV4 o _) =>
      if bool_decide (vec_to_list o = [x0a; x00; x00; x01]) then Err DoHError.UpstreamTimeout
      else Ok sample_packet
  | _ => Err DoHError.UpstreamIssue
  end.
Definition sample_elapsed (i : nat) : Duration := 20000000.

Lemma sample_answer : ask sample_exchange [] (Upstream.Dns (SockV4 [# x0a; x00; x00; x02] 53)) = Ok sample_packet.
Proof. by vm_compute. Qed.

Lemma sample_all_end : all_end sample_exchange [] sample_upstreams.
Proof. repeat constructor. Qed.

Lemma load_balance_spec_witness :
  exists oc tried winner,
    exchange_load_balance sample_exchange sample_elapsed (fun _ => zero) [] sample_upstreams ∅ =
      (Ok oc, stats_after sample_elapsed sample_upstreams tried winner ∅) /\ is_Some winner.
Proof.
  destruct (load_balance_spec sample_exchange sample_elapsed (fun _ => zero) [] sample_upstreams ∅
    sample_all_end) as (oc & tried & w & H & _ & Hw).
  exists oc, tried, w. split; [exact H|]. apply (Hw 1%nat sample_packet).
  eexists. split; [reflexivity|exact sample_answer].
Defined.

Lemma parallel_spec_witness :
  exists oc, exchange_parallel sample_exchange sample_elapsed {| arrivals := [1%nat]; closed := false |}
    [] sample_upstreams = Ok oc.
Proof.
  pose proof (parallel_spec sample_exchange sample_elapsed {| arrivals := [1%nat]; closed := false |}
    [] sample_upstreams sample_all_end ltac:(done) ltac:(repeat constructor; set_solver)
    ltac:(repeat constructor)) as H.
  destruct (exchange_parallel _ _ _ _ _) as [oc| | |]; [by exists oc|done|done|].
  destruct H as (_ & _ & H). inversion H as [|? ? (e & u & Hu & Hf) _]; subst.
  injection Hu as <-. by rewrite sample_answer in Hf.
Defined.
