(* ===== verification/FastestAddr.v ===== *)
(** * The fastest address: src/libdoh/src/upstream/fastest_addr.rs

    All upstreams are asked, the addresses of their answers are tried by
    TCP, and the answer with the address that connects first is returned,
    its addresses rewritten to that one.

    As in Upstream.v, asking an upstream and the order of the tasks' messages
    are arguments; so are the order in which the set of addresses is
    iterated, the connections, the clock, what other tasks do to the shared
    cache between two look-ups, and which pings end before the timer. *)

From S2P Require Import Prelude Bytes Net Msg Errors FastestIpCache Upstream Bootstrap.

Definition FASTEST_ADDR_CACHE_TTL_SECS : Z := 10 * 60.
Definition FASTEST_ADDR_PING_WAIT_TIMEOUT : Duration := from_secs 1.
Definition FASTEST_ADDR_PING_TCP_TIMEOUT : Duration := from_secs 4.
Definition FASTEST_ADDR_PING_PORTS : list Z := [80; 443].

Record UpstreamReply := { reply_packet : bytes }.
Record PingResult := {
  ping_ip : IpAddr;
  ping_latency_ms : Z;
  ping_success : bool
}.
Record ExchangeAll := {
  replies : list UpstreamReply;
  stats : list UpstreamStatistics.t;
  err : option DoHError.t
}.

(** ** The shared cache *)
Abbreviation with_cache A := (mutates FastestIpCache.t Empty_set A).

Definition load_fastest_cache (ip : IpAddr) (now : Z)
    : with_cache (option FastestIpCache.FastIpCacheEntry) := fun c =>
  let '(found, c) := FastestIpCache.get ip now c in (Ok found, c).

Definition expiry (now : Z) : Z :=
  saturating_add_u64 now (saturating_mul_u64 FASTEST_ADDR_CACHE_TTL_SECS 1000).

Definition store_fastest_failure (ip : IpAddr) (now : Z) : with_cache unit :=
  found ← load_fastest_cache ip now;
  match found with
  | Some _ => mret tt
  | None =>
      update (FastestIpCache.upsert ip
        {| FastestIpCache.status := FastestIpCache.Failure; FastestIpCache.latency_ms := 0;
           FastestIpCache.expire_at_ms := expiry now |})
  end.

Definition store_fastest_success (ip : IpAddr) (latency_ms now : Z) : with_cache unit :=
  found ← load_fastest_cache ip now;
  let should_replace :=
    match found with
    | None => true
    | Some existing =>
        if decide (FastestIpCache.status existing = FastestIpCache.Failure) then true
        else latency_ms <? FastestIpCache.latency_ms existing
    end in
  if should_replace : bool then
    update (FastestIpCache.upsert ip
      {| FastestIpCache.status := FastestIpCache.Success; FastestIpCache.latency_ms := latency_ms;
         FastestIpCache.expire_at_ms := expiry now |})
  else mret tt.

(** ** One ping *)

(** [Ipv6Addr::to_ipv4]: IPv4-compatible and IPv4-mapped addresses *)
Definition to_ipv4 (o : bytes) : option IpAddr :=
  if bool_decide (firstn 10 o = repeat x00 10)
     && (bool_decide (sub o 10 12 = [x00; x00]) || bool_decide (sub o 10 12 = [xff; xff]))
  then ipv4_of (skipn 12 o) else None.

Definition cache_ip (ip : IpAddr) : IpAddr :=
  match ip with
  | V6 v6 => default (V6 v6) (to_ipv4 (vec_to_list v6))
  | V4 v4 => V4 v4
  end.

(** [elapsed] is the time the connection or its failure took, [now] the
    clock when the result is stored. *)
Definition ping_do_tcp (local_bind_address : SocketAddr) (ip : IpAddr) (port : Z) (socket : TcpSocket)
    (elapsed : Duration) (now : Z) : with_cache PingResult :=
  let remote := SocketAddr_new ip port in
  let success :=
    match connect_tcp_with_local_bind local_bind_address remote socket with
    | Ok _ => true
    | _ => false
    end in
  let latency_ms := Z.min (as_millis elapsed) u32_max in
  _ ← (if success then store_fastest_success (cache_ip ip) latency_ms now
       else store_fastest_failure (cache_ip ip) now);
  mret {| ping_ip := ip; ping_latency_ms := latency_ms; ping_success := success |}.

(** ** All pings *)
Section ping_all.
(** The clock at the [i]-th look-up, and what other tasks have done to the
    cache since the one before. *)
Context (now : nat -> Z) (others : nat -> FastestIpCache.t -> FastestIpCache.t).

(** [true] when the cached entry beats the best so far. *)
Definition better (cached : FastestIpCache.FastIpCacheEntry) (cached_best : option PingResult) : bool :=
  bool_decide (FastestIpCache.status cached = FastestIpCache.Success) &&
  match cached_best with
  | Some best => FastestIpCache.latency_ms cached <? ping_latency_ms best
  | None => true
  end.

(** The best cached address, and the pings to schedule for the others. *)
Fixpoint scan (i : nat) (ips : list IpAddr) (cached_best : option PingResult)
    (scheduled : list (IpAddr * Z)) : with_cache (option PingResult * list (IpAddr * Z)) :=
  match ips with
  | [] => mret (cached_best, scheduled)
  | ip :: ips =>
      _ ← update (fun c => Ok (others i c));
      found ← load_fastest_cache ip (now i);
      match found with
      | Some cached =>
          let cached_best :=
            if better cached cached_best then
              Some {| ping_ip := ip; ping_latency_ms := FastestIpCache.latency_ms cached;
                      ping_success := true |}
            else cached_best in
          scan (S i) ips cached_best scheduled
      | None =>
          scan (S i) ips cached_best
            (scheduled ++ map (fun port => (ip, port)) FASTEST_ADDR_PING_PORTS)
      end
  end.

(** The results received before the timer, or before the channel closes. *)
Fixpoint await_pings (cached_best : option PingResult) (results : list PingResult)
    : option PingResult :=
  match results with
  | [] => cached_best
  | result :: results =>
      if negb (ping_success result) then await_pings cached_best results
      else
        match cached_best with
        | Some cached =>
            if ping_latency_ms cached <? ping_latency_ms result then Some cached else Some result
        | None => Some result
        end
  end.

(** [in_time]: the results of the scheduled pings that arrive in time. *)
Definition ping_all (in_time : list (IpAddr * Z) -> list PingResult) (ips : list IpAddr)
    : with_cache (option PingResult) :=
  match ips with
  | [] => mret None
  | [ip] => mret (Some {| ping_ip := ip; ping_latency_ms := 0; ping_success := true |})
  | _ =>
      '(cached_best, scheduled) ← scan 0 ips None [];
      match scheduled with
      | [] => mret cached_best
      | _ => mret (await_pings cached_best (in_time scheduled))
      end
  end.
End ping_all.

(** ** The exchange *)
Section exchange.
Context `{BO : ByteOrder}.
Context (exchange_single : bytes -> Upstream.t -> outcome DoHError.t bytes).
Context (elapsed : nat -> Duration).
Abbreviation ask := (ask exchange_single).

Fixpoint collect_all (query : bytes) (upstreams : list Upstream.t) (count : nat)
    (arrivals : list nat) (closed : bool) (replies : list UpstreamReply)
    (failures : list UpstreamAttemptError) (stats : attempts_t) : infallible ExchangeAll :=
  let finish :=
    Ok {| replies := replies; stats := flatten stats;
          err := match failures with
                 | [] => None
                 | _ => Some (DoHError.from_upstream_attempts failures)
                 end |} in
  match count with
  | O => finish
  | S count =>
      match arrivals with
      | [] => if closed then finish else Diverge
      | i :: arrivals =>
          m ← attempt_task exchange_single elapsed query upstreams i;
          upstream ← at_index upstreams (ao_idx m);
          let address := upstream_address upstream in
          match ao_result m with
          | inr packet =>
              stats ← set_index stats (ao_idx m)
                (Some (UpstreamStatistics.success address (ao_duration m)));
              collect_all query upstreams count arrivals closed
                (replies ++ [{| reply_packet := packet |}]) failures stats
          | inl err =>
              stats ← set_index stats (ao_idx m)
                (Some (UpstreamStatistics.failure address (ao_duration m) (DoHError.fmt err)));
              collect_all query upstreams count arrivals closed replies
                (failures ++ [attempt_error address (ao_duration m) err]) stats
          end
      end
  end.

Definition exchange_all (rx : channel) (query : bytes) (upstreams : list Upstream.t)
    : infallible ExchangeAll :=
  match upstreams with
  | [upstream] =>
      result ← settle (ask query upstream);
      let stats := [attempt_stat (upstream_address upstream) (elapsed 0) result] in
      Ok match result with
         | inr packet =>
             {| replies := [{| reply_packet := packet |}]; stats := stats; err := None |}
         | inl err => {| replies := []; stats := stats; err := Some err |}
         end
  | _ =>
      collect_all query upstreams (length upstreams) (arrivals rx) (closed rx) [] []
        (replicate (length upstreams) None)
  end.

(** A packet function that returns a plain value. *)
Definition plain {A : Type} (m : outcome MsgError A) : infallible A :=
  match m with Ok a => Ok a | Diverge => Diverge | _ => Panic end.

Definition filter_response_answer (packet : bytes) (selected_ip : IpAddr) : outcome DoHError.t bytes :=
  let '(r, packet) := rewrite_answer_ips_in_place packet selected_ip in
  map_err (fun _ => DoHError.InvalidData) r;;
  Ok packet.

(** [ip_set.insert(ip)] *)
Definition set_insert (ip : IpAddr) (ip_set : list IpAddr) : list IpAddr :=
  if bool_decide (ip ∈ ip_set) then ip_set else ip_set ++ [ip].

Fixpoint collect_ips (replies : list UpstreamReply) (ip_set : list IpAddr)
    : infallible (list IpAddr) :=
  match replies with
  | [] => Ok ip_set
  | reply :: replies =>
      ips ← plain (extract_answer_ips (reply_packet reply));
      collect_ips replies
        (fold_left (fun s ip => if is_unspecified ip then s else set_insert ip s) ips ip_set)
  end.

(** The first reply that has the address, with its addresses rewritten. *)
Fixpoint select_reply (replies : list UpstreamReply) (fastest : IpAddr) (first_packet : bytes)
    : infallible bytes :=
  match replies with
  | [] => Ok first_packet
  | reply :: replies =>
      b ← plain (packet_contains_answer_ip (reply_packet reply) fastest);
      if (b : bool) then
        match filter_response_answer (reply_packet reply) fastest with
        | Ok packet => Ok packet
        | Err _ => Ok first_packet
        | Panic => Panic
        | Diverge => Diverge
        end
      else select_reply replies fastest first_packet
  end.

(** [hash_order] is the order in which [ip_set] is iterated. *)
Definition exchange_fastest_addr (rx : channel) (hash_order : list IpAddr -> list IpAddr)
    (now : nat -> Z) (others : nat -> FastestIpCache.t -> FastestIpCache.t)
    (in_time : list (IpAddr * Z) -> list PingResult) (query : bytes) (upstreams : list Upstream.t)
    : with_cache ExchangeOutcome :=
  all ← lift (exchange_all rx query upstreams);
  let query_stats := with_main (stats all) in
  match replies all with
  | [] =>
      mret {| packet := inl (default DoHError.UpstreamIssue (err all)); query_stats := query_stats |}
  | first :: _ =>
      let first_packet := reply_packet first in
      ip_set ← lift (collect_ips (replies all) []);
      match hash_order ip_set with
      | [] => mret {| packet := inr first_packet; query_stats := query_stats |}
      | ips =>
          ping ← ping_all now others in_time ips;
          match ping with
          | None => mret {| packet := inr first_packet; query_stats := query_stats |}
          | Some ping =>
              packet ← lift (select_reply (replies all) (ping_ip ping) first_packet);
              mret {| packet := inr packet; query_stats := query_stats |}
          end
      end
  end.
End exchange.
