(* ===== verification/FastestAddrFacts.v ===== *)
(** * Facts about the fastest-address mode

    The replies collected, the pings and the reply that is selected. *)

From S2P Require Import Prelude Bytes Net Msg MsgFacts Errors FastestIpCache FastestIpCacheFacts.
From S2P Require Import FastestIpCacheProps Upstream UpstreamFacts Bootstrap FastestAddr.

Abbreviation mk_reply := Build_UpstreamReply.

(** ** Pings *)

(** The look-ups of the addresses in the cache, one after the other, with
    what other tasks do to it in between. *)
Section look_ups.
Context (now : nat -> Z) (others : nat -> FastestIpCache.t -> FastestIpCache.t).

Fixpoint look_ups (i : nat) (ips : list IpAddr) (c : FastestIpCache.t)
    : list (IpAddr * option FastestIpCache.FastIpCacheEntry) :=
  match ips with
  | [] => []
  | ip :: ips =>
      let '(found, c) := FastestIpCache.get ip (now i) (others i c) in (ip, found) :: look_ups (S i) ips c
  end.
End look_ups.

(** The addresses the cache knows to answer, with their latencies; and those
    it does not know, each of which is pinged on two ports. *)
Definition known_fast (look : IpAddr * option FastestIpCache.FastIpCacheEntry) : option PingResult :=
  match look with
  | (ip, Some {| FastestIpCache.status := FastestIpCache.Success; FastestIpCache.latency_ms := ms |}) =>
      Some {| ping_ip := ip; ping_latency_ms := ms; ping_success := true |}
  | _ => None
  end.
Definition unknown (look : IpAddr * option FastestIpCache.FastIpCacheEntry) : option IpAddr :=
  match look with (ip, None) => Some ip | _ => None end.
Definition pings_of (ips : list IpAddr) : list (IpAddr * Z) := flat_map (fun ip => [(ip, 80); (ip, 443)]) ips.

(** [r] is the first of the fastest. *)
Definition first_fastest (l : list PingResult) (r : PingResult) : Prop :=
  exists before after, l = before ++ r :: after /\
    Forall (fun r' => ping_latency_ms r < ping_latency_ms r') before /\
    Forall (fun r' => ping_latency_ms r <= ping_latency_ms r') after.

(** [r] is the first ping that succeeds. *)
Definition first_success (l : list PingResult) (r : PingResult) : Prop :=
  exists before after, l = before ++ r :: after /\ Forall (fun r' => ping_success r' = false) before /\
    ping_success r = true.

(** Which address is the fastest, when [known] are the addresses with a
    cached latency and [pinged] the results of the pings: the only address
    there is; the best cached one, if no ping succeeds or the first that does
    is slower; or the address of that ping. *)
Inductive fastest (ips : list IpAddr) (known pinged : list PingResult) : option IpAddr -> Prop :=
  | only_address ip : ips = [ip] -> fastest ips known pinged (Some ip)
  | best_cached r :
      (2 <= length ips)%nat -> first_fastest known r ->
      (forall r', first_success pinged r' -> ping_latency_ms r < ping_latency_ms r') ->
      fastest ips known pinged (Some (ping_ip r))
  | best_pinged r :
      (2 <= length ips)%nat -> first_success pinged r ->
      Forall (fun r' => ping_latency_ms r <= ping_latency_ms r') known ->
      fastest ips known pinged (Some (ping_ip r))
  | no_address :
      (2 <= length ips)%nat -> known = [] -> Forall (fun r => ping_success r = false) pinged ->
      fastest ips known pinged None
  | nothing_to_try : ips = [] -> fastest ips known pinged None.

Section pings.
Context (now : nat -> Z) (others : nat -> FastestIpCache.t -> FastestIpCache.t).

(** The best of two. *)
Definition keep_best (best : option PingResult) (r : PingResult) : option PingResult :=
  match best with
  | Some b => if ping_latency_ms r <? ping_latency_ms b then Some r else best
  | None => Some r
  end.

Lemma scan_spec i ips best sched c :
  exists c', scan now others i ips best sched c =
    (Ok (fold_left keep_best (omap known_fast (look_ups now others i ips c)) best,
         sched ++ pings_of (omap unknown (look_ups now others i ips c))), c').
Proof.
  revert i best sched c. induction ips as [|ip ips IH]; intros i best sched c.
  { exists c. cbn. by rewrite app_nil_r. }
  cbn [scan look_ups]. unfold mbind, mutates_bind, update, load_fastest_cache at 1.
  destruct (FastestIpCache.get ip (now i) (others i c)) as [[[st ms ex]|] c1].
  - destruct (IH (S i) (if better {| FastestIpCache.status := st; FastestIpCache.latency_ms := ms;
        FastestIpCache.expire_at_ms := ex |} best
      then Some {| ping_ip := ip; ping_latency_ms := ms; ping_success := true |} else best) sched c1) as (c' & Hc').
    exists c'. cbn [FastestIpCache.latency_ms]. rewrite Hc'. unfold better. cbn [FastestIpCache.status FastestIpCache.latency_ms].
    destruct st; cbn [omap list_omap known_fast unknown fold_left]; [|done].
    rewrite bool_decide_true by done. cbn [andb].
    assert (forall r, (if match best with Some b => ms <? ping_latency_ms b | None => true end then Some r else best)
      = match best with Some b => if ms <? ping_latency_ms b then Some r else best | None => Some r end) as ->
      by by destruct best.
    done.
  - destruct (IH (S i) best (sched ++ map (fun port => (ip, port)) FASTEST_ADDR_PING_PORTS) c1) as (c' & ->).
    exists c'. cbn [omap list_omap known_fast unknown]. by rewrite <- app_assoc.
Qed.

(** What is kept in the end. *)
Lemma keep_best_spec l : forall best,
  match fold_left keep_best l best with
  | Some r =>
      first_fastest (match best with Some b => b :: l | None => l end) r
  | None => l = [] /\ best = None
  end.
Proof.
  induction l as [|r l IH]; intros best; cbn [fold_left].
  - destruct best as [b|]; [|done]. exists [], []. by split_and!.
  - specialize (IH (keep_best best r)). destruct (fold_left keep_best l _) as [r'|] eqn:Hf.
    + destruct best as [b|]; cbn [keep_best] in IH; [|done]. clear Hf.
      destruct (Z.ltb_spec (ping_latency_ms r) (ping_latency_ms b)) as [Hlt|Hge]; cbn in IH.
      * destruct IH as (before & after & Heq & Hb & Ha). exists (b :: before), after.
        split; [by rewrite Heq|]. split; [|done]. constructor; [|done].
        destruct before as [|r0 before]; cbn in Heq; injection Heq as -> _; [lia|].
        apply Forall_cons in Hb as [Hb _]. lia.
      * destruct IH as (before & after & Heq & Hb & Ha). destruct before as [|b0 before]; cbn in Heq; injection Heq as <- Heq.
        -- exists [], (r :: l). split_and!; [done|constructor|]. subst after. by constructor.
        -- exists (b :: r :: before), after. rewrite Heq. split_and!; [done| |done].
           apply Forall_cons in Hb as [Hb Hb']. constructor; [done|]. constructor; [lia|done].
    + destruct IH as [_ Hn]. destruct best as [b|]; cbn in Hn; [by destruct (_ <? _)|done].
Qed.

Lemma await_pings_spec best results :
  (await_pings best results = best /\ Forall (fun r => ping_success r = false) results) \/
  exists r, first_success results r /\
    await_pings best results =
      match best with
      | Some b => if ping_latency_ms b <? ping_latency_ms r then Some b else Some r
      | None => Some r
      end.
Proof.
  induction results as [|r results IH]; [by left|]. cbn [await_pings].
  destruct (ping_success r) eqn:Hr; cbn [negb].
  - right. exists r. split; [by exists [], results|]. by destruct best.
  - destruct IH as [[IH Hf]|(r' & (before & after & -> & Hb & Hr') & IH)].
    + left. split; [done|]. by constructor.
    + right. exists r'. split; [|done]. exists (r :: before), after. split_and!; [done| |done]. by constructor.
Qed.

Lemma first_success_unique l r r' : first_success l r -> first_success l r' -> r = r'.
Proof.
  intros (b & a & -> & Hb & Hr) (b' & a' & Heq & Hb' & Hr').
  revert b' Heq Hb'. induction Hb as [|x b Hx Hb IH]; intros [|x' b'] Heq Hb'; cbn in Heq; injection Heq as Hh Ht.
  - done.
  - subst. apply Forall_cons in Hb' as [? _]. congruence.
  - subst. congruence.
  - apply Forall_cons in Hb' as [_ Hb']. by apply (IH b').
Qed.

Lemma no_success l : Forall (fun r => ping_success r = false) l -> forall r, ~ first_success l r.
Proof.
  intros H r (b & a & -> & _ & Hr). apply Forall_app in H as [_ H]. apply Forall_cons in H as [H _]. congruence.
Qed.

(** The choice [await_pings] makes. *)
Lemma await_pings_fastest ips known results :
  (2 <= length ips)%nat ->
  fastest ips known results (ping_ip <$> await_pings (fold_left keep_best known None) results).
Proof.
  intros Hn. pose proof (keep_best_spec known None) as Hk.
  destruct (await_pings_spec (fold_left keep_best known None) results) as [[-> Hf]|(r & Hr & ->)];
    destruct (fold_left keep_best known None) as [b|]; cbn [fmap option_fmap option_map].
  - apply best_cached; [done..|]. intros r' Hr'. by destruct (no_success _ Hf r').
  - destruct Hk as [-> _]. by apply no_address.
  - destruct (Z.ltb_spec (ping_latency_ms b) (ping_latency_ms r)) as [Hlt|Hge].
    + apply best_cached; [done..|]. intros r' Hr'. by rewrite <- (first_success_unique _ _ _ Hr Hr').
    + apply best_pinged; [done..|]. destruct Hk as (before & after & -> & Hb & Ha).
      apply Forall_app. split; [|constructor]; [|lia|]; (eapply Forall_impl; [eassumption|]); cbn; intros; lia.
  - destruct Hk as [-> _]. by apply best_pinged.
Qed.

(** The results of the pings that are scheduled. *)
Definition ping_results (in_time : list (IpAddr * Z) -> list PingResult) (scheduled : list (IpAddr * Z))
    : list PingResult :=
  match scheduled with [] => [] | _ => in_time scheduled end.

(** What [ping_all] returns. *)
Definition fastest_of (in_time : list (IpAddr * Z) -> list PingResult) (ips : list IpAddr) (c : FastestIpCache.t)
    (chosen : option IpAddr) : Prop :=
  let looks := look_ups now others 0 ips c in
  fastest ips (omap known_fast looks) (ping_results in_time (pings_of (omap unknown looks))) chosen.

Lemma ping_all_spec in_time ips c :
  exists best c', ping_all now others in_time ips c = (Ok best, c') /\
    fastest_of in_time ips c (ping_ip <$> best).
Proof.
  unfold ping_all, fastest_of. destruct ips as [|ip [|ip' ips]].
  - exists None, c. split; [done|]. by apply nothing_to_try.
  - eexists _, c. split; [done|]. by apply only_address.
  - set (all := ip :: ip' :: ips).
    destruct (scan_spec 0 all None [] c) as (c1 & Hscan).
    unfold mbind, mutates_bind. rewrite Hscan. cbn [app]. clear Hscan.
    assert (2 <= length all)%nat as Hn by (cbn; lia). revert Hn. clearbody all. intros Hn.
    destruct (pings_of _) as [|s0 sched] eqn:Hs; eexists _, c1; (split; [done|]); cbn [ping_results].
    + pose proof (await_pings_fastest all (omap known_fast (look_ups now others 0 all c)) [] Hn) as H. exact H.
    + by apply await_pings_fastest.
Qed.

(** It is one of the addresses. *)
Lemma fastest_in in_time ips c ip :
  (forall sched, Forall (fun r => exists port, (ping_ip r, port) ∈ sched) (in_time sched)) ->
  fastest_of in_time ips c (Some ip) -> ip ∈ ips.
Proof.
  intros Hin. assert (forall i c', (look_ups now others i ips c').*1 = ips) as Hlooks.
  { clear. induction ips as [|ip ips IH]; intros i c'; [done|]. cbn.
    destruct (FastestIpCache.get ip (now i) (others i c')). cbn. by rewrite IH. }
  unfold fastest_of. specialize (Hlooks 0%nat c). set (looks := look_ups now others 0 ips c) in *. clearbody looks.
  intros H. inversion H as [ip' Hip|r Hn (b & a & Hr & _) _ Heq|r Hn (b & a & Hr & _) _ Heq| |].
  - subst ip'. rewrite Hip. by left.
  - assert (r ∈ omap known_fast looks) as Hrin by (rewrite Hr; set_solver).
    apply list_elem_of_omap in Hrin as ([ip' f] & Hf & Hk). rewrite <- Hlooks. apply list_elem_of_fmap.
    exists (ip', f). split; [|done]. destruct f as [[[] ms ex]|]; try done. by injection Hk as <-.
  - assert (r ∈ ping_results in_time (pings_of (omap unknown looks))) as Hrin by (rewrite Hr; set_solver).
    assert (exists port, (ping_ip r, port) ∈ pings_of (omap unknown looks)) as [port Hp].
    { unfold ping_results in Hrin. destruct (pings_of _) as [|s0 sched]; [by apply elem_of_nil in Hrin|].
      pose proof (Hin (s0 :: sched)) as Hall. rewrite Forall_forall in Hall. by apply Hall. }
    unfold pings_of in Hp. apply list_elem_of_In, in_flat_map in Hp as (ip' & Hip' & Hpp).
    apply list_elem_of_In, list_elem_of_omap in Hip' as ([ip'' f] & Hf & Hu).
    destruct f; [done|]. injection Hu as ->. cbn in Hpp.
    assert (ping_ip r = ip') as -> by (destruct Hpp as [[= <-]|[[= <-]|[]]]; congruence).
    rewrite <- Hlooks. apply list_elem_of_fmap. by exists (ip', None).
Qed.
End pings.

(** ** Replies *)
Section replies.
Context `{BO : ByteOrder}.

(** A packet the validator has let through. *)
Definition valid_reply (p : bytes) : Prop := exists m, unpack p = Ok m.

Lemma validate_valid p q : validate_exchange_packet p = Ok q -> q = p /\ valid_reply p.
Proof.
  unfold validate_exchange_packet, validate_response_packet, validate_packet.
  destruct (unpack p) as [m| | |] eqn:Hu; cbn; try done. intros [= <-]. split; [done|by exists m].
Qed.

(** The usable addresses of a packet. *)
Definition reply_ips (p : bytes) : list IpAddr :=
  match unpack p with Ok m => answer_ips m | _ => [] end.

Lemma fold_set_insert ips s ip :
  ip ∈ fold_left (fun s ip => if is_unspecified ip then s else set_insert ip s) ips s <->
  ip ∈ s \/ (ip ∈ ips /\ is_unspecified ip = false).
Proof.
  revert s. induction ips as [|x ips IH]; intros s; cbn [fold_left]; [set_solver|].
  rewrite IH. destruct (is_unspecified x) eqn:Hx.
  - split; [set_solver|]. intros [|[Hin Hip]]; [by left|]. apply elem_of_cons in Hin as [->|]; [congruence|].
    by right.
  - unfold set_insert. case_bool_decide; set_solver.
Qed.

Lemma fold_set_insert_nodup ips s :
  NoDup s -> NoDup (fold_left (fun s ip => if is_unspecified ip then s else set_insert ip s) ips s).
Proof.
  revert s. induction ips as [|x ips IH]; intros s Hs; cbn [fold_left]; [done|]. apply IH.
  destruct (is_unspecified x); [done|]. unfold set_insert. case_bool_decide as Hx; [done|].
  apply NoDup_app. split_and!; [done| |apply NoDup_singleton]. intros y Hy Hin.
  apply list_elem_of_singleton in Hin as ->. done.
Qed.

(** The usable addresses of the replies. *)
Definition usable_ips (ps : list bytes) (ips : list IpAddr) : Prop :=
  NoDup ips /\
  forall ip, ip ∈ ips <-> is_unspecified ip = false /\ exists p, p ∈ ps /\ ip ∈ reply_ips p.

Lemma collect_ips_spec ps s :
  Forall valid_reply ps -> NoDup s ->
  exists s', collect_ips (map mk_reply ps) s = Ok s' /\ NoDup s' /\
    forall ip, ip ∈ s' <-> ip ∈ s \/ (is_unspecified ip = false /\ exists p, p ∈ ps /\ ip ∈ reply_ips p).
Proof.
  intros H. revert s. induction H as [|p ps (m & Hm) H IH]; intros s Hnd.
  { exists s. split; [done|]. split; [done|]. intros ip. set_solver. }
  cbn [map collect_ips reply_packet]. unfold extract_answer_ips, extract_answer_ips_from_packet.
  rewrite Hm. cbn [plain mbind outcome_bind].
  destruct (IH (fold_left (fun s ip => if is_unspecified ip then s else set_insert ip s) (answer_ips m) s))
    as (s' & -> & Hnd' & Hs'); [by apply fold_set_insert_nodup|].
  exists s'. split; [done|]. split; [done|]. intros ip. rewrite Hs', fold_set_insert.
  assert (reply_ips p = answer_ips m) as Hp by (unfold reply_ips; by rewrite Hm).
  setoid_rewrite elem_of_cons. rewrite <- Hp. naive_solver.
Qed.

(** The first reply with an address, with its addresses rewritten to it. *)
Definition rewritten_reply (ps : list bytes) (ip : IpAddr) (q : bytes) : Prop :=
  exists before p after, ps = before ++ p :: after /\ Forall (fun p' => ip ∉ reply_ips p') before /\
    ip ∈ reply_ips p /\ rewrite_answer_ips_in_place p ip = (Ok tt, q).

Lemma select_reply_spec ps ip first :
  Forall valid_reply ps -> (exists p, p ∈ ps /\ ip ∈ reply_ips p) ->
  exists q, select_reply (map mk_reply ps) ip first = Ok q /\ rewritten_reply ps ip q.
Proof.
  intros H Hex. induction H as [|p ps (m & Hm) H IH].
  { destruct Hex as (p & Hp & _). by apply elem_of_nil in Hp. }
  cbn [map select_reply reply_packet]. unfold packet_contains_answer_ip, contains_answer_ip_in_packet.
  rewrite Hm. cbn [plain mbind outcome_bind].
  assert (reply_ips p = answer_ips m) as Hp by (unfold reply_ips; by rewrite Hm).
  destruct (contains_answer_ip m ip) eqn:Hc.
  - apply contains_answer_ip_In, list_elem_of_In in Hc.
    destruct (rewrite_decodable ip p m Hm) as (q & Hq).
    exists q. unfold filter_response_answer, rewrite_answer_ips_in_place. rewrite Hq.
    split; [done|]. exists [], p, ps. unfold rewrite_answer_ips_in_place. rewrite Hq. split_and!; [done|constructor|by rewrite Hp|done].
  - assert (ip ∉ reply_ips p) as Hnot.
    { rewrite Hp. intros Hin. apply list_elem_of_In, contains_answer_ip_In in Hin. congruence. }
    destruct IH as (q & Hq & before & p' & after & -> & Hb & Hip & Hr).
    { destruct Hex as (p' & Hp' & Hip). apply elem_of_cons in Hp' as [->|Hp']; [done|by exists p']. }
    exists q. split; [done|]. exists (p :: before), p', after. split_and!; [done| |done|done]. by constructor.
Qed.
End replies.

(** ** The exchange with all upstreams *)
Section exchange.
Context `{BO : ByteOrder}.
Context (exchange_single : bytes -> Upstream.t -> outcome DoHError.t bytes).
Context (elapsed : nat -> Duration).
Context (query : bytes) (upstreams : list Upstream.t).
Abbreviation n := (length upstreams).
Abbreviation ask := (ask exchange_single query).
Abbreviation fails := (fails exchange_single query upstreams).
Abbreviation answers := (answers exchange_single query upstreams).
Abbreviation all_end := (all_end exchange_single query upstreams).
Abbreviation error_at := (error_at exchange_single query upstreams).
Abbreviation failure_at := (failure_at exchange_single elapsed query upstreams).
Abbreviation address_at := (address_at upstreams).

(** The packet an upstream answers with, and the statistics of its attempt. *)
Definition reply_at (i : nat) : option bytes :=
  match ask <$> upstreams !! i with Some (Ok p) => Some p | _ => None end.
Definition stat_at (i : nat) : UpstreamStatistics.t :=
  match reply_at i with
  | Some _ => success_stat_at elapsed upstreams i
  | None => failure_stat_at exchange_single elapsed query upstreams i
  end.
Definition replies_of (l : list nat) : list bytes := omap reply_at l.
Definition failures_of (l : list nat) : list UpstreamAttemptError :=
  map failure_at (base.filter (fun i => reply_at i = None) l).

Lemma reply_at_answers i p : reply_at i = Some p <-> answers i p.
Proof.
  unfold reply_at, UpstreamFacts.answers. destruct (upstreams !! i) as [u|]; cbn.
  - split.
    + destruct (ask u) eqn:Ha; try done. intros [= ->]. by exists u.
    + by intros (u' & [= <-] & ->).
  - split; [done|]. by intros (u' & ? & _).
Qed.

Lemma replies_of_in l p : p ∈ replies_of l <-> exists i, i ∈ l /\ answers i p.
Proof.
  unfold replies_of. rewrite list_elem_of_omap. setoid_rewrite reply_at_answers. naive_solver.
Qed.

Lemma replies_of_valid l : Forall valid_reply (replies_of l).
Proof.
  apply Forall_forall. intros p Hp. apply replies_of_in in Hp as (i & _ & u & _ & Ha).
  unfold Upstream.ask in Ha. apply bind_Ok in Ha as (q & _ & Hv). apply validate_valid in Hv as [-> Hv].
  done.
Qed.

Lemma collect_all_spec count arrivals is_closed tried :
  all_end -> tried ++ arrivals ≡ₚ seq 0 n -> (length tried + count = n)%nat ->
  collect_all exchange_single elapsed query upstreams count arrivals is_closed
    (map mk_reply (replies_of tried)) (failures_of tried) (attempts_of n stat_at tried)
  = Ok {| replies := map mk_reply (replies_of (tried ++ arrivals)); stats := map stat_at (seq 0 n);
          err := match failures_of (tried ++ arrivals) with
                 | [] => None
                 | fs => Some (DoHError.from_upstream_attempts fs)
                 end |}.
Proof.
  intros Hall. revert arrivals tried.
  induction count as [|count IH]; intros arrivals tried Hp Hc; cbn [collect_all].
  { assert (arrivals = []) as ->.
    { apply Permutation_length in Hp. rewrite length_app, length_seq in Hp.
      destruct arrivals; [done|cbn in Hp; lia]. }
    rewrite app_nil_r in *. rewrite attempts_of_all by done. by destruct (failures_of tried). }
  destruct arrivals as [|i arrivals].
  { apply Permutation_length in Hp. rewrite app_nil_r, length_seq in Hp. lia. }
  assert (i < n)%nat as Hi.
  { assert (i ∈ seq 0 n) as Hs by (rewrite <- Hp; set_solver). apply elem_of_seq in Hs. lia. }
  destruct (upstream_at upstreams i Hi) as [u Hu].
  assert (address_at i = upstream_address u) as Haddr by (unfold UpstreamFacts.address_at; by rewrite Hu).
  assert (tried ++ i :: arrivals = (tried ++ [i]) ++ arrivals) as Heq by by rewrite <- app_assoc.
  rewrite Heq in *. specialize (IH arrivals (tried ++ [i]) Hp).
  unfold replies_of at 1, failures_of at 1 in IH. rewrite omap_app, filter_app, !map_app in IH.
  rewrite <- attempts_of_set in IH by done. unfold stat_at at 1 in IH.
  unfold attempt_task. rewrite (at_index_ok (E := Empty_set) upstreams i u Hu). cbn [mbind outcome_bind].
  destruct (settle_ask exchange_single query upstreams i u Hall Hu)
    as [(p & Hask & -> & Hans)|(Hask & -> & Hfl)];
    cbn [mbind outcome_bind ao_idx ao_result ao_duration];
    rewrite (at_index_ok (E := Empty_set) upstreams i u Hu); cbn [mbind outcome_bind];
    rewrite (set_index_ok (E := Empty_set)) by (by rewrite length_attempts_of); cbn [mbind outcome_bind].
  - assert (reply_at i = Some p) as Hr by by apply reply_at_answers.
    rewrite Hr in IH. cbn [omap list_omap map base.filter list_filter] in IH. rewrite Hr in IH.
    rewrite decide_False in IH by done. cbn [map] in IH. rewrite app_nil_r in IH.
    unfold success_stat_at in IH. rewrite Haddr in IH. apply IH. rewrite length_app. cbn. lia.
  - assert (reply_at i = None) as Hr by (unfold reply_at; rewrite Hu; cbn; by rewrite Hask).
    rewrite Hr in IH. cbn [omap list_omap map base.filter list_filter] in IH. rewrite Hr in IH.
    rewrite decide_True in IH by done. cbn [map] in IH. rewrite app_nil_r in IH.
    unfold failure_stat_at in IH. unfold UpstreamFacts.failure_at at 2 in IH. rewrite Haddr in IH.
    apply IH. rewrite length_app. cbn. lia.
Qed.
(** The error of an exchange without replies. *)
Definition joined (arrivals : list nat) : DoHError.t :=
  match upstreams with
  | [_] => error_at 0
  | _ => DoHError.from_upstream_attempts (map failure_at arrivals)
  end.

Lemma replies_of_nil l :
  all_end -> Forall (fun i => (i < n)%nat) l -> replies_of l = [] ->
  Forall (fun i => exists e, fails i e) l /\ failures_of l = map failure_at l.
Proof.
  intros Hall Hlt Hnil.
  assert (Forall (fun i => reply_at i = None) l) as Hnone.
  { apply Forall_forall. intros i Hi. destruct (reply_at i) as [p|] eqn:Hr; [|done].
    assert (p ∈ replies_of l) as Hp.
    { apply replies_of_in. exists i. split; [done|]. by apply reply_at_answers. }
    rewrite Hnil in Hp. by apply elem_of_nil in Hp. }
  split.
  - apply Forall_forall. intros i Hi. pose proof (proj1 (Forall_forall _ _) Hlt i Hi) as Hin.
    destruct (upstream_at upstreams i Hin) as [u Hu].
    destruct (settle_ask exchange_single query upstreams i u Hall Hu) as [(p & _ & _ & Hans)|(_ & _ & Hf)];
      [|by eexists]. apply reply_at_answers in Hans.
    rewrite (proj1 (Forall_forall _ _) Hnone i Hi) in Hans. done.
  - unfold failures_of. f_equal. clear -Hnone. induction Hnone as [|i l Hi H IH]; [done|].
    rewrite filter_cons_True by done. by f_equal.
Qed.

Lemma exchange_all_spec rx :
  all_end -> arrivals rx ≡ₚ seq 0 n ->
  exists e, exchange_all exchange_single elapsed rx query upstreams
    = Ok {| replies := map mk_reply (replies_of (arrivals rx)); stats := map stat_at (seq 0 n); err := e |} /\
    (0 < n -> replies_of (arrivals rx) = [] -> e = Some (joined (arrivals rx)))%nat.
Proof.
  intros Hall Hp.
  assert (upstreams <> [] -> replies_of (arrivals rx) = [] ->
    failures_of (arrivals rx) = map failure_at (arrivals rx)) as Hfs.
  { intros _ Hnil. apply replies_of_nil; [done| |done]. apply Forall_forall. intros i Hi.
    assert (i ∈ seq 0 n) as Hs by (by rewrite <- Hp). apply elem_of_seq in Hs. lia. }
  assert (length upstreams <> 1%nat -> exists e, exchange_all exchange_single elapsed rx query upstreams
    = Ok {| replies := map mk_reply (replies_of (arrivals rx)); stats := map stat_at (seq 0 n); err := e |} /\
    (0 < n -> replies_of (arrivals rx) = [] -> e = Some (joined (arrivals rx)))%nat) as Hmany.
  { intros Hn. eexists. split.
    - transitivity (collect_all exchange_single elapsed query upstreams n (arrivals rx) (closed rx)
        [] [] (replicate n None)).
      { unfold exchange_all. destruct upstreams as [|u [|u' us]]; done. }
      rewrite <- (attempts_of_nil _ stat_at).
      apply (collect_all_spec n (arrivals rx) (closed rx) []); done.
    - intros Hpos Hnil. cbn [app].
      rewrite Hfs; [|intros Hn0; rewrite Hn0 in Hpos; cbn in Hpos; lia|done]. unfold joined.
      apply Permutation_length in Hp. rewrite length_seq in Hp.
      destruct (arrivals rx) as [|i l]; [cbn in Hp; lia|]. cbn [map].
      destruct upstreams as [|u [|u' us]]; (cbn in *; lia || done). }
  destruct (decide (length upstreams = 1%nat)) as [Hn|Hn]; [|by apply Hmany].
  clear Hmany Hfs. assert (exists u, upstreams = [u]) as (u & Hups).
  { destruct upstreams as [|u [|u' us]]; try done. by exists u. }
  assert (upstreams !! 0%nat = Some u) as Hu by by rewrite Hups.
  assert (address_at 0 = upstream_address u) as Haddr by (unfold UpstreamFacts.address_at; by rewrite Hu).
  assert (arrivals rx = [0%nat]) as ->.
  { rewrite Hn in Hp. cbn in Hp. by apply Permutation_singleton_r. }
  rewrite Hn. unfold joined, replies_of. cbn [seq map omap list_omap]. unfold exchange_all. rewrite Hups.
  unfold stat_at.
  destruct (settle_ask exchange_single query upstreams 0 u Hall Hu)
    as [(p & Hask & -> & Hans)|(Hask & -> & Hfl)]; cbn [mbind outcome_bind attempt_stat].
  - apply reply_at_answers in Hans. rewrite Hans. unfold success_stat_at. rewrite Haddr. by eexists.
  - assert (reply_at 0 = None) as -> by (unfold reply_at; rewrite Hu; cbn; by rewrite Hask).
    unfold failure_stat_at. rewrite Haddr. eexists. split; [done|]. by rewrite <- Hups.
Qed.
End exchange.

(** ** The shared cache *)

(** The cache holds the entries [l], most recently used first. *)
Definition holds (c : FastestIpCache.t) (l : list item) : Prop :=
  repr c l /\ 1 <= FastestIpCache.max_size c /\ len l <= FastestIpCache.max_size c.

Lemma holds_load c l k now :
  holds c l -> exists c1,
    load_fastest_cache k now c = (Ok (fst (lru_get k now l)), c1) /\ holds c1 (snd (lru_get k now l)).
Proof.
  intros (Hr & Hm & Hl). destruct (get_repr c l k now Hr) as (Hv & Hr' & Hm').
  exists (snd (FastestIpCache.get k now c)). unfold load_fastest_cache. rewrite <- Hv.
  split; [by destruct (FastestIpCache.get k now c)|]. split; [done|]. rewrite Hm'. split; [done|].
  exact (lru_call_len _ (Get k now) l Hm (repr_nodup _ _ Hr) Hl).
Qed.

Lemma holds_upsert c l k e :
  holds c l -> exists c1 m, update (FastestIpCache.upsert k e) c = (Ok tt, c1) /\ 1 <= m /\
    holds c1 (lru_upsert m k e l).
Proof.
  intros (Hr & Hm & Hl). destruct (upsert_repr c l k e Hr Hm Hl) as (c1 & Hu & Hr' & Hm').
  exists c1, (FastestIpCache.max_size c). unfold update. rewrite Hu. split; [done|]. split; [done|].
  split; [done|]. rewrite Hm'. split; [done|].
  exact (lru_call_len _ (Upsert k e) l Hm (repr_nodup _ _ Hr) Hl).
Qed.

(** An address that is not cached stays so while another one is used. *)
Lemma lru_get_other k k' now l :
  lookup_key k' l = None -> k' <> k -> lookup_key k' (snd (lru_get k now l)) = None.
Proof.
  intros Hl Hne. unfold lru_get. destruct (lookup_key k l) as [e|]; [|done].
  destruct (_ <=? now); cbn; rewrite ?lookup_drop_key; repeat case_decide; congruence.
Qed.

Lemma lru_upsert_other m k k' e l :
  lookup_key k' l = None -> k' <> k -> lookup_key k' (lru_upsert m k e l) = None.
Proof.
  intros Hl Hne. destruct (lookup_key k' (lru_upsert m k e l)) as [e'|] eqn:H; [|done].
  unfold lru_upsert in H. apply lookup_take in H. cbn in H. rewrite lookup_drop_key in H.
  repeat case_decide; congruence.
Qed.

Lemma lru_get_upsert m k e now l :
  1 <= m -> now < FastestIpCache.expire_at_ms e -> fst (lru_get k now (lru_upsert m k e l)) = Some e.
Proof.
  intros Hm Ht. unfold lru_upsert. destruct (Z.to_nat m) as [|m'] eqn:Hn; [lia|].
  unfold lru_get. cbn. rewrite decide_True by done. by rewrite (proj2 (Z.leb_gt _ _)).
Qed.

Lemma lru_get_twice k now l :
  fst (lru_get k now (snd (lru_get k now l))) = fst (lru_get k now l).
Proof.
  unfold lru_get at 2 3. destruct (lookup_key k l) as [e|] eqn:Hk.
  - destruct (FastestIpCache.expire_at_ms e <=? now) eqn:He; cbn [snd fst]; unfold lru_get.
    + rewrite lookup_drop_key, decide_True by done. done.
    + cbn. rewrite decide_True by done. by rewrite He.
  - cbn [snd fst]. unfold lru_get. by rewrite Hk.
Qed.

Lemma expiry_later now : 0 <= now < u64_max -> now < expiry now.
Proof. unfold expiry, saturating_add_u64, saturating_mul_u64, FASTEST_ADDR_CACHE_TTL_SECS. lia. Qed.

(** What a store leaves: an entry for its address, and none for an address
    that had none. *)
Definition stored (k : IpAddr) (now : Z) (l l' : list item) (P : FastestIpCache.FastIpCacheEntry -> Prop)
    : Prop :=
  (exists e, fst (lru_get k now l') = Some e /\ P e) /\
  forall k', lookup_key k' l = None -> k' <> k -> lookup_key k' l' = None.

Lemma store_success_holds c l k latency now :
  holds c l -> 0 <= now < u64_max ->
  exists c' l', store_fastest_success k latency now c = (Ok tt, c') /\ holds c' l' /\
    stored k now l l' (fun e => FastestIpCache.status e = FastestIpCache.Success /\
                                FastestIpCache.latency_ms e <= latency).
Proof.
  intros Hc Hnow. pose proof (expiry_later now Hnow) as Hexp.
  destruct (holds_load c l k now Hc) as (c1 & Hload & Hc1).
  unfold store_fastest_success, mbind, mutates_bind. rewrite Hload.
  set (entry := {| FastestIpCache.status := _ |}).
  destruct (holds_upsert c1 _ k entry Hc1) as (c2 & m & Hup & Hm & Hc2).
  assert (exists c' l', update (FastestIpCache.upsert k entry) c1 = (Ok tt, c') /\ holds c' l' /\
    stored k now l l' (fun e => FastestIpCache.status e = FastestIpCache.Success /\
                                FastestIpCache.latency_ms e <= latency)) as Hreplace.
  { exists c2. eexists. split; [done|]. split; [done|]. split.
    - exists entry. split; [by apply lru_get_upsert|]. done.
    - intros k' Hk' Hne. apply lru_upsert_other; [by apply lru_get_other|done]. }
  destruct (fst (lru_get k now l)) as [existing|] eqn:He; [|exact Hreplace].
  case_decide; [exact Hreplace|]. destruct (Z.ltb_spec latency (FastestIpCache.latency_ms existing));
    [exact Hreplace|].
  exists c1. eexists. split; [done|]. split; [done|]. split.
  - exists existing. split; [by rewrite lru_get_twice|]. split; [|done].
    by destruct (FastestIpCache.status existing).
  - intros k' Hk' Hne. by apply lru_get_other.
Qed.

Lemma store_failure_holds c l k now :
  holds c l -> 0 <= now < u64_max ->
  exists c' l', store_fastest_failure k now c = (Ok tt, c') /\ holds c' l' /\
    stored k now l l' (fun e => fst (lru_get k now l) = None -> FastestIpCache.status e = FastestIpCache.Failure).
Proof.
  intros Hc Hnow. pose proof (expiry_later now Hnow) as Hexp.
  destruct (holds_load c l k now Hc) as (c1 & Hload & Hc1).
  unfold store_fastest_failure, mbind, mutates_bind. rewrite Hload.
  destruct (fst (lru_get k now l)) as [existing|] eqn:He.
  - exists c1. eexists. split; [done|]. split; [done|]. split.
    + exists existing. split; [by rewrite lru_get_twice|done].
    + intros k' Hk' Hne. by apply lru_get_other.
  - set (entry := {| FastestIpCache.status := _ |}).
    destruct (holds_upsert c1 _ k entry Hc1) as (c2 & m & Hup & Hm & Hc2).
    exists c2. eexists. split; [done|]. split; [done|]. split.
    + exists entry. split; [by apply lru_get_upsert|done].
    + intros k' Hk' Hne. apply lru_upsert_other; [by apply lru_get_other|done].
Qed.

(** ** What the exchange comes to *)
Section exchange.
Context `{BO : ByteOrder}.
Context (exchange_single : bytes -> Upstream.t -> outcome DoHError.t bytes).
Context (elapsed : nat -> Duration).

Definition fastest_addr_result (rx : channel) (hash_order : list IpAddr -> list IpAddr) (now : nat -> Z)
    (others : nat -> FastestIpCache.t -> FastestIpCache.t)
    (in_time : list (IpAddr * Z) -> list PingResult) (query : bytes) (upstreams : list Upstream.t)
    (c : FastestIpCache.t) : Prop :=
  exists oc c',
    exchange_fastest_addr exchange_single elapsed rx hash_order now others in_time query upstreams c
    = (Ok oc, c') /\
    query_stats oc = with_main (map (stat_at exchange_single elapsed query upstreams)
                                  (seq 0 (length upstreams))) /\
    match packet oc, replies_of exchange_single query upstreams (arrivals rx) with
    | inl e, ps =>
        ps = [] /\ Forall (fun j => exists e, fails exchange_single query upstreams j e) (arrivals rx) /\
        e = joined exchange_single elapsed query upstreams (arrivals rx)
    | inr p, first :: ps =>
        exists ips chosen, usable_ips (first :: ps) ips /\ fastest_of now others in_time ips c chosen /\
          match chosen with
          | None => p = first
          | Some ip => rewritten_reply (first :: ps) ip p
          end
    | inr _, [] => False
    end.

Lemma fastest_addr_outcome rx hash_order now others in_time query upstreams c :
  all_end exchange_single query upstreams -> upstreams <> [] ->
  arrivals rx ≡ₚ seq 0 (length upstreams) -> (forall s, hash_order s ≡ₚ s) ->
  (forall sched, Forall (fun r => exists port, (ping_ip r, port) ∈ sched) (in_time sched)) ->
  fastest_addr_result rx hash_order now others in_time query upstreams c.
Proof.
  intros Hall Hne Hp Hho Hin. unfold fastest_addr_result.
  destruct (exchange_all_spec exchange_single elapsed query upstreams rx Hall Hp) as (e & Hex & He).
  unfold exchange_fastest_addr, lift, mbind, mutates_bind. rewrite Hex. cbn [replies stats err].
  pose proof (replies_of_valid exchange_single query upstreams (arrivals rx)) as Hv.
  destruct (replies_of exchange_single query upstreams (arrivals rx)) as [|first ps] eqn:Hps.
  - cbn [map]. eexists _, c. split; [done|]. split; [done|]. cbn [packet].
    split; [done|]. destruct (replies_of_nil exchange_single elapsed query upstreams (arrivals rx))
      as [Hf _]; [done| |done|].
    { apply Forall_forall. intros i Hi. assert (i ∈ seq 0 (length upstreams)) as Hs by (by rewrite <- Hp).
      apply elem_of_seq in Hs. lia. }
    split; [done|]. rewrite He; [done| |done]. destruct upstreams; [done|cbn; lia].
  - cbn [map]. change (mk_reply first :: map mk_reply ps) with (map mk_reply (first :: ps)).
    destruct (collect_ips_spec (first :: ps) [] Hv (NoDup_nil_2)) as (ips & -> & Hnd & Hips).
    pose proof (Hho ips) as Hperm.
    assert (usable_ips (first :: ps) (hash_order ips)) as Husable.
    { split; [by rewrite Hperm|]. intros ip. rewrite Hperm, Hips. set_solver. }
    destruct (hash_order ips) as [|ip0 ips'] eqn:Hord.
    { eexists _, c. split; [done|]. split; [done|]. exists [], None. split_and!; [done|by apply nothing_to_try|done]. }
    destruct (ping_all_spec now others in_time (ip0 :: ips') c) as (best & c' & -> & Hb).
    destruct best as [best|]; cbn [fmap option_fmap option_map] in Hb;
      [|eexists _, c'; split; [done|]; split; [done|]; by exists (ip0 :: ips'), None].
    pose proof (fastest_in _ _ _ _ _ _ Hin Hb) as Hbi. apply Husable in Hbi as [_ Hbi].
    destruct (select_reply_spec (first :: ps) (ping_ip best) first Hv Hbi) as (q & Hsel & Hr).
    cbn [reply_packet]. rewrite Hsel.
    eexists _, c'. split; [done|]. split; [done|]. by exists (ip0 :: ips'), (Some (ping_ip best)).
Qed.
End exchange.
