(* ===== verification/FastestAddrProps.v ===== *)
(** * Properties of the fastest-address mode *)

From S2P Require Import Prelude Bytes Net Msg MsgProps Errors FastestIpCache FastestIpCacheFacts.
From S2P Require Import Upstream UpstreamFacts UpstreamProps Bootstrap BootstrapProps.
From S2P Require Import FastestAddr FastestAddrFacts.

Section properties.
Context `{BO : ByteOrder}.
Context (exchange_single : bytes -> Upstream.t -> outcome DoHError.t bytes).
Context (elapsed : nat -> Duration).

(** C12: the fastest-address exchange, once all tasks have answered in some
    order, for any iteration order of the address set, any cache, any
    interference of other tasks and any pings that end in time.  It fails
    only if every upstream fails.  Otherwise the usable addresses of all
    replies are looked up in the cache, one after the other, those it does
    not know are pinged, and the fastest is chosen: the only address there
    is; the first with the lowest latency among the cached ones, unless the
    first ping that succeeds is at least as fast; else the address of that
    ping.  A cached or pinged failure is never chosen.  The packet is the
    first reply that has this address, rewritten in place to it, or, if no
    address answers, the first reply.  The statistics name every upstream, in
    the order of the configuration. *)
Theorem fastest_addr_spec (rx : channel) (hash_order : list IpAddr -> list IpAddr) (now : nat -> Z)
    (others : nat -> FastestIpCache.t -> FastestIpCache.t)
    (in_time : list (IpAddr * Z) -> list PingResult) (query : bytes) (upstreams : list Upstream.t)
    (c : FastestIpCache.t) :
  all_end exchange_single query upstreams -> upstreams <> [] ->
  arrivals rx ≡ₚ seq 0 (length upstreams) -> (forall s, hash_order s ≡ₚ s) ->
  (forall sched, Forall (fun r => exists port, (ping_ip r, port) ∈ sched) (in_time sched)) ->
  exists oc c',
    exchange_fastest_addr exchange_single elapsed rx hash_order now others in_time query upstreams c
    = (Ok oc, c') /\
    query_stats oc = with_main (map (stat_at exchange_single elapsed query upstreams)
                                  (seq 0 (length upstreams))) /\
    match packet oc, replies_of exchange_single query upstreams (arrivals rx) with
    | inl e, ps =>
        ps = [] /\ Forall (fun j => exists e, fails exchange_single query upstreams j e) (arrivals rx) /\
        e = joined exchange_single elapsed query upstreams (arrivals rx)
    | inr p, first :: ps =>
        exists ips chosen, usable_ips (first :: ps) ips /\ fastest_of now others in_time ips c chosen /\
          match chosen with
          | None => p = first
          | Some ip => rewritten_reply (first :: ps) ip p
          end
    | inr _, [] => False
    end.
Proof. apply fastest_addr_outcome. Qed.
End properties.

(** ** The cache of pings *)

(** A ping leaves its result in the shared cache, under the IPv4 address
    of an IPv4-compatible or IPv4-mapped one and under the address itself
    otherwise: after a success the entry is a success that took no longer,
    after a failure without a live entry it is a failure, and in both cases
    it is live.  No other address gets an entry. *)
Theorem ping_stored (local : SocketAddr) (ip : IpAddr) (port : Z) (socket : TcpSocket)
    (elapsed : Duration) (now : Z) (c : FastestIpCache.t) (l : list item) :
  holds c l -> 0 <= now < u64_max ->
  exists r c' l', ping_do_tcp local ip port socket elapsed now c = (Ok r, c') /\ holds c' l' /\
    ping_ip r = ip /\
    stored (cache_ip ip) now l l' (fun e =>
      if ping_success r then
        FastestIpCache.status e = FastestIpCache.Success /\
        FastestIpCache.latency_ms e <= ping_latency_ms r
      else fst (lru_get (cache_ip ip) now l) = None -> FastestIpCache.status e = FastestIpCache.Failure).
Proof.
  intros Hc Hnow. unfold ping_do_tcp, mbind, mutates_bind.
  destruct (connect_tcp_with_local_bind local (SocketAddr_new ip port) socket) as [u|e| |].
  1: destruct (store_success_holds c l (cache_ip ip) (Z.min (as_millis elapsed) u32_max) now Hc Hnow)
      as (c' & l' & -> & Hc' & Hs).
  2-4: destruct (store_failure_holds c l (cache_ip ip) now Hc Hnow) as (c' & l' & -> & Hc' & Hs).
  all: eexists _, c', l'; split; [done|]; split; [done|]; split; [done|exact Hs].
Qed.

(** The IPv4-mapped form of an address. *)
Definition mapped (o : vec byte 4) : IpAddr :=
  V6 (vreplicate 10 x00 +++ [# xff; xff] +++ o).

(** But the cache is looked up under the address itself, so the ping of
    an IPv4-mapped address is never found again: whatever it gives, the
    next look-up of the address misses and schedules the pings anew. *)
Theorem mapped_ping_misses (local : SocketAddr) (o : vec byte 4) (port : Z) (socket : TcpSocket)
    (elapsed : Duration) (now later : Z) (c : FastestIpCache.t) (l : list item) :
  holds c l -> 0 <= now < u64_max -> lookup_key (mapped o) l = None ->
  exists r c' c'', ping_do_tcp local (mapped o) port socket elapsed now c = (Ok r, c') /\
    load_fastest_cache (mapped o) later c' = (Ok None, c'').
Proof.
  intros Hc Hnow Hl.
  assert (cache_ip (mapped o) = V4 o) as Hip by (inv_vec o; intros; reflexivity).
  unfold ping_do_tcp, mbind, mutates_bind. rewrite Hip.
  assert (forall c' l', holds c' l' -> (forall k', lookup_key k' l = None -> k' <> V4 o -> lookup_key k' l' = None) ->
    exists c'', load_fastest_cache (mapped o) later c' = (Ok None, c'')) as Hmiss.
  { intros c' l' Hc' Hk. destruct (holds_load c' l' (mapped o) later Hc') as (c'' & Hload & _).
    exists c''. rewrite Hload. unfold lru_get. by rewrite (Hk (mapped o) Hl). }
  destruct (connect_tcp_with_local_bind local (SocketAddr_new (mapped o) port) socket) as [u|e| |].
  1: destruct (store_success_holds c l (V4 o) (Z.min (as_millis elapsed) u32_max) now Hc Hnow)
      as (c' & l' & -> & Hc' & _ & Hk).
  2-4: destruct (store_failure_holds c l (V4 o) now Hc Hnow) as (c' & l' & -> & Hc' & _ & Hk).
  all: destruct (Hmiss c' l' Hc' Hk) as (c'' & Hload).
  all: eexists _, c', c''; split; [done|exact Hload].
Qed.

(** ** Witnesses *)
Lemma new_cache_holds : holds (FastestIpCache.with_max_size 4) [].
Proof. split; [apply with_max_size_repr|]. split; done. Qed.

Definition sample_tcp : TcpSocket :=
  {| tcp_new := None; tcp_bind _ := None; tcp_connect _ := Connected |}.

Lemma ping_stored_witness :
  exists r c' l', ping_do_tcp sample_local (V4 [# x0a; x00; x00; x01]) 443 sample_tcp 7000000 1000
                    (FastestIpCache.with_max_size 4) = (Ok r, c') /\ holds c' l'.
Proof.
  destruct (ping_stored sample_local (V4 [# x0a; x00; x00; x01]) 443 sample_tcp 7000000 1000
    (FastestIpCache.with_max_size 4) [] new_cache_holds ltac:(lia)) as (r & c' & l' & H & Hc & _).
  exists r, c', l'. split; [exact H|exact Hc].
Defined.

Lemma mapped_ping_misses_witness :
  exists r c' c'', ping_do_tcp sample_local (mapped [# x0a; x00; x00; x01]) 443 sample_tcp 7000000 1000
                    (FastestIpCache.with_max_size 4) = (Ok r, c') /\
    load_fastest_cache (mapped [# x0a; x00; x00; x01]) 1001 c' = (Ok None, c'').
Proof.
  exact (mapped_ping_misses sample_local [# x0a; x00; x00; x01] 443 sample_tcp 7000000 1000 1001
    (FastestIpCache.with_max_size 4) [] new_cache_holds ltac:(lia) eq_refl).
Defined.

Lemma fastest_addr_spec_witness :
  exists oc c', exchange_fastest_addr sample_exchange sample_elapsed
    {| arrivals := [1%nat; 0%nat]; closed := false |} (fun s => s) (fun _ => 0) (fun _ c => c) (fun _ => [])
    [] sample_upstreams (FastestIpCache.with_max_size 4) = (Ok oc, c').
Proof.
  destruct (fastest_addr_spec sample_exchange sample_elapsed
    {| arrivals := [1%nat; 0%nat]; closed := false |} (fun s => s) (fun _ => 0) (fun _ c => c) (fun _ => [])
    [] sample_upstreams (FastestIpCache.with_max_size 4) sample_all_end ltac:(done)
    ltac:(apply Permutation_swap) ltac:(done) ltac:(constructor)) as (oc & c' & H & _).
  exists oc, c'. exact H.
Defined.
