(* ===== verification/Proxy.v ===== *)
(** * The proxy: src/libdoh/src/lib.rs and upstream/mod.rs

    A client's query goes through [proxy]: it is rewritten, exchanged with
    the upstreams in the configured mode, and the reply's TTL and padding are
    computed.  Below it, [exchange_single] asks one upstream by UDP with TCP
    fallback, by TLS, or by HTTPS (DohClient.v).

    Sockets, streams and the clock are arguments.  A future that may be cut
    off by the timeout runs to its own outcome first; whether that is in time
    is an argument. *)

From S2P Require Import Prelude Bytes Net Dns Ecs RrTypes Msg Errors Upstream Bootstrap.
From S2P Require Import FastestIpCache FastestAddr.

Definition MIN_DNS_PACKET_LEN : Z := 17.
Definition UDP_TCP_RATIO : Z := 8.

(** The settings of [Globals] the proxy reads. *)
Record Globals := {
  local_bind_address : SocketAddr;
  upstreams : list Upstream.t;
  upstream_mode : UpstreamMode.t;
  max_clients : Z;
  timeout : Duration;
  min_ttl : Z;
  max_ttl : Z;
  err_ttl : Z;
  enable_ecs : bool;
  ecs_prefix_v4 : Z;
  ecs_prefix_v6 : Z
}.

Record DnsResponse := {
  resp_packet : bytes;
  resp_ttl : Z;
  resp_query_stats : QueryStatistics
}.

(** ** Timeouts *)
Definition run_with_timeout {T : Type} (globals : Globals) (in_time : bool)
    (fut : outcome DoHError.t T) : outcome DoHError.t T :=
  if timeout globals =? 0 then fut
  else
    match fut with
    | Panic => Panic
    | Diverge => Err DoHError.UpstreamTimeout
    | r => if in_time then r else Err DoHError.UpstreamTimeout
    end.

(** ** Streams *)

(** A connected stream: the errors of the calls on it, what has been written,
    and what there is to read, then an error or nothing. *)
Record stream := {
  nodelay_error : option io_error;
  write_errors : list (option io_error);
  flush_error : option io_error;
  sent : bytes;
  incoming : bytes;
  at_end : option io_error
}.

Abbreviation on_stream A := (mutates stream DoHError.t A).

Definition set_nodelay : on_stream unit := fun s => (io_result (nodelay_error s), s).

Definition write_all (data : bytes) : on_stream unit := fun s =>
  let s' := {| nodelay_error := nodelay_error s; write_errors := tail (write_errors s);
               flush_error := flush_error s; sent := sent s ++ data; incoming := incoming s;
               at_end := at_end s |} in
  match head (write_errors s) with
  | Some (Some e) => (Err (DoHError.Io e), s)
  | _ => (Ok tt, s')
  end.

Definition flush : on_stream unit := fun s => (io_result (flush_error s), s).

Definition read_exact (n : Z) : on_stream bytes := fun s =>
  if n <=? len (incoming s) then
    (Ok (firstn (Z.to_nat n) (incoming s)),
     {| nodelay_error := nodelay_error s; write_errors := write_errors s;
        flush_error := flush_error s; sent := sent s;
        incoming := skipn (Z.to_nat n) (incoming s); at_end := at_end s |})
  else
    match at_end s with
    | Some e => (Err (DoHError.Io e), s)
    | None => (Diverge, s)
    end.

Section proxy.
Context `{BO : ByteOrder}.

(** The part both stream exchanges share: the query with its length, then
    the length and the packet of the reply. *)
Definition frame_exchange (query : bytes) : on_stream bytes :=
  binlen ← lift (write_u16_in (repeat x00 2) 0 2 (as_u16 (len query)));
  write_all binlen;;
  write_all query;;
  flush;;
  binlen ← read_exact 2;
  packet_len ← lift (read_u16_in binlen 0 2);
  if negb ((MIN_DNS_PACKET_LEN <=? packet_len) && (packet_len <=? MAX_DNS_RESPONSE_LEN))
  then lift (Err DoHError.UpstreamIssue)
  else read_exact packet_len.

Definition dns_exchange_over_stream (query : bytes) : on_stream bytes :=
  if u16_max <? len query then lift (Err DoHError.TooLarge) else frame_exchange query.

(** ** UDP and TCP *)

(** What the network does to the UDP socket of an exchange: [recv_from] gives
    the datagram and its source. *)
Inductive datagram_from :=
  | DatagramFrom (d : bytes) (source : SocketAddr)
  | FromError (e : io_error)
  | FromNobody.
Record UdpEndpoint := {
  ep_bind : SocketAddr -> option io_error;
  ep_send_to : bytes -> SocketAddr -> option io_error;
  ep_recv_from : bytes -> datagram_from
}.

(** [recv_from] into a buffer of [MAX_DNS_RESPONSE_LEN] octets *)
Definition recv_from (a : datagram_from) : outcome DoHError.t (bytes * SocketAddr) :=
  match a with
  | DatagramFrom d source => Ok (truncate d MAX_DNS_RESPONSE_LEN, source)
  | FromError e => Err (DoHError.Io e)
  | FromNobody => Diverge
  end.

(** [connect_tcp_with_local_bind(..).await.map_err(DoHError::Io)] *)
Definition connect_stream (globals : Globals) (server_address : SocketAddr) (socket : TcpSocket)
    : outcome DoHError.t unit :=
  map_err DoHError.Io (connect_tcp_with_local_bind (local_bind_address globals) server_address socket).

(** [clients_count] is the number of clients when it is read; [tcp] the
    stream a connection gives. *)
Definition proxy_dns_udp_tcp (globals : Globals) (query : bytes) (server_address : SocketAddr)
    (udp : UdpEndpoint) (clients_count : Z) (socket : TcpSocket) (tcp : stream)
    : outcome DoHError.t bytes :=
  _ ← io_result (ep_bind udp (local_bind_address globals));
  _ ← io_result (ep_send_to udp query server_address);
  '(packet, response_server_address) ← recv_from (ep_recv_from udp query);
  if (len packet <? MIN_DNS_PACKET_LEN) || negb (bool_decide (server_address = response_server_address))
  then Err DoHError.UpstreamIssue
  else
    truncated ← map_err (fun _ => DoHError.InvalidData) (is_truncated packet);
    if truncated : bool then
      if (UDP_TCP_RATIO <=? max_clients globals)
         && (max_clients globals / UDP_TCP_RATIO <=? clients_count)
      then Err DoHError.TooManyTcpSessions
      else
        _ ← connect_stream globals server_address socket;
        fst ((set_nodelay;; frame_exchange query) tcp)
    else Ok packet.

(** ** TLS *)

(** One address of a DoT upstream: its TCP socket, and the stream the TLS
    handshake gives, if it succeeds. *)
Record DotPeer := {
  dot_addr : SocketAddr;
  dot_socket : TcpSocket;
  dot_nodelay : option io_error;
  dot_handshake : option stream
}.

(** [DOT_TLS_CONFIG]: a cell that is set once, for all tasks.  The platform's
    verifier may be missing; another task may set the cell meanwhile. *)
Definition cell_set {A : Type} (cell : option A) (x : A) : option A :=
  match cell with Some _ => cell | None => Some x end.

Definition dot_tls_config {Config : Type} (platform_verifier set_meanwhile : option Config) (cell : option Config)
    : outcome DoHError.t Config * option Config :=
  match cell with
  | Some config => (Ok config, cell)
  | None =>
      match platform_verifier with
      | None => (Err DoHError.UpstreamIssue, cell)
      | Some config =>
          let cell := cell_set set_meanwhile config in
          (or_panic cell, cell)
      end
  end.

Fixpoint dot_loop (globals : Globals) (query : bytes) (peers : list DotPeer)
    (last_err : option DoHError.t) : outcome DoHError.t bytes :=
  match peers with
  | [] => Err (default DoHError.UpstreamIssue last_err)
  | peer :: peers =>
      match connect_tcp_with_local_bind (local_bind_address globals) (dot_addr peer) (dot_socket peer) with
      | Ok _ =>
          match dot_nodelay peer with
          | Some e => dot_loop globals query peers (Some (DoHError.Io e))
          | None =>
              match dot_handshake peer with
              | None => dot_loop globals query peers (Some DoHError.UpstreamIssue)
              | Some tls_stream => fst (dns_exchange_over_stream query tls_stream)
              end
          end
      | Err e => dot_loop globals query peers (Some (DoHError.Io e))
      | Panic => Panic
      | Diverge => Diverge
      end
  end.

(** [server_name_ok]: the host is a valid server name; [tls_config_ok]: the
    platform verifier is available; [resolve]: [resolve_upstream_addrs] for
    the upstream, with the peer of each address. *)
Definition proxy_dot (globals : Globals) (query : bytes) (server_name_ok tls_config_ok : bool)
    (resolve : outcome DoHError.t (list DotPeer)) : outcome DoHError.t bytes :=
  ensure server_name_ok DoHError.UpstreamIssue;;
  ensure tls_config_ok DoHError.UpstreamIssue;;
  peers ← resolve;
  dot_loop globals query peers None.

(** ** One upstream *)
Section exchange_single.
(** The transports, run to their outcome, and whether that is in time. *)
Context (ask_dns : bytes -> SocketAddr -> outcome DoHError.t bytes).
Context (ask_doh : bytes -> DohUpstream -> outcome DoHError.t bytes).
Context (ask_dot : bytes -> DotUpstream -> outcome DoHError.t bytes).
Context (in_time : Upstream.t -> bool).

Definition exchange_single (globals : Globals) (query : bytes) (upstream : Upstream.t)
    : outcome DoHError.t bytes :=
  match upstream with
  | Upstream.Dns server_address =>
      run_with_timeout globals (in_time upstream) (ask_dns query server_address)
  | Upstream.Doh doh_upstream => ask_doh query doh_upstream
  | Upstream.Dot dot_upstream =>
      run_with_timeout globals (in_time upstream) (ask_dot query dot_upstream)
  end.
End exchange_single.

(** ** The exchange *)

(** The state the queries share. *)
Record shared := {
  upstream_rtt_stats : rtt_stats;
  fastest_ip_cache : FastestIpCache.t
}.

(** What is open about one exchange: the random numbers of the load balancer,
    the order of the tasks' messages, and the arguments of the
    fastest-address mode. *)
Record schedule := {
  randoms : nat -> F64.f64;
  rx : channel;
  hash_order : list IpAddr -> list IpAddr;
  clock : nat -> Z;
  others : nat -> FastestIpCache.t -> FastestIpCache.t;
  pings_in_time : list (IpAddr * Z) -> list PingResult
}.

(** Run a mode on its part of the shared state. *)
Definition on_rtt_stats {A} (m : mutates rtt_stats Empty_set A) : mutates shared Empty_set A := fun s =>
  let '(r, stats) := m (upstream_rtt_stats s) in
  (r, {| upstream_rtt_stats := stats; fastest_ip_cache := fastest_ip_cache s |}).
Definition on_ip_cache {A} (m : mutates FastestIpCache.t Empty_set A) : mutates shared Empty_set A :=
  fun s =>
  let '(r, c) := m (fastest_ip_cache s) in
  (r, {| upstream_rtt_stats := upstream_rtt_stats s; fastest_ip_cache := c |}).

Section exchange.
Context (ask_single : bytes -> Upstream.t -> outcome DoHError.t bytes) (elapsed : nat -> Duration).
Context (sched : schedule).

Definition load_balanced (query : bytes) (ups : list Upstream.t) : mutates shared Empty_set ExchangeOutcome :=
  on_rtt_stats (exchange_load_balance ask_single elapsed (randoms sched) query ups).

Definition exchange (globals : Globals) (query : bytes) : mutates shared Empty_set ExchangeOutcome :=
  match upstreams globals with
  | [] => mret {| packet := inl DoHError.UpstreamIssue; query_stats := QueryStatistics_default |}
  | ups =>
      match upstream_mode globals with
      | UpstreamMode.Parallel => lift (exchange_parallel ask_single elapsed (rx sched) query ups)
      | UpstreamMode.FastestAddr =>
          qtype ← lift (plain (query_qtype query));
          match qtype with
          | Some RrType.A | Some RrType.AAAA =>
              on_ip_cache (exchange_fastest_addr ask_single elapsed (rx sched) (hash_order sched)
                (clock sched) (others sched) (pings_in_time sched) query ups)
          | _ => load_balanced query ups
          end
      | UpstreamMode.LoadBalance => load_balanced query ups
      end
  end.
End exchange.

(** ** The client's query *)

(** A call whose error is ignored, on a buffer it may have changed. *)
Definition ignore_error {S E A : Type} (m : mutates S E A) (s : S) : outcome DoHError.t S :=
  match m s with
  | (Ok _, s') => Ok s'
  | (Err _, s') => Ok s'
  | (Panic, _) => Panic
  | (Diverge, _) => Diverge
  end.

(** The query as it is sent to the upstreams. *)
Definition upstream_query (globals : Globals) (client_ip : option IpAddr) (query : bytes)
    : outcome DoHError.t bytes :=
  query ← ignore_error (set_edns_max_payload_size MAX_DNS_RESPONSE_LEN) query;
  match enable_ecs globals, client_ip with
  | true, Some client_ip =>
      ignore_error (add_ecs_to_packet client_ip (ecs_prefix_v4 globals) (ecs_prefix_v6 globals)) query
  | _, _ => Ok query
  end.

(** The TTL the answer is given. *)
Definition response_ttl (globals : Globals) (packet : bytes) : outcome DoHError.t Z :=
  recoverable ← map_err (fun _ => DoHError.InvalidData) (is_recoverable_error packet);
  if recoverable : bool then Ok (err_ttl globals)
  else
    map_err (fun _ => DoHError.UpstreamIssue)
      (Dns.min_ttl packet (min_ttl globals) (max_ttl globals) (err_ttl globals)).

(** Code that handles its errors, inside code that returns them. *)
Definition never_err {S A : Type} (m : mutates S Empty_set A) : mutates S DoHError.t A := fun s =>
  match m s with
  | (Ok a, s) => (Ok a, s)
  | (Err e, _) => match e : Empty_set with end
  | (Panic, s) => (Panic, s)
  | (Diverge, s) => (Diverge, s)
  end.

Definition proxy (globals : Globals)
    (exchange : bytes -> mutates shared Empty_set ExchangeOutcome) (query : bytes)
    (client_ip : option IpAddr) : mutates shared DoHError.t DnsResponse :=
  if len query <? MIN_DNS_PACKET_LEN then lift (Err DoHError.Incomplete)
  else
    query ← lift (upstream_query globals client_ip query);
    outcome ← never_err (exchange query);
    packet ← lift (match packet outcome with inr packet => Ok packet | inl e => Err e end);
    ttl ← lift (response_ttl globals packet);
    packet ← lift (ignore_error add_edns_padding packet);
    mret {| resp_packet := packet; resp_ttl := ttl; resp_query_stats := query_stats outcome |}.
End proxy.
