(* ===== verification/ProxyFacts.v ===== *)
(** * Facts about the proxy

    What an exchange gives in each mode, and what the reading side of a
    stream gives. *)

From S2P Require Import Prelude Bytes Net Dns DnsFacts Msg MsgFacts Errors FastestIpCache.
From S2P Require Import Upstream UpstreamFacts Bootstrap BootstrapFacts FastestAddr.
From S2P Require Import FastestAddrFacts Proxy.

Section exchange.
Context `{BO : ByteOrder}.

Lemma valid_reply_len p : valid_reply p -> 12 <= len p.
Proof.
  intros [m Hm]. unfold unpack, DNS_HEADER_SIZE in Hm. destruct (Z.ltb_spec (len p) 12); [done|lia].
Qed.

Lemma qtype_from_packet_Ok p : exists q, qtype_from_packet p = Ok q.
Proof.
  unfold qtype_from_packet.
  assert (exists n, (if 6 <=? len p then read_u16_in p 4 6 else Ok 0) = Ok (E := MsgError) n) as (n & ->).
  { destruct (Z.leb_spec 6 (len p)); [|by eexists]. rewrite read_u16_in_ok by lia. by eexists. }
  cbn [mbind outcome_bind]. destruct (n =? 0); [by eexists|].
  pose proof (skip_wire_returns p DNS_HEADER_SIZE ltac:(done)) as Hs.
  destruct (skip_wire p DNS_HEADER_SIZE) as [o|e| |]; cbn in Hs; try done; [|by eexists].
  unfold DNS_HEADER_SIZE, saturating_sub in *.
  destruct (Z.ltb_spec (Z.max 0 (len p - o)) 4); [by eexists|].
  rewrite read_u16_in_ok by lia. by eexists.
Qed.

Context (ask_single : bytes -> Upstream.t -> outcome DoHError.t bytes) (elapsed : nat -> Duration).
Context (query : bytes) (ups : list Upstream.t).

Lemma answers_valid i p : answers ask_single query ups i p -> valid_reply p.
Proof.
  intros (u & _ & Ha). unfold ask in Ha. apply bind_Ok in Ha as (q & _ & Hv).
  by apply validate_valid in Hv as [-> Hv].
Qed.

(** The outcome of an exchange: a packet of an upstream, possibly rewritten,
    or an error when all upstreams fail. *)
Definition exchanged_well (rewritten : bool) (oc : ExchangeOutcome) : Prop :=
  fallback (query_stats oc) = [] /\
  match packet oc with
  | inr p =>
      12 <= len p /\ exists i q, answers ask_single query ups i q /\
        (p = q \/ rewritten = true /\ exists ip, rewrite_answer_ips_in_place q ip = (Ok tt, p))
  | inl _ => Forall (fun u => exists e, ask ask_single query u = Err e) ups
  end.

Lemma answers_well i p stats :
  answers ask_single query ups i p -> fallback stats = [] ->
  exchanged_well false {| packet := inr p; query_stats := stats |}.
Proof.
  intros Ha Hf. split; [done|]. split; [by eapply valid_reply_len, answers_valid|].
  exists i, p. split; [done|by left].
Qed.

(** All indices fail, so all upstreams do. *)
Lemma all_fail l :
  l ≡ₚ seq 0 (length ups) -> Forall (fun j => exists e, fails ask_single query ups j e) l ->
  Forall (fun u => exists e, ask ask_single query u = Err e) ups.
Proof.
  intros Hp Hf. apply Forall_lookup. intros i u Hu.
  assert (i ∈ l) as Hi. { rewrite Hp. apply elem_of_seq. apply lookup_lt_Some in Hu. lia. }
  destruct (proj1 (Forall_forall _ _) Hf i Hi) as (e & u' & Hu' & He).
  exists e. congruence.
Qed.

Lemma only_well u r stats :
  ups = [u] -> settle (ask ask_single query u) = Ok r -> fallback stats = [] ->
  exchanged_well false {| packet := r; query_stats := stats |}.
Proof.
  intros Hups Hs Hf. destruct (ask ask_single query u) as [p|e| |] eqn:Ha; try done;
    injection Hs as <-.
  - apply (answers_well 0%nat); [|done]. exists u. by rewrite Hups.
  - split; [done|]. cbn. rewrite Hups. repeat constructor. by exists e.
Qed.

Lemma load_balance_well randoms s :
  all_end ask_single query ups -> exists oc s',
    exchange_load_balance ask_single elapsed randoms query ups s = (Ok oc, s') /\ exchanged_well false oc.
Proof.
  intros Hall. pose proof (load_balance_outcome ask_single elapsed randoms query ups s Hall) as H.
  unfold load_balance_result in H. clear -H BO. revert H. destruct ups as [|u [|u' us]] eqn:Hups; intros H.
  2:{ destruct H as (r & Hr & Heq). do 2 eexists. split; [exact Heq|]. by apply (only_well u). }
  all: destruct H as (oc & tried & w & Heq & Hex & _); do 2 eexists; split; [exact Heq|].
  all: rewrite <- Hups in Hex; clear Heq; inversion Hex as [? i p _ _ Ha Hoc|? Hp Hf Hoc]; subst oc;
    [by apply (answers_well i)|split; [done|]; by apply (all_fail tried)].
Qed.

Lemma parallel_well ch :
  all_end ask_single query ups -> arrivals ch ≡ₚ seq 0 (length ups) -> exists oc,
    exchange_parallel ask_single elapsed ch query ups = Ok oc /\ exchanged_well false oc.
Proof.
  intros Hall Hp. destruct (decide (length ups = 1%nat)) as [H1|H1].
  { assert (exists u, ups = [u]) as (u & Hu) by (destruct ups as [|u [|]]; try done; by exists u).
    destruct (exchange_only_spec ask_single elapsed query u) as (r & Hr & Heq).
    { unfold all_end in Hall. rewrite Hu in Hall. by inversion Hall. }
    rewrite Hu. unfold exchange_parallel. rewrite Heq. eexists. split; [done|]. by apply (only_well u). }
  pose proof (parallel_outcome ask_single elapsed ch query ups Hall H1) as H. unfold parallel_result in H.
  assert (NoDup (arrivals ch)) as Hnd by (rewrite Hp; apply NoDup_seq).
  assert (Forall (fun i => (i < length ups)%nat) (arrivals ch)) as Hlt.
  { apply Forall_forall. intros i Hi. rewrite Hp in Hi. apply elem_of_seq in Hi. lia. }
  specialize (H Hnd Hlt). destruct (exchange_parallel _ _ _ _ _) as [oc| | |]; try done.
  - exists oc. split; [done|]. destruct H as [(l & i & p & _ & _ & Ha & ->)|(_ & Hf & ->)].
    + by apply (answers_well i).
    + split; [done|]. by apply (all_fail (arrivals ch)).
  - destruct H as (_ & Hl & _). rewrite Hp, length_seq in Hl. lia.
Qed.

Lemma rewritten_len q ip p : rewrite_answer_ips_in_place q ip = (Ok tt, p) -> len p = len q.
Proof.
  unfold rewrite_answer_ips_in_place. intros H.
  pose proof (rewrite_in_packet_returns ip q) as Hr. unfold returns_from in Hr.
  destruct (rewrite_answer_ips_in_packet ip q) as [[[]| | |] p']; try done.
  injection H as <-. by destruct Hr as (o & hs & e & _ & _ & _ & Hl & _).
Qed.

Lemma fastest_well ch hash_order now others in_time c :
  all_end ask_single query ups -> ups <> [] -> arrivals ch ≡ₚ seq 0 (length ups) ->
  (forall s, hash_order s ≡ₚ s) ->
  (forall sched, Forall (fun r => exists port, (ping_ip r, port) ∈ sched) (in_time sched)) ->
  exists oc c', exchange_fastest_addr ask_single elapsed ch hash_order now others in_time query ups c
    = (Ok oc, c') /\ exchanged_well true oc.
Proof.
  intros Hall Hne Hp Hho Hin.
  destruct (fastest_addr_outcome ask_single elapsed ch hash_order now others in_time query ups c
    Hall Hne Hp Hho Hin) as (oc & c' & Heq & Hs & Hoc).
  exists oc, c'. split; [done|]. split; [by rewrite Hs|].
  pose proof (replies_of_in ask_single query ups (arrivals ch)) as Hrep.
  destruct (packet oc) as [e|p].
  - destruct Hoc as (_ & Hf & _). by apply (all_fail (arrivals ch)).
  - destruct (replies_of ask_single query ups (arrivals ch)) as [|first ps]; [done|].
    destruct Hoc as (ips & [ip|] & _ & _ & Hq).
    + destruct Hq as (before & q & after & Heq' & _ & _ & Hr).
      destruct (proj1 (Hrep q) ltac:(rewrite Heq'; set_solver)) as (i & _ & Ha). rewrite (rewritten_len _ _ _ Hr).
      split; [by eapply valid_reply_len, answers_valid|]. exists i, q. split; [done|]. right.
      split; [done|by exists ip].
    + subst p. destruct (proj1 (Hrep first) ltac:(by left)) as (i & _ & Ha).
      split; [by eapply valid_reply_len, answers_valid|]. exists i, first. split; [done|by left].
Qed.
End exchange.

(** ** Streams *)
Section streams.
Context `{BO : ByteOrder}.

(** The calls of an exchange go through: two writes and the flush. *)
Definition writable (s : stream) : Prop :=
  mjoin (write_errors s !! 0%nat) = None /\ mjoin (write_errors s !! 1%nat) = None /\
  flush_error s = None.

(** The stream after an exchange. *)
Definition after_exchange (query rest : bytes) (s : stream) : stream :=
  {| nodelay_error := nodelay_error s; write_errors := tail (tail (write_errors s));
     flush_error := flush_error s; sent := sent s ++ be16 (as_u16 (len query)) ++ query;
     incoming := rest; at_end := at_end s |}.

Lemma be16_split (b : bytes) n : 2 <= len b -> u16at b 0 = n -> b = be16 n ++ skipn 2 b.
Proof.
  intros Hl <-. destruct b as [|b0 [|b1 b]]; [done|done|].
  cbn [skipn]. unfold be16, u16at, u8at, get. cbn [Z.to_nat nth]. change (Z.to_nat (0 + 1)) with 1%nat.
  cbn [nth app]. pose proof (u8_bounds b0). pose proof (u8_bounds b1).
  rewrite Z.div_add_l, Z.div_small, Z.add_0_r by lia. rewrite as_u8_u8. f_equal. f_equal.
  apply u8_inj. rewrite u8_as_u8. rewrite Z.add_comm, Z_mod_plus_full, Z.mod_small; lia.
Qed.

(** The effect of a write and of a read. *)
Definition wrote (data : bytes) (s : stream) : stream :=
  {| nodelay_error := nodelay_error s; write_errors := tail (write_errors s);
     flush_error := flush_error s; sent := sent s ++ data; incoming := incoming s;
     at_end := at_end s |}.
Definition left_over (rest : bytes) (s : stream) : stream :=
  {| nodelay_error := nodelay_error s; write_errors := write_errors s;
     flush_error := flush_error s; sent := sent s; incoming := rest; at_end := at_end s |}.

Lemma write_all_Ok data s u s' :
  write_all data s = (Ok u, s') <-> mjoin (head (write_errors s)) = None /\ s' = wrote data s.
Proof.
  unfold write_all. destruct u, (head (write_errors s)) as [[]|]; cbn;
    (split; [intros [= <-]; done || (split; done)|intros [? ->]; done]).
Qed.

Lemma flush_Ok s u s' : flush s = (Ok u, s') <-> flush_error s = None /\ s' = s.
Proof.
  unfold flush. destruct u, (flush_error s); cbn;
    (split; [intros [= <-]; done|intros [? ->]; done]).
Qed.

Lemma read_exact_Ok n s b s' :
  0 <= n -> read_exact n s = (Ok b, s') <->
  len b = n /\ exists rest, incoming s = b ++ rest /\ s' = left_over rest s.
Proof.
  intros Hn. unfold read_exact. destruct (Z.leb_spec n (len (incoming s))) as [Hle|Hgt].
  - split.
    + intros [= <- <-]. split; [by apply len_firstn|]. eexists. split; [|done].
      by rewrite take_drop.
    + intros (Hl & rest & Heq & ->). rewrite Heq. unfold len in Hl. subst n.
      rewrite Nat2Z.id. by rewrite take_app_length, drop_app_length.
  - split; [by destruct (at_end s)|]. intros (Hl & rest & Heq & _).
    rewrite Heq, len_app in Hgt. pose proof (len_nonneg rest). lia.
Qed.

Lemma len_binlen (query : bytes) : write_u16_in (repeat x00 2) 0 2 (as_u16 (len query))
  = Ok (E := DoHError.t) (be16 (as_u16 (len query))).
Proof.
  rewrite write_u16_in_ok; [done|done|done|done|].
  unfold as_u16. pose proof (Z.mod_pos_bound (len query) 65536). lia.
Qed.

Lemma read_binlen (b : bytes) : len b = 2 -> read_u16_in b 0 2 = Ok (E := DoHError.t) (u16at b 0).
Proof. intros. apply read_u16_in_ok; lia. Qed.

Lemma frame_exchange_Ok query s p s' :
  frame_exchange query s = (Ok p, s') <->
  writable s /\ MIN_DNS_PACKET_LEN <= len p <= MAX_DNS_RESPONSE_LEN /\
  exists rest, incoming s = be16 (len p) ++ p ++ rest /\ s' = after_exchange query rest s.
Proof.
  unfold frame_exchange. rewrite len_binlen. unfold writable.
  assert (mjoin (write_errors s !! 0%nat) = mjoin (head (write_errors s))) as -> by by destruct (write_errors s).
  assert (mjoin (write_errors s !! 1%nat) = mjoin (head (tail (write_errors s)))) as ->
    by by destruct (write_errors s) as [|? []].
  split.
  - intros H. inv_mut.
    repeat match goal with
    | H : write_all _ _ = (Ok _, _) |- _ => apply write_all_Ok in H as [? ->]
    | H : flush _ = (Ok _, _) |- _ => apply flush_Ok in H as [? ->]
    end.
    apply read_exact_Ok in Ha3 as (Hl2 & rest & Hin & ->); [|done].
    rewrite read_binlen in Ha4 by done. injection Ha4 as <-.
    pose proof (u16at_bounds a3 0).
    destruct (MIN_DNS_PACKET_LEN <=? u16at a3 0) eqn:Hmin; [|done].
    destruct (u16at a3 0 <=? MAX_DNS_RESPONSE_LEN) eqn:Hmax; [|done]. bool_to_prop.
    cbn [andb negb] in H. apply read_exact_Ok in H as (Hlp & rest' & Hin' & ->); [|lia].
    cbn in Hin, Hin'. split; [done|]. split; [lia|]. exists rest'. split.
    + assert (a3 = be16 (u16at a3 0)) as Hb.
      { pose proof (be16_split a3 (u16at a3 0) ltac:(lia) eq_refl) as Hs.
        rewrite drop_ge, app_nil_r in Hs by (unfold len in Hl2; lia). done. }
      by rewrite Hin, Hin', Hlp, <- Hb.
    + unfold after_exchange, wrote, left_over. cbn. by rewrite <- app_assoc.
  - intros ((Hw0 & Hw1 & Hfl) & Hlen & rest & Hin & ->).
    apply mutates_bind_Ok. do 2 eexists. split; [by apply lift_Ok|].
    apply mutates_bind_Ok. exists tt. eexists. split; [by apply write_all_Ok|].
    apply mutates_bind_Ok. exists tt. eexists. split; [by apply write_all_Ok|].
    apply mutates_bind_Ok. exists tt. eexists. split; [by apply flush_Ok|].
    apply mutates_bind_Ok. exists (be16 (len p)). eexists.
    split; [apply read_exact_Ok; [done|]; split; [by rewrite len_be16|]; by exists (p ++ rest)|].
    apply mutates_bind_Ok. exists (len p). eexists.
    unfold MIN_DNS_PACKET_LEN, MAX_DNS_RESPONSE_LEN in *.
    split; [apply lift_Ok; split; [|done]; rewrite read_binlen by (by rewrite len_be16);
            by rewrite u16at_be16 by lia|].
    cmp_simpl. cbn [andb negb]. apply read_exact_Ok; [lia|]. split; [done|]. exists rest.
    split; [done|]. unfold after_exchange, wrote, left_over. cbn. by rewrite <- app_assoc.
Qed.
(** An exchange over a stream never panics. *)
Lemma frame_exchange_no_panic query s : fst (frame_exchange query s) <> Panic.
Proof.
  unfold frame_exchange, mbind, mutates_bind, lift. rewrite len_binlen.
  unfold write_all, flush.
  destruct (head (write_errors s)) as [[]|]; try done; cbn [write_errors tail flush_error sent incoming].
  all: destruct (head (tail (write_errors s))) as [[]|]; try done; cbn [write_errors flush_error].
  all: destruct (flush_error s); try done; cbn [io_result].
  all: match goal with |- context [read_exact 2 ?st] => destruct (read_exact 2 st) as [r s1] eqn:Hread end.
  all: destruct r as [b|e| |]; try done;
    [|unfold read_exact in Hread; cbn in Hread; by repeat case_match].
  all: apply read_exact_Ok in Hread as (Hl & _); [|done].
  all: rewrite read_binlen by done.
  all: destruct (negb _); [done|].
  all: unfold read_exact; by repeat case_match.
Qed.
End streams.

(** ** UDP and TCP *)
Section udp_tcp.
Context `{BO : ByteOrder}.

(** A packet from the upstream that was asked. *)
Definition answered_by (globals : Globals) (query : bytes) (server : SocketAddr) (udp : UdpEndpoint)
    (clients_count : Z) (tcp : stream) (p : bytes) : Prop :=
    MIN_DNS_PACKET_LEN <= len p <= MAX_DNS_RESPONSE_LEN /\
    exists d, ep_recv_from udp query = DatagramFrom d server /\
      let u := truncate d MAX_DNS_RESPONSE_LEN in
      MIN_DNS_PACKET_LEN <= len u /\
      if Z.testbit (u16at u 2) 9 then
        (max_clients globals < UDP_TCP_RATIO \/ clients_count < max_clients globals / UDP_TCP_RATIO) /\
        exists rest, incoming tcp = be16 (len p) ++ p ++ rest
      else p = u.

Lemma is_truncated_ok u : 12 <= len u -> is_truncated u = Ok (Z.testbit (u16at u 2) 9).
Proof.
  intros Hmin. unfold is_truncated, DNS_OFFSET_FLAGS. rewrite read_u16_ok by lia. cbn [mbind outcome_bind]. f_equal.
  change DNS_FLAGS_TC with (2 ^ 9). destruct (Z.testbit (u16at u 2) 9) eqn:Hb.
  - apply Z.eqb_eq, Z.bits_inj'. intros n Hn. rewrite Z.land_spec, Z.pow2_bits_eqb by lia.
    destruct (Z.eqb_spec 9 n); [subst; by rewrite Hb|apply andb_false_r].
  - apply Z.eqb_neq. intros H0. pose proof (land_bit (u16at u 2) 9 ltac:(lia)) as Hl.
    rewrite Hb, H0 in Hl. done.
Qed.

Lemma udp_tcp_safe globals query server udp clients_count socket tcp :
  safe (proxy_dns_udp_tcp globals query server udp clients_count socket tcp)
    (answered_by globals query server udp clients_count tcp).
Proof.
  unfold answered_by, proxy_dns_udp_tcp.
  destruct (ep_bind udp (local_bind_address globals)); cbn [io_result mbind outcome_bind safe]; [done|].
  destruct (ep_send_to udp query server); cbn [io_result mbind outcome_bind safe]; [done|].
  destruct (ep_recv_from udp query) as [d source|e|] eqn:Hrecv; cbn [recv_from mbind outcome_bind safe];
    try done.
  set (u := truncate d MAX_DNS_RESPONSE_LEN).
  destruct (Z.ltb_spec (len u) MIN_DNS_PACKET_LEN) as [|Hmin]; cbn [orb]; [done|].
  case_bool_decide as Hsrc; cbn [negb]; [|done]. subst source.
  assert (len u <= MAX_DNS_RESPONSE_LEN) as Hmax.
  { unfold u, truncate, len, MAX_DNS_RESPONSE_LEN. rewrite length_take. lia. }
  unfold MIN_DNS_PACKET_LEN in Hmin.
  rewrite is_truncated_ok by lia.
  cbn [map_err mbind outcome_bind]. destruct (Z.testbit (u16at u 2) 9) eqn:Htc.
  - destruct (_ && _) eqn:Hfull; [done|].
    unfold connect_stream.
    pose proof (connect_not_panic (local_bind_address globals) server socket) as Hnp.
    destruct (connect_tcp_with_local_bind _ _ _) as [x|e| |]; cbn [map_err mbind outcome_bind safe];
      try done.
    unfold mbind, mutates_bind, set_nodelay. destruct (nodelay_error tcp); cbn [io_result]; [done|].
    pose proof (frame_exchange_no_panic query tcp) as Hfp.
    destruct (frame_exchange query tcp) as [[p|e| |] tcp'] eqn:Hfr; cbn in *; try done.
    apply frame_exchange_Ok in Hfr as (_ & Hl & rest & Hin & _). split; [done|].
    exists d. split; [done|]. fold u. rewrite Htc. split; [done|]. split; [|by exists rest].
    apply andb_false_iff in Hfull as [Hfull|Hfull]; apply Z.leb_gt in Hfull; [by left|by right].
  - split; [done|]. exists d. split; [done|]. fold u. rewrite Htc. done.
Qed.
(** The server's answer over UDP arrives, and is truncated. *)
Definition truncated_datagram (globals : Globals) (query : bytes) (server : SocketAddr) (udp : UdpEndpoint) : Prop :=
  ep_bind udp (local_bind_address globals) = None /\ ep_send_to udp query server = None /\
  exists d, ep_recv_from udp query = DatagramFrom d server /\
    17 <= len (truncate d 4096) /\ Z.testbit (u16at (truncate d 4096) 2) 9 = true.

(** Fewer than an eighth of the allowed clients are connected, or fewer than
    eight are allowed. *)
Definition room_for_tcp (globals : Globals) (clients_count : Z) : Prop :=
  max_clients globals < 8 \/ clients_count < max_clients globals / 8.

(** When TCP is used. *)
Lemma udp_tcp_uses globals query server udp clients_count socket tcp :
  let call := proxy_dns_udp_tcp globals query server udp clients_count in
  (truncated_datagram globals query server udp -> room_for_tcp globals clients_count ->
     call socket tcp =
       (_ ← connect_stream globals server socket; fst ((set_nodelay;; frame_exchange query) tcp))) /\
  (truncated_datagram globals query server udp -> ~ room_for_tcp globals clients_count ->
     call socket tcp = Err DoHError.TooManyTcpSessions) /\
  (~ truncated_datagram globals query server udp -> forall socket' tcp', call socket tcp = call socket' tcp').
Proof.
  cbn zeta. unfold truncated_datagram, room_for_tcp, proxy_dns_udp_tcp, MIN_DNS_PACKET_LEN, MAX_DNS_RESPONSE_LEN, UDP_TCP_RATIO.
  split_and!.
  - intros (-> & -> & d & -> & Hl & Ht) Hroom. cbn [io_result mbind outcome_bind recv_from].
    change MAX_DNS_RESPONSE_LEN with 4096. cmp_simpl. rewrite bool_decide_true by done. cbn [orb negb]. rewrite is_truncated_ok by lia. rewrite Ht.
    cbn [map_err mbind outcome_bind].
    destruct (Z.leb_spec 8 (max_clients globals)), (Z.leb_spec (max_clients globals / 8) clients_count);
      cbn [andb]; done || lia.
  - intros (-> & -> & d & -> & Hl & Ht) Hroom. cbn [io_result mbind outcome_bind recv_from].
    change MAX_DNS_RESPONSE_LEN with 4096. cmp_simpl. rewrite bool_decide_true by done. cbn [orb negb]. rewrite is_truncated_ok by lia. rewrite Ht.
    cbn [map_err mbind outcome_bind].
    destruct (Z.leb_spec 8 (max_clients globals)), (Z.leb_spec (max_clients globals / 8) clients_count);
      cbn [andb]; done || lia.
  - intros Hn socket' tcp'. destruct (ep_bind udp _); cbn [io_result mbind outcome_bind]; [done|].
    destruct (ep_send_to udp query server); cbn [io_result mbind outcome_bind]; [done|].
    destruct (ep_recv_from udp query) as [d source|e|]; cbn [recv_from mbind outcome_bind]; try done.
    change MAX_DNS_RESPONSE_LEN with 4096.
    destruct (Z.ltb_spec (len (truncate d 4096)) 17); cbn [orb]; [done|].
    case_bool_decide as Hs; cbn [negb]; [|done]. subst source. rewrite is_truncated_ok by lia.
    cbn [map_err mbind outcome_bind]. destruct (Z.testbit _ 9) eqn:Ht; [|done].
    destruct Hn. split_and!; [done|done|]. by exists d.
Qed.
End udp_tcp.

(** ** TLS *)
Section dot.
Context `{BO : ByteOrder}.

Lemma stream_exchange_not_panic query s : fst (dns_exchange_over_stream query s) <> Panic.
Proof. unfold dns_exchange_over_stream. destruct (u16_max <? len query); [done|apply frame_exchange_no_panic]. Qed.

Lemma dot_loop_not_panic globals query peers last_err : dot_loop globals query peers last_err <> Panic.
Proof.
  revert last_err. induction peers as [|peer peers IH]; intros last_err; [done|]. cbn [dot_loop].
  pose proof (connect_not_panic (local_bind_address globals) (dot_addr peer) (dot_socket peer)) as Hc.
  destruct (connect_tcp_with_local_bind _ _ _) as [x|e| |]; try done.
  destruct (dot_nodelay peer); [apply IH|]. destruct (dot_handshake peer); [|apply IH].
  apply stream_exchange_not_panic.
Qed.

Lemma proxy_dot_not_panic globals query name_ok config_ok resolve :
  resolve <> Panic -> proxy_dot globals query name_ok config_ok resolve <> Panic.
Proof.
  intros Hr. unfold proxy_dot, ensure. destruct name_ok; [|done]. destruct config_ok; [|done].
  destruct resolve; try done. apply dot_loop_not_panic.
Qed.
End dot.

(** Every task that is given a configuration is given the one in the cell,
    which is the first that was set and stays. *)
Lemma dot_tls_config_shared {Config : Type} (verifier meanwhile cell : option Config) :
  match dot_tls_config verifier meanwhile cell with
  | (Ok config, cell') =>
      cell' = Some config /\ (forall c, cell = Some c -> config = c) /\
      (cell = None -> forall c, meanwhile = Some c -> config = c) /\
      forall v m, dot_tls_config v m cell' = (Ok config, cell')
  | (Err e, cell') => e = DoHError.UpstreamIssue /\ cell = None /\ verifier = None /\ cell' = None
  | _ => False
  end.
Proof. unfold dot_tls_config, cell_set. destruct cell, verifier, meanwhile; cbn; naive_solver. Qed.

(** A call under a timeout comes back. *)
Lemma run_with_timeout_total {T} globals in_time (fut : outcome DoHError.t T) :
  timeout globals <> 0 -> fut <> Panic -> total (run_with_timeout globals in_time fut).
Proof.
  intros Ht Hp. unfold run_with_timeout. rewrite (proj2 (Z.eqb_neq _ _) Ht).
  destruct fut; try done; by destruct in_time.
Qed.
