(* ===== verification/ProxyProps.v ===== *)
(** * Properties of the proxy *)

From S2P Require Import Prelude Bytes Net Dns DnsFacts DnsProps Ecs EcsFacts RrTypes Msg MsgProps Errors.
From S2P Require Import FastestIpCache Upstream UpstreamFacts UpstreamProps Bootstrap.
From S2P Require Import BootstrapProps FastestAddr FastestAddrFacts Proxy ProxyFacts.

Section properties.
Context `{BO : ByteOrder}.

(** What is assumed of a schedule: all tasks answer, the set is iterated in
    some order, and the pings that end in time were scheduled. *)
Record good_schedule (sched : schedule) (n : nat) : Prop := {
  all_arrive : arrivals (rx sched) ≡ₚ seq 0 n;
  hash_permutes : forall s, hash_order sched s ≡ₚ s;
  pings_scheduled : forall l,
    Forall (fun r => exists port, (ping_ip r, port) ∈ l) (pings_in_time sched l)
}.

Section exchange.
Context (ask_single : bytes -> Upstream.t -> outcome DoHError.t bytes) (elapsed : nat -> Duration).

(** What an exchange comes to. *)
Definition exchange_result (globals : Globals) (query : bytes) (oc : ExchangeOutcome) : Prop :=
  fallback (query_stats oc) = [] /\
  match packet oc with
  | inr p =>
      12 <= len p /\ exists i q, answers ask_single query (upstreams globals) i q /\
        (p = q \/ upstream_mode globals = UpstreamMode.FastestAddr /\
                  exists ip, rewrite_answer_ips_in_place q ip = (Ok tt, p))
  | inl _ => Forall (fun u => exists e, ask ask_single query u = Err e) (upstreams globals)
  end.

Lemma exchange_outcome (sched : schedule) (globals : Globals) (query : bytes) (s : shared) :
  all_end ask_single query (upstreams globals) ->
  good_schedule sched (length (upstreams globals)) ->
  exists oc s', exchange ask_single elapsed sched globals query s = (Ok oc, s') /\
    exchange_result globals query oc.
Proof.
  intros Hall [Harr Hho Hin].
  assert (exists oc s' b, exchange ask_single elapsed sched globals query s = (Ok oc, s') /\
    (b = true -> upstream_mode globals = UpstreamMode.FastestAddr) /\
    exchanged_well ask_single query (upstreams globals) b oc) as (oc & s' & b & Heq & Hb & Hf & Hoc).
  { assert (exists oc s', load_balanced ask_single elapsed sched query (upstreams globals) s = (Ok oc, s') /\
      exchanged_well ask_single query (upstreams globals) false oc) as (oc & s' & Hlb & Hw).
    { unfold load_balanced, on_rtt_stats.
      destruct (load_balance_well ask_single elapsed query (upstreams globals) (randoms sched)
        (upstream_rtt_stats s) Hall) as (oc & st & -> & Hw). by do 2 eexists. }
    unfold exchange. destruct (upstreams globals) as [|u us] eqn:Hups.
    { do 2 eexists. exists false. split; [done|]. split; [done|]. split; [done|]. constructor. }
    rewrite <- Hups in *. destruct (upstream_mode globals) eqn:Hmode.
    - exists oc, s', false. done.
    - destruct (parallel_well ask_single elapsed query (upstreams globals) (rx sched) Hall Harr)
        as (oc' & -> & Hw'). exists oc', s, false. done.
    - unfold query_qtype. unfold mbind, mutates_bind, lift.
      destruct (qtype_from_packet_Ok query) as (q & ->). cbn [plain].
      destruct (fastest_well ask_single elapsed query (upstreams globals) (rx sched) (hash_order sched)
        (clock sched) (others sched) (pings_in_time sched) (fastest_ip_cache s) Hall) as (oc' & c' & Hfa & Hw');
        [by rewrite Hups|done..|].
      assert (on_ip_cache (exchange_fastest_addr ask_single elapsed (rx sched) (hash_order sched)
        (clock sched) (others sched) (pings_in_time sched) query (upstreams globals)) s
        = (Ok oc', {| upstream_rtt_stats := upstream_rtt_stats s; fastest_ip_cache := c' |})) as Hf
        by (unfold on_ip_cache; by rewrite Hfa).
      destruct q as [q|]; [|by exists oc, s', false].
      destruct q; try (by exists oc, s', false); by (do 2 eexists; exists true). }
  exists oc, s'. split; [done|]. split; [done|].
  destruct (packet oc) as [e|p]; [done|]. destruct Hoc as (Hl & i & q & Ha & Hp).
  split; [done|]. exists i, q. split; [done|]. destruct Hp as [->|[-> Hr]]; [by left|right].
  split; [by apply Hb|done].
Qed.

(** The query asks for addresses. *)
Definition asks_for_address (query : bytes) : Prop :=
  query_qtype query = Ok (Some RrType.A) \/ query_qtype query = Ok (Some RrType.AAAA).

(** What the mode says: which exchange it is, on which part of the state. *)
Definition as_mode_says (sched : schedule) (globals : Globals) (query : bytes) (s : shared)
    (oc : ExchangeOutcome) (s' : shared) : Prop :=
  let balanced := exists stats,
    exchange_load_balance ask_single elapsed (randoms sched) query (upstreams globals) (upstream_rtt_stats s)
      = (Ok oc, stats) /\
    s' = {| upstream_rtt_stats := stats; fastest_ip_cache := fastest_ip_cache s |} in
  match upstreams globals, upstream_mode globals with
  | [], _ => packet oc = inl DoHError.UpstreamIssue /\ s' = s
  | _, UpstreamMode.LoadBalance => balanced
  | ups, UpstreamMode.Parallel => exchange_parallel ask_single elapsed (rx sched) query ups = Ok oc /\ s' = s
  | ups, UpstreamMode.FastestAddr =>
      (asks_for_address query /\ exists c,
         exchange_fastest_addr ask_single elapsed (rx sched) (hash_order sched) (clock sched) (others sched)
           (pings_in_time sched) query ups (fastest_ip_cache s) = (Ok oc, c) /\
         s' = {| upstream_rtt_stats := upstream_rtt_stats s; fastest_ip_cache := c |}) \/
      (~ asks_for_address query /\ balanced)
  end.

Lemma exchange_as_mode_says sched globals query s oc s' :
  exchange ask_single elapsed sched globals query s = (Ok oc, s') -> as_mode_says sched globals query s oc s'.
Proof.
  unfold exchange, as_mode_says. destruct (upstreams globals) as [|u us]; [by intros [= <- <-]|].
  assert (load_balanced ask_single elapsed sched query (u :: us) s = (Ok oc, s') -> exists stats,
    exchange_load_balance ask_single elapsed (randoms sched) query (u :: us) (upstream_rtt_stats s) = (Ok oc, stats) /\
    s' = {| upstream_rtt_stats := stats; fastest_ip_cache := fastest_ip_cache s |}) as Hlb.
  { unfold load_balanced, on_rtt_stats. destruct (exchange_load_balance _ _ _ _ _ _) as [r st].
    intros [= -> <-]. by exists st. }
  destruct (upstream_mode globals); [exact Hlb|unfold lift; intros H; split; congruence|].
  unfold asks_for_address, query_qtype, mbind, mutates_bind, lift.
  destruct (qtype_from_packet_Ok query) as (q & ->). cbn [plain].
  assert (Decision (q = Some RrType.A \/ q = Some RrType.AAAA)) as Hdec.
  { destruct q as [[]|]; first [left; by left|left; by right|right; by intros [|]]. }
  destruct (decide (q = Some RrType.A \/ q = Some RrType.AAAA)) as [Hq|Hq]; clear Hdec.
  - intros H. left. split; [destruct Hq as [-> | ->]; auto|].
    assert (on_ip_cache (exchange_fastest_addr ask_single elapsed (rx sched) (hash_order sched) (clock sched)
      (others sched) (pings_in_time sched) query (u :: us)) s = (Ok oc, s')) as Hf by by destruct Hq as [-> | ->].
    unfold on_ip_cache in Hf. destruct (exchange_fastest_addr _ _ _ _ _ _ _ _ _ _) as [r c].
    injection Hf as -> <-. by exists c.
  - intros H. right. split; [intros [[= ->]|[= ->]]; tauto|]. apply Hlb.
    destruct q as [[]|]; try exact H; destruct Hq; auto.
Qed.

(** C21: in every mode, for any schedule and any shared state, an exchange
    whose attempts all end comes back.  Without upstreams it is an error.
    Otherwise it is the exchange of the configured mode, on the part of the
    shared state that mode uses: the parallel one, which leaves the state as
    it is; the load balancer; or, in the fastest-address mode, that of the
    fastest address when the query asks for addresses and the load balancer
    when it does not.  It gives a packet that some upstream sent in answer to
    this query and that the decoder accepts (in the fastest-address mode
    possibly with its answer addresses rewritten), or an error, and then
    every upstream has failed. *)
Theorem exchange_spec (sched : schedule) (globals : Globals) (query : bytes) (s : shared) :
  all_end ask_single query (upstreams globals) ->
  good_schedule sched (length (upstreams globals)) ->
  exists oc s', exchange ask_single elapsed sched globals query s = (Ok oc, s') /\
    as_mode_says sched globals query s oc s' /\
    fallback (query_stats oc) = [] /\
    match packet oc with
    | inr p =>
        12 <= len p /\ exists i q, answers ask_single query (upstreams globals) i q /\
          (p = q \/ upstream_mode globals = UpstreamMode.FastestAddr /\
                    exists ip, rewrite_answer_ips_in_place q ip = (Ok tt, p))
    | inl _ => Forall (fun u => exists e, ask ask_single query u = Err e) (upstreams globals)
    end.
Proof.
  intros Hall Hs. destruct (exchange_outcome sched globals query s Hall Hs) as (oc & s' & Heq & Hr).
  exists oc, s'. split; [done|]. split; [by apply exchange_as_mode_says|exact Hr].
Qed.
End exchange.

(** ** A client's query *)

(** The response codes that get the TTL for errors: SERVFAIL and REFUSED. *)
Definition failing (p : bytes) : Prop :=
  Z.land (u8at p 3) 0x0f = 2 \/ Z.land (u8at p 3) 0x0f = 5.

Lemma is_recoverable_error_ok p :
  12 <= len p -> is_recoverable_error p = Ok (bool_decide (failing p)).
Proof.
  intros. unfold is_recoverable_error, Dns.rcode. rewrite index_ok by lia. cbn. f_equal.
  unfold failing, u8at, DNS_RCODE_SERVFAIL, DNS_RCODE_REFUSED.
  destruct (Z.eqb_spec (Z.land (u8 (get p 3)) 15) 2), (Z.eqb_spec (Z.land (u8 (get p 3)) 15) 5);
    case_bool_decide; cbn; tauto || done.
Qed.

(** A query that is a message ending with its last record, with at most one
    OPT record and, without one, room for it. *)
Definition well_formed_query (query : bytes) : Prop := exists hs1 hs2,
  message query hs1 hs2 (len query) /\
  match List.filter (is_opt query) hs2 with
  | [] => len query + 11 <= DNS_MAX_PACKET_SIZE /\ len hs2 < 65535
  | [_] => True
  | _ => False
  end.

(** The queries that can be given a client subnet. *)
Definition subnets_fit (globals : Globals) (client_ip : option IpAddr) (query : bytes) : Prop :=
  enable_ecs globals = false \/ client_ip = None \/
  (0 <= ecs_prefix_v4 globals /\ 0 <= ecs_prefix_v6 globals /\ well_formed_query query).

Lemma ignore_error_total {S E A} (m : mutates S E A) (s : S) :
  total (fst (m s)) -> exists s', ignore_error m s = Ok s'.
Proof. unfold ignore_error. destruct (m s) as [[] s']; try done; by exists s'. Qed.

Lemma edns_size_total query :
  exists q, ignore_error (set_edns_max_payload_size MAX_DNS_RESPONSE_LEN) query = Ok q.
Proof.
  apply ignore_error_total.
  pose proof (set_edns_returns MAX_DNS_RESPONSE_LEN query ltac:(done)) as Hr. unfold returns_from in Hr.
  by destruct (set_edns_max_payload_size _ query) as [[] q].
Qed.

Lemma edns_size_message query :
  well_formed_query query -> exists q hs1 hs2,
  ignore_error (set_edns_max_payload_size MAX_DNS_RESPONSE_LEN) query = Ok q /\ message q hs1 hs2 (len q).
Proof.
  intros (hs1 & hs2 & Hm & Hopt). unfold ignore_error.
  destruct (proj2 (set_edns_succeeds query hs1 hs2 MAX_DNS_RESPONSE_LEN Hm ltac:(done)) Hopt) as (q & Hq).
  destruct (set_edns_message query q hs1 hs2 MAX_DNS_RESPONSE_LEN Hm ltac:(done) Hq) as (hs2' & h & Hm' & _).
  exists q, hs1, hs2'. by rewrite Hq.
Qed.

Lemma upstream_query_off globals client_ip query :
  enable_ecs globals = false \/ client_ip = None -> exists q, upstream_query globals client_ip query = Ok q.
Proof.
  intros Ho. unfold upstream_query. destruct (edns_size_total query) as (q & ->). exists q.
  destruct Ho as [->| ->]; [done|]. by destruct (enable_ecs globals).
Qed.

Lemma upstream_query_total globals client_ip query :
  subnets_fit globals client_ip query -> exists q, upstream_query globals client_ip query = Ok q.
Proof.
  intros [He|[He|(H4 & H6 & Hq)]]; [apply upstream_query_off; by left|apply upstream_query_off; by right|].
  destruct client_ip as [ip|]; [|apply upstream_query_off; by right].
  destruct (enable_ecs globals) eqn:He; [|apply upstream_query_off; by left].
  unfold upstream_query. destruct (edns_size_message query Hq) as (q & hs1 & hs2 & -> & Hm).
  cbn [mbind outcome_bind]. rewrite He.
  apply ignore_error_total. by apply (add_ecs_returns ip _ _ q hs1 hs2 (len q)).
Qed.

Lemma pad_total p : exists p', ignore_error add_edns_padding p = Ok p' /\ snd (add_edns_padding p) = p'.
Proof.
  unfold ignore_error. pose proof (add_edns_padding_returns p) as Hr. unfold returns_from in Hr.
  destruct (add_edns_padding p) as [[u|e| |] q]; try done; by exists q.
Qed.

(** What a query comes to. *)
Definition proxy_result (globals : Globals) (ex : bytes -> mutates shared Empty_set ExchangeOutcome)
    (query : bytes) (client_ip : option IpAddr) (s : shared) (r : outcome DoHError.t DnsResponse * shared) : Prop :=
  match r with
  | (Ok r, s') => exists q oc p,
      MIN_DNS_PACKET_LEN <= len query /\ upstream_query globals client_ip query = Ok q /\
      ex q s = (Ok oc, s') /\ packet oc = inr p /\
      resp_query_stats r = query_stats oc /\ resp_packet r = snd (add_edns_padding p) /\
      (if bool_decide (failing p) then resp_ttl r = err_ttl globals
       else min_ttl globals <= resp_ttl r <= Z.max (min_ttl globals) (max_ttl globals))
  | (Err e, s') =>
      (len query < MIN_DNS_PACKET_LEN /\ e = DoHError.Incomplete /\ s' = s) \/
      exists q oc, MIN_DNS_PACKET_LEN <= len query /\ upstream_query globals client_ip query = Ok q /\
        ex q s = (Ok oc, s') /\
        (packet oc = inl e \/
         exists p, packet oc = inr p /\ e = DoHError.UpstreamIssue /\ ~ failing p /\
           forall ttl, Dns.min_ttl p (min_ttl globals) (max_ttl globals) (err_ttl globals) <> Ok ttl)
  | _ => False
  end.

Lemma proxy_outcome (globals : Globals) (ex : bytes -> mutates shared Empty_set ExchangeOutcome)
    (query : bytes) (client_ip : option IpAddr) (s : shared) :
  0 <= max_ttl globals -> subnets_fit globals client_ip query ->
  (forall q s, exists oc s', ex q s = (Ok oc, s') /\
     match packet oc with inr p => 12 <= len p | inl _ => True end) ->
  proxy_result globals ex query client_ip s (proxy globals ex query client_ip s).
Proof.
  intros Hmax Hecs Hex. unfold proxy_result, proxy. destruct (Z.ltb_spec (len query) MIN_DNS_PACKET_LEN); [by left|].
  destruct (upstream_query_total globals client_ip query Hecs) as (q & Hq).
  destruct (Hex q s) as (oc & s' & Hoc & Hpkt).
  unfold never_err, lift, mbind, mutates_bind. rewrite Hq, Hoc.
  destruct (packet oc) as [e|p] eqn:Hp; [right; exists q, oc; by repeat split; try left|].
  unfold response_ttl. rewrite is_recoverable_error_ok by done. cbn [map_err mbind outcome_bind].
  destruct (pad_total p) as (p' & -> & Hpad).
  case_bool_decide as Hf.
  - exists q, oc, p. cbn. rewrite bool_decide_true by done. done.
  - pose proof (min_ttl_total p (min_ttl globals) (max_ttl globals) (err_ttl globals)) as Ht.
    unfold total in Ht.
    destruct (Dns.min_ttl p (min_ttl globals) (max_ttl globals) (err_ttl globals)) as [ttl|err| |] eqn:Hm;
      cbn [map_err]; try done.
    + exists q, oc, p. cbn. rewrite bool_decide_false by done.
      apply min_ttl_Ok in Hm as (hs1 & hs2 & _ & _ & ->).
      pose proof (lowest_ttl_bounds p (hs1 ++ hs2) (max_ttl globals) Hmax). split_and!; (done || lia).
    + right. exists q, oc. repeat split; try done. right. exists p. split_and!; try done.
      intros ttl. by rewrite Hm.
Qed.

(** C3: a query over any exchange that gives decodable packets, with client
    subnets off, or without the client's address, or well-formed.  It never panics.  A
    query of fewer than 17 octets is refused before any upstream is asked; an
    upstream failure is handed on; and a reply is returned padded, with the
    statistics of the exchange and a TTL that is the one for errors when
    the response code is SERVFAIL or REFUSED, and otherwise lies between
    the configured bounds; when the TTL of the reply cannot be computed,
    the result is a gateway error. *)
Theorem proxy_spec (globals : Globals) (ex : bytes -> mutates shared Empty_set ExchangeOutcome)
    (query : bytes) (client_ip : option IpAddr) (s : shared) :
  0 <= max_ttl globals -> subnets_fit globals client_ip query ->
  (forall q s, exists oc s', ex q s = (Ok oc, s') /\
     match packet oc with inr p => 12 <= len p | inl _ => True end) ->
  match proxy globals ex query client_ip s with
  | (Ok r, s') => exists q oc p,
      MIN_DNS_PACKET_LEN <= len query /\ upstream_query globals client_ip query = Ok q /\
      ex q s = (Ok oc, s') /\ packet oc = inr p /\
      resp_query_stats r = query_stats oc /\ resp_packet r = snd (add_edns_padding p) /\
      (if bool_decide (failing p) then resp_ttl r = err_ttl globals
       else min_ttl globals <= resp_ttl r <= Z.max (min_ttl globals) (max_ttl globals))
  | (Err e, s') =>
      (len query < MIN_DNS_PACKET_LEN /\ e = DoHError.Incomplete /\ s' = s) \/
      exists q oc, MIN_DNS_PACKET_LEN <= len query /\ upstream_query globals client_ip query = Ok q /\
        ex q s = (Ok oc, s') /\
        (packet oc = inl e \/
         exists p, packet oc = inr p /\ e = DoHError.UpstreamIssue /\ ~ failing p /\
           forall ttl, Dns.min_ttl p (min_ttl globals) (max_ttl globals) (err_ttl globals) <> Ok ttl)
  | _ => False
  end.
Proof. apply proxy_outcome. Qed.

(** ** Streams *)

(** C33: the exchange over a stream succeeds exactly when the query has at
    most 65535 octets, the writes and the flush go through, and the stream
    delivers a length between 17 and 4096 and that many octets, which are
    the reply; it has then written the query behind its length, read
    nothing more, and left the rest to be read. *)
Theorem stream_exchange_spec (query p : bytes) (s s' : stream) :
  dns_exchange_over_stream query s = (Ok p, s') <->
  len query <= u16_max /\ writable s /\ MIN_DNS_PACKET_LEN <= len p <= MAX_DNS_RESPONSE_LEN /\
  incoming s = be16 (len p) ++ p ++ incoming s' /\
  sent s' = sent s ++ be16 (len query) ++ query /\
  s' = after_exchange query (incoming s') s.
Proof.
  unfold dns_exchange_over_stream. destruct (Z.ltb_spec u16_max (len query)).
  { split; [by intros [? _]%lift_Ok|]. lia. }
  rewrite frame_exchange_Ok. pose proof (len_nonneg query).
  assert (as_u16 (len query) = len query) as Hu by (apply Z.mod_small; lia). split.
  - intros (Hw & Hl & rest & Hin & ->). split_and!; try done; try lia. cbn. by rewrite Hu.
  - intros (_ & Hw & Hl & Hin & _ & ->). split_and!; try done; try lia. by exists (incoming s').
Qed.

(** C34: a packet [proxy_dns_udp_tcp] returns comes from the server that was
    asked: it is the datagram received from its address, cut to 4096 octets,
    or, when that is truncated (TC), what the TCP stream to the server
    delivers; and it has 17 to 4096 octets.  The call never panics.  TCP is
    used exactly after a truncated datagram with room for it: fewer than an
    eighth of the allowed clients are connected, or fewer than eight are
    allowed.  Without room the call fails with [TooManyTcpSessions], and
    without a truncated datagram its result has nothing to do with TCP. *)
Theorem udp_tcp_spec (globals : Globals) (query : bytes) (server : SocketAddr) (udp : UdpEndpoint)
    (clients_count : Z) (socket : TcpSocket) (tcp : stream) :
  let call := proxy_dns_udp_tcp globals query server udp clients_count in
  safe (call socket tcp) (fun p =>
    MIN_DNS_PACKET_LEN <= len p <= MAX_DNS_RESPONSE_LEN /\
    exists d, ep_recv_from udp query = DatagramFrom d server /\
      let u := truncate d MAX_DNS_RESPONSE_LEN in
      MIN_DNS_PACKET_LEN <= len u /\
      if Z.testbit (u16at u 2) 9 then
        room_for_tcp globals clients_count /\
        exists rest, incoming tcp = be16 (len p) ++ p ++ rest
      else p = u) /\
  (truncated_datagram globals query server udp -> room_for_tcp globals clients_count ->
     call socket tcp =
       (_ ← connect_stream globals server socket; fst ((set_nodelay;; frame_exchange query) tcp))) /\
  (truncated_datagram globals query server udp -> ~ room_for_tcp globals clients_count ->
     call socket tcp = Err DoHError.TooManyTcpSessions) /\
  (~ truncated_datagram globals query server udp -> forall socket' tcp', call socket tcp = call socket' tcp').
Proof. split; [apply udp_tcp_safe|apply udp_tcp_uses]. Qed.
End properties.

(** ** At a concrete input *)

Definition sample_globals : Globals := {|
  local_bind_address := sample_local; upstreams := sample_upstreams;
  upstream_mode := UpstreamMode.Parallel; max_clients := 512; timeout := 1000;
  min_ttl := 10; max_ttl := 3600; err_ttl := 2;
  enable_ecs := false; ecs_prefix_v4 := 24; ecs_prefix_v6 := 56 |}.
Definition sample_schedule : schedule := {|
  randoms := fun _ => F64.zero; rx := {| arrivals := [1%nat; 0%nat]; closed := false |};
  hash_order := fun l => l; clock := fun _ => 0; others := fun _ c => c;
  pings_in_time := fun _ => [] |}.
Definition sample_shared : shared :=
  {| upstream_rtt_stats := ∅; fastest_ip_cache := FastestIpCache.with_max_size 16 |}.

Lemma exchange_spec_witness :
  exists oc s', exchange sample_exchange sample_elapsed sample_schedule sample_globals [] sample_shared
    = (Ok oc, s') /\ exists p, packet oc = inr p.
Proof.
  destruct (exchange_spec sample_exchange sample_elapsed sample_schedule sample_globals [] sample_shared)
    as (oc & s' & H & _ & _ & Hp).
  - exact sample_all_end.
  - split; [|done|constructor]. cbn. constructor.
  - exists oc, s'. split; [done|]. destruct (packet oc) as [e|p]; [|by exists p].
    inversion Hp as [|? ? _ Hp']; subst. inversion Hp' as [|? ? (e' & He) _]; subst.
    by rewrite sample_answer in He.
Defined.

(** A query of 17 zero octets. *)
Definition sample_query : bytes := repeat x00 17.
Definition sample_ask (query : bytes) : mutates shared Empty_set ExchangeOutcome :=
  mret {| packet := inr sample_packet; query_stats := QueryStatistics_default |}.

Lemma proxy_spec_witness :
  exists r, proxy sample_globals sample_ask sample_query None sample_shared = (Ok r, sample_shared) /\
    10 <= resp_ttl r <= 3600.
Proof.
  pose proof (proxy_spec sample_globals sample_ask sample_query None sample_shared) as H.
  specialize (H ltac:(done) ltac:(by left)).
  specialize (H ltac:(intros q s; do 2 eexists; by split)).
  destruct (proxy sample_globals sample_ask sample_query None sample_shared) as [[r|e| |] s'] eqn:Hp.
  - exists r. destruct H as (q & oc & p & _ & _ & Hq & Hpkt & _ & _ & Ht).
    injection Hq as <- <-. injection Hpkt as <-. split; [done|].
    rewrite bool_decide_false in Ht by (by intros [|]). done.
  - exfalso. revert Hp. unfold proxy. cbn. by vm_compute.
  - destruct H.
  - destruct H.
Defined.
