(* ===== verification/Clients.v ===== *)
(** * Counting clients

    [ClientsCount] of src/libdoh/src/globals.rs and the code around it:
    [client_serve], [client_serve_reserved] (lib.rs) and
    [start_https_service] (tls.rs).  The connections of a server run
    concurrently, and each access to the counter is one atomic operation.
    The model is a step relation at that granularity: a state is the counter
    and the connections that have incremented it and not yet decremented it
    again. *)

From S2P Require Import Prelude.

(** ** The counter *)
Abbreviation usize_max := u64_max.

Definition current (count : Z) : Z := count.
(** [fetch_add]: the previous value, and the counter, which wraps *)
Definition increment (count : Z) : Z * Z := (count, as_u64 (count + 1)).
(** [compare_exchange(expected, new)]: whether it took place *)
Definition compare_exchange (count expected new : Z) : bool * Z :=
  if count =? expected then (true, new) else (false, count).

(** ** Connections *)

(** Where the task of a connection stands. *)
Inductive conn :=
  (** after [increment()], which returned [previous] *)
  | Entered (previous : Z)
  (** in the TLS handshake *)
  | Handshake
  (** [client_serve_reserved]: the request is served *)
  | Serving
  (** in the loop of [decrement()], before the load *)
  | Load
  (** in the loop of [decrement()], between the load of [count] and the
      exchange *)
  | Exchange (count : Z)
  (** the task never goes on: its peer does not complete the handshake, for
      which there is no timeout, or it has panicked while it served, in a
      build that unwinds (the release profile aborts) *)
  | Stopped.

#[export] Instance conn_eq_dec : EqDecision conn.
Proof. solve_decision. Defined.

(** What may happen to a connection next. *)
Inductive event := Proceed | HandshakeFails | Stalls | Panics.

(** The next atomic step of a connection: the counter, and where it stands
    then, or [None] when it is done. *)
Definition conn_step (max_clients : Z) (tls : bool) (e : event) (count : Z) (c : conn)
    : option (Z * option conn) :=
  match c, e with
  | Entered previous, Proceed =>
      if max_clients <=? previous then Some (count, Some Load)
      else Some (count, Some (if tls then Handshake else Serving))
  | Handshake, Proceed => Some (count, Some Serving)
  | Handshake, HandshakeFails => Some (count, Some Load)
  | Serving, Proceed => Some (count, Some Load)
  | Handshake, Stalls => Some (count, Some Stopped)
  | Serving, Panics => Some (count, Some Stopped)
  | Load, Proceed =>
      if 0 <? current count then Some (count, Some (Exchange (current count))) else Some (count, None)
  | Exchange expected, Proceed =>
      let '(done, count) := compare_exchange count expected (expected - 1) in
      Some (count, if done : bool then None else Some Load)
  | _, _ => None
  end.

Record server := {
  clients_count : Z;
  conns : list conn
}.
Definition started : server := {| clients_count := 0; conns := [] |}.

(** A new connection: it increments the counter first. *)
Definition accept (s : server) : server :=
  let '(previous, count) := increment (clients_count s) in
  {| clients_count := count; conns := Entered previous :: conns s |}.

Section steps.
Context (max_clients : Z) (tls : bool).

(** The machine holds fewer tasks than [usize] counts. *)
Inductive step : server -> server -> Prop :=
  | step_accept s : len (conns s) < usize_max -> step s (accept s)
  | step_conn count count' l c c' r e :
      conn_step max_clients tls e count c = Some (count', c') ->
      step {| clients_count := count; conns := l ++ c :: r |}
           {| clients_count := count'; conns := l ++ option_list c' ++ r |}.

Definition reachable : server -> server -> Prop := rtc step.

(** Let in: past the check, or about to pass it, and not on the way out. *)
Definition admitted (c : conn) : bool :=
  match c with
  | Entered previous => previous <? max_clients
  | Handshake | Serving | Stopped => true
  | Load | Exchange _ => false
  end.
Definition admissions (s : server) : Z := len (List.filter admitted (conns s)).

(** ** The invariant *)
Record counted (s : server) : Prop := {
  count_conns : clients_count s = len (conns s);
  count_fits : clients_count s <= usize_max;
  count_exchange : Forall (fun c => match c with Exchange n => 0 < n | _ => True end) (conns s);
  count_admitted : admissions s <= Z.max 0 max_clients
}.

Lemma counted_started : counted started.
Proof. split; [done|done|apply Forall_nil_2|apply Z.le_max_l]. Qed.

Lemma admissions_middle count l c r :
  admissions {| clients_count := count; conns := l ++ option_list c ++ r |} =
  len (List.filter admitted l) + len (List.filter admitted (option_list c))
  + len (List.filter admitted r).
Proof. unfold admissions. cbn. rewrite !List.filter_app, !len_app. lia. Qed.

Lemma admitted_le c : len (List.filter admitted (option_list c)) <= len (option_list c).
Proof. destruct c; cbn; [|done]. by destruct (admitted _). Qed.

Lemma filter_le l : len (List.filter admitted l) <= len l.
Proof. unfold len. pose proof (List.filter_length_le admitted l). lia. Qed.

Lemma counted_accept s : counted s -> len (conns s) < usize_max -> counted (accept s).
Proof.
  intros [Hc Hf He Ha] Hl. pose proof (len_nonneg (conns s)).
  unfold accept, increment. rewrite Hc in *.
  assert (as_u64 (len (conns s) + 1) = len (conns s) + 1) as -> by (apply Z.mod_small; lia).
  split; cbn; [by rewrite len_cons, Z.add_comm|lia|by apply Forall_cons_2|].
  unfold admissions in *. cbn. pose proof (filter_le (conns s)).
  destruct (Z.ltb_spec (len (conns s)) max_clients); [rewrite len_cons; lia|done].
Qed.

Local Ltac lengths := cbn; autorewrite with doh_len; split_and!; (done || lia).

(** A connection's step changes the counter exactly when it leaves. *)
Lemma conn_step_count e count c count' c' :
  conn_step max_clients tls e count c = Some (count', c') -> 0 < count ->
  count' = count - 1 + len (option_list c') /\
  (match c with Exchange n => 0 < n | _ => True end ->
   match c' with Some (Exchange n) => 0 < n | _ => True end) /\
  len (List.filter admitted (option_list c')) <= len (List.filter admitted [c]).
Proof.
  unfold conn_step, current, compare_exchange. intros H Hpos.
  destruct c as [p| | | |n|], e; try discriminate; cbn [List.filter admitted].
  - destruct (Z.leb_spec max_clients p); injection H as <- <-.
    + cmp_simpl. by lengths.
    + cmp_simpl. destruct tls; by lengths.
  - injection H as <- <-. by lengths.
  - injection H as <- <-. by lengths.
  - injection H as <- <-. by lengths.
  - injection H as <- <-. by lengths.
  - injection H as <- <-. by lengths.
  - destruct (Z.ltb_spec 0 count); [|lia]. injection H as <- <-. by lengths.
  - destruct (Z.eqb_spec count n); injection H as <- <-; by lengths.
Qed.

Lemma counted_step s s' : counted s -> step s s' -> counted s'.
Proof.
  intros Hs H. destruct H as [s Hl|count count' l c c' r e Hstep]; [by apply counted_accept|].
  destruct Hs as [Hc Hf He Ha]. cbn in *.
  rewrite len_app, len_cons in Hc. pose proof (len_nonneg l). pose proof (len_nonneg r).
  apply conn_step_count in Hstep as (-> & Hx & Hadm); [|lia].
  apply Forall_app in He as [Hel Her]. inversion Her as [|? ? Hec Her']; subst.
  assert (len (option_list c') <= 1) by (by destruct c').
  split; cbn.
  - rewrite !len_app. lia.
  - lia.
  - apply Forall_app. split; [done|]. apply Forall_app. split; [|done].
    destruct c' as [c'|]; [|constructor]. constructor; [|constructor]. by apply Hx in Hec.
  - change (c :: r) with (option_list (Some c) ++ r) in Ha. rewrite admissions_middle in Ha |- *.
    change (option_list (Some c)) with [c] in Ha. lia.
Qed.

Lemma counted_reachable s s' : counted s -> reachable s s' -> counted s'.
Proof. intros Hs H. induction H; [done|]. eauto using counted_step. Qed.
End steps.
