(* ===== verification/ClientsProps.v ===== *)
(** * Properties of the client counter *)

From S2P Require Import Prelude Clients.

Section clients.
Context (max_clients : Z) (tls : bool).
Abbreviation reaches := (reachable max_clients tls).

(** The steps of the connections alone, without new ones. *)
Definition conns_step (s s' : server) : Prop :=
  exists l c r e n c', s = {| clients_count := clients_count s; conns := l ++ c :: r |} /\
    conn_step max_clients tls e (clients_count s) c = Some (n, c') /\
    s' = {| clients_count := n; conns := l ++ option_list c' ++ r |}.

Lemma conns_step_step s s' : conns_step s s' -> step max_clients tls s s'.
Proof. intros (l & c & r & e & n & c' & -> & H & ->). by eapply step_conn. Qed.

(** One step of a connection that can take one, behind [l]. *)
Lemma move l c r count e n c' :
  conn_step max_clients tls e count c = Some (n, c') ->
  conns_step {| clients_count := count; conns := l ++ c :: r |}
             {| clients_count := n; conns := l ++ option_list c' ++ r |}.
Proof. intros H. exists l, c, r, e, n, c'. by repeat split. Qed.

(** ** Leaving *)
Lemma leaves_load l r count :
  0 < count ->
  rtc conns_step {| clients_count := count; conns := l ++ Load :: r |}
                 {| clients_count := count - 1; conns := l ++ r |}.
Proof.
  intros Hc. eapply rtc_l; [apply (move l Load r count Proceed count (Some (Exchange count)))|].
  { cbn. unfold current. by rewrite (proj2 (Z.ltb_lt 0 count)). }
  eapply rtc_l; [|apply rtc_refl].
  apply (move l (Exchange count) r count Proceed (count - 1) None).
  cbn. unfold compare_exchange. by rewrite Z.eqb_refl.
Qed.

(** Whoever has not panicked can go through to the end, whatever the others
    do meanwhile, and gives its place back. *)
Lemma leaves l c r count :
  0 < count -> c <> Stopped ->
  rtc conns_step {| clients_count := count; conns := l ++ c :: r |}
                 {| clients_count := count - 1; conns := l ++ r |}.
Proof.
  intros Hc Hd. pose proof (leaves_load l r count Hc) as Hload.
  assert (rtc conns_step {| clients_count := count; conns := l ++ Serving :: r |}
            {| clients_count := count - 1; conns := l ++ r |}) as Hserving.
  { eapply rtc_l; [by apply (move l Serving r count Proceed count (Some Load))|done]. }
  assert (rtc conns_step {| clients_count := count; conns := l ++ Handshake :: r |}
            {| clients_count := count - 1; conns := l ++ r |}) as Hhandshake.
  { eapply rtc_l; [by apply (move l Handshake r count Proceed count (Some Serving))|done]. }
  destruct c as [p| | | |n|]; try done.
  - destruct (max_clients <=? p) eqn:Hp.
    + eapply rtc_l; [|exact Hload]. apply (move l (Entered p) r count Proceed count (Some Load)).
      cbn. by rewrite Hp.
    + eapply rtc_l; [apply (move l (Entered p) r count Proceed count
        (Some (if tls then Handshake else Serving))); cbn; by rewrite Hp|].
      by destruct tls.
  - destruct (Z.eqb_spec count n) as [->|Hn].
    + eapply rtc_l; [|apply rtc_refl]. apply (move l (Exchange n) r n Proceed (n - 1) None).
      cbn. unfold compare_exchange. by rewrite Z.eqb_refl.
    + eapply rtc_l; [|exact Hload]. apply (move l (Exchange n) r count Proceed count (Some Load)).
      cbn. unfold compare_exchange. by rewrite (proj2 (Z.eqb_neq _ _) Hn).
Qed.

Definition stopped (c : conn) : bool := bool_decide (c = Stopped).

Lemma drain l : forall r,
  rtc conns_step {| clients_count := len (l ++ r); conns := l ++ r |}
    {| clients_count := len (l ++ List.filter stopped r); conns := l ++ List.filter stopped r |}.
Proof.
  intros r. revert l. induction r as [|c r IH]; intros l; [apply rtc_refl|]. cbn.
  destruct (stopped c) eqn:Hd; [apply bool_decide_eq_true in Hd|apply bool_decide_eq_false in Hd].
  - change (l ++ c :: ?x) with (l ++ [c] ++ x). rewrite !(assoc_L (++)). apply IH.
  - etrans; [apply leaves; [|done]|].
    { rewrite len_app, len_cons. pose proof (len_nonneg l). pose proof (len_nonneg r). lia. }
    replace (len (l ++ c :: r) - 1) with (len (l ++ r)) by (rewrite !len_app, len_cons; lia).
    apply IH.
Qed.

(** ** Safety *)

(** Let in and not stopped: the connections that hold a place. *)
Definition live (c : conn) : bool := admitted max_clients c && negb (stopped c).

Lemma admitted_split l :
  len (List.filter (admitted max_clients) l) = len (List.filter live l) + len (List.filter stopped l).
Proof.
  induction l as [|c l IH]; [done|]. cbn.
  assert (admitted max_clients c = true /\ live c = negb (stopped c) \/
    admitted max_clients c = false /\ live c = false /\ stopped c = false) as [[-> ->]|(-> & -> & ->)].
  { unfold live. destruct (admitted max_clients c) eqn:H; [by left|right]. by destruct c. }
  - destruct (stopped c); cbn; rewrite !len_cons, IH; lia.
  - exact IH.
Qed.

Definition stops (s : server) : Z := len (List.filter stopped (conns s)).

(** C8: the counter of a running server.  In every state it can reach, for
    any interleaving of the atomic operations of its connections, the
    counter is the number of connections that have been counted and not
    discounted, so it never wraps and no decrement ever finds it at zero; the
    connections let in, together with those that stopped for ever, are at most
    [max_clients]; and all other connections can run to the end, whatever
    the state, and then the counter is the number of the stopped ones. *)
Theorem clients_bounded (s : server) :
  0 <= max_clients -> reaches started s ->
  clients_count s = len (conns s) /\ clients_count s <= usize_max /\
  len (List.filter live (conns s)) + len (List.filter stopped (conns s)) <= max_clients /\
  (Load ∈ conns s -> 0 < clients_count s) /\
  rtc conns_step s {| clients_count := len (List.filter stopped (conns s));
                      conns := List.filter stopped (conns s) |}.
Proof.
  intros Hmax Hr.
  pose proof (counted_reachable _ _ _ _ (counted_started max_clients) Hr) as [Hc Hf _ Ha].
  unfold admissions in Ha. rewrite admitted_split in Ha. split_and!; try done; try lia.
  - intros Hin. rewrite Hc. destruct (conns s) as [|c l]; [by apply elem_of_nil in Hin|].
    rewrite len_cons. pose proof (len_nonneg l). lia.
  - destruct s as [n l]. cbn in *. subst n. apply (drain []).
Qed.

(** ** Connections that stop *)

(** A connection that is let in may stop: in the handshake or, without TLS,
    when it panics. *)
Lemma one_stops l :
  len l < max_clients -> len l < usize_max ->
  reaches {| clients_count := len l; conns := l |}
          {| clients_count := len (Stopped :: l); conns := Stopped :: l |}.
Proof.
  intros Hmax Hlen. pose proof (len_nonneg l). rewrite len_cons.
  assert (accept {| clients_count := len l; conns := l |} =
    {| clients_count := 1 + len l; conns := Entered (len l) :: l |}) as Hacc.
  { unfold accept, increment. cbn. f_equal. unfold as_u64. rewrite Z.mod_small; lia. }
  assert (forall c e, conn_step max_clients tls e (1 + len l) c = Some (1 + len l, Some Stopped) ->
    reaches {| clients_count := 1 + len l; conns := c :: l |}
            {| clients_count := 1 + len l; conns := Stopped :: l |}) as Hstop.
  { intros c e Hc. eapply rtc_l; [|apply rtc_refl].
    by apply conns_step_step, (move [] c l (1 + len l) e (1 + len l) (Some Stopped)). }
  eapply rtc_l; [by apply step_accept|]. rewrite Hacc. eapply rtc_l.
  { apply conns_step_step, (move [] (Entered (len l)) l (1 + len l) Proceed (1 + len l)
      (Some (if tls then Handshake else Serving))). cbn. by cmp_simpl. }
  pose proof (Hstop Handshake Stalls eq_refl). pose proof (Hstop Serving Panics eq_refl).
  by destruct tls.
Qed.

Lemma all_stop (n : nat) :
  Z.of_nat n <= max_clients -> max_clients <= usize_max ->
  reaches started {| clients_count := Z.of_nat n; conns := repeat Stopped n |}.
Proof.
  intros Hn Hmax. induction n as [|n IH]; [apply rtc_refl|].
  etrans; [apply IH; lia|].
  assert (forall k, len (repeat Stopped k) = Z.of_nat k) as Hl by (intros; unfold len; by rewrite repeat_length).
  rewrite <- (Hl n), <- (Hl (S n)). apply one_stops; rewrite Hl; lia.
Qed.

Lemma stopped_stays s s' : step max_clients tls s s' -> stops s <= stops s'.
Proof.
  unfold stops. intros [s0 _|n n' l c c' r e H]; cbn.
  - unfold stopped at 2. rewrite bool_decide_false by done. lia.
  - rewrite !List.filter_app, !len_app. cbn.
    assert (stopped c = false) as -> by (by destruct c; destruct e).
    pose proof (len_nonneg (List.filter stopped (option_list c'))). lia.
Qed.

(** Places are lost for good.  A client that stalls in the TLS handshake
    is never timed out (and one whose task panics, in a build that unwinds, is never discounted): a
    server can reach a state in which [max_clients] connections have stopped
    and there is no other; and from any state with that many stopped ones,
    no connection is ever let in again. *)
Theorem clients_leak :
  0 <= max_clients <= usize_max ->
  (exists s, reaches started s /\ clients_count s = max_clients /\
     conns s = repeat Stopped (Z.to_nat max_clients)) /\
  (forall s s', reaches started s -> max_clients <= stops s -> reaches s s' ->
     List.filter live (conns s') = []).
Proof.
  intros Hmax. split.
  - eexists. split; [by apply (all_stop (Z.to_nat max_clients)); lia|]. cbn. split; [lia|done].
  - intros s s' Hr Hd Hs.
    assert (max_clients <= stops s') as Hd'.
    { clear Hr. induction Hs as [|s s1 s' H1 _ IH]; [done|]. apply IH.
      pose proof (stopped_stays _ _ H1). lia. }
    assert (reaches started s') as Hr' by (by etrans).
    pose proof (counted_reachable _ _ _ _ (counted_started max_clients) Hr') as [_ _ _ Ha].
    unfold admissions in Ha. rewrite admitted_split in Ha. unfold stops in Hd'.
    destruct (List.filter live (conns s')) as [|c l]; [done|].
    rewrite len_cons in Ha. pose proof (len_nonneg l). lia.
Qed.
End clients.

(** ** At a concrete input *)

(** One connection, allowed one. *)
Lemma clients_bounded_witness :
  reachable 1 false started {| clients_count := 1; conns := [Stopped] |} /\
  len (List.filter (live 1) [Stopped]) + len (List.filter stopped [Stopped]) <= 1.
Proof.
  assert (reachable 1 false started {| clients_count := 1; conns := [Stopped] |}) as H
    by (apply (all_stop 1 false 1); lia).
  split; [exact H|]. apply (clients_bounded 1 false _ ltac:(lia) H).
Defined.

Lemma clients_leak_witness :
  exists s, reachable 3 true started s /\ conns s = [Stopped; Stopped; Stopped].
Proof.
  destruct (clients_leak 3 true ltac:(lia)) as [(s & Hr & _ & Hs) _].
  exists s. split; [exact Hr|exact Hs].
Defined.
