(* ===== verification/Odoh.v ===== *)
(** * Oblivious DoH keys: src/libdoh/src/odoh.rs

    The cryptography of the [odoh_rs] crate is the class [OdohApi]; random
    numbers are arguments.  [ODoHRotator] is a cell with the current key and a
    task that replaces it once a day. *)

From S2P Require Import Prelude Bytes Errors.

Class OdohApi := {
  ObliviousDoHKeyPair : Type;
  ObliviousDoHMessage : Type;
  ObliviousDoHMessagePlaintext : Type;
  OdohSecret : Type;
  ResponseNonce : Type;
  Rng : Type;
  (** [ObliviousDoHKeyPair::new(rng)] *)
  key_pair_new : Rng -> ObliviousDoHKeyPair;
  (** [key_pair.public().identifier()] *)
  key_identifier : ObliviousDoHKeyPair -> option bytes;
  (** the configuration of a public key, serialized, or the text of the error *)
  serialize_configs : ObliviousDoHKeyPair -> bytes + bytes;
  (** [ObliviousDoHMessage::deserialize] and [key_id] *)
  message_deserialize : bytes -> option ObliviousDoHMessage;
  message_key_id : ObliviousDoHMessage -> bytes;
  message_serialize : ObliviousDoHMessage -> option bytes;
  (** [ObliviousDoHMessagePlaintext::new(body, 0)] and [into_msg] *)
  plaintext_new : bytes -> ObliviousDoHMessagePlaintext;
  into_msg : ObliviousDoHMessagePlaintext -> bytes;
  odoh_decrypt_query : ObliviousDoHMessage -> ObliviousDoHKeyPair ->
    option (ObliviousDoHMessagePlaintext * OdohSecret);
  odoh_encrypt_response : ObliviousDoHMessagePlaintext -> ObliviousDoHMessagePlaintext -> OdohSecret ->
    ResponseNonce -> option ObliviousDoHMessage
}.

Section odoh.
Context `{OA : OdohApi}.

Record ODoHPublicKey := {
  key_pair : ObliviousDoHKeyPair;
  serialized_configs : bytes
}.
Record ODoHQueryContext := {
  context_query : ObliviousDoHMessagePlaintext;
  server_secret : OdohSecret
}.

Definition ODoHPublicKey_new (rng : Rng) : outcome DoHError.t ODoHPublicKey :=
  let key_pair := key_pair_new rng in
  match serialize_configs key_pair with
  | inr serialized_configs => Ok {| key_pair := key_pair; serialized_configs := serialized_configs |}
  | inl e => Err (DoHError.ODoHConfigError e)
  end.

Definition into_config (self : ODoHPublicKey) : bytes := serialized_configs self.

Definition decrypt_query (self : ODoHPublicKey) (encrypted_query : bytes)
    : outcome DoHError.t (bytes * ODoHQueryContext) :=
  odoh_query ← ok_or (message_deserialize encrypted_query) DoHError.InvalidData;
  match key_identifier (key_pair self) with
  | Some key_id =>
      if negb (bool_decide (key_id = message_key_id odoh_query)) then Err DoHError.StaleKey
      else
        match odoh_decrypt_query odoh_query (key_pair self) with
        | Some (query, server_secret) =>
            Ok (into_msg query, {| context_query := query; server_secret := server_secret |})
        | None => Err DoHError.InvalidData
        end
  | None => Err DoHError.InvalidData
  end.

Definition encrypt_response (self : ODoHQueryContext) (response_nonce : ResponseNonce)
    (response_body : bytes) : outcome DoHError.t bytes :=
  let response_body_ := plaintext_new response_body in
  encrypted_response ← ok_or
    (odoh_encrypt_response (context_query self) response_body_ (server_secret self) response_nonce)
    DoHError.InvalidData;
  ok_or (message_serialize encrypted_response) DoHError.InvalidData.

(** ** The rotator: the key it holds *)
Definition ODoHRotator : Type := ODoHPublicKey.

(** [ODoHRotator::new], which panics when there is no first key *)
Definition ODoHRotator_new (rng : Rng) : outcome DoHError.t ODoHRotator :=
  match ODoHPublicKey_new rng with
  | Ok key => Ok key
  | _ => Panic
  end.

(** One turn of the task. *)
Definition rotate (rng : Rng) (self : ODoHRotator) : ODoHRotator :=
  match ODoHPublicKey_new rng with
  | Ok key => key
  | _ => self
  end.

Definition current_public_key (self : ODoHRotator) : ODoHPublicKey := self.
End odoh.

(** ** A client of ODoH

    The other side of the protocol, in the same crate: what a client makes of
    a server's configuration and its query, and how it reads the reply.  The
    laws are those of the protocol: what a client encrypts under a
    configuration names the key of the configuration and decrypts with it to
    the query, and what is encrypted for the query decrypts to the reply. *)
Class OdohClient `{OA : OdohApi} := {
  ClientSecret : Type;
  client_encrypt : bytes -> bytes -> bytes * ClientSecret;
  client_decrypt : ClientSecret -> bytes -> option bytes;
  client_message : forall key_pair configs query,
    serialize_configs key_pair = inr configs ->
    exists m id plaintext secret,
      message_deserialize (fst (client_encrypt configs query)) = Some m /\
      key_identifier key_pair = Some id /\ message_key_id m = id /\
      odoh_decrypt_query m key_pair = Some (plaintext, secret) /\ into_msg plaintext = query /\
      forall nonce reply, exists sealed octets,
        odoh_encrypt_response plaintext (plaintext_new reply) secret nonce = Some sealed /\
        message_serialize sealed = Some octets /\
        client_decrypt (snd (client_encrypt configs query)) octets = Some reply
}.
