(* ===== verification/Http.v ===== *)
(** * The HTTP/1 and HTTP/2 server: src/libdoh/src/lib.rs

    What a request to the server becomes: content negotiation, the query of a
    GET or POST request, and the responses.  The types of the [http] and
    [hyper] crates are records of what the source reads and writes of them;
    base64, percent-decoding and JSON are arguments, and so is [proxy], which
    H1, H2 and H3 requests share ([Proxy.proxy] of Proxy.v). *)

From S2P Require Import Prelude Bytes Text Net Headers Ecs DnsJson Errors Proxy Odoh.

Definition DNS_QUERY_PARAM : bytes := ascii_bytes "dns".
Definition MAX_DNS_QUESTION_LEN : Z := 512.
Definition STALE_IF_ERROR_SECS : Z := 86400.
Definition STALE_WHILE_REVALIDATE_SECS : Z := 60.
Definition ODOH_KEY_ROTATION_SECS : Z := 86400.

(** ** Unicode white space: [str::trim] on any UTF-8 text *)

(** The white-space characters of three octets: U+1680, U+2000 to U+200A,
    U+2028, U+2029, U+202F, U+205F and U+3000. *)
Definition wide_space (a b c : Z) : bool :=
  ((a =? 0xe1) && (b =? 0x9a) && (c =? 0x80))
  || ((a =? 0xe2) && (b =? 0x80)
      && (((0x80 <=? c) && (c <=? 0x8a)) || (c =? 0xa8) || (c =? 0xa9) || (c =? 0xaf)))
  || ((a =? 0xe2) && (b =? 0x81) && (c =? 0x9f))
  || ((a =? 0xe3) && (b =? 0x80) && (c =? 0x80)).

(** Those of two octets: U+0085 and U+00A0. *)
Definition pair_space (a b : Z) : bool := (a =? 0xc2) && ((b =? 0x85) || (b =? 0xa0)).

(** The text behind a white-space character at the front; with [back] the
    octets are read from the end of the text. *)
Definition strip_ws (back : bool) (s : bytes) : option bytes :=
  match s with
  | [] => None
  | a :: r =>
      if is_space a then Some r
      else
        match r with
        | [] => None
        | b :: r2 =>
            if (if back then pair_space (u8 b) (u8 a) else pair_space (u8 a) (u8 b)) then Some r2
            else
              match r2 with
              | [] => None
              | c :: r3 =>
                  if (if back then wide_space (u8 c) (u8 b) (u8 a) else wide_space (u8 a) (u8 b) (u8 c))
                  then Some r3 else None
              end
        end
  end.

Fixpoint strip_all (fuel : nat) (back : bool) (s : bytes) : bytes :=
  match fuel with
  | O => s
  | S fuel => match strip_ws back s with Some r => strip_all fuel back r | None => s end
  end.
Definition str_trim (s : bytes) : bytes :=
  let s := strip_all (length s) false s in
  rev (strip_all (length s) true (rev s)).

(** [str::from_utf8(s).ok()] *)
Fixpoint utf8_valid_loop (fuel : nat) (s : bytes) : bool :=
  match fuel, s with
  | S fuel, b :: rest =>
      let '(n, valid) := utf8_chunk b rest in
      (valid : bool) && utf8_valid_loop fuel (skipn n s)
  | _, _ => true
  end.
Definition from_utf8 (s : bytes) : option bytes :=
  if utf8_valid_loop (length s) s then Some s else None.

(** ** Responses *)
Record Response := {
  status : Z;
  headers : list (bytes * bytes);
  body : bytes
}.

(** The builder of the [http] crate refuses a header value [HeaderValue]
    cannot hold. *)
Definition builder_ok (hs : list (bytes * bytes)) : bool := forallb (fun '(_, v) => forallb visible v) hs.

Definition LONG_CACHE : bytes := ascii_bytes "max-age=31536000, immutable".

Definition http_error (status_code : Z) : Response :=
  {| status := status_code; headers := []; body := [] |}.
Definition http_error_with_cache (status_code : Z) : Response :=
  {| status := status_code; headers := [(ascii_bytes "cache-control", LONG_CACHE)]; body := [] |}.

(** [format!("max-age={ttl}, stale-if-error=.., stale-while-revalidate=..")] *)
Definition cache_control_of (ttl : Z) : bytes :=
  ascii_bytes "max-age=" ++ decimal ttl ++ ascii_bytes ", stale-if-error=" ++ decimal STALE_IF_ERROR_SECS
  ++ ascii_bytes ", stale-while-revalidate=" ++ decimal STALE_WHILE_REVALIDATE_SECS.

Definition build_response (packet : bytes) (ttl : Z) (content_type : bytes) (cors : bool)
    : outcome DoHError.t Response :=
  let hs :=
    [(ascii_bytes "content-length", decimal (len packet));
     (ascii_bytes "content-type", content_type);
     (ascii_bytes "cache-control", cache_control_of ttl)]
    ++ (if cors then [(ascii_bytes "access-control-allow-origin", ascii_bytes "*")] else []) in
  if builder_ok hs then Ok {| status := 200; headers := hs; body := packet |}
  else Err DoHError.InvalidData.

(** ** Content types *)
Module DoHType.
Inductive t := Standard | Oblivious | Json.

Definition as_str (self : t) : bytes :=
  ascii_bytes
    match self with
    | Standard => "application/dns-message"
    | Oblivious => "application/oblivious-dns-message"
    | Json => "application/dns-json"
    end.

#[global] Instance t_eq_dec : EqDecision t.
Proof. solve_decision. Defined.
End DoHType.

Definition CONTENT_TYPES : list bytes :=
  map DoHType.as_str [DoHType.Standard; DoHType.Oblivious; DoHType.Json].

(** A media type without its parameters: [split(';').next()], trimmed and in
    lower case *)
Definition media_type (part : bytes) : bytes := ascii_lowercase (str_trim (hd [] (split x3b part))).

(** The first part of an [Accept] header that is one of the types. *)
Definition first_accepted (accept : bytes) (content_types : list bytes) : option bytes :=
  List.find (fun t => bool_decide (t ∈ content_types)) (map (fun p => media_type (str_trim p)) (split x2c accept)).

Definition type_of (content_type : bytes) : option DoHType.t :=
  List.find (fun t => bool_decide (DoHType.as_str t = content_type))
    [DoHType.Standard; DoHType.Oblivious; DoHType.Json].

Definition parse_h3_content_type (content_type accept : option bytes) : Z + DoHType.t :=
  match
    match content_type with
    | Some value => Some value
    | None => accept ← accept; first_accepted accept CONTENT_TYPES
    end
  with
  | None => inl 406
  | Some content_type =>
      match type_of (media_type content_type) with
      | Some t => inr t
      | None => inl 415
      end
  end.

(** ** Queries *)

(** What the handlers read of the server's settings. *)
Record HttpConfig := {
  path : bytes;
  odoh_configs_path : bytes;
  disable_post : bool;
  allow_odoh_post : bool;
  http_enable_ecs : bool;
  remote_addr : option SocketAddr
}.

(** An incoming body: the upper bound its [size_hint] gives, and what
    collecting it gives, or does not. *)
Record Incoming := {
  size_upper : option Z;
  collected : outcome unit bytes
}.

Section server.
Context `{HA : HeaderApi} `{OA : OdohApi} `{BO : ByteOrder}.

Record Request := {
  method : bytes;
  uri_path : bytes;
  uri_query : option bytes;
  req_headers : HeaderMap;
  req_body : Incoming
}.

Definition acceptable_content_type (hs : HeaderMap) (content_types : list bytes) : option bytes :=
  accept ← header_get hs (ascii_bytes "accept");
  first_accepted (default [] (header_to_str accept)) content_types.

Definition parse_content_type (hs : HeaderMap) : Response + DoHType.t :=
  let content_type : Response + bytes :=
    match header_get hs (ascii_bytes "content-type") with
    | None =>
        match acceptable_content_type hs CONTENT_TYPES with
        | None => inl (http_error_with_cache 406)
        | Some content_type => inr content_type
        end
    | Some content_type =>
        match header_to_str content_type with
        | None => inl (http_error_with_cache 400)
        | Some content_type => inr content_type
        end
    end in
  match content_type with
  | inl response => inl response
  | inr content_type =>
      match type_of (ascii_lowercase content_type) with
      | Some t => inr t
      | None => inl (http_error_with_cache 415)
      end
  end.

(** [BASE64_URL_SAFE_NO_PAD.decode(s).ok()] *)
Context (base64_decode : bytes -> option bytes).

(** The value of the last [dns] parameter. *)
Definition question_param (http_query : bytes) : option bytes :=
  fold_left (fun question_str part =>
    match split x3d part with
    | k :: kv => if bool_decide (k = DNS_QUERY_PARAM) then head kv else question_str
    | [] => question_str
    end) (split x26 http_query) None.

Definition decode_question (http_query : bytes) : option bytes :=
  question_str ← question_param http_query;
  if MAX_DNS_QUESTION_LEN * 4 / 3 <? len question_str then None else base64_decode question_str.

Definition query_from_query_string (req : Request) : option bytes :=
  decode_question (default [] (uri_query req)).

Definition query_from_path (path : bytes) : option bytes :=
  decode_question (default [] (split x3f path !! 1%nat)).

Definition read_body (b : Incoming) : outcome DoHError.t bytes :=
  _ ← (match size_upper b with
       | Some upper => ensure (upper <? MAX_DNS_QUESTION_LEN) DoHError.TooLarge
       | None => Ok tt
       end);
  b ← map_err (fun _ => DoHError.TooLarge) (collected b);
  if MAX_DNS_QUESTION_LEN <=? len b then Err DoHError.TooLarge else Ok b.

(** ** The handlers *)
Context {S : Type}.
Context (proxy : bytes -> option IpAddr -> mutates S DoHError.t DnsResponse).
Context (config : HttpConfig).

Abbreviation handler := (mutates S Empty_set Response).

(** [Err(e) => return http_error(StatusCode::from(e))] *)
Definition or_http_error {A : Type} (m : mutates S DoHError.t A) (k : A -> handler) : handler := fun s =>
  match m s with
  | (Ok a, s) => k a s
  | (Err e, s) => (Ok (http_error (DoHError.status_code e)), s)
  | (Panic, s) => (Panic, s)
  | (Diverge, s) => (Diverge, s)
  end.

Definition client_ip (hs : HeaderMap) : option IpAddr :=
  if http_enable_ecs config then extract_client_ip hs (remote_addr config) else None.

Definition serve_doh_query (query : bytes) (ip : option IpAddr) : handler :=
  or_http_error (proxy query ip) (fun resp =>
  or_http_error (lift (build_response (resp_packet resp) (resp_ttl resp)
                         (DoHType.as_str DoHType.Standard) true)) mret).

Definition serve_doh_get (req : Request) : handler :=
  let ip := client_ip (req_headers req) in
  match query_from_query_string req with
  | Some query => serve_doh_query query ip
  | None => mret (http_error_with_cache 400)
  end.

Definition serve_doh_post (req : Request) : handler :=
  if disable_post config then mret (http_error 405)
  else
    let ip := client_ip (req_headers req) in
    or_http_error (lift (read_body (req_body req))) (fun query => serve_doh_query query ip).

(** *** Oblivious DoH *)
Context (odoh_rotator : ODoHRotator) (response_nonce : ResponseNonce).

Definition serve_odoh (encrypted_query : bytes) : handler :=
  or_http_error (lift (decrypt_query (current_public_key odoh_rotator) encrypted_query))
    (fun '(query, context) =>
  or_http_error (proxy query None) (fun resp =>
  or_http_error (lift (encrypt_response context response_nonce (resp_packet resp))) (fun resp =>
  or_http_error (lift (build_response resp 0 (DoHType.as_str DoHType.Oblivious) false)) mret))).

Definition serve_odoh_get (req : Request) : handler :=
  match query_from_query_string req with
  | Some encrypted_query => serve_odoh encrypted_query
  | None => mret (http_error_with_cache 400)
  end.

Definition serve_odoh_post (req : Request) : handler :=
  if disable_post config && negb (allow_odoh_post config) then mret (http_error 405)
  else or_http_error (lift (read_body (req_body req))) serve_odoh.

Definition serve_odoh_configs : handler :=
  or_http_error (lift (build_response (into_config (current_public_key odoh_rotator))
    ODOH_KEY_ROTATION_SECS (ascii_bytes "application/octet-stream") true)) mret.

(** *** JSON *)

(** The response of the JSON API, before it is written out. *)
Record H3Response := {
  h3_status : Z;
  h3_content_type : bytes;
  h3_body : bytes;
  h3_cache_control : option bytes
}.

(** [urlencoding::decode(v)], [serde_json::to_string(&response)], and
    [json!({"Status": s, "Comment": c}).to_string()]; the random id of the
    query; and the base64 of record data. *)
Context (urlencoding_decode : bytes -> option bytes).
Context (to_json : DnsJsonResponse -> option bytes) (json_comment : Z -> bytes -> bytes).
Context (random0 random1 : byte) (base64_std_encode : bytes -> bytes).

Definition json_truth (v : bytes) : bool :=
  bool_decide (v = ascii_bytes "1") || bool_decide (v = ascii_bytes "true").

Definition empty_json_query : DnsJsonQuery := {|
  query_name := []; query_type := None; query_cd := None; query_ct := None; query_do_ := None;
  query_edns_client_subnet := None |}.

(** One parameter of the query string. *)
Definition json_param (q : DnsJsonQuery) (part : bytes) : DnsJsonQuery :=
  match split x3d part with
  | k :: v :: _ =>
      let named (s : string) : bool := bool_decide (k = ascii_bytes s) in
      {| query_name := if named "name" then default [] (urlencoding_decode v) else query_name q;
         query_type := if named "type" then parse_uint u16_max v else query_type q;
         query_cd := if named "cd" then Some (json_truth v) else query_cd q;
         query_ct := if named "ct" then Some v else query_ct q;
         query_do_ := if named "do" then Some (json_truth v) else query_do_ q;
         query_edns_client_subnet :=
           if named "edns_client_subnet" then Some v else query_edns_client_subnet q |}
  | _ => q
  end.

Definition json_error (status : Z) (comment : bytes) : H3Response := {|
  h3_status := status;
  h3_content_type := DoHType.as_str DoHType.Json;
  h3_body := json_comment status comment;
  h3_cache_control := None
|}.

(** A packet function, its error kept as a value. *)
Definition settle_packet {A : Type} (m : outcome Error A) : outcome DoHError.t (Error + A) :=
  match m with
  | Ok a => Ok (inr a)
  | Err e => Ok (inl e)
  | Panic => Panic
  | Diverge => Diverge
  end.

Definition serve_json_query (query_params : bytes) (ip : option IpAddr)
    : mutates S DoHError.t H3Response :=
  let json_query := fold_left json_param (split x26 query_params) empty_json_query in
  if bool_decide (query_name json_query = []) then
    mret (json_error 400 (ascii_bytes "Missing 'name' parameter"))
  else
    query_packet ← lift (settle_packet (build_dns_query random0 random1 json_query));
    match query_packet with
    | inl e => mret (json_error 400 (ascii_bytes "Invalid query: " ++ ascii_bytes e))
    | inr query_packet =>
        dns_response ← proxy query_packet ip;
        json ← lift (settle_packet (parse_dns_to_json base64_std_encode (resp_packet dns_response)));
        match json with
        | inr json_response =>
            json_string ← lift (ok_or (to_json json_response) DoHError.InvalidData);
            mret {| h3_status := 200; h3_content_type := DoHType.as_str DoHType.Json;
                    h3_body := json_string;
                    h3_cache_control := Some (cache_control_of (resp_ttl dns_response)) |}
        | inl e => mret (json_error 500 (ascii_bytes "Failed to parse DNS response: " ++ ascii_bytes e))
        end
    end.

Definition serve_json_get (req : Request) : handler :=
  let query_params := default [] (uri_query req) in
  let ip := client_ip (req_headers req) in
  or_http_error (serve_json_query query_params ip) (fun response =>
    let hs :=
      [(ascii_bytes "content-type", h3_content_type response)]
      ++ (match h3_cache_control response with
          | Some cache_control => [(ascii_bytes "cache-control", cache_control)]
          | None => []
          end)
      ++ [(ascii_bytes "access-control-allow-origin", ascii_bytes "*")] in
    mret (if builder_ok hs
          then {| status := h3_status response; headers := hs; body := h3_body response |}
          else http_error 500)).

(** *** Dispatch *)
Definition serve_get (req : Request) : handler :=
  match parse_content_type (req_headers req) with
  | inr DoHType.Standard => serve_doh_get req
  | inr DoHType.Oblivious => serve_odoh_get req
  | inr DoHType.Json => serve_json_get req
  | inl response => mret response
  end.

Definition serve_post (req : Request) : handler :=
  match parse_content_type (req_headers req) with
  | inr DoHType.Standard => serve_doh_post req
  | inr DoHType.Oblivious => serve_odoh_post req
  | inr DoHType.Json => mret (http_error 405)
  | inl response => mret response
  end.

(** [Service::call] *)
Definition call (req : Request) : handler :=
  if bool_decide (uri_path req = path config) then
    if bool_decide (method req = ascii_bytes "POST") then serve_post req
    else if bool_decide (method req = ascii_bytes "GET") then serve_get req
    else mret (http_error 405)
  else if bool_decide (uri_path req = odoh_configs_path config) then
    if bool_decide (method req = ascii_bytes "GET") then serve_odoh_configs
    else mret (http_error 405)
  else mret (http_error 404).
End server.
