(* ===== verification/H3Server.v ===== *)
(** * The HTTP/3 server: [handle_h3_request] of src/libdoh/src/lib.rs

    A request is its headers and the frames of its body; the answer is what
    is sent on the stream's channel. *)

From S2P Require Import Prelude Bytes Text Net Headers DnsJson Errors Proxy Odoh Http.

(** ** Frames *)
Inductive frame :=
  | Headers (hs : list (bytes * bytes))
  | Body (data : bytes) (fin : bool).

(** The sending side of a stream: what has been sent, and how many frames go
    through before the channel closes ([None]: it stays open). *)
Record outbound := {
  frames : list frame;
  room : option nat
}.

(** The receiving side: its frames, [None] for one that is not a body, and
    whether the channel then closes. *)
Record inbound := {
  received : list (option (bytes * bool));
  ends : bool
}.

Definition h3_header_value (headers : list (bytes * bytes)) (name : bytes) : option bytes :=
  header ← List.find (fun '(n, _) => bool_decide (n = name)) headers;
  from_utf8 (snd header).

Section h3_server.
Context `{HA : HeaderApi} `{OA : OdohApi} `{BO : ByteOrder}.
Context (base64_decode : bytes -> option bytes).
Context {S : Type}.
Context (proxy : bytes -> option IpAddr -> mutates S DoHError.t DnsResponse).
Context (config : HttpConfig).
Context (odoh_rotator : ODoHRotator) (response_nonce : ResponseNonce).
Context (urlencoding_decode : bytes -> option bytes).
Context (to_json : DnsJsonResponse -> option bytes) (json_comment : Z -> bytes -> bytes).
Context (random0 random1 : byte) (base64_std_encode : bytes -> bytes).

(** The handlers run on the server's state and on the stream. *)
Abbreviation on_stream A := (mutates (S * outbound) DoHError.t A).

Definition on_server {A : Type} (m : mutates S DoHError.t A) : on_stream A := fun '(s, out) =>
  let '(r, s) := m s in (r, (s, out)).

(** [send.send(frame).await.map_err(|_| DoHError::UpstreamIssue)?] *)
Definition send (f : frame) : on_stream unit := fun '(s, out) =>
  match room out with
  | Some O => (Err DoHError.UpstreamIssue, (s, out))
  | r => (Ok tt, (s, {| frames := frames out ++ [f]; room := pred <$> r |}))
  end.

Definition send_h3_response (status : Z) (content_type body : bytes) (cache_control : option bytes)
    (cors : bool) : on_stream unit :=
  let hs :=
    [(ascii_bytes ":status", decimal status);
     (ascii_bytes "content-type", content_type);
     (ascii_bytes "content-length", decimal (len body))]
    ++ (match cache_control with
        | Some cache_control => [(ascii_bytes "cache-control", cache_control)]
        | None => []
        end)
    ++ (if cors then [(ascii_bytes "access-control-allow-origin", ascii_bytes "*")] else []) in
  send (Headers hs);;
  match body with
  | [] => mret tt
  | _ => send (Body body true)
  end.

Definition send_h3_error (status : Z) (long_cache : bool) : on_stream unit :=
  send_h3_response status (ascii_bytes "text/plain") [] (if long_cache then Some LONG_CACHE else None) false.

Definition handle_doh_payload (payload : bytes) (doh_type : DoHType.t) (client_ip : option IpAddr)
    (cors : bool) : on_stream unit :=
  match doh_type with
  | DoHType.Standard =>
      resp ← on_server (proxy payload client_ip);
      send_h3_response 200 (DoHType.as_str DoHType.Standard) (resp_packet resp)
        (Some (cache_control_of (resp_ttl resp))) cors
  | DoHType.Oblivious =>
      '(query, context) ← lift (decrypt_query (current_public_key odoh_rotator) payload);
      resp ← on_server (proxy query None);
      encrypted_resp ← lift (encrypt_response context response_nonce (resp_packet resp));
      send_h3_response 200 (DoHType.as_str DoHType.Oblivious) encrypted_resp
        (Some (cache_control_of 0)) false
  | DoHType.Json => send_h3_error 405 false
  end.

(** The body of a POST request: it, or [None] when it is too large. *)
Fixpoint receive_body (recv : list (option (bytes * bool))) (ends : bool) (body : bytes) (body_len : Z)
    : outcome DoHError.t (option bytes) :=
  match recv with
  | [] => if ends then Ok (Some body) else Diverge
  | None :: recv => receive_body recv ends body body_len
  | Some (data, fin) :: recv =>
      let body_len := saturating_add_u64 body_len (len data) in
      if MAX_DNS_QUESTION_LEN <? body_len then Ok None
      else
        let body := body ++ data in
        if fin : bool then Ok (Some body) else receive_body recv ends body body_len
  end.

Definition handle_h3_request (headers : list (bytes * bytes)) (recv : inbound) : on_stream unit :=
  let method := default (ascii_bytes "GET") (h3_header_value headers (ascii_bytes ":method")) in
  let path_ := default (ascii_bytes "/") (h3_header_value headers (ascii_bytes ":path")) in
  let path_only := default path_ (head (split x3f path_)) in
  let content_type := h3_header_value headers (ascii_bytes "content-type") in
  let accept := h3_header_value headers (ascii_bytes "accept") in
  let is_get := bool_decide (method = ascii_bytes "GET") in
  let is_post := bool_decide (method = ascii_bytes "POST") in
  if bool_decide (path_only = odoh_configs_path config) then
    if is_get then
      send_h3_response 200 (ascii_bytes "application/octet-stream")
        (into_config (current_public_key odoh_rotator))
        (Some (cache_control_of ODOH_KEY_ROTATION_SECS)) true
    else send_h3_error 405 false
  else if negb (bool_decide (path_only = path config)) then send_h3_error 404 true
  else
    match parse_h3_content_type content_type accept with
    | inl status => send_h3_error status true
    | inr doh_type =>
        let client_ip := if http_enable_ecs config then sock_ip <$> remote_addr config else None in
        if is_get then
          match doh_type with
          | DoHType.Json =>
              let query := default [] (split x3f path_ !! 1%nat) in
              fun st =>
                match on_server (serve_json_query proxy urlencoding_decode to_json json_comment
                                   random0 random1 base64_std_encode query client_ip) st with
                | (Ok response, st) =>
                    send_h3_response (h3_status response) (h3_content_type response) (h3_body response)
                      (h3_cache_control response) true st
                | (Err e, st) => send_h3_error (DoHError.status_code e) false st
                | (Panic, st) => (Panic, st)
                | (Diverge, st) => (Diverge, st)
                end
          | _ =>
              match query_from_path base64_decode path_ with
              | None => send_h3_error 400 true
              | Some query =>
                  handle_doh_payload query doh_type client_ip (bool_decide (doh_type = DoHType.Standard))
              end
          end
        else if is_post then
          match doh_type with
          | DoHType.Json => send_h3_error 405 false
          | _ =>
              if bool_decide (doh_type = DoHType.Standard) && disable_post config then
                send_h3_error 405 false
              else if bool_decide (doh_type = DoHType.Oblivious) && disable_post config
                      && negb (allow_odoh_post config) then
                send_h3_error 405 false
              else
                body ← lift (receive_body (received recv) (ends recv) [] 0);
                match body with
                | None => send_h3_error 413 false
                | Some [] => send_h3_error 400 true
                | Some body =>
                    handle_doh_payload body doh_type client_ip (bool_decide (doh_type = DoHType.Standard))
                end
          end
        else send_h3_error 405 false
    end.
End h3_server.

(** ** A connection *)

(** The events of a connection: of the core protocol, with the headers of a
    request or another, and those of the server's driver. *)
Inductive h3_server_event :=
  | CoreHeaders (headers : list (bytes * bytes)) (recv : inbound)
  | CoreOther
  | DriverEvent.

(** [handle_h3_connection]: the requests for which a task runs
    [handle_h3_request]. *)
Fixpoint handle_h3_connection (events : list h3_server_event) : list (list (bytes * bytes) * inbound) :=
  match events with
  | CoreHeaders headers recv :: events => (headers, recv) :: handle_h3_connection events
  | CoreOther :: events => handle_h3_connection events
  | DriverEvent :: _ => []
  | [] => []
  end.
