(* ===== verification/HttpFacts.v ===== *)
(** * Facts about the HTTP servers *)

From S2P Require Import Prelude Bytes Text Net Headers DnsJson Errors Proxy Odoh Http H3Server.

(** ** Header values *)
Lemma visible_digit d : 0 <= d < 10 -> visible (digit d) = true.
Proof.
  intros Hd. unfold digit, visible. rewrite u8_as_u8, Z.mod_small by lia.
  by rewrite !(proj2 (Z.leb_le _ _)) by lia.
Qed.

Lemma decimal_loop_visible fuel : forall n acc,
  forallb visible acc = true -> forallb visible (decimal_loop fuel n acc) = true.
Proof.
  induction fuel as [|fuel IH]; intros n acc Hacc; [done|]. cbn [decimal_loop].
  assert (forallb visible (digit (n mod 10) :: acc) = true) as H.
  { cbn [forallb]. rewrite visible_digit by (apply Z.mod_pos_bound; lia). done. }
  destruct (n / 10 =? 0); [done|by apply IH].
Qed.

Lemma decimal_visible n : forallb visible (decimal n) = true.
Proof. by apply decimal_loop_visible. Qed.

Lemma cache_control_visible ttl : forallb visible (cache_control_of ttl) = true.
Proof. unfold cache_control_of. rewrite !forallb_app, !decimal_visible. by vm_compute. Qed.

Definition cors_headers (cors : bool) : list (bytes * bytes) :=
  if cors then [(ascii_bytes "access-control-allow-origin", ascii_bytes "*")] else [].

(** The response the builder makes: it never fails. *)
Definition ok_response (packet : bytes) (ttl : Z) (content_type : bytes) (cors : bool) : Response := {|
  status := 200;
  headers :=
    [(ascii_bytes "content-length", decimal (len packet));
     (ascii_bytes "content-type", content_type);
     (ascii_bytes "cache-control", cache_control_of ttl)] ++ cors_headers cors;
  body := packet |}.

Lemma build_response_ok packet ttl ct cors :
  forallb visible ct = true -> build_response packet ttl ct cors = Ok (ok_response packet ttl ct cors).
Proof.
  intros Hct. unfold build_response, builder_ok. rewrite forallb_app. cbn [forallb].
  rewrite decimal_visible, cache_control_visible, Hct. by destruct cors.
Qed.

Lemma as_str_visible t : forallb visible (DoHType.as_str t) = true.
Proof. by destruct t. Qed.

(** Visible ASCII is UTF-8. *)
Lemma visible_utf8 s : forallb visible s = true -> from_utf8 s = Some s.
Proof.
  intros H. unfold from_utf8. assert (forall fuel s, forallb visible s = true -> utf8_valid_loop fuel s = true) as Hl.
  { clear. induction fuel as [|fuel IH]; intros [|b s]; cbn [forallb utf8_valid_loop]; try done.
    intros [Hb Hs]%andb_true_iff. assert (utf8_chunk b s = (1%nat, true)) as ->.
    { unfold utf8_chunk, utf8_char_width. unfold visible in Hb. bool_to_prop.
      rewrite (proj2 (Z.ltb_lt (u8 b) 128)); [done|]. lia. }
    cbn [andb skipn]. by apply IH. }
  by rewrite Hl.
Qed.

(** ** White space *)

(** ASCII that is not white space: what the media types are made of. *)
Definition plain (b : byte) : bool := (u8 b <? 128) && negb (is_space b).

Lemma plain_lowercase b : plain (to_ascii_lowercase b) = true -> plain b = true.
Proof. by destruct b. Qed.

Ltac no_eqb := repeat match goal with
  | |- context [?x =? ?k] => rewrite (proj2 (Z.eqb_neq x k)) by lia
  end.

Lemma pair_space_ascii x y : x < 128 -> pair_space x y = false /\ pair_space y x = false.
Proof. intros. unfold pair_space. split; no_eqb; [done|by rewrite andb_false_r]. Qed.

Lemma wide_space_ascii x y z : x < 128 -> wide_space x y z = false /\ wide_space z y x = false.
Proof.
  intros. unfold wide_space. split.
  - by rewrite !(proj2 (Z.eqb_neq x _)) by lia.
  - rewrite !(proj2 (Z.eqb_neq x _)), (proj2 (Z.leb_gt 128 x)) by lia. by rewrite !andb_false_r.
Qed.

Lemma strip_ws_plain back b s : plain b = true -> strip_ws back (b :: s) = None.
Proof.
  unfold plain. intros H. bool_to_prop. cbn [strip_ws].
  match goal with H : is_space b = false |- _ => rewrite H end.
  destruct s as [|c s]; [done|].
  destruct (pair_space_ascii (u8 b) (u8 c)) as [Hp1 Hp2]; [done|].
  destruct back; rewrite ?Hp1, ?Hp2; destruct s as [|d s]; try done;
    destruct (wide_space_ascii (u8 b) (u8 c) (u8 d)) as [Hw1 Hw2]; rewrite ?Hw1, ?Hw2; done.
Qed.

Lemma strip_all_plain fuel back s : forallb plain s = true -> strip_all fuel back s = s.
Proof.
  destruct fuel; [done|]. destruct s as [|b s]; [done|]. cbn [forallb strip_all]. intros H.
  apply andb_true_iff in H as [H _]. by rewrite strip_ws_plain.
Qed.

Lemma str_trim_plain s : forallb plain s = true -> str_trim s = s.
Proof.
  intros H. unfold str_trim. rewrite (strip_all_plain _ false s H), strip_all_plain.
  - apply rev_involutive.
  - apply forallb_forall. intros x Hx. apply (proj1 (forallb_forall plain s) H).
    by apply in_rev.
Qed.

(** ** Content types *)
Lemma type_of_Some s t : type_of s = Some t <-> s = DoHType.as_str t.
Proof.
  unfold type_of. cbn [List.find]. split.
  - repeat (case_bool_decide; [by intros [= <-]|]). done.
  - intros ->. by destruct t.
Qed.

Lemma as_str_plain t : forallb (fun b => plain b && negb (bool_decide (b = x3b))) (DoHType.as_str t) = true.
Proof. by destruct t. Qed.

(** A text that is a media type up to case has no white space and no
    parameters. *)
Lemma media_type_exact s t : ascii_lowercase s = DoHType.as_str t -> media_type s = DoHType.as_str t.
Proof.
  intros H. pose proof (as_str_plain t) as Hp. rewrite <- H in Hp.
  assert (forallb (fun b => plain b && negb (bool_decide (b = x3b))) s = true) as Hs.
  { apply forallb_forall. intros b Hb. apply (proj1 (forallb_forall _ _)) with (x := to_ascii_lowercase b) in Hp;
      [|by apply in_map]. apply andb_true_iff in Hp as [Hp1 Hp2]. rewrite (plain_lowercase _ Hp1). cbn.
    apply negb_true_iff, bool_decide_eq_false in Hp2. apply negb_true_iff, bool_decide_eq_false.
    by intros ->. }
  unfold media_type. rewrite split_none.
  - cbn [hd]. rewrite str_trim_plain, H; [done|]. apply forallb_forall. intros b Hb.
    apply (proj1 (forallb_forall _ _)) with (x := b) in Hs; [|done]. by apply andb_true_iff in Hs as [? _].
  - intros Hin. apply (proj1 (forallb_forall _ _)) with (x := x3b) in Hs; [|done]. by vm_compute in Hs.
Qed.

Lemma first_accepted_In accept c : first_accepted accept CONTENT_TYPES = Some c -> exists t, c = DoHType.as_str t.
Proof.
  unfold first_accepted. intros H. apply find_some in H as [_ H]. apply bool_decide_eq_true in H.
  unfold CONTENT_TYPES in H. apply list_elem_of_fmap in H as (t & -> & _). by exists t.
Qed.

Lemma lower_as_str t : ascii_lowercase (DoHType.as_str t) = DoHType.as_str t.
Proof. by destruct t. Qed.

(** ** Query strings *)
Lemma split_app_sep c s t : split c (s ++ c :: t) = split c s ++ split c t.
Proof.
  induction s as [|b s IH]; cbn; [by rewrite bool_decide_true|].
  case_bool_decide; [by rewrite IH|]. rewrite IH.
  pose proof (split_nonempty c s). by destruct (split c s).
Qed.

(** A part that is not a [dns] parameter. *)
Definition other_param (part : bytes) : Prop := hd [] (split x3d part) <> DNS_QUERY_PARAM.

(** What may come before and after a parameter. *)
Inductive before_param : bytes -> Prop :=
  | before_none : before_param []
  | before_some s : before_param (s ++ [x26]).
Inductive after_param : bytes -> Prop :=
  | after_none : after_param []
  | after_some s : Forall other_param (split x26 s) -> after_param (x26 :: s).

Definition param_step (question_str : option bytes) (part : bytes) : option bytes :=
  match split x3d part with
  | k :: kv => if bool_decide (k = DNS_QUERY_PARAM) then head kv else question_str
  | [] => question_str
  end.

Lemma param_step_other q part : other_param part -> param_step q part = q.
Proof.
  unfold other_param, param_step. destruct (split x3d part) as [|k kv]; [done|]. cbn.
  intros H. by rewrite bool_decide_false.
Qed.

Lemma param_steps_other q parts : Forall other_param parts -> fold_left param_step parts q = q.
Proof.
  intros H. revert q. induction H as [|p parts Hp _ IH]; intros q; [done|]. cbn.
  by rewrite param_step_other, IH.
Qed.

Lemma param_step_dns q v : ~ In x3d v -> param_step q (DNS_QUERY_PARAM ++ x3d :: v) = Some v.
Proof.
  intros Hv. unfold param_step. rewrite split_app_sep, (split_none _ v Hv).
  change (split x3d DNS_QUERY_PARAM) with [DNS_QUERY_PARAM]. cbn [app].
  by rewrite bool_decide_true.
Qed.

(** The parameter is found: the last one of that name. *)
Lemma question_param_found before v after :
  before_param before -> after_param after -> ~ In x26 v -> ~ In x3d v ->
  question_param (before ++ DNS_QUERY_PARAM ++ x3d :: v ++ after) = Some v.
Proof.
  intros Hb Ha Hamp Heq. unfold question_param. change (fold_left _ ?l ?q) with (fold_left param_step l q).
  set (part := DNS_QUERY_PARAM ++ x3d :: v).
  assert (split x26 part = [part]) as Hpart.
  { apply split_none. unfold part. rewrite in_app_iff. cbn. intros [H|[H|H]]; [|done|by apply Hamp].
    cbv in H. tauto || intuition discriminate. }
  assert (fold_left param_step (split x26 (part ++ after)) None = Some v /\
    forall q, fold_left param_step (split x26 (part ++ after)) q = Some v) as [_ Htail].
  { assert (forall q, fold_left param_step (split x26 (part ++ after)) q = Some v) as H; [|by split].
    intros q. destruct Ha as [|s Hs].
    - rewrite app_nil_r, Hpart. cbn [fold_left]. by apply param_step_dns.
    - rewrite split_app_sep, Hpart. cbn [app fold_left]. unfold part at 1.
      rewrite param_step_dns by done. by apply param_steps_other. }
  assert (before ++ DNS_QUERY_PARAM ++ x3d :: v ++ after = before ++ part ++ after) as ->
    by (unfold part; by rewrite <- app_assoc).
  destruct Hb as [|s]; [apply Htail|].
  rewrite <- app_assoc. cbn [app]. rewrite split_app_sep, fold_left_app. apply Htail.
Qed.

(** ** Bodies *)
Lemma read_body_ok b q :
  (forall u, size_upper b = Some u -> u < MAX_DNS_QUESTION_LEN) -> collected b = Ok q ->
  len q < MAX_DNS_QUESTION_LEN -> read_body b = Ok q.
Proof.
  intros Hu Hc Hl. unfold read_body. rewrite Hc.
  assert ((match size_upper b with
           | Some upper => ensure (upper <? MAX_DNS_QUESTION_LEN) DoHError.TooLarge
           | None => Ok tt
           end) = Ok tt) as ->.
  { destruct (size_upper b) as [u|]; [|done]. specialize (Hu u eq_refl).
    by rewrite (proj2 (Z.ltb_lt _ _)). }
  cbn. by rewrite (proj2 (Z.leb_gt _ _)).
Qed.

(** A body of several frames, the last of which ends it. *)
Lemma receive_chunks (chunks : list bytes) (final : bytes) rest ends :
  len (concat chunks ++ final) <= MAX_DNS_QUESTION_LEN ->
  receive_body (map (fun d => Some (d, false)) chunks ++ Some (final, true) :: rest) ends [] 0
  = Ok (Some (concat chunks ++ final)).
Proof.
  assert (forall body, len (body ++ concat chunks ++ final) <= MAX_DNS_QUESTION_LEN ->
    receive_body (map (fun d => Some (d, false)) chunks ++ Some (final, true) :: rest) ends body (len body)
    = Ok (Some (body ++ concat chunks ++ final))) as H; [|exact (H [])].
  induction chunks as [|d chunks IH]; intros body Hl; cbn [map app concat receive_body] in *;
    rewrite !len_app in Hl; unfold MAX_DNS_QUESTION_LEN in *; unfold saturating_add_u64.
  - pose proof (len_nonneg body). pose proof (len_nonneg final). rewrite Z.min_r by lia. by cmp_simpl.
  - pose proof (len_nonneg body). pose proof (len_nonneg d). pose proof (len_nonneg (concat chunks)).
    pose proof (len_nonneg final). rewrite Z.min_r by lia. cmp_simpl. cbn [app] in *.
    rewrite <- len_app, IH by (rewrite !len_app; lia). by rewrite <- !app_assoc.
Qed.

Lemma decode_question_found base64_decode before v after q :
  before_param before -> after_param after -> ~ In x26 v -> ~ In x3d v ->
  len v <= 682 -> base64_decode v = Some q ->
  decode_question base64_decode (before ++ DNS_QUERY_PARAM ++ x3d :: v ++ after) = Some q.
Proof.
  intros Hb Ha Hamp Heq Hl Hq. unfold decode_question. rewrite question_param_found by done. cbn.
  change (512 * 4 / 3) with 682. by rewrite (proj2 (Z.ltb_ge _ _)).
Qed.

Lemma query_from_path_mark base64_decode p qs :
  ~ In x3f p -> ~ In x3f qs ->
  query_from_path base64_decode (p ++ x3f :: qs) = decode_question base64_decode qs.
Proof. intros Hp Hq. unfold query_from_path. by rewrite split_app, split_none by done. Qed.
