(* ===== verification/HttpProps.v ===== *)
(** * Properties of the HTTP servers *)

From S2P Require Import Prelude Bytes Text Net Headers Ecs DnsJson DnsJsonFacts Errors Upstream Proxy Odoh Http H3Server.
From S2P Require Import HttpFacts.

(** ** Content negotiation *)
Section negotiation.
Context `{HA : HeaderApi}.

(** The same values of the two headers, in an HTTP/3 request. *)
Definition same_types (hs : HeaderMap) (h3 : list (bytes * bytes)) : Prop :=
  forall name, name ∈ [ascii_bytes "content-type"; ascii_bytes "accept"] ->
    snd <$> List.find (fun '(n, _) => bool_decide (n = name)) h3 = header_as_bytes <$> header_get hs name.

(** The type the HTTP/3 handler gives a request. *)
Definition h3_type (h3 : list (bytes * bytes)) : Z + DoHType.t :=
  parse_h3_content_type (h3_header_value h3 (ascii_bytes "content-type")) (h3_header_value h3 (ascii_bytes "accept")).

Lemma h3_value hs h3 name :
  same_types hs h3 -> name ∈ [ascii_bytes "content-type"; ascii_bytes "accept"] ->
  h3_header_value h3 name = (v ← header_get hs name; from_utf8 (header_as_bytes v)).
Proof.
  intros Hs Hn. specialize (Hs name Hn). unfold h3_header_value.
  destruct (List.find _ h3) as [[n v]|], (header_get hs name) as [v'|]; try discriminate Hs; [|done].
  injection Hs as Hs. cbn [mbind option_bind snd]. by rewrite <- Hs.
Qed.

(** The type a text gives as a Content-Type over HTTP/3. *)
Definition h3_content_type_is (s : bytes) (r : Z + DoHType.t) : Prop :=
  (exists t, media_type s = DoHType.as_str t /\ r = inr t) \/
  ((forall t, media_type s <> DoHType.as_str t) /\ r = inl 415).

(** The type an Accept header gives over HTTP/3, without a Content-Type: it is
    read as UTF-8. *)
Definition h3_accept_is (accept : option bytes) (r : Z + DoHType.t) : Prop :=
  (exists s t, accept = Some s /\ from_utf8 s = Some s /\
     first_accepted s CONTENT_TYPES = Some (DoHType.as_str t) /\ r = inr t) \/
  ((forall s, accept = Some s -> from_utf8 s = None \/ first_accepted s CONTENT_TYPES = None) /\ r = inl 406).

Lemma h3_content_type_given s accept : h3_content_type_is s (parse_h3_content_type (Some s) accept).
Proof.
  unfold h3_content_type_is, parse_h3_content_type. destruct (type_of (media_type s)) as [t|] eqn:Ht.
  - left. exists t. by apply type_of_Some in Ht.
  - right. split; [|done]. intros t Heq. rewrite Heq, (proj2 (type_of_Some _ t) eq_refl) in Ht. done.
Qed.

Lemma from_utf8_same s s' : from_utf8 s = Some s' -> s' = s.
Proof. unfold from_utf8. destruct (utf8_valid_loop _ s); by intros [= <-]. Qed.

Lemma h3_accept_given accept :
  h3_accept_is accept (parse_h3_content_type None (s ← accept; from_utf8 s)).
Proof.
  unfold h3_accept_is, parse_h3_content_type. destruct accept as [s|]; cbn [mbind option_bind]; [|by right].
  destruct (from_utf8 s) as [s'|] eqn:Hu; cbn [mbind option_bind].
  - pose proof (from_utf8_same _ _ Hu) as ->.
    destruct (first_accepted s CONTENT_TYPES) as [c|] eqn:Hc.
    + apply first_accepted_In in Hc as Ht. destruct Ht as (t & ->). left. exists s, t. split_and!; try done.
      by rewrite (media_type_exact _ t (lower_as_str t)), (proj2 (type_of_Some _ t) eq_refl).
    + right. split; [|done]. intros ? [= <-]. by right.
  - right. split; [|done]. intros ? [= <-]. by left.
Qed.

(** C36: the two parsers of the content type, which is the Content-Type or,
    without one, the first known type in Accept.  HTTP/1 and HTTP/2 read the
    headers as visible ASCII and want the type alone; HTTP/3 reads them as
    UTF-8 and takes the type before a semicolon, without the white space
    around it.  So whatever type the HTTP/1 and HTTP/2 server accepts, the
    HTTP/3 server accepts as the same; and of what it refuses, HTTP/3 accepts
    exactly this: a Content-Type that is a known type with parameters, white
    space or, before the type is cut off, other UTF-8; one that is not even
    UTF-8, which HTTP/3 ignores, with a known type in Accept; and, without a
    Content-Type, a known type in an Accept that is UTF-8 but not visible
    ASCII.  The status of HTTP/1 and HTTP/2 is 415 for an unknown
    Content-Type, 400 for one that is not visible ASCII, and 406 without;
    that of HTTP/3 is 415 and 406. *)
Theorem negotiation_agrees (hs : HeaderMap) (h3 : list (bytes * bytes)) :
  same_types hs h3 ->
  let accept := header_as_bytes <$> header_get hs (ascii_bytes "accept") in
  match parse_content_type hs with
  | inr t => h3_type h3 = inr t
  | inl r =>
      headers r = [(ascii_bytes "cache-control", LONG_CACHE)] /\ body r = [] /\
      match header_as_bytes <$> header_get hs (ascii_bytes "content-type") with
      | Some s =>
          if forallb visible s then
            status r = 415 /\ (forall t, ascii_lowercase s <> DoHType.as_str t) /\ h3_content_type_is s (h3_type h3)
          else
            status r = 400 /\
            match from_utf8 s with
            | Some s => h3_content_type_is s (h3_type h3)
            | None => h3_accept_is accept (h3_type h3)
            end
      | None =>
          status r = 406 /\ h3_accept_is accept (h3_type h3) /\
          forall s, accept = Some s -> forallb visible s = true -> h3_type h3 = inl 406
      end
  end.
Proof.
  intros Hs accept. unfold h3_type. rewrite !(h3_value hs h3) by (done || set_solver).
  assert ((v ← header_get hs (ascii_bytes "accept"); from_utf8 (header_as_bytes v)) = (s ← accept; from_utf8 s)) as ->
    by (unfold accept; by destruct (header_get hs (ascii_bytes "accept"))).
  pose proof (h3_accept_given accept) as Hnone. unfold parse_content_type, acceptable_content_type.
  destruct (header_get hs (ascii_bytes "content-type")) as [v|]; cbn [mbind option_bind fmap option_fmap option_map].
  - rewrite header_to_str_visible. destruct (forallb visible (header_as_bytes v)) eqn:Hv.
    + rewrite visible_utf8 by done. destruct (type_of (ascii_lowercase (header_as_bytes v))) as [t|] eqn:Ht.
      * apply type_of_Some, media_type_exact in Ht. unfold parse_h3_content_type.
        by rewrite Ht, (proj2 (type_of_Some _ t) eq_refl).
      * split_and!; try done; [|apply h3_content_type_given].
        intros t Heq. by rewrite Heq, (proj2 (type_of_Some _ t) eq_refl) in Ht.
    + split_and!; try done. destruct (from_utf8 (header_as_bytes v)); [apply h3_content_type_given|exact Hnone].
  - destruct (header_get hs (ascii_bytes "accept")) as [a|]; cbn [mbind option_bind]; [|by split_and!].
    rewrite header_to_str_visible. unfold accept in *. cbn [fmap option_fmap option_map mbind option_bind] in *.
    destruct (forallb visible (header_as_bytes a)) eqn:Ha; cbn [default].
    + rewrite visible_utf8 in * by done. unfold id.
      destruct (first_accepted (header_as_bytes a) CONTENT_TYPES) as [c|] eqn:Hc.
      * apply first_accepted_In in Hc as Ht. destruct Ht as (t & ->).
        rewrite lower_as_str, (proj2 (type_of_Some _ t) eq_refl). unfold parse_h3_content_type. cbn [mbind option_bind].
        rewrite Hc. by rewrite (media_type_exact _ t (lower_as_str t)), (proj2 (type_of_Some _ t) eq_refl).
      * split_and!; try done. intros s [= <-] _. unfold parse_h3_content_type. cbn [mbind option_bind]. by rewrite Hc.
    + assert (first_accepted [] CONTENT_TYPES = None) as -> by by vm_compute.
      split_and!; try done. intros s [= <-]. congruence.
Qed.
End negotiation.

(** ** Queries and replies *)
Section replies.
Context `{HA : HeaderApi} `{OA : OdohApi} `{BO : ByteOrder}.
Context (base64_decode : bytes -> option bytes).
Context {S : Type}.
Context (proxy : bytes -> option IpAddr -> mutates S DoHError.t DnsResponse).
Context (config : HttpConfig) (odoh_rotator : ODoHRotator) (response_nonce : ResponseNonce).
Context (urlencoding_decode : bytes -> option bytes).
Context (to_json : DnsJsonResponse -> option bytes) (json_comment : Z -> bytes -> bytes).
Context (random0 random1 : byte) (base64_std_encode : bytes -> bytes).

Abbreviation call := (Http.call base64_decode proxy config odoh_rotator response_nonce urlencoding_decode
  to_json json_comment random0 random1 base64_std_encode).
Abbreviation handle_h3_request := (H3Server.handle_h3_request base64_decode proxy config odoh_rotator
  response_nonce urlencoding_decode to_json json_comment random0 random1 base64_std_encode).

(** The query of a request: in the last [dns] parameter of a GET request, or
    in the body of a POST request where that is allowed. *)
Inductive carries (post_allowed : bool) (req : Request) (q : bytes) : Prop :=
  | carries_get before v after :
      method req = ascii_bytes "GET" ->
      uri_query req = Some (before ++ DNS_QUERY_PARAM ++ x3d :: v ++ after) ->
      before_param before -> after_param after -> ~ In x26 v -> ~ In x3d v ->
      len v <= 682 -> base64_decode v = Some q -> carries post_allowed req q
  | carries_post :
      method req = ascii_bytes "POST" -> post_allowed = true ->
      (forall u, size_upper (req_body req) = Some u -> u < MAX_DNS_QUESTION_LEN) ->
      collected (req_body req) = Ok q -> len q < MAX_DNS_QUESTION_LEN -> carries post_allowed req q.

Lemma get_carries req before v after q :
  uri_query req = Some (before ++ DNS_QUERY_PARAM ++ x3d :: v ++ after) ->
  before_param before -> after_param after -> ~ In x26 v -> ~ In x3d v ->
  len v <= 682 -> base64_decode v = Some q ->
  query_from_query_string base64_decode req = Some q.
Proof. intros Hq ? ? ? ? ? ?. unfold query_from_query_string. rewrite Hq. by eapply decode_question_found. Qed.

(** What the handlers make of the proxy's reply. *)
Definition replied (reply : outcome DoHError.t DnsResponse * S) (ok : DnsResponse -> Response)
    : outcome Empty_set Response * S :=
  match reply with
  | (Ok r, s') => (Ok (ok r), s')
  | (Err e, s') => (Ok (http_error (DoHError.status_code e)), s')
  | (Panic, s') => (Panic, s')
  | (Diverge, s') => (Diverge, s')
  end.

Lemma serve_doh_query_eq q ip s :
  serve_doh_query proxy q ip s =
  replied (proxy q ip s) (fun r => ok_response (resp_packet r) (resp_ttl r) (DoHType.as_str DoHType.Standard) true).
Proof.
  unfold serve_doh_query, or_http_error, replied. destruct (proxy q ip s) as [[r|e| |] s']; try done.
  unfold lift. by rewrite build_response_ok by apply as_str_visible.
Qed.

Lemma call_carries (req : Request) (q : bytes) (s : S) :
  uri_path req = path config -> parse_content_type (req_headers req) = inr DoHType.Standard ->
  carries (negb (disable_post config)) req q ->
  call req s = serve_doh_query proxy q (client_ip config (req_headers req)) s.
Proof.
  intros Hpath Htype Hq. unfold Http.call. rewrite (bool_decide_true _ Hpath). destruct Hq.
  - rewrite bool_decide_false by (by intros Heq; rewrite Heq in *).
    rewrite bool_decide_true by done. unfold serve_get, serve_doh_get. rewrite Htype.
    by erewrite get_carries by done.
  - rewrite bool_decide_true by done. unfold serve_post, serve_doh_post. rewrite Htype.
    destruct (disable_post config); [done|]. unfold or_http_error at 1, lift.
    by rewrite (read_body_ok _ q) by done.
Qed.

(** *** The refusals *)

(** A POST request of this type is allowed. *)
Definition post_allowed (t : DoHType.t) : bool :=
  match t with
  | DoHType.Standard => negb (disable_post config)
  | DoHType.Oblivious => negb (disable_post config) || allow_odoh_post config
  | DoHType.Json => false
  end.














(** ** HTTP/3 *)

(** The query of an HTTP/3 request: like [carries], the body coming in
    frames, the last of which ends it. *)
Inductive h3_carries (hs : list (bytes * bytes)) (recv : inbound) (q : bytes) : Prop :=
  | h3_carries_get before v after :
      h3_header_value hs (ascii_bytes ":method") = Some (ascii_bytes "GET") ->
      h3_header_value hs (ascii_bytes ":path") =
        Some (path config ++ x3f :: before ++ DNS_QUERY_PARAM ++ x3d :: v ++ after) ->
      ~ In x3f (before ++ DNS_QUERY_PARAM ++ x3d :: v ++ after) ->
      before_param before -> after_param after -> ~ In x26 v -> ~ In x3d v ->
      len v <= 682 -> base64_decode v = Some q -> h3_carries hs recv q
  | h3_carries_post chunks final rest :
      h3_header_value hs (ascii_bytes ":method") = Some (ascii_bytes "POST") ->
      h3_header_value hs (ascii_bytes ":path") = Some (path config) -> disable_post config = false ->
      received recv = map (fun d => Some (d, false)) chunks ++ Some (final, true) :: rest ->
      q = concat chunks ++ final -> q <> [] -> len q <= MAX_DNS_QUESTION_LEN -> h3_carries hs recv q.

Lemma sends_response code ct b cc cors (s : S) out :
  room out = None ->
  send_h3_response code ct b cc cors (s, out) =
    (Ok tt, (s, {| frames := frames out ++
      Headers ([(ascii_bytes ":status", decimal code); (ascii_bytes "content-type", ct);
                (ascii_bytes "content-length", decimal (len b))]
               ++ (match cc with Some c => [(ascii_bytes "cache-control", c)] | None => [] end)
               ++ cors_headers cors) :: (match b with [] => [] | _ => [Body b true] end);
      room := None |})).
Proof.
  intros Hr. destruct out as [fs r]. cbn in Hr. subst r.
  unfold send_h3_response, send, mbind, mutates_bind. cbn. destruct b as [|x b]; [done|].
  unfold cors_headers. cbn. by rewrite <- app_assoc.
Qed.

(** The frames that carry a response. *)
Inductive carried_by (resp : Response) : list frame -> Prop :=
  | carried hs :
      hs ≡ₚ (ascii_bytes ":status", decimal (status resp)) :: headers resp ->
      carried_by resp (Headers hs :: match body resp with [] => [] | _ => [Body (body resp) true] end).

Definition h3_client_ip : option IpAddr :=
  if http_enable_ecs config then sock_ip <$> remote_addr config else None.

Lemma handle_payload q (st : S * outbound) :
  room (snd st) = None ->
  match proxy q h3_client_ip (fst st) with
  | (Ok r, s') => exists fs,
      handle_doh_payload proxy odoh_rotator response_nonce q DoHType.Standard h3_client_ip true st =
        (Ok tt, (s', {| frames := frames (snd st) ++ fs; room := None |})) /\
      carried_by (ok_response (resp_packet r) (resp_ttl r) (DoHType.as_str DoHType.Standard) true) fs
  | (Err e, s') =>
      handle_doh_payload proxy odoh_rotator response_nonce q DoHType.Standard h3_client_ip true st =
        (Err e, (s', snd st))
  | _ => True
  end.
Proof.
  destruct st as [s out]. cbn [fst snd]. intros Hr.
  unfold handle_doh_payload, mbind, mutates_bind, on_server.
  destruct (proxy q h3_client_ip s) as [[r|e| |] s']; try done.
  rewrite sends_response by done. eexists. split; [reflexivity|].
  apply (carried (ok_response (resp_packet r) (resp_ttl r) (DoHType.as_str DoHType.Standard) true)).
  unfold ok_response. cbn [status headers app]. apply perm_skip, perm_swap.
Qed.

(** A request that carries a query is answered by the reply to it. *)
Lemma handle_h3_carries (hs : list (bytes * bytes)) (recv : inbound) (q : bytes) (st : S * outbound) :
  path config <> odoh_configs_path config -> ~ In x3f (path config) ->
  parse_h3_content_type (h3_header_value hs (ascii_bytes "content-type"))
    (h3_header_value hs (ascii_bytes "accept")) = inr DoHType.Standard ->
  h3_carries hs recv q ->
  handle_h3_request hs recv st =
    handle_doh_payload proxy odoh_rotator response_nonce q DoHType.Standard h3_client_ip true st.
Proof.
  intros Hconfigs Hmark Hh3 Hc. unfold H3Server.handle_h3_request. rewrite Hh3. destruct Hc as
    [before v after Hm Hp Hn Hb Ha Hamp Heq Hl Hv|chunks final rest Hm Hp Hpost Hrecv -> Hne Hl].
  - rewrite Hm, Hp. cbn [default]. unfold id. rewrite split_app by done. cbn [head].
    rewrite bool_decide_false by done. rewrite bool_decide_true by done. cbn [negb].
    rewrite bool_decide_true by done. rewrite query_from_path_mark by done.
    by rewrite (decode_question_found base64_decode before v after q).
  - rewrite Hm, Hp. cbn [default]. unfold id. rewrite split_none by done. cbn [head].
    rewrite bool_decide_false by done. rewrite bool_decide_true by done. cbn [negb].
    rewrite bool_decide_false by done. rewrite bool_decide_true by done. rewrite Hpost. cbn [andb].
    unfold mbind at 1, mutates_bind at 1, lift. rewrite Hrecv, receive_chunks by done.
    by destruct (concat chunks ++ final).
Qed.

(** C22: the HTTP/3 server answers a DoH query as the others do, when it
    answers.  A DoH request over HTTP/3 that carries a query, on an open
    stream, at a path without a query string that is not that of the ODoH
    configurations, asks the proxy the same as one over HTTP/1 or HTTP/2 with
    the same query and address of the client; a
    reply goes out as the frames of the same response: its status and headers
    in some order, and its packet.  But when the proxy fails nothing is sent
    at all, where HTTP/1 and HTTP/2 send the status of the error. *)
Theorem h3_reply_agrees (req : Request) (hs : list (bytes * bytes)) (recv : inbound) (q : bytes)
    (s : S) (out : outbound) :
  uri_path req = path config -> parse_content_type (req_headers req) = inr DoHType.Standard ->
  carries (negb (disable_post config)) req q ->
  client_ip config (req_headers req) = h3_client_ip ->
  path config <> odoh_configs_path config -> ~ In x3f (path config) -> room out = None ->
  parse_h3_content_type (h3_header_value hs (ascii_bytes "content-type"))
    (h3_header_value hs (ascii_bytes "accept")) = inr DoHType.Standard ->
  h3_carries hs recv q ->
  match proxy q h3_client_ip s with
  | (Ok _, s') => exists resp fs,
      call req s = (Ok resp, s') /\
      handle_h3_request hs recv (s, out) = (Ok tt, (s', {| frames := frames out ++ fs; room := None |})) /\
      carried_by resp fs
  | (Err e, s') =>
      call req s = (Ok (http_error (DoHError.status_code e)), s') /\
      handle_h3_request hs recv (s, out) = (Err e, (s', out))
  | _ => True
  end.
Proof.
  intros Hpath Htype Hq Hip Hconfigs Hmark Hroom Hh3 Hc.
  assert (call req s = replied (proxy q h3_client_ip s) (fun r =>
    ok_response (resp_packet r) (resp_ttl r) (DoHType.as_str DoHType.Standard) true)) as ->.
  { by rewrite (call_carries req q), serve_doh_query_eq, Hip by done. }
  rewrite (handle_h3_carries hs recv q) by done.
  pose proof (handle_payload q (s, out) Hroom) as H. cbn [fst snd] in H. unfold replied.
  destruct (proxy q h3_client_ip s) as [[r|e| |] s']; try done.
  destruct H as (fs & Hs & Hf). by do 2 eexists.
Qed.

(** ** Oblivious DoH *)

Lemma call_odoh rotator (req : Request) (m : bytes) (s : S) :
  uri_path req = path config -> parse_content_type (req_headers req) = inr DoHType.Oblivious ->
  carries (negb (disable_post config) || allow_odoh_post config) req m ->
  Http.call base64_decode proxy config rotator response_nonce urlencoding_decode to_json json_comment
    random0 random1 base64_std_encode req s = serve_odoh proxy rotator response_nonce m s.
Proof.
  intros Hpath Htype Hq. unfold Http.call. rewrite (bool_decide_true _ Hpath). destruct Hq as [? ? ? Hm| Hm Hp].
  - rewrite bool_decide_false by (by intros Heq; rewrite Heq in * ).
    rewrite bool_decide_true by done. unfold serve_get, serve_odoh_get. rewrite Htype.
    by erewrite get_carries by done.
  - rewrite bool_decide_true by done. unfold serve_post, serve_odoh_post. rewrite Htype.
    assert (disable_post config && negb (allow_odoh_post config) = false) as ->
      by (by destruct (disable_post config), (allow_odoh_post config)).
    unfold or_http_error at 1, lift. by rewrite (read_body_ok _ m) by done.
Qed.

Lemma serve_configs rotator (s : S) :
  serve_odoh_configs rotator s =
    (Ok (ok_response (into_config rotator) 86400 (ascii_bytes "application/octet-stream") true), s).
Proof. unfold serve_odoh_configs, or_http_error, lift. by rewrite build_response_ok by by vm_compute. Qed.

Lemma failed_rotations rngs key :
  Forall (fun g => exists e, ODoHPublicKey_new g = Err e) rngs -> fold_left (fun k g => rotate g k) rngs key = key.
Proof.
  intros H. revert key. induction H as [|g rngs [e He] _ IH]; intros key; [done|]. cbn.
  unfold rotate at 2. by rewrite He.
Qed.

(** C35: Oblivious DoH from end to end.  A client encrypts a query under the
    configuration it gets from the server and sends it by GET, or by POST
    where that is allowed.  While the key has not been replaced (however many
    rotations have failed), the proxy is asked the query, without the
    address of the client, and the body of the answer decrypts to the
    proxy's packet; an error becomes its status.  After a rotation to a key
    with another identifier the message is refused with 401, and the proxy
    is not asked. *)
Theorem odoh_roundtrip `{!OdohClient} (rng : Rng) (key now : ODoHRotator) (req : Request) (q : bytes) (s : S) :
  ODoHRotator_new rng = Ok key ->
  uri_path req = path config -> parse_content_type (req_headers req) = inr DoHType.Oblivious ->
  exists configs,
    serve_odoh_configs key s =
      (Ok (ok_response configs 86400 (ascii_bytes "application/octet-stream") true), s) /\
    let '(message, secret) := client_encrypt configs q in
    carries (negb (disable_post config) || allow_odoh_post config) req message ->
    let served := Http.call base64_decode proxy config now response_nonce urlencoding_decode to_json
      json_comment random0 random1 base64_std_encode req s in
    (forall rngs, now = fold_left (fun k g => rotate g k) rngs key ->
       Forall (fun g => exists e, ODoHPublicKey_new g = Err e) rngs ->
       match proxy q None s with
       | (Ok r, s') => exists b,
           served = (Ok (ok_response b 0 (ascii_bytes "application/oblivious-dns-message") false), s') /\
           client_decrypt secret b = Some (resp_packet r)
       | (Err e, s') => served = (Ok (http_error (DoHError.status_code e)), s')
       | _ => True
       end) /\
    (is_Some (key_identifier (key_pair now)) ->
     key_identifier (key_pair now) <> key_identifier (key_pair key) ->
     served = (Ok (http_error 401), s)).
Proof.
  intros Hkey Hpath Htype. exists (into_config key). split; [by apply serve_configs|].
  assert (serialize_configs (key_pair key) = inr (into_config key)) as Hcfg.
  { unfold ODoHRotator_new, ODoHPublicKey_new in Hkey.
    destruct (serialize_configs (key_pair_new rng)) eqn:Hs; [done|]. by injection Hkey as <-. }
  destruct (client_message _ _ q Hcfg) as (m & id & pt & sec & Hm & Hid & Hmid & Hdec & Hq & Henc).
  destruct (client_encrypt (into_config key) q) as [message secret]. cbn [fst snd] in *.
  intros Hc. cbv zeta. rewrite (call_odoh now req message) by done. split.
  - intros rngs -> Hf. rewrite failed_rotations by done.
    unfold serve_odoh, lift, decrypt_query, current_public_key. rewrite Hm, Hid.
    cbn [ok_or mbind outcome_bind]. rewrite Hmid, bool_decide_true by done. cbn [negb]. rewrite Hdec, Hq.
    unfold or_http_error. destruct (proxy q None s) as [[r|e| |] s'] eqn:Hp; rewrite ?Hp; try done.
    destruct (Henc response_nonce (resp_packet r)) as (sealed & octets & He & Hs & Hcd).
    exists octets. split; [|done]. unfold encrypt_response. cbn [context_query server_secret].
    rewrite He. cbn [ok_or mbind outcome_bind]. rewrite Hs. cbn [ok_or].
    by rewrite build_response_ok by apply as_str_visible.
  - intros [id' Hid'] Hne. rewrite Hid, Hid' in Hne.
    unfold serve_odoh, or_http_error at 1, lift, decrypt_query, current_public_key. rewrite Hm, Hid'.
    cbn [ok_or mbind outcome_bind]. rewrite bool_decide_false by congruence. done.
Qed.
End replies.

(** ** At concrete inputs *)

(** A protocol without secrecy: the identifier of a key is its octet, a
    message is the identifier and the query. *)
#[local] Instance open_odoh : OdohApi := {|
  ObliviousDoHKeyPair := byte; ObliviousDoHMessage := bytes; ObliviousDoHMessagePlaintext := bytes;
  OdohSecret := unit; ResponseNonce := unit; Rng := byte;
  key_pair_new rng := rng; key_identifier kp := Some [kp]; serialize_configs kp := inr [kp];
  message_deserialize m := Some m; message_key_id m := firstn 1 m; message_serialize m := Some m;
  plaintext_new b := b; into_msg b := b;
  odoh_decrypt_query m kp := Some (skipn 1 m, tt);
  odoh_encrypt_response q r _ _ := Some r |}.
#[local, refine] Instance open_client : OdohClient := {|
  ClientSecret := unit;
  client_encrypt configs q := (configs ++ q, tt);
  client_decrypt _ o := Some o |}.
Proof.
  intros kp configs q [= <-]. exists (kp :: q), [kp], q, tt. split_and!; try done.
  intros nonce r. by exists r, r.
Defined.

Definition sample_config : HttpConfig := {|
  path := ascii_bytes "/dns-query"; odoh_configs_path := ascii_bytes "/.well-known/odohconfigs";
  disable_post := false; allow_odoh_post := false; http_enable_ecs := false; remote_addr := None |}.
Definition sample_types (t : DoHType.t) : HeaderMap := [(ascii_bytes "Content-Type", DoHType.as_str t)].
Definition sample_reply : DnsResponse :=
  {| resp_packet := [x01; x02; x03]; resp_ttl := 60; resp_query_stats := QueryStatistics_default |}.
(** A proxy that counts the queries and answers the empty one alone. *)
Definition sample_proxy (q : bytes) (_ : option IpAddr) : mutates nat DoHError.t DnsResponse := fun n =>
  (match q with [] => Ok sample_reply | _ => Err DoHError.UpstreamTimeout end, S n).
Definition sample_post (t : DoHType.t) (q : bytes) : Request := {|
  method := ascii_bytes "POST"; uri_path := ascii_bytes "/dns-query"; uri_query := None;
  req_headers := sample_types t; req_body := {| size_upper := Some (len q); collected := Ok q |} |}.
(** The decoding of one text. *)
Definition sample_decode (s : bytes) : option bytes :=
  if bool_decide (s = ascii_bytes "AAAB") then Some [x00; x00; x01] else None.

Definition sample_rotator (k : byte) : ODoHRotator := {| key_pair := k; serialized_configs := [k] |}.
Definition sample_call (rotator : byte) (req : Request) : mutates nat Empty_set Response :=
  Http.call sample_decode sample_proxy sample_config
    (sample_rotator rotator) tt (fun s => Some s) (fun _ => None)
    (fun _ c => c) x00 x00 (fun s => s) req.

Lemma sample_carries t q : len q < 512 -> forall b, b = true -> carries sample_decode b (sample_post t q) q.
Proof.
  intros Hq b Hb. apply carries_post; try done. cbn. unfold MAX_DNS_QUESTION_LEN. intros u [= <-]. done.
Qed.



(** A Content-Type with a parameter that is not ASCII. *)
Definition sample_parameter : list (bytes * bytes) :=
  [(ascii_bytes "content-type", ascii_bytes "application/dns-message;n=" ++ [xc3; xa9])].

Lemma negotiation_agrees_witness :
  same_types sample_parameter sample_parameter /\
  (exists r, parse_content_type (HA := assoc_headers) sample_parameter = inl r /\ status r = 400) /\
  h3_type sample_parameter = inr DoHType.Standard.
Proof.
  assert (same_types sample_parameter sample_parameter) as Hs.
  { intros name Hn. repeat (apply elem_of_cons in Hn as [->|Hn]; [by vm_compute|]). by apply elem_of_nil in Hn. }
  split; [exact Hs|].
  pose proof (negotiation_agrees sample_parameter sample_parameter Hs) as H. cbn zeta in H.
  split; [|by vm_compute].
  destruct (parse_content_type (HA := assoc_headers) sample_parameter) as [r|t] eqn:Hr; [|by vm_compute in Hr].
  exists r. split; [done|]. by destruct H as (_ & _ & H & _).
Defined.

Definition sample_h3_headers : list (bytes * bytes) :=
  [(ascii_bytes ":method", ascii_bytes "POST"); (ascii_bytes ":path", ascii_bytes "/dns-query");
   (ascii_bytes "content-type", ascii_bytes "application/dns-message")].
Definition sample_inbound : inbound := {| received := [Some ([x05], true)]; ends := false |}.

(** The query of one octet fails: HTTP/3 sends nothing. *)
Lemma h3_reply_agrees_witness :
  let out := {| frames := []; room := None |} in
  handle_h3_request (OA := open_odoh) sample_decode sample_proxy sample_config
    (sample_rotator x07) tt (fun s => Some s) (fun _ => None)
    (fun _ c => c) x00 x00 (fun s => s) sample_h3_headers sample_inbound (0%nat, out)
  = (Err DoHError.UpstreamTimeout, (1%nat, out)).
Proof.
  intros out.
  apply (h3_reply_agrees sample_decode sample_proxy sample_config (sample_rotator x07) tt _ _ _ _ _ _
    (sample_post DoHType.Standard [x05]) sample_h3_headers sample_inbound [x05] 0%nat out).
  - done.
  - by vm_compute.
  - by apply sample_carries.
  - done.
  - done.
  - by cbv; intuition discriminate.
  - done.
  - by vm_compute.
  - by apply (h3_carries_post _ _ _ _ _ [] [x05] []).
Defined.

Lemma odoh_roundtrip_witness :
  (exists b, sample_call x07 (sample_post DoHType.Oblivious [x07]) 0%nat =
     (Ok (ok_response b 0 (ascii_bytes "application/oblivious-dns-message") false), 1%nat)) /\
  sample_call x08 (sample_post DoHType.Oblivious [x07]) 0%nat = (Ok (http_error 401), 0%nat).
Proof.
  pose proof (fun k => odoh_roundtrip sample_decode sample_proxy sample_config tt (fun s => Some s)
    (fun _ => None) (fun _ c => c) x00 x00 (fun s => s) x07
    (sample_rotator x07) (sample_rotator k)
    (sample_post DoHType.Oblivious [x07]) [] 0%nat eq_refl eq_refl ltac:(by vm_compute)) as H.
  split.
  - destruct (H x07) as (configs & Hcfg & Hserved). rewrite serve_configs in Hcfg.
    assert (configs = [x07]) as -> by (by injection Hcfg).
    destruct Hserved as [Hok _]; [by apply sample_carries|].
    destruct (Hok [] eq_refl ltac:(constructor)) as (b & Hb & _). by exists b.
  - destruct (H x08) as (configs & Hcfg & Hserved). rewrite serve_configs in Hcfg.
    assert (configs = [x07]) as -> by (by injection Hcfg).
    destruct Hserved as [_ Hstale]; [by apply sample_carries|]. by apply Hstale.
Defined.
