(* ===== verification/HttpSafety.v ===== *)
(** * No request makes the HTTP servers panic

    Whatever the request: its path, method, headers and body.  The handlers
    end when the proxy does, but for a body that never ends and a reply that
    sends the JSON decoder into an endless loop. *)

From S2P Require Import Prelude Bytes Text Net Headers DnsJson DnsJsonFacts Errors Proxy Odoh Http H3Server HttpFacts.

(** The run does not panic, and ends unless [stuck]. *)
Definition settled {S E A : Type} (stuck : Prop) (r : outcome E A * S) : Prop :=
  match fst r with
  | Panic => False
  | Diverge => stuck
  | _ => True
  end.

Section settled.
Context {S E A B : Type}.
Implicit Types (stuck : Prop) (s : S).

Lemma settled_total stuck (r : outcome E A * S) : total (fst r) -> settled stuck r.
Proof. unfold settled, total. by destruct (fst r). Qed.

Lemma settled_bind stuck (m : mutates S E A) (f : A -> mutates S E B) s :
  settled stuck (m s) -> (forall a s', m s = (Ok a, s') -> settled stuck (f a s')) -> settled stuck ((m ≫= f) s).
Proof.
  unfold mbind, mutates_bind. destruct (m s) as [[a|e| |] s']; intros Hm Hf; try done. by apply Hf.
Qed.

Lemma settled_lift stuck (m : outcome E A) s :
  m <> Panic -> (m = Diverge -> stuck) -> settled stuck (lift m s).
Proof. unfold settled, lift. cbn. destruct m; auto. Qed.
End settled.

Section servers.
Context `{HA : HeaderApi} `{OA : OdohApi} `{BO : ByteOrder}.
Context (base64_decode : bytes -> option bytes).
Context {S : Type}.
Context (proxy : bytes -> option IpAddr -> mutates S DoHError.t DnsResponse).
Context (config : HttpConfig) (odoh_rotator : ODoHRotator) (response_nonce : ResponseNonce).
Context (urlencoding_decode : bytes -> option bytes).
Context (to_json : DnsJsonResponse -> option bytes) (json_comment : Z -> bytes -> bytes).
Context (random0 random1 : byte) (base64_std_encode : bytes -> bytes).
Hypothesis proxy_total : forall q ip s, total (fst (proxy q ip s)).

Abbreviation call := (Http.call base64_decode proxy config odoh_rotator response_nonce urlencoding_decode
  to_json json_comment random0 random1 base64_std_encode).
Abbreviation handle_h3_request := (H3Server.handle_h3_request base64_decode proxy config odoh_rotator
  response_nonce urlencoding_decode to_json json_comment random0 random1 base64_std_encode).

(** Some reply of the proxy sends the JSON decoder into an endless loop. *)
Definition reply_loops : Prop := exists q ip s r s',
  proxy q ip s = (Ok r, s') /\ parse_dns_to_json base64_std_encode (resp_packet r) = Diverge.

Lemma proxy_settled stuck q ip s : settled stuck (proxy q ip s).
Proof. apply settled_total, proxy_total. Qed.

Lemma settled_or_error {A} stuck (m : mutates S DoHError.t A) (k : A -> mutates S Empty_set Response) s :
  settled stuck (m s) -> (forall a s', m s = (Ok a, s') -> settled stuck (k a s')) ->
  settled stuck (or_http_error m k s).
Proof. unfold or_http_error. destruct (m s) as [[a|e| |] s']; intros Hm Hk; try done. by apply Hk. Qed.

(** ** What the handlers share *)
Lemma decrypt_total m : total (decrypt_query (current_public_key odoh_rotator) m).
Proof. unfold decrypt_query. destruct (message_deserialize m); [cbn|done]. by repeat case_match. Qed.

Lemma encrypt_total context b : total (encrypt_response context response_nonce b).
Proof. unfold encrypt_response. destruct (odoh_encrypt_response _ _ _ _) as [r|]; [cbn|done]. by destruct (message_serialize r). Qed.

Lemma build_response_total b ttl ct cors : total (build_response b ttl ct cors).
Proof. unfold build_response. by case_match. Qed.

Lemma lift_total {T E A} stuck (m : outcome E A) (s : T) : total m -> settled stuck (lift m s).
Proof. intros H. apply settled_lift; by destruct m. Qed.

Lemma json_settled stuck params ip s :
  (reply_loops -> stuck) ->
  settled stuck (serve_json_query proxy urlencoding_decode to_json json_comment random0 random1
    base64_std_encode params ip s).
Proof.
  intros Hstuck. unfold serve_json_query. case_bool_decide; [done|].
  match goal with |- context [build_dns_query _ _ ?q] => destruct (build_dns_query_eq random0 random1 q) as (d & _ & _ & ->) end.
  apply settled_bind; [done|]. intros packet s1 [= <- <-]. apply settled_bind; [apply proxy_settled|].
  intros r s2 Hr. pose proof (safe_not_panic _ _ (parse_dns_to_json_safe base64_std_encode (resp_packet r))) as Hp.
  apply settled_bind.
  - apply settled_lift; destruct (parse_dns_to_json _ _) eqn:Hj; try done. intros _. apply Hstuck. by do 5 eexists.
  - intros [e|j] s3 _; [done|]. apply settled_bind; [|done]. apply lift_total. by destruct (to_json j).
Qed.

(** ** HTTP/1 and HTTP/2 *)
Lemma read_body_settled stuck b (s : S) :
  collected b <> Panic -> (collected b = Diverge -> stuck) -> settled stuck (lift (read_body b) s).
Proof.
  intros Hp Hd. apply settled_lift; unfold read_body; destruct (size_upper b) as [u|];
    try (destruct (u <? MAX_DNS_QUESTION_LEN); [|done]);
    cbn [ensure mbind outcome_bind]; destruct (collected b) as [p|e| |]; cbn; try done; try by case_match.
  all: intros _; by apply Hd.
Qed.

Lemma serve_odoh_settled stuck q s : settled stuck (serve_odoh proxy odoh_rotator response_nonce q s).
Proof.
  unfold serve_odoh. apply settled_or_error; [apply lift_total, decrypt_total|]. intros [query context] s1 _.
  apply settled_or_error; [apply proxy_settled|]. intros r s2 _.
  apply settled_or_error; [apply lift_total, encrypt_total|]. intros b s3 _.
  apply settled_or_error; [apply lift_total, build_response_total|done].
Qed.

Lemma serve_doh_settled stuck q ip s : settled stuck (serve_doh_query proxy q ip s).
Proof.
  unfold serve_doh_query. apply settled_or_error; [apply proxy_settled|]. intros r s1 _.
  apply settled_or_error; [apply lift_total, build_response_total|done].
Qed.

Lemma call_settled (req : Request) (s : S) :
  collected (req_body req) <> Panic ->
  settled (collected (req_body req) = Diverge \/ method req = ascii_bytes "GET" /\ reply_loops) (call req s).
Proof.
  intros Hbody. unfold Http.call. case_bool_decide; [|case_bool_decide; [|done]].
  - case_bool_decide as Hpost; [|case_bool_decide as Hget; [|done]].
    + unfold serve_post. destruct (parse_content_type (req_headers req)) as [r|[]]; [done| | |done].
      * unfold serve_doh_post. destruct (disable_post config); [done|].
        apply settled_or_error; [apply read_body_settled; [done|by left]|]. intros. apply serve_doh_settled.
      * unfold serve_odoh_post. case_match; [done|].
        apply settled_or_error; [apply read_body_settled; [done|by left]|]. intros. apply serve_odoh_settled.
    + unfold serve_get. destruct (parse_content_type (req_headers req)) as [r|[]]; [done| | |].
      * unfold serve_doh_get. destruct (query_from_query_string _ req); [apply serve_doh_settled|done].
      * unfold serve_odoh_get. destruct (query_from_query_string _ req); [apply serve_odoh_settled|done].
      * unfold serve_json_get. apply settled_or_error; [|done]. apply json_settled. by right.
  - case_bool_decide; [|done]. unfold serve_odoh_configs.
    apply settled_or_error; [apply lift_total, build_response_total|done].
Qed.

(** ** HTTP/3 *)
Lemma on_server_settled {A} stuck (m : mutates S DoHError.t A) (st : S * outbound) :
  settled stuck (m (fst st)) -> settled stuck (on_server m st).
Proof. destruct st as [s out]. unfold settled, on_server. cbn. by destruct (m s). Qed.

Lemma send_settled stuck f (st : S * outbound) : settled stuck (send f st).
Proof. destruct st as [s out]. unfold settled, send. by destruct (room out) as [[]|]. Qed.

Lemma respond_settled stuck code ct b cc cors (st : S * outbound) :
  settled stuck (send_h3_response code ct b cc cors st).
Proof.
  unfold send_h3_response. apply settled_bind; [apply send_settled|]. intros _ s1 _.
  destruct b; [done|apply send_settled].
Qed.

Lemma payload_settled stuck q t ip cors (st : S * outbound) :
  settled stuck (handle_doh_payload proxy odoh_rotator response_nonce q t ip cors st).
Proof.
  unfold handle_doh_payload. destruct t; [| |apply respond_settled].
  - apply settled_bind; [apply on_server_settled, proxy_settled|]. intros. apply respond_settled.
  - apply settled_bind; [apply lift_total, decrypt_total|]. intros [query context] s1 _.
    apply settled_bind; [apply on_server_settled, proxy_settled|]. intros r s2 _.
    apply settled_bind; [apply lift_total, encrypt_total|]. intros. apply respond_settled.
Qed.

(** A body is taken, or too large, or its end never comes. *)
Lemma receive_settles recv ends : forall body n,
  receive_body recv ends body n <> Panic /\ (receive_body recv ends body n = Diverge -> ends = false).
Proof.
  induction recv as [|[[data fin]|] recv IH]; intros body n; cbn [receive_body].
  - by destruct ends.
  - case_match; [done|]. destruct fin; [done|apply IH].
  - apply IH.
Qed.

Lemma h3_settled hs (recv : inbound) (st : S * outbound) :
  settled (ends recv = false \/ reply_loops) (handle_h3_request hs recv st).
Proof.
  unfold H3Server.handle_h3_request. cbn zeta.
  case_bool_decide; [case_bool_decide; apply respond_settled|].
  case_bool_decide; [|apply respond_settled]. cbn [negb].
  destruct (parse_h3_content_type _ _) as [code|t]; [apply respond_settled|].
  case_bool_decide; [|case_bool_decide; [|apply respond_settled]].
  - destruct t.
    + destruct (query_from_path _ _); [apply payload_settled|apply respond_settled].
    + destruct (query_from_path _ _); [apply payload_settled|apply respond_settled].
    + match goal with |- context [on_server ?m st] => pose proof (on_server_settled (ends recv = false \/ reply_loops) m st) as Hj end.
      specialize (Hj ltac:(apply json_settled; by right)).
      destruct (on_server _ st) as [[r|e| |] s1]; [apply respond_settled|apply respond_settled|done|done].
  - destruct t; [| |apply respond_settled];
      repeat match goal with |- context [if ?c then send_h3_error 405 false else _] =>
        destruct c; [apply respond_settled|] end;
      destruct (receive_settles (received recv) (ends recv) [] 0) as [Hp Hd];
      (apply settled_bind; [apply settled_lift; [done|left; by apply Hd]|]);
      intros [[|x b]|] s1 _; (apply respond_settled || apply payload_settled).
Qed.
End servers.
