(* ===== verification/H3Pending.v ===== *)
(** * Requests of an HTTP/3 connection to an upstream

    [DohH3Pending], the functions on it and the event loop of a connection
    ([start_event_loop]) of src/libdoh/src/lib.rs.  A request waits on a
    channel of its own, known by the id of the request; the loop finds the
    request of a stream and sends the result once.

    The loop and the requests share the table behind a mutex, so they
    interleave at the operations: the state is the table, the results sent,
    and the tasks that read bodies, and every action is a function on it. *)

From S2P Require Import Prelude Bytes Text Errors Http H3Server.

Abbreviation h3_result := (H3Failure.t + bytes)%type.

Record DohH3Pending := {
  by_request : gset Z;
  by_stream : gmap Z Z
}.

(** The table, the results sent on the channels of the requests, the bodies
    being read, and whether the loop still runs. *)
Record connection := {
  pending : DohH3Pending;
  delivered : list (Z * h3_result);
  body_tasks : list (Z * inbound);
  running : bool
}.
Definition connected : connection :=
  {| pending := {| by_request := ∅; by_stream := ∅ |}; delivered := []; body_tasks := []; running := true |}.

Definition set_pending (p : DohH3Pending) (c : connection) : connection :=
  {| pending := p; delivered := delivered c; body_tasks := body_tasks c; running := running c |}.
(** [sender.send(result)] *)
Definition deliver (rid : Z) (result : h3_result) (c : connection) : connection :=
  {| pending := pending c; delivered := delivered c ++ [(rid, result)]; body_tasks := body_tasks c;
     running := running c |}.
Definition stop (c : connection) : connection :=
  {| pending := pending c; delivered := delivered c; body_tasks := body_tasks c; running := false |}.

(** [request]: the sender is entered before the request is sent. *)
Definition register_h3_request (request_id : Z) (c : connection) : connection :=
  set_pending {| by_request := {[request_id]} ∪ by_request (pending c);
                 by_stream := by_stream (pending c) |} c.

Definition clear_pending_h3_request (request_id : Z) (c : connection) : connection :=
  set_pending {| by_request := by_request (pending c) ∖ {[request_id]};
                 by_stream := filter (fun '(_, rid) => rid <> request_id) (by_stream (pending c)) |} c.

Definition complete_pending_h3_stream (stream_id : Z) (result : h3_result) (c : connection) : connection :=
  match by_stream (pending c) !! stream_id with
  | None => c
  | Some request_id =>
      let known := bool_decide (request_id ∈ by_request (pending c)) in
      let c := set_pending {| by_request := by_request (pending c) ∖ {[request_id]};
                              by_stream := delete stream_id (by_stream (pending c)) |} c in
      if known then deliver request_id result c else c
  end.

Definition failure (err : DoHError.t) (retryable : bool) : h3_result :=
  inl {| H3Failure.err := err; H3Failure.retryable := retryable |}.

Definition fail_all_pending_h3_requests (retryable : bool) (c : connection) : connection :=
  let senders := elements (by_request (pending c)) in
  let c := set_pending {| by_request := ∅; by_stream := ∅ |} c in
  fold_left (fun c rid => deliver rid (failure DoHError.UpstreamIssue retryable) c) senders c.

(** ** Bodies *)
Fixpoint read_h3_response_body (recv : list (option (bytes * bool))) (ends : bool) (response_body : bytes)
    : option h3_result :=
  match recv with
  | [] => if ends then Some (failure DoHError.UpstreamIssue true) else None
  | None :: recv => read_h3_response_body recv ends response_body
  | Some (data, fin) :: recv =>
      let response_body := response_body ++ data in
      if fin : bool then Some (inr response_body) else read_h3_response_body recv ends response_body
  end.

(** ** The event loop *)
Inductive h3_event :=
  | NewOutboundRequest (stream_id request_id : Z)
  | IncomingHeaders (stream_id : Z) (headers : list (bytes * bytes)) (recv : inbound)
  | ConnectionError (err : h3_error)
  | ConnectionShutdown (reason : option h3_connection_error)
  | ResetStream (stream_id : Z)
  | StreamClosed (stream_id : Z)
  | OtherEvent.

Definition response_status (headers : list (bytes * bytes)) : Z :=
  default 500 (h3_header_value headers (ascii_bytes ":status") ≫= parse_uint u16_max).

Definition handle_event (event : h3_event) (c : connection) : connection :=
  match event with
  | NewOutboundRequest stream_id request_id =>
      if bool_decide (request_id ∈ by_request (pending c)) then
        set_pending {| by_request := by_request (pending c);
                       by_stream := <[stream_id := request_id]> (by_stream (pending c)) |} c
      else c
  | IncomingHeaders stream_id headers recv =>
      if negb (response_status headers =? 200) then
        complete_pending_h3_stream stream_id (failure DoHError.UpstreamIssue false) c
      else
        {| pending := pending c; delivered := delivered c; body_tasks := body_tasks c ++ [(stream_id, recv)];
           running := running c |}
  | ConnectionError err => stop (fail_all_pending_h3_requests (is_retryable_h3_error err) c)
  | ConnectionShutdown reason =>
      let retryable :=
        match reason with Some reason => is_retryable_h3_connection_error reason | None => true end in
      stop (fail_all_pending_h3_requests retryable c)
  | ResetStream stream_id | StreamClosed stream_id =>
      complete_pending_h3_stream stream_id (failure DoHError.UpstreamIssue true) c
  | OtherEvent => c
  end.

(** What happens next: a request enters or is given up; the loop takes the
    next event, finds the channel closed, or takes the result of the task at
    an index. *)
Inductive action :=
  | Register (request_id : Z)
  | GiveUp (request_id : Z)
  | Event (event : h3_event)
  | EventsClosed
  | BodyRead (i : nat).

(** The guard of a pending request: dropped before it is disarmed, it clears
    the request in a task of its own, if there is a runtime to run it. *)
Record PendingH3RequestGuard := {
  guard_request_id : Z;
  active : bool
}.
Definition PendingH3RequestGuard_new (request_id : Z) : PendingH3RequestGuard :=
  {| guard_request_id := request_id; active := true |}.
Definition disarm (self : PendingH3RequestGuard) : PendingH3RequestGuard :=
  {| guard_request_id := guard_request_id self; active := false |}.
Definition drop_guard (in_runtime : bool) (self : PendingH3RequestGuard) : list action :=
  if negb (active self) then [] else if in_runtime then [GiveUp (guard_request_id self)] else [].

Definition act (a : action) (c : connection) : connection :=
  match a with
  | Register request_id => register_h3_request request_id c
  | GiveUp request_id => clear_pending_h3_request request_id c
  | Event event => if running c then handle_event event c else c
  | EventsClosed => if running c then stop (fail_all_pending_h3_requests true c) else c
  | BodyRead i =>
      if running c then
        match body_tasks c !! i with
        | Some (stream_id, recv) =>
            match read_h3_response_body (received recv) (ends recv) [] with
            | Some result =>
                complete_pending_h3_stream stream_id result
                  {| pending := pending c; delivered := delivered c;
                     body_tasks := delete i (body_tasks c); running := true |}
            | None => c
            end
        | None => c
        end
      else c
  end.

Definition run (acts : list action) (c : connection) : connection := fold_left (fun c a => act a c) acts c.
