(* ===== verification/H3PendingProps.v ===== *)
(** * Properties of the requests of an HTTP/3 connection *)

From S2P Require Import Prelude Bytes Text Errors Http H3Server H3Pending.

Definition registered (acts : list action) : list Z :=
  omap (fun a => match a with Register rid => Some rid | _ => None end) acts.

(** A stream that carried the response [body] to a request. *)
Definition answered (acts : list action) (rid : Z) (body : bytes) : Prop :=
  exists sid hs recv,
    Event (NewOutboundRequest sid rid) ∈ acts /\ Event (IncomingHeaders sid hs recv) ∈ acts /\
    response_status hs = 200 /\ read_h3_response_body (received recv) (ends recv) [] = Some (inr body).

(** The invariant, of the actions so far and the connection they lead to. *)
Record accounted (acts : list action) (c : connection) : Prop := {
  pending_registered : forall rid, rid ∈ by_request (pending c) -> rid ∈ registered acts;
  delivered_registered : forall rid, rid ∈ map fst (delivered c) -> rid ∈ registered acts;
  delivered_once : NoDup (map fst (delivered c));
  delivered_gone : forall rid, rid ∈ map fst (delivered c) -> rid ∉ by_request (pending c);
  stream_opened : forall sid rid, by_stream (pending c) !! sid = Some rid ->
    Event (NewOutboundRequest sid rid) ∈ acts;
  task_started : forall sid recv, (sid, recv) ∈ body_tasks c -> exists hs,
    Event (IncomingHeaders sid hs recv) ∈ acts /\ response_status hs = 200;
  delivered_answer : forall rid body, (rid, inr body) ∈ delivered c -> answered acts rid body;
  nothing_lost : forall rid, rid ∈ registered acts ->
    rid ∈ by_request (pending c) \/ rid ∈ map fst (delivered c) \/ GiveUp rid ∈ acts
}.

Lemma registered_app l k : registered (l ++ k) = registered l ++ registered k.
Proof. apply omap_app. Qed.

Lemma accounted_nil : accounted [] connected.
Proof. split; cbn; try set_solver. constructor. Qed.

(** Another action that changes nothing. *)
Lemma accounted_more acts a c : registered [a] = [] -> accounted acts c -> accounted (acts ++ [a]) c.
Proof.
  intros Ha [H1 H2 H3 H4 H5 H6 H7 H8].
  split; rewrite ?registered_app, ?Ha, ?app_nil_r; try done.
  - intros. apply elem_of_app. left. by apply H5.
  - intros sid recv Hin. destruct (H6 sid recv Hin) as (hs & Hev & Hs). exists hs.
    split; [apply elem_of_app; by left|done].
  - intros rid body Hin. destruct (H7 rid body Hin) as (sid & hs & recv & Ho & Hh & Hr).
    exists sid, hs, recv. rewrite !elem_of_app. tauto.
  - intros rid Hin. rewrite elem_of_app. destruct (H8 rid Hin) as [|[|]]; tauto.
Qed.

(** One request leaves the table with its result. *)
Lemma accounted_deliver acts c rid result streams :
  accounted acts c -> rid ∈ by_request (pending c) -> streams ⊆ by_stream (pending c) ->
  (forall body, result = inr body -> answered acts rid body) ->
  accounted acts (deliver rid result (set_pending
    {| by_request := by_request (pending c) ∖ {[rid]}; by_stream := streams |} c)).
Proof.
  intros [H1 H2 H3 H4 H5 H6 H7 H8] Hin Hsub Hans. split; cbn; rewrite ?map_app; cbn.
  - set_solver.
  - intros rid'. rewrite elem_of_app, list_elem_of_singleton. intros [?| ->]; [by apply H2|by apply H1].
  - apply NoDup_app. split_and!; [done| |apply NoDup_singleton].
    intros x Hx. rewrite list_elem_of_singleton. intros ->. by apply (H4 rid).
  - intros rid'. rewrite elem_of_app, list_elem_of_singleton. intros [Hd| ->]; [|set_solver].
    specialize (H4 rid' Hd). set_solver.
  - intros sid r Hs. apply H5. by eapply lookup_weaken.
  - done.
  - intros r body. rewrite elem_of_app, list_elem_of_singleton. intros [|[= -> <-]]; [by apply H7|by apply Hans].
  - intros r Hr. destruct (H8 r Hr) as [Hp|[Hd|Hg]].
    + destruct (decide (r = rid)) as [->|]; [right; left|left; set_solver]. apply elem_of_app. right. by left.
    + right. left. apply elem_of_app. by left.
    + by right; right.
Qed.

(** The table shrinks without a result. *)
Lemma accounted_forget acts c requests streams :
  accounted acts c -> requests ⊆ by_request (pending c) -> streams ⊆ by_stream (pending c) ->
  (forall rid, rid ∈ by_request (pending c) -> rid ∉ requests -> GiveUp rid ∈ acts) ->
  accounted acts (set_pending {| by_request := requests; by_stream := streams |} c).
Proof.
  intros [H1 H2 H3 H4 H5 H6 H7 H8] Hr Hs Hg. split; cbn; try done.
  - set_solver.
  - intros rid Hd. specialize (H4 rid Hd). set_solver.
  - intros sid r Hl. apply H5. by eapply lookup_weaken.
  - intros r Hin. destruct (H8 r Hin) as [Hp|[Hd|Hgu]]; [|by right; left|by right; right].
    destruct (decide (r ∈ requests)); [by left|right; right; by apply Hg].
Qed.

Lemma accounted_complete acts c sid result :
  accounted acts c ->
  (forall rid body, by_stream (pending c) !! sid = Some rid -> result = inr body -> answered acts rid body) ->
  accounted acts (complete_pending_h3_stream sid result c).
Proof.
  intros Hc Hans. unfold complete_pending_h3_stream.
  destruct (by_stream (pending c) !! sid) as [rid|] eqn:Hs; [|done].
  case_bool_decide as Hin.
  - apply accounted_deliver; [done|done|apply delete_subseteq|]. intros body ->. by apply Hans.
  - apply accounted_forget; [done|set_solver|apply delete_subseteq|]. set_solver.
Qed.

Lemma fail_all_eq retryable c : fail_all_pending_h3_requests retryable c = {|
  pending := {| by_request := ∅; by_stream := ∅ |};
  delivered := delivered c ++
    map (fun rid => (rid, failure DoHError.UpstreamIssue retryable)) (elements (by_request (pending c)));
  body_tasks := body_tasks c; running := running c |}.
Proof.
  unfold fail_all_pending_h3_requests. set (l := elements _). clearbody l.
  assert (forall c', fold_left (fun c rid => deliver rid (failure DoHError.UpstreamIssue retryable) c) l c' =
    {| pending := pending c';
       delivered := delivered c' ++ map (fun rid => (rid, failure DoHError.UpstreamIssue retryable)) l;
       body_tasks := body_tasks c'; running := running c' |}) as H; [|by rewrite H].
  induction l as [|rid l IH]; intros [p d b r]; cbn; [by rewrite app_nil_r|].
  rewrite IH. cbn. by rewrite <- app_assoc.
Qed.

Lemma accounted_fail_all acts c retryable :
  accounted acts c -> accounted acts (stop (fail_all_pending_h3_requests retryable c)).
Proof.
  intros [H1 H2 H3 H4 H5 H6 H7 H8]. rewrite fail_all_eq.
  assert (forall (l : list Z), map fst (map (fun rid => (rid, failure DoHError.UpstreamIssue retryable)) l) = l) as Hmap
    by (intros l; rewrite map_map; apply map_id).
  split; cbn; rewrite ?map_app, ?Hmap; try done.
  - intros rid. rewrite elem_of_app, elem_of_elements. intros [|]; auto.
  - apply NoDup_app. split_and!; [done| |apply NoDup_elements].
    intros rid Hd. rewrite elem_of_elements. by apply H4.
  - intros rid body. rewrite elem_of_app. intros [Hd|Hd]; [by apply H7|].
    apply list_elem_of_fmap in Hd as (? & ? & _). done.
  - intros rid Hr. rewrite elem_of_app, elem_of_elements. destruct (H8 rid Hr) as [|[|]]; tauto.
Qed.

(** Every action keeps the invariant, unless it registers an id again. *)
Lemma accounted_register acts rid c :
  rid ∉ registered acts -> accounted acts c -> accounted (acts ++ [Register rid]) (register_h3_request rid c).
Proof.
  intros Hr [H1 H2 H3 H4 H5 H6 H7 H8].
  assert (forall e, e ∈ acts -> e ∈ acts ++ [Register rid]) as Hmore by (intros; apply elem_of_app; by left).
  split; cbn; rewrite ?registered_app; cbn [registered omap list_omap]; try done.
  - intros r. rewrite elem_of_union, elem_of_singleton, elem_of_app, list_elem_of_singleton.
    intros [->|Hin]; [by right|left; by apply H1].
  - intros r Hin. apply elem_of_app. left. by apply H2.
  - intros r Hin. rewrite elem_of_union, elem_of_singleton. intros [->|Hp]; [by apply Hr, H2|].
    by apply (H4 r).
  - intros sid r Hl. by apply Hmore, H5.
  - intros sid recv Hin. destruct (H6 sid recv Hin) as (hs & Hev & Hs). exists hs. split; [by apply Hmore|done].
  - intros r body Hin. destruct (H7 r body Hin) as (sid & hs & recv & Ho & Hh & Hst & Hres).
    exists sid, hs, recv. split_and!; [by apply Hmore|by apply Hmore|done|done].
  - intros r. rewrite elem_of_app, list_elem_of_singleton. rewrite elem_of_union, elem_of_singleton.
    intros [Hin| ->]; [|by left; left]. destruct (H8 r Hin) as [|[|Hg]]; auto.
Qed.

Lemma accounted_event acts event c :
  accounted acts c -> accounted (acts ++ [Event event]) (handle_event event c).
Proof.
  intros Hc. pose proof (accounted_more acts (Event event) c eq_refl Hc) as Hm.
  destruct event as [sid rid|sid hs recv|err|reason|sid|sid|]; cbn; try done.
  - case_bool_decide; [|done]. destruct Hm as [H1 H2 H3 H4 H5 H6 H7 H8]. split; cbn; try done.
    intros s r. rewrite lookup_insert_Some. intros [[-> ->]|[_ Hl]]; [|by apply H5].
    apply elem_of_app. right. by left.
  - destruct (Z.eqb_spec (response_status hs) 200) as [Hs|Hs]; cbn.
    + destruct Hm as [H1 H2 H3 H4 H5 H6 H7 H8]. split; cbn; try done.
      intros s r. rewrite elem_of_app, list_elem_of_singleton. intros [Hin|[= -> ->]]; [by apply H6|].
      exists hs. split; [|done]. apply elem_of_app. right. by left.
    + by apply accounted_complete.
  - by apply accounted_fail_all.
  - by apply accounted_fail_all.
  - by apply accounted_complete.
  - by apply accounted_complete.
Qed.

Lemma accounted_act acts a c :
  NoDup (registered (acts ++ [a])) -> accounted acts c -> accounted (acts ++ [a]) (act a c).
Proof.
  intros Hnd Hc. destruct a as [rid|rid|event| |i]; cbn.
  - rewrite registered_app in Hnd. cbn in Hnd. apply NoDup_app in Hnd as (_ & Hnew & _).
    apply accounted_register; [|done]. intros Hr. apply (Hnew rid Hr). by left.
  - apply accounted_forget; [by apply accounted_more|set_solver|apply map_filter_subseteq|].
    intros r Hr Hn. apply elem_of_app. right. rewrite elem_of_difference, elem_of_singleton in Hn.
    destruct (decide (r = rid)) as [->|]; [by left|tauto].
  - destruct (running c); [by apply accounted_event|by apply accounted_more].
  - destruct (running c); [|by apply accounted_more]. by apply accounted_fail_all, accounted_more.
  - destruct (running c); [|by apply accounted_more].
    pose proof (accounted_more acts (BodyRead i) c eq_refl Hc) as Hm.
    destruct (body_tasks c !! i) as [[sid recv]|] eqn:Ht; [|done].
    destruct (read_h3_response_body _ _ _) as [result|] eqn:Hres; [|done].
    apply accounted_complete.
    + destruct Hm as [H1 H2 H3 H4 H5 H6 H7 H8]. split; cbn; try done.
      intros s r Hin. by apply H6, (list_elem_of_delete_inv _ i).
    + cbn. intros rid body Hs ->. destruct (task_started _ _ Hm sid recv) as (hs & Hev & Hst).
      { by eapply list_elem_of_lookup_2. }
      exists sid, hs, recv. split_and!; [by apply (stream_opened _ _ Hm)|done|done|done].
Qed.

Lemma accounted_run acts : NoDup (registered acts) -> accounted acts (run acts connected).
Proof.
  induction acts as [|a acts IH] using rev_ind; intros Hnd; [apply accounted_nil|].
  unfold run. rewrite fold_left_app. cbn. apply accounted_act; [done|]. apply IH.
  rewrite registered_app in Hnd. by apply NoDup_app in Hnd as [? _].
Qed.

(** C9: the requests of an HTTP/3 connection, for any interleaving of
    requests that enter (with ids of their own) and are given up, of the
    events of the connection and of the bodies that come in.  No request
    gets two results; a body given to a request came in full, with status
    200, on a stream that was opened for that request; and as soon as the
    loop has ended, by an error, a shutdown or the close of the channel,
    every request that entered before has its result, unless it was given
    up. *)
Theorem h3_requests_spec (acts : list action) :
  NoDup (registered acts) ->
  let c := run acts connected in
  NoDup (map fst (delivered c)) /\
  (forall rid body, (rid, inr body) ∈ delivered c -> rid ∈ registered acts /\ answered acts rid body) /\
  (forall a, (a = EventsClosed \/ (exists e, a = Event (ConnectionError e)) \/
              exists r, a = Event (ConnectionShutdown r)) ->
     running c = true ->
     let c' := act a c in
     running c' = false /\
     forall rid, rid ∈ registered acts -> rid ∈ map fst (delivered c') \/ GiveUp rid ∈ acts).
Proof.
  intros Hnd c. pose proof (accounted_run acts Hnd) as Hc. fold c in Hc. split_and!.
  - apply (delivered_once _ _ Hc).
  - intros rid body Hin. split; [|by apply (delivered_answer _ _ Hc)].
    apply (delivered_registered _ _ Hc). apply list_elem_of_fmap. by exists (rid, inr body).
  - intros a Ha Hrun.
    assert (exists b, act a c = stop (fail_all_pending_h3_requests b c)) as (b & ->).
    { destruct Ha as [->|[[e ->]|[r ->]]]; cbn; rewrite Hrun; by eexists. }
    split; [done|]. intros rid Hr.
    pose proof (nothing_lost _ _ (accounted_fail_all _ _ b Hc) rid Hr) as H.
    rewrite fail_all_eq in *. cbn in *. set_solver.
Qed.

(** ** At a concrete input *)
Definition sample_acts : list action :=
  [Register 1; Register 2; Event (NewOutboundRequest 4 2); Event (NewOutboundRequest 0 1);
   Event (IncomingHeaders 4 [(ascii_bytes ":status", ascii_bytes "200")]
     {| received := [Some ([x01], false); None; Some ([x02], true)]; ends := true |});
   BodyRead 0].

Lemma h3_requests_spec_witness :
  registered sample_acts = [1; 2] /\ NoDup (map fst (delivered (run sample_acts connected))).
Proof.
  split; [reflexivity|]. apply (h3_requests_spec sample_acts). change (NoDup [1; 2]).
  repeat constructor; set_solver.
Defined.
