(* ===== verification/DohPool.v ===== *)
(** * The pool of HTTP/3 connections to an upstream

    [DohH3Pool] and [doh_h3_client] of src/libdoh/src/lib.rs.  A connection
    ([DohH3Client]) is known by a number; its semaphore is the number of
    requests it can still take.  Pool and semaphores are shared: what other
    tasks do to them between two operations is an argument. *)

From S2P Require Import Prelude Errors.

Definition DOH_H3_POOL_SIZE : Z := 2.
Definition DOH_H3_MAX_INFLIGHT_PER_CONN : Z := 64.

Record DohH3Pool := {
  clients : list Z;
  next : Z
}.
Definition DohH3Pool_new : DohH3Pool := {| clients := []; next := 0 |}.

(** The pool and the free slots of the connections. *)
Record pool_state := {
  pool : DohH3Pool;
  slots : gmap Z Z
}.
Definition set_pool (p : DohH3Pool) (s : pool_state) : pool_state := {| pool := p; slots := slots s |}.
Definition free_slots (client : Z) (s : pool_state) : Z := default 0 (slots s !! client).
Definition take_slot (client : Z) (s : pool_state) : pool_state :=
  {| pool := pool s; slots := <[client := free_slots client s - 1]> (slots s) |}.

Abbreviation on_pool A := (mutates pool_state H3Failure.t A).

Definition has_clients (p : DohH3Pool) : bool := match clients p with [] => false | _ => true end.

Definition needs_new_client : on_pool bool :=
  s ← current; mret (len (clients (pool s)) <? DOH_H3_POOL_SIZE).

(** [try_acquire_slot], and [acquire_slot], which waits *)
Definition try_acquire_slot (client : Z) : on_pool bool := fun s =>
  if 0 <? free_slots client s then (Ok true, take_slot client s) else (Ok false, s).
Definition acquire_slot (client : Z) : on_pool unit := fun s =>
  if 0 <? free_slots client s then (Ok tt, take_slot client s) else (Diverge, s).

(** [self.next.fetch_add(1) as usize % guard.len()] *)
Definition next_index : on_pool Z := fun s =>
  let p := pool s in
  (Ok (next p mod len (clients p)),
   set_pool {| clients := clients p; next := as_u64 (next p + 1) |} s).

Definition client_at (idx : Z) : on_pool Z := fun s => (or_panic (clients (pool s) !! Z.to_nat idx), s).

Definition pick_client : on_pool (option Z) :=
  s ← current;
  match clients (pool s) with
  | [] => mret None
  | guard => idx ← next_index; mret (guard !! Z.to_nat idx)
  end.

(** The loop over the offsets. *)
Fixpoint scan_slots (count : nat) (start offset : Z) : on_pool (option Z) :=
  match count with
  | O => mret None
  | S count =>
      s ← current;
      let idx := (start + offset) mod len (clients (pool s)) in
      client ← client_at idx;
      got ← try_acquire_slot client;
      if got : bool then mret (Some client) else scan_slots count start (offset + 1)
  end.

Definition try_pick_client_with_slot : on_pool (option Z) :=
  s ← current;
  match clients (pool s) with
  | [] => mret None
  | guard => start ← next_index; scan_slots (length guard) start 0
  end.

(** [true] when the candidate has been added. *)
Definition add_or_pick (candidate : Z) : on_pool (Z * bool) :=
  s ← current;
  if len (clients (pool s)) <? DOH_H3_POOL_SIZE then
    _ ← update (fun s =>
      Ok (set_pool {| clients := clients (pool s) ++ [candidate]; next := next (pool s) |} s));
    mret (candidate, true)
  else
    idx ← next_index;
    client ← client_at idx;
    mret (client, false).

Definition drain_clients : on_pool (list Z) := fun s =>
  (Ok (clients (pool s)), set_pool {| clients := []; next := next (pool s) |} s).

(** ** A connection with a slot *)
Section client.
(** [create_doh_h3_client]: the new connection, all its slots free; and what
    the other tasks do before each operation. *)
Context (create : outcome H3Failure.t Z) (others : nat -> pool_state -> pool_state).

Definition interfere (n : nat) : on_pool unit := update (fun s => Ok (others n s)).

Definition new_client (client : Z) : on_pool unit :=
  update (fun s => Ok {| pool := pool s; slots := <[client := DOH_H3_MAX_INFLIGHT_PER_CONN]> (slots s) |}).

(** An existing connection, once it has a slot. *)
Definition wait_for (n : nat) (client : Z) : on_pool Z := interfere n;; acquire_slot client;; mret client.

Definition add_candidate (n : nat) (candidate : Z) : on_pool Z :=
  new_client candidate;;
  interfere n;;
  '(selected, _) ← add_or_pick candidate;
  wait_for (S n) selected.

Definition doh_h3_client : on_pool Z :=
  interfere 0;;
  picked ← try_pick_client_with_slot;
  match picked with
  | Some client => mret client
  | None =>
      interfere 1;;
      needs ← needs_new_client;
      if needs : bool then
        match create with
        | Ok candidate => add_candidate 2 candidate
        | Panic => lift Panic
        | Diverge => lift Diverge
        | Err err =>
            interfere 2;;
            picked ← try_pick_client_with_slot;
            match picked with
            | Some client => mret client
            | None =>
                interfere 3;;
                existing ← pick_client;
                match existing with
                | Some existing => wait_for 4 existing
                | None => lift (Err err)
                end
            end
        end
      else
        interfere 2;;
        picked ← try_pick_client_with_slot;
        match picked with
        | Some client => mret client
        | None =>
            interfere 3;;
            existing ← pick_client;
            match existing with
            | Some existing => wait_for 4 existing
            | None =>
                match create with
                | Ok candidate => add_candidate 4 candidate
                | r => lift r
                end
            end
        end
  end.
End client.
