(* ===== verification/DohPoolProps.v ===== *)
(** * Properties of the pool of HTTP/3 connections *)

From S2P Require Import Prelude Errors DohPool.

(** A pool of at most two connections, each with 0 to 64 free slots. *)
Record pool_ok (s : pool_state) : Prop := {
  turn_nonneg : 0 <= next (pool s);
  pool_small : len (clients (pool s)) <= DOH_H3_POOL_SIZE;
  slots_bounded : forall client, 0 <= free_slots client s <= DOH_H3_MAX_INFLIGHT_PER_CONN
}.

Definition has_slot (s : pool_state) (client : Z) : bool := 0 <? free_slots client s.

(** The pool's turn moves on. *)
Definition advance (s : pool_state) : pool_state :=
  set_pool {| clients := clients (pool s); next := as_u64 (next (pool s) + 1) |} s.

Lemma free_advance client s : free_slots client (advance s) = free_slots client s.
Proof. done. Qed.

Lemma pool_ok_advance s : pool_ok s -> pool_ok (advance s).
Proof. intros [H0 H1 H2]. split; [apply Z.mod_pos_bound; lia|done|done]. Qed.

Lemma free_take client c s :
  free_slots c (take_slot client s) = if decide (c = client) then free_slots client s - 1 else free_slots c s.
Proof.
  unfold take_slot. cbn. case_decide as Hc; [subst c|]; unfold free_slots; cbn.
  - by rewrite lookup_insert_eq.
  - by rewrite lookup_insert_ne by congruence.
Qed.

Lemma pool_ok_take client s : pool_ok s -> 0 < free_slots client s -> pool_ok (take_slot client s).
Proof.
  intros [H0 H1 H2] Hf. split; [done|done|]. intros c. rewrite free_take.
  pose proof (H2 c). pose proof (H2 client). case_decide; lia.
Qed.

(** ** The scan *)

Lemma len_pos (l : list Z) : l <> [] -> 0 < len l.
Proof. destruct l; [done|]. intros _. rewrite len_cons. pose proof (len_nonneg l). lia. Qed.

(** The client at a place of the ring that starts at [start]. *)
Lemma ring_lookup (l : list Z) start offset :
  l <> [] -> 0 <= start -> 0 <= offset < len l ->
  exists client, l !! Z.to_nat ((start + offset) mod len l) = Some client /\
    rotate (Z.to_nat start) l !! Z.to_nat offset = Some client.
Proof.
  intros Hl Hs Ho. pose proof (len_pos l Hl).
  destruct (lookup_lt_is_Some_2 l (Z.to_nat ((start + offset) mod len l))) as [c Hc].
  { unfold len in *. pose proof (Z.mod_pos_bound (start + offset) (Z.of_nat (length l))). lia. }
  exists c. split; [done|]. rewrite <- Hc. rewrite lookup_rotate_r by (unfold len in *; lia).
  f_equal. unfold rotate_nat_add, len in *. rewrite !Z2Nat.id by lia. done.
Qed.

Lemma scan_slots_spec s (count : nat) start offset :
  clients (pool s) <> [] -> 0 <= start -> 0 <= offset ->
  offset + Z.of_nat count = len (clients (pool s)) ->
  scan_slots count start offset s =
  match List.find (has_slot s) (drop (Z.to_nat offset) (rotate (Z.to_nat start) (clients (pool s)))) with
  | Some client => (Ok (Some client), take_slot client s)
  | None => (Ok None, s)
  end.
Proof.
  intros Hl Hs. revert offset. induction count as [|count IH]; intros offset Ho Hc.
  - cbn. rewrite drop_ge; [done|]. rewrite length_rotate. unfold len in *. lia.
  - destruct (ring_lookup (clients (pool s)) start offset Hl Hs) as (c & Hc1 & Hc2); [lia|].
    rewrite (drop_S _ c) by done. cbn [List.find].
    cbn -[has_slot]. unfold mbind, mutates_bind, current, client_at, mret, mutates_ret.
    rewrite Hc1. cbn [or_panic]. unfold try_acquire_slot.
    unfold has_slot at 1. destruct (0 <? free_slots c s) eqn:Hf; cbn; [done|].
    rewrite IH by lia. by replace (Z.to_nat (offset + 1)) with (S (Z.to_nat offset)) by lia.
Qed.

Definition turn (s : pool_state) : list Z := rotate (Z.to_nat (next (pool s))) (clients (pool s)).

Lemma rotate_mod (l : list Z) (n : Z) :
  l <> [] -> 0 <= n -> rotate (Z.to_nat (n mod len l)) l = rotate (Z.to_nat n) l.
Proof.
  intros Hl Hn. unfold rotate, len. assert (length l <> 0)%nat by (destruct l; done).
  rewrite Z2Nat.inj_mod by lia. rewrite Nat2Z.id. by rewrite Nat.Div0.mod_mod.
Qed.

Lemma try_pick_eq s :
  0 <= next (pool s) -> clients (pool s) <> [] ->
  try_pick_client_with_slot s =
  match List.find (has_slot s) (turn s) with
  | Some client => (Ok (Some client), take_slot client (advance s))
  | None => (Ok None, advance s)
  end.
Proof.
  intros Hn Hl. unfold try_pick_client_with_slot, current, mbind, mutates_bind, turn.
  destruct (clients (pool s)) as [|c l] eqn:Hcl; [done|]. unfold next_index. rewrite Hcl.
  fold (as_u64 (next (pool s) + 1)).
  pose proof (len_pos (c :: l) Hl).
  assert (set_pool {| clients := c :: l; next := as_u64 (next (pool s) + 1) |} s = advance s) as ->.
  { unfold advance. by rewrite Hcl. }
  assert (clients (pool (advance s)) = c :: l) as Ha by (cbn; by rewrite Hcl).
  rewrite scan_slots_spec.
  - rewrite Ha, drop_0, rotate_mod by done. reflexivity.
  - by rewrite Ha.
  - apply Z.mod_pos_bound. lia.
  - done.
  - rewrite Ha. done.
Qed.

(** ** What each operation leaves *)

(** [serves s client s']: [client], of the pool, had a free slot in [s]; it
    has one less in [s'], and nothing else has changed but the turn. *)
Definition serves (s : pool_state) (client : Z) (s' : pool_state) : Prop :=
  client ∈ clients (pool s) /\ 0 < free_slots client s /\ s' = take_slot client (advance s).

Lemma elem_of_turn s client : client ∈ turn s <-> client ∈ clients (pool s).
Proof.
  unfold turn, rotate. rewrite <- (take_drop (Z.to_nat (next (pool s)) mod length (clients (pool s)))
    (clients (pool s))) at 5. rewrite !elem_of_app. tauto.
Qed.

Lemma find_turn_Some s client :
  List.find (has_slot s) (turn s) = Some client -> client ∈ clients (pool s) /\ 0 < free_slots client s.
Proof.
  intros H. apply List.find_some in H as [Hin Hs].
  split; [|by apply Z.ltb_lt]. by apply elem_of_turn, list_elem_of_In.
Qed.

Lemma find_turn_None s client :
  List.find (has_slot s) (turn s) = None -> client ∈ clients (pool s) -> free_slots client s <= 0.
Proof.
  intros H Hin. apply elem_of_turn, list_elem_of_In in Hin.
  by apply Z.ltb_ge, (List.find_none _ _ H client).
Qed.

Lemma try_pick_spec s :
  pool_ok s ->
  match try_pick_client_with_slot s with
  | (Ok (Some client), s') => serves s client s' /\ pool_ok s'
  | (Ok None, s') => (forall client, client ∈ clients (pool s) -> free_slots client s = 0) /\ pool_ok s'
  | _ => False
  end.
Proof.
  intros Hs. destruct (clients (pool s)) as [|c l] eqn:Hl.
  - unfold try_pick_client_with_slot, mbind, mutates_bind, current. rewrite Hl. cbn.
    split; [|done]. intros c Hc. by apply elem_of_nil in Hc.
  - rewrite try_pick_eq; [|apply Hs|by rewrite Hl].
    destruct (List.find _ _) as [client|] eqn:Hf.
    + apply find_turn_Some in Hf as [Hin Hfree]. split; [done|].
      apply pool_ok_take; [by apply pool_ok_advance|done].
    + split; [|by apply pool_ok_advance]. intros client Hin.
      pose proof (slots_bounded s Hs client). rewrite <- Hl in Hin.
      pose proof (find_turn_None _ _ Hf Hin). lia.
Qed.

(** The client whose turn it is. *)
Definition whose_turn (s : pool_state) : option Z :=
  clients (pool s) !! Z.to_nat (next (pool s) mod len (clients (pool s))).

Lemma whose_turn_Some s :
  pool_ok s -> clients (pool s) <> [] -> exists client, whose_turn s = Some client /\ client ∈ clients (pool s).
Proof.
  intros Hs Hl. unfold whose_turn. pose proof (len_pos _ Hl).
  destruct (lookup_lt_is_Some_2 (clients (pool s)) (Z.to_nat (next (pool s) mod len (clients (pool s)))))
    as [client Hc].
  { pose proof (Z.mod_pos_bound (next (pool s)) (len (clients (pool s)))). unfold len in *. lia. }
  exists client. split; [done|]. by eapply list_elem_of_lookup_2.
Qed.

Lemma pick_client_spec s :
  pool_ok s ->
  match pick_client s with
  | (Ok (Some client), s') => client ∈ clients (pool s) /\ s' = advance s
  | (Ok None, s') => clients (pool s) = [] /\ s' = s
  | _ => False
  end.
Proof.
  intros Hs. unfold pick_client, mbind, mutates_bind, current.
  destruct (clients (pool s)) as [|c l] eqn:Hl; [done|].
  unfold next_index. rewrite Hl.
  destruct (whose_turn_Some s Hs) as (client & Ht & Hin); [by rewrite Hl|].
  unfold whose_turn in Ht. rewrite Hl in *. cbn. rewrite Ht. split; [done|].
  unfold advance. by rewrite Hl.
Qed.

(** A connection joins the pool only while there is room. *)
Definition joined (candidate : Z) (s : pool_state) : pool_state :=
  set_pool {| clients := clients (pool s) ++ [candidate]; next := next (pool s) |} s.

Lemma pool_ok_joined candidate s :
  pool_ok s -> len (clients (pool s)) < DOH_H3_POOL_SIZE -> pool_ok (joined candidate s).
Proof. intros [H0 H1 H2] Hr. split; [done| |done]. cbn. autorewrite with doh_len. lia. Qed.

Lemma add_or_pick_spec candidate s :
  pool_ok s ->
  match add_or_pick candidate s with
  | (Ok (selected, true), s') =>
      selected = candidate /\ len (clients (pool s)) < DOH_H3_POOL_SIZE /\ s' = joined candidate s
  | (Ok (selected, false), s') =>
      selected ∈ clients (pool s) /\ len (clients (pool s)) = DOH_H3_POOL_SIZE /\ s' = advance s
  | _ => False
  end.
Proof.
  intros Hs. pose proof (pool_small s Hs) as Hp.
  unfold add_or_pick, mbind, mutates_bind, current.
  destruct (Z.ltb_spec (len (clients (pool s))) DOH_H3_POOL_SIZE) as [Hlt|Hge]; [done|].
  destruct (whose_turn_Some s Hs) as (client & Ht & Hin).
  { intros H0. rewrite H0 in Hge. by compute in Hge. }
  unfold next_index, client_at. cbn. unfold whose_turn in Ht. rewrite Ht. cbn.
  split_and!; [done|lia|done].
Qed.

Section spec.
Context (create : outcome H3Failure.t Z) (others : nat -> pool_state -> pool_state).
Hypothesis others_ok : forall n s, pool_ok s -> pool_ok (others n s).

(** What [doh_h3_client] comes to: a connection one of whose free slots has
    been taken; the error of [create] when the pool was found empty; or it
    waits for a slot. *)
Definition client_outcome (r : outcome H3Failure.t Z * pool_state) : Prop :=
  match r with
  | (Ok client, s') => pool_ok s' /\
      exists s, pool_ok s /\ 0 < free_slots client s /\
        (s' = take_slot client s)
  | (Err e, s') => pool_ok s' /\ create = Err e /\ clients (pool s') = []
  | (Panic, s') => pool_ok s' /\ create = Panic
  | (Diverge, s') => pool_ok s' /\ (create = Diverge \/ exists client, free_slots client s' = 0)
  end.

Lemma wait_for_outcome n client s : pool_ok s -> client_outcome (wait_for others n client s).
Proof.
  intros Hs. unfold wait_for, interfere, update, acquire_slot, mbind, mutates_bind. cbn.
  pose proof (others_ok n s Hs) as Ho.
  destruct (Z.ltb_spec 0 (free_slots client (others n s))) as [Hf|Hf]; cbn.
  - split; [by apply pool_ok_take|]. by exists (others n s).
  - split; [done|]. right. exists client. pose proof (slots_bounded _ Ho client). lia.
Qed.

Lemma interfere_eq {A} n (k : on_pool A) s : (interfere others n;; k) s = k (others n s).
Proof. done. Qed.

Lemma add_candidate_outcome n candidate s : pool_ok s -> client_outcome (add_candidate others n candidate s).
Proof.
  intros Hs. unfold add_candidate, new_client.
  set (s1 := {| pool := pool s; slots := <[candidate := DOH_H3_MAX_INFLIGHT_PER_CONN]> (slots s) |}).
  assert (pool_ok s1) as H1.
  { destruct Hs as [H0 H1 H2]. split; [done|done|]. intros c. unfold s1, free_slots. cbn.
    destruct (decide (c = candidate)) as [->|]; [rewrite lookup_insert_eq; done|].
    rewrite lookup_insert_ne by congruence. apply H2. }
  assert (forall A (k : on_pool A), (update (fun s => Ok {| pool := pool s;
    slots := <[candidate := DOH_H3_MAX_INFLIGHT_PER_CONN]> (slots s) |});; k) s = k s1) as -> by done.
  rewrite interfere_eq. pose proof (others_ok n s1 H1) as H2.
  pose proof (add_or_pick_spec candidate _ H2) as Ha.
  unfold mbind, mutates_bind. destruct (add_or_pick candidate (others n s1)) as [[[sel [|]]| | |] s2]; try done.
  - destruct Ha as (-> & Hr & ->). apply wait_for_outcome. by apply pool_ok_joined.
  - destruct Ha as (Hin & _ & ->). apply wait_for_outcome. by apply pool_ok_advance.
Qed.

(** A first try to take a slot, and what follows when there is none. *)
Lemma try_pick_or n (k : on_pool Z) s :
  pool_ok s -> (forall s', pool_ok s' -> client_outcome (k s')) ->
  client_outcome ((interfere others n;; picked ← try_pick_client_with_slot;
    match picked with Some client => mret client | None => k end) s).
Proof.
  intros Hs Hk. rewrite interfere_eq. pose proof (others_ok n s Hs) as Ho.
  pose proof (try_pick_spec _ Ho) as Ht. unfold mbind, mutates_bind.
  destruct (try_pick_client_with_slot (others n s)) as [[[client|]| | |] s']; try done.
  - destruct Ht as ((Hin & Hf & ->) & Hok). split; [done|].
    exists (advance (others n s)). split_and!; [by apply pool_ok_advance|done|done].
  - destruct Ht as [_ Hok]. by apply Hk.
Qed.

Lemma pick_existing_or n (k : on_pool Z) s :
  pool_ok s -> (forall s', pool_ok s' -> clients (pool s') = [] -> client_outcome (k s')) ->
  client_outcome ((interfere others n;; existing ← pick_client;
    match existing with Some existing => wait_for others (S n) existing | None => k end) s).
Proof.
  intros Hs Hk. rewrite interfere_eq. pose proof (others_ok n s Hs) as Ho.
  pose proof (pick_client_spec _ Ho) as Hp. unfold mbind, mutates_bind.
  destruct (pick_client (others n s)) as [[[client|]| | |] s']; try done.
  - destruct Hp as [_ ->]. apply wait_for_outcome. by apply pool_ok_advance.
  - destruct Hp as [Hl ->]. by apply Hk.
Qed.

Lemma doh_h3_client_outcome s : pool_ok s -> client_outcome (doh_h3_client create others s).
Proof.
  intros Hs. unfold doh_h3_client. apply try_pick_or; [done|]. clear s Hs. intros s Hs.
  rewrite interfere_eq. unfold needs_new_client, current at 1.
  pose proof (others_ok 1 s Hs) as Ho. revert Ho. generalize (others 1 s). clear s Hs. intros s Hs.
  unfold mbind at 1, mutates_bind at 1, mbind at 1, mutates_bind at 1, mret at 1, mutates_ret at 1.
  destruct (len (clients (pool s)) <? DOH_H3_POOL_SIZE).
  - destruct create as [candidate|err| |] eqn:Hc; [by apply add_candidate_outcome| | |];
      [|by (cbn; rewrite Hc)|by (cbn; rewrite Hc; auto)].
    apply try_pick_or; [done|]. clear s Hs. intros s Hs.
    apply (pick_existing_or 3); [done|]. clear s Hs. intros s Hs He. cbn. by rewrite Hc.
  - apply try_pick_or; [done|]. clear s Hs. intros s Hs.
    apply (pick_existing_or 3); [done|]. clear s Hs. intros s Hs He.
    destruct create as [candidate|err| |] eqn:Hc; [by apply add_candidate_outcome|..];
      cbn; rewrite Hc; auto.
Qed.
End spec.

(** ** The properties *)

(** The pick of a connection is the reference one: of the connections of
    the pool, taken in the order of the ring that starts at the turn counter,
    the first that has a free slot, and it takes that slot; without one, it
    answers that there is none and takes nothing.  The turn counter moves by
    one.  The scan's indices are in range whatever the counter. *)
Theorem try_pick_equiv (s : pool_state) :
  0 <= next (pool s) ->
  try_pick_client_with_slot s =
  match clients (pool s), List.find (has_slot s) (rotate (Z.to_nat (next (pool s))) (clients (pool s))) with
  | [], _ => (Ok None, s)
  | _, Some client => (Ok (Some client), take_slot client (advance s))
  | _, None => (Ok None, advance s)
  end.
Proof.
  intros Hn. destruct (clients (pool s)) as [|c l] eqn:Hl.
  - unfold try_pick_client_with_slot, mbind, mutates_bind, current. by rewrite Hl.
  - rewrite try_pick_eq by (done || by rewrite Hl). unfold turn. rewrite Hl. by destruct (List.find _ _).
Qed.

Lemma alone_picks create s client :
  pool_ok s -> client ∈ clients (pool s) -> 0 < free_slots client s ->
  exists c s', doh_h3_client create (fun _ s => s) s = (Ok c, s').
Proof.
  intros Hs Hin Hf. unfold doh_h3_client. rewrite interfere_eq.
  pose proof (try_pick_spec s Hs) as Ht. unfold mbind, mutates_bind.
  destruct (try_pick_client_with_slot s) as [[[c|]| | |] s']; try done; [by eexists _, _|].
  destruct Ht as [Hno _]. specialize (Hno _ Hin). lia.
Qed.

Lemma add_room candidate s :
  len (clients (pool s)) < DOH_H3_POOL_SIZE ->
  add_or_pick candidate s = (Ok (candidate, true), joined candidate s).
Proof. intros Hr. unfold add_or_pick, mbind, mutates_bind, current. by cmp_simpl. Qed.

Lemma alone_creates candidate s :
  pool_ok s -> len (clients (pool s)) < DOH_H3_POOL_SIZE ->
  exists c s', doh_h3_client (Ok candidate) (fun _ s => s) s = (Ok c, s').
Proof.
  intros Hs Hr. destruct (List.find (has_slot s) (turn s)) as [client|] eqn:Hf.
  { apply find_turn_Some in Hf as [Hin Hfree]. by eapply alone_picks. }
  assert (exists s', try_pick_client_with_slot s = (Ok None, s') /\ clients (pool s') = clients (pool s))
    as (s' & Ht & Hc).
  { rewrite try_pick_equiv by apply Hs. unfold turn in Hf. rewrite Hf.
    destruct (clients (pool s)) eqn:Hl; eexists; (split; [reflexivity|done]). }
  unfold doh_h3_client. rewrite interfere_eq. unfold mbind at 1, mutates_bind at 1. rewrite Ht.
  rewrite interfere_eq. unfold needs_new_client, mbind, mutates_bind, current, mret, mutates_ret.
  rewrite Hc. cmp_simpl. cbn -[free_slots add_or_pick].
  unfold add_candidate, new_client, update, mbind, mutates_bind, interfere, update.
  rewrite add_room by (cbn; by rewrite Hc).
  unfold wait_for, mbind, mutates_bind, interfere, update, acquire_slot, free_slots. cbn.
  rewrite lookup_insert_eq. cbn. by eexists _, _.
Qed.

(** C14: a connection for a request, [doh_h3_client], with whatever other
    tasks do to the pool and the semaphores between its operations (keeping
    the pool's bounds).  It does not panic of itself, and the pool never holds more than
    two connections nor a connection more than 64 slots; a connection it
    returns had a free slot, which it has taken; it fails only with the error
    of a connection attempt, with no connection in the pool; otherwise it
    waits for the attempt or for a slot of a connection that has none.  Undisturbed, it returns
    a connection whenever one of the pool has a free slot, or the pool has
    room and the attempt succeeds. *)
Theorem doh_h3_client_spec (create : outcome H3Failure.t Z) (others : nat -> pool_state -> pool_state)
    (s : pool_state) :
  (forall n s, pool_ok s -> pool_ok (others n s)) -> pool_ok s ->
  match doh_h3_client create others s with
  | (Ok client, s') => pool_ok s' /\
      exists s1, pool_ok s1 /\ 0 < free_slots client s1 /\ s' = take_slot client s1
  | (Err e, s') => pool_ok s' /\ create = Err e /\ clients (pool s') = []
  | (Panic, s') => pool_ok s' /\ create = Panic
  | (Diverge, s') => pool_ok s' /\ (create = Diverge \/ exists client, free_slots client s' = 0)
  end /\
  ((exists client, client ∈ clients (pool s) /\ 0 < free_slots client s) \/
   (len (clients (pool s)) < DOH_H3_POOL_SIZE /\ exists candidate, create = Ok candidate) ->
   exists client s', doh_h3_client create (fun _ s => s) s = (Ok client, s')).
Proof.
  intros Ho Hs. split; [by apply doh_h3_client_outcome|].
  intros [(client & Hin & Hf)|(Hr & candidate & ->)];
    [by eapply alone_picks|by apply alone_creates].
Qed.

(** ** At a concrete input *)

(** Two connections, the one whose turn it is without a free slot. *)
Definition busy_pool : pool_state := {|
  pool := {| clients := [7; 8]; next := 2 |};
  slots := {[7 := 0; 8 := 3]}
|}.

Lemma busy_pool_ok : pool_ok busy_pool.
Proof.
  split; [done|done|]. intros client. unfold free_slots, busy_pool. cbn.
  destruct (decide (client = 7)) as [->|]; [done|].
  destruct (decide (client = 8)) as [->|]; [done|].
  rewrite lookup_insert_ne, lookup_singleton_ne by congruence. done.
Qed.

Lemma try_pick_equiv_witness :
  0 <= next (pool busy_pool) /\ fst (try_pick_client_with_slot busy_pool) = Ok (Some 8).
Proof. split; [done|]. rewrite (try_pick_equiv busy_pool) by done. reflexivity. Defined.

Lemma doh_h3_client_spec_witness :
  exists client s', doh_h3_client (Ok 9) (fun _ s => s) busy_pool = (Ok client, s').
Proof.
  apply (doh_h3_client_spec (Ok 9) (fun _ s => s) busy_pool); [done|apply busy_pool_ok|].
  left. exists 8. split; [apply list_elem_of_In; cbn; tauto|reflexivity].
Defined.
