(* ===== verification/Breaker.v ===== *)
(** * The circuit breaker of a DoH upstream and the rate of its rebuilds

    The atomics of [DohUpstream] and the functions of src/libdoh/src/lib.rs
    on them: which protocol is used, when HTTP/3 is given a rest after
    failures, and how often a client may be thrown away.  Times are
    milliseconds of [now_millis]. *)

From S2P Require Import Prelude.

Definition DOH_PROTO_UNKNOWN : Z := 0.
Definition DOH_PROTO_H2 : Z := 1.
Definition DOH_PROTO_H3 : Z := 2.
Definition DOH_MIN_REBUILD_INTERVAL_MS : Z := 1000.
Definition H3_FAILURE_THRESHOLD : Z := 3.
Definition H3_FAILURE_WINDOW_SECS : Z := 60.
Definition H3_BACKOFF_SECS : Z := 30.

(** The clock: nanoseconds since the epoch, negative before it. *)
Definition now_millis (since_epoch : Z) : Z := as_u64 (Z.max since_epoch 0 / 1000000).

(** ** The breaker *)
Record breaker := {
  protocol_hint : Z;
  h3_failures : Z;
  h3_last_failure_ms : Z;
  h3_backoff_until_ms : Z
}.
Definition fresh_breaker (hint : Z) : breaker :=
  {| protocol_hint := hint; h3_failures := 0; h3_last_failure_ms := 0; h3_backoff_until_ms := 0 |}.

Definition store_hint (hint : Z) (b : breaker) : breaker :=
  {| protocol_hint := hint; h3_failures := h3_failures b; h3_last_failure_ms := h3_last_failure_ms b;
     h3_backoff_until_ms := h3_backoff_until_ms b |}.

Definition h3_backoff_active (now : Z) (b : breaker) : bool := now <? h3_backoff_until_ms b.

(** One atomic operation each *)
Definition store_failures (count : Z) (b : breaker) : breaker :=
  {| protocol_hint := protocol_hint b; h3_failures := count; h3_last_failure_ms := h3_last_failure_ms b;
     h3_backoff_until_ms := h3_backoff_until_ms b |}.
Definition store_last_failure (ms : Z) (b : breaker) : breaker :=
  {| protocol_hint := protocol_hint b; h3_failures := h3_failures b; h3_last_failure_ms := ms;
     h3_backoff_until_ms := h3_backoff_until_ms b |}.
Definition store_backoff_until (ms : Z) (b : breaker) : breaker :=
  {| protocol_hint := protocol_hint b; h3_failures := h3_failures b; h3_last_failure_ms := h3_last_failure_ms b;
     h3_backoff_until_ms := ms |}.

(** *** The calls of a task

    The functions on the breaker are sequences of atomic operations, and
    other tasks run between them: [others n b] is what they make of the
    atomics before the [n]-th operation of a call. *)
Abbreviation disturbance := (nat -> breaker -> breaker).
Definition undisturbed : disturbance := fun _ b => b.

Definition clear_h3_failures (others : disturbance) (b : breaker) : breaker :=
  let b := store_failures 0 (others 0%nat b) in
  let b := store_last_failure 0 (others 1%nat b) in
  store_backoff_until 0 (others 2%nat b).

Definition reset_h3_failure_counter (others : disturbance) (b : breaker) : breaker :=
  let b := store_failures 0 (others 0%nat b) in
  store_last_failure 0 (others 1%nat b).

(** The first failure of a run, or one more. *)
Definition first_of_run (now last : Z) : bool :=
  let window_ms := H3_FAILURE_WINDOW_SECS * 1000 in
  (last =? 0) || (window_ms <? saturating_sub now last).
Definition count_failure (now last : Z) (b : breaker) : Z * breaker :=
  if first_of_run now last then (1, store_failures 1 b)
  else let count := as_u32 (h3_failures b + 1) in (count, store_failures count b).

(** Whether the failure starts a rest. *)
Definition record_h3_failure (others : disturbance) (now : Z) (b : breaker) : bool * breaker :=
  let b := others 0%nat b in
  let last := h3_last_failure_ms b in
  let '(count, b) := count_failure now last (others 1%nat b) in
  let b := store_last_failure now (others 2%nat b) in
  if H3_FAILURE_THRESHOLD <=? count then
    let b := store_failures 0 (others 3%nat b) in
    (true, store_backoff_until (saturating_add_u64 now (H3_BACKOFF_SECS * 1000)) (others 4%nat b))
  else (false, b).

(** *** Any number of tasks

    The same calls as a step relation: a task between two of its operations,
    and one operation of one task as a step. *)
Inductive breaker_call :=
  | RecordLoad (now : Z)
  | RecordCount (now last : Z)
  | RecordTime (now count : Z)
  | RecordClear (now : Z)
  | RecordRest (now : Z)
  | Recorded (now : Z) (rest : bool)
  | ClearCount | ClearTime | ClearRest | Cleared
  | ResetCount | ResetTime | ResetDone.

Definition breaker_step (b : breaker) (c : breaker_call) : option (breaker * breaker_call) :=
  match c with
  | RecordLoad now => Some (b, RecordCount now (h3_last_failure_ms b))
  | RecordCount now last => let '(count, b) := count_failure now last b in Some (b, RecordTime now count)
  | RecordTime now count =>
      Some (store_last_failure now b,
            if H3_FAILURE_THRESHOLD <=? count then RecordClear now else Recorded now false)
  | RecordClear now => Some (store_failures 0 b, RecordRest now)
  | RecordRest now =>
      Some (store_backoff_until (saturating_add_u64 now (H3_BACKOFF_SECS * 1000)) b, Recorded now true)
  | ClearCount => Some (store_failures 0 b, ClearTime)
  | ClearTime => Some (store_last_failure 0 b, ClearRest)
  | ClearRest => Some (store_backoff_until 0 b, Cleared)
  | ResetCount => Some (store_failures 0 b, ResetTime)
  | ResetTime => Some (store_last_failure 0 b, ResetDone)
  | Recorded _ _ | Cleared | ResetDone => None
  end.

(** A call to its end, disturbed before each of its operations, from the
    [n]-th on. *)
Fixpoint run_call (turns n : nat) (others : disturbance) (b : breaker) (c : breaker_call) : breaker * breaker_call :=
  match turns with
  | O => (b, c)
  | S turns =>
      match breaker_step (others n b) c with
      | Some (b, c) => run_call turns (S n) others b c
      | None => (b, c)
      end
  end.

(** The atomics, the calls, and how many failures have been counted. *)
Record breakers := {
  atomics : breaker;
  calls : list breaker_call;
  counted : nat
}.

(** A call that starts. *)
Definition starts (c : breaker_call) : bool :=
  match c with RecordLoad now => (0 <? now) && (now <=? u64_max) | ClearCount | ResetCount => true | _ => false end.

Inductive breakers_step : breakers -> breakers -> Prop :=
  | breakers_start s c :
      starts c = true -> breakers_step s {| atomics := atomics s; calls := c :: calls s; counted := counted s |}
  | breakers_hint s hint :
      breakers_step s {| atomics := store_hint hint (atomics s); calls := calls s; counted := counted s |}
  | breakers_operation b b' l c c' r n :
      breaker_step b c = Some (b', c') ->
      breakers_step {| atomics := b; calls := l ++ c :: r; counted := n |}
        {| atomics := b'; calls := l ++ c' :: r;
           counted := match c with RecordCount _ _ => S n | _ => n end |}.

Definition fresh_breakers (hint : Z) : breakers := {| atomics := fresh_breaker hint; calls := []; counted := 0 |}.

(** ** Rebuilds

    [can_rebuild] is a loop of a load and a compare-and-exchange on the time
    of the last rebuild, which tasks run concurrently: [rebuild_step] is one
    atomic step of a task. *)
Inductive rebuilder :=
  | Loading (now : Z)
  | Exchanging (now prev : Z)
  | Answered (now : Z) (granted : bool).

Definition rebuild_step (last_rebuild_ms : Z) (t : rebuilder) : option (Z * rebuilder) :=
  match t with
  | Loading now =>
      let prev := last_rebuild_ms in
      if negb (prev =? 0) && (saturating_sub now prev <? DOH_MIN_REBUILD_INTERVAL_MS)
      then Some (last_rebuild_ms, Answered now false)
      else Some (last_rebuild_ms, Exchanging now prev)
  | Exchanging now prev =>
      if last_rebuild_ms =? prev then Some (now, Answered now true)
      else Some (last_rebuild_ms, Loading now)
  | Answered _ _ => None
  end.

(** A task on its own, with what others do to the cell before each of its
    steps. *)
Fixpoint rebuild_loop (fuel : nat) (others : nat -> Z -> Z) (last_rebuild_ms : Z) (t : rebuilder)
    : infallible (bool * Z) :=
  match fuel with
  | O => Diverge
  | S fuel =>
      let cell := others fuel last_rebuild_ms in
      match rebuild_step cell t with
      | Some (cell, t) => rebuild_loop fuel others cell t
      | None => Ok (match t with Answered _ granted => granted | _ => false end, last_rebuild_ms)
      end
  end.

(** Undisturbed. *)
Definition can_rebuild (now last_rebuild_ms : Z) : infallible (bool * Z) :=
  rebuild_loop 3 (fun _ cell => cell) last_rebuild_ms (Loading now).

(** Any number of tasks: the cell, the tasks, and the times of the rebuilds
    granted so far, the last one first. *)
Record rebuilds := {
  cell : Z;
  tasks : list rebuilder;
  granted : list Z
}.
Definition no_rebuilds : rebuilds := {| cell := 0; tasks := []; granted := [] |}.

Inductive rebuilds_step : rebuilds -> rebuilds -> Prop :=
  | step_call s now :
      0 < now <= u64_max ->
      rebuilds_step s {| cell := cell s; tasks := Loading now :: tasks s; granted := granted s |}
  | step_task cell cell' l t t' r g :
      rebuild_step cell t = Some (cell', t') ->
      rebuilds_step {| cell := cell; tasks := l ++ t :: r; granted := g |}
        {| cell := cell'; tasks := l ++ t' :: r;
           granted := match t' with Answered now true => now :: g | _ => g end |}.
