(* ===== verification/BreakerProps.v ===== *)
(** * Properties of the circuit breaker and of the rate of rebuilds *)

From S2P Require Import Prelude Breaker.

(** ** The breaker against its history *)

(** What becomes of HTTP/3 requests: a retryable failure at a time, another
    failure, or success; each is recorded before the next. *)
Inductive h3_outcome := Failed (at_ms : Z) | Rejected | Succeeded.

Definition observe (o : h3_outcome) (b : breaker) : breaker :=
  match o with
  | Failed now => snd (record_h3_failure undisturbed now b)
  | Rejected => reset_h3_failure_counter undisturbed b
  | Succeeded => clear_h3_failures undisturbed b
  end.

(** The breaker after a history, the last outcome first. *)
Fixpoint after (hint : Z) (history : list h3_outcome) : breaker :=
  match history with
  | [] => fresh_breaker hint
  | o :: history => observe o (after hint history)
  end.

(** The reference: the length of the run of failures that ends the history,
    each at most a minute after the one before. *)
Fixpoint streak (history : list h3_outcome) : Z :=
  match history with
  | Failed now :: rest =>
      match rest with
      | Failed before :: _ => if now - before <=? 60000 then streak rest + 1 else 1
      | _ => 1
      end
  | _ => 0
  end.

Definition trips (history : list h3_outcome) : bool :=
  match history with Failed _ :: _ => streak history mod 3 =? 0 | _ => false end.

(** The end of the last rest, 0 when there has been none since a success. *)
Fixpoint rest_until (history : list h3_outcome) : Z :=
  match history with
  | [] => 0
  | Succeeded :: _ => 0
  | Rejected :: rest => rest_until rest
  | Failed now :: rest =>
      if trips history then saturating_add_u64 now 30000 else rest_until rest
  end.

Definition timed (o : h3_outcome) : Prop := match o with Failed t => 0 < t <= u64_max | _ => True end.

(** The clock gives such times, from the first millisecond of the epoch until
    its 64 bits are full, and never goes back with the time. *)
Lemma clock_timed t : 1000000 <= t < (u64_max + 1) * 1000000 -> timed (Failed (now_millis t)).
Proof.
  intros Ht. unfold timed, now_millis, as_u64. rewrite Z.max_l by lia.
  assert (1 <= t / 1000000 <= u64_max) as H.
  { split; [apply Z.div_le_lower_bound; lia|]. apply Z.lt_succ_r, Z.div_lt_upper_bound; lia. }
  rewrite Z.mod_small; lia.
Qed.

Lemma clock_mono t t' : t <= t' < (u64_max + 1) * 1000000 -> now_millis t <= now_millis t'.
Proof.
  intros Ht. unfold now_millis, as_u64.
  assert (forall x, x < (u64_max + 1) * 1000000 -> 0 <= Z.max x 0 / 1000000 < 18446744073709551616) as H.
  { intros x Hx. split; [apply Z.div_pos; lia|]. apply Z.div_lt_upper_bound; lia. }
  rewrite !Z.mod_small by (apply H; lia). apply Z.div_le_mono; lia.
Qed.

Lemma streak_nonneg history : 0 <= streak history.
Proof.
  induction history as [|[now| |] history IH]; cbn; try lia.
  destruct history as [|[before| |] history]; try lia.
  destruct (now - before <=? 60000); lia.
Qed.

Lemma mod3_succ n : 0 <= n -> n mod 3 < 3 /\
  ((n mod 3 = 2 /\ (n + 1) mod 3 = 0) \/ (n mod 3 < 2 /\ (n + 1) mod 3 = n mod 3 + 1)).
Proof.
  intros Hn. pose proof (Z.mod_pos_bound n 3 ltac:(lia)). split; [lia|].
  pose proof (Z.div_mod n 3 ltac:(lia)) as Hd.
  destruct (decide (n mod 3 = 2)) as [H2|H2]; [left|right].
  - split; [done|]. symmetry. apply (Z.mod_unique _ _ (n / 3 + 1)); lia.
  - split; [lia|]. symmetry. apply (Z.mod_unique _ _ (n / 3)); lia.
Qed.

Definition last_failure (history : list h3_outcome) : Z :=
  match history with Failed t :: _ => t | _ => 0 end.

(** One failure, given the count and the time of the failure before. *)
Lemma record_step now b n :
  0 < now <= u64_max -> 0 <= n -> h3_failures b = n mod 3 ->
  (h3_last_failure_ms b = 0 -> n = 0) ->
  let n' := if (h3_last_failure_ms b =? 0) || (60000 <? now - h3_last_failure_ms b) then 1 else n + 1 in
  let '(tripped, b') := record_h3_failure undisturbed now b in
  tripped = (n' mod 3 =? 0) /\ h3_failures b' = n' mod 3 /\ h3_last_failure_ms b' = now /\
  protocol_hint b' = protocol_hint b /\
  h3_backoff_until_ms b' = if tripped then saturating_add_u64 now 30000 else h3_backoff_until_ms b.
Proof.
  intros Hnow Hn Hf H0. unfold record_h3_failure, undisturbed, count_failure, first_of_run, saturating_sub.
  change (H3_FAILURE_WINDOW_SECS * 1000) with 60000. change (H3_BACKOFF_SECS * 1000) with 30000.
  assert ((60000 <? Z.max 0 (now - h3_last_failure_ms b)) = (60000 <? now - h3_last_failure_ms b)) as ->.
  { apply eq_bool_prop_intro. rewrite !Is_true_true, !Z.ltb_lt. lia. }
  change H3_FAILURE_THRESHOLD with 3.
  destruct ((h3_last_failure_ms b =? 0) || (60000 <? now - h3_last_failure_ms b)); [by cbn|].
  rewrite Hf. pose proof (Z.mod_pos_bound n 3 ltac:(lia)).
  assert (as_u32 (n mod 3 + 1) = n mod 3 + 1) as -> by (apply Z.mod_small; lia).
  destruct (mod3_succ n Hn) as [_ [[H2 H3]|[H2 H3]]].
  - cmp_simpl. cbn. rewrite H3. by split_and!.
  - cmp_simpl. cbn. rewrite H3. cmp_simpl. split_and!; (done || lia).
Qed.

Record matches (hint : Z) (history : list h3_outcome) (b : breaker) : Prop := {
  m_hint : protocol_hint b = hint;
  m_failures : h3_failures b = streak history mod 3;
  m_last : h3_last_failure_ms b = last_failure history;
  m_backoff : h3_backoff_until_ms b = rest_until history
}.

Lemma matches_failed hint history now b :
  matches hint history b -> Forall timed history -> 0 < now <= u64_max ->
  fst (record_h3_failure undisturbed now b) = trips (Failed now :: history) /\
  matches hint (Failed now :: history) (snd (record_h3_failure undisturbed now b)).
Proof.
  intros [Hh Hf Hl Hb] Ht Hnow.
  pose proof (record_step now b (streak history) Hnow (streak_nonneg _) Hf) as Hr.
  rewrite Hl in Hr.
  assert (last_failure history = 0 -> streak history = 0) as H0.
  { destruct history as [|[t| |] history]; try done. apply Forall_cons in Ht as [Ht _]. cbn in *. lia. }
  specialize (Hr H0). cbn zeta in Hr.
  assert ((if (last_failure history =? 0) || (60000 <? now - last_failure history) then 1
           else streak history + 1) = streak (Failed now :: history)) as Hn.
  { destruct history as [|[t| |] history]; try done. apply Forall_cons in Ht as [Ht _]. cbn in Ht.
    cbn [last_failure streak]. destruct (Z.eqb_spec t 0); [lia|]. cbn [orb].
    rewrite Z.ltb_antisym. by destruct (now - t <=? 60000). }
  rewrite Hn in Hr. destruct (record_h3_failure undisturbed now b) as [tripped b']. cbn [fst snd].
  destruct Hr as (-> & Hf' & Hl' & Hh' & Hb'). split; [done|]. split; try done; try congruence.
  rewrite Hb', Hb. done.
Qed.

Lemma matches_after hint history : Forall timed history -> matches hint history (after hint history).
Proof.
  induction history as [|o history IH]; intros Ht; [done|].
  apply Forall_cons in Ht as [Ho Ht]. specialize (IH Ht). destruct o as [now| |]; cbn [after observe].
  - by apply matches_failed.
  - by destruct IH.
  - by destruct IH.
Qed.

(** *** The calls, and any interleaving of them *)

(** The functions are the runs of the step relation's calls, whatever others
    do between the operations. *)
Lemma record_runs others now b :
  run_call 5 0 others b (RecordLoad now) =
  (snd (record_h3_failure others now b), Recorded now (fst (record_h3_failure others now b))).
Proof.
  cbn [run_call breaker_step]. unfold record_h3_failure.
  destruct (count_failure now _ _) as [count b1]. cbn [run_call breaker_step].
  by destruct (H3_FAILURE_THRESHOLD <=? count).
Qed.
Lemma clear_runs others b : run_call 3 0 others b ClearCount = (clear_h3_failures others b, Cleared).
Proof. done. Qed.
Lemma reset_runs others b : run_call 2 0 others b ResetCount = (reset_h3_failure_counter others b, ResetDone).
Proof. done. Qed.

(** What a call knows of the failures counted. *)
Definition call_ok (counted : nat) (c : breaker_call) : Prop :=
  match c with
  | RecordTime _ count => count <= Z.of_nat counted
  | RecordClear _ | RecordRest _ | Recorded _ true => (3 <= counted)%nat
  | _ => True
  end.
Record breakers_ok (s : breakers) : Prop := {
  failures_counted : 0 <= h3_failures (atomics s) <= Z.of_nat (counted s);
  rest_recorded : h3_backoff_until_ms (atomics s) = 0 \/
    exists now, Recorded now true ∈ calls s /\
      h3_backoff_until_ms (atomics s) = saturating_add_u64 now 30000;
  calls_ok : Forall (call_ok (counted s)) (calls s)
}.

Lemma call_ok_more n c : call_ok n c -> call_ok (S n) c.
Proof. destruct c as [| | | | |now []| | | | | | |]; cbn; lia. Qed.

Lemma count_failure_counted now last b n :
  0 <= h3_failures b <= Z.of_nat n ->
  let '(count, b') := count_failure now last b in
  count <= Z.of_nat (S n) /\ 0 <= h3_failures b' <= Z.of_nat (S n) /\
  h3_backoff_until_ms b' = h3_backoff_until_ms b.
Proof.
  intros Hb. unfold count_failure. destruct (first_of_run now last); cbn; [lia|].
  unfold as_u32. pose proof (Z.mod_pos_bound (h3_failures b + 1) 4294967296 ltac:(lia)).
  pose proof (Z.mod_le (h3_failures b + 1) 4294967296 ltac:(lia) ltac:(lia)). lia.
Qed.

(** One operation: what it leaves of the counter, of the rest and of the call. *)
Lemma breaker_step_ok b c b' c' n :
  breaker_step b c = Some (b', c') -> 0 <= h3_failures b <= Z.of_nat n -> call_ok n c ->
  let n' := match c with RecordCount _ _ => S n | _ => n end in
  0 <= h3_failures b' <= Z.of_nat n' /\ call_ok n' c' /\
  (h3_backoff_until_ms b' = h3_backoff_until_ms b \/ h3_backoff_until_ms b' = 0 \/
   exists now, c' = Recorded now true /\ h3_backoff_until_ms b' = saturating_add_u64 now 30000).
Proof.
  intros Hs Hb Hc. destruct c as [now|now before|now count|now|now|now r| | | | | | |]; cbn in Hs; simplify_eq; cbn in *.
  - split_and!; [lia|lia|done|by left].
  - pose proof (count_failure_counted now before b n Hb) as H.
    destruct (count_failure now before b) as [count b1]. simplify_eq. cbn. destruct H as (H1 & H2 & H3).
    split_and!; [lia|lia|lia|by left].
  - change H3_FAILURE_THRESHOLD with 3.
    destruct (Z.leb_spec 3 count); cbn; (split_and!; [lia|lia|done || lia|by left]).
  - split_and!; [lia|lia|done|by left].
  - split_and!; [lia|lia|done|]. right. right. by exists now.
  - split_and!; [lia|lia|done|by left].
  - split_and!; [lia|lia|done|by left].
  - split_and!; [lia|lia|done|by right; left].
  - split_and!; [lia|lia|done|by left].
  - split_and!; [lia|lia|done|by left].
Qed.

Lemma breakers_step_ok s s' : breakers_ok s -> breakers_step s s' -> breakers_ok s'.
Proof.
  intros Hs Hst. destruct Hst as [s c Hc|s hint|b b' l c c' r n Hc].
  - destruct Hs as [H1 H2 H3]. split; cbn; [done| |].
    + destruct H2 as [H2|(now & Hin & H2)]; [by left|]. right. exists now. split; [by right|done].
    + constructor; [by destruct c|done].
  - by destruct Hs.
  - destruct Hs as [H1 H2 H3]. cbn in *. apply Forall_app in H3 as [Hl H3]. apply Forall_cons in H3 as [Hcall Hr].
    destruct (breaker_step_ok b c b' c' n Hc H1 Hcall) as (H4 & H5 & H6). split; cbn; [done| |].
    + destruct H6 as [H6|[H6|(now & -> & H6)]]; [|by left|].
      * rewrite H6. destruct H2 as [H2|(now & Hin & H2)]; [by left|]. right. exists now. split; [|done].
        apply elem_of_app in Hin as [Hin|Hin]; [apply elem_of_app; by left|].
        apply elem_of_cons in Hin as [<-|Hin]; [by cbn in Hc|]. apply elem_of_app. right. by right.
      * right. exists now. split; [|done]. apply elem_of_app. right. left.
    + apply Forall_app. assert (forall k, Forall (call_ok n) k ->
        Forall (call_ok match c with RecordCount _ _ => S n | _ => n end) k) as Hmore.
      { intros k Hk. destruct c; try done. eapply Forall_impl; [exact Hk|]. apply call_ok_more. }
      split; [by apply Hmore|]. constructor; [done|by apply Hmore].
Qed.

Lemma breakers_reachable_ok hint s : rtc breakers_step (fresh_breakers hint) s -> breakers_ok s.
Proof.
  intros H. remember (fresh_breakers hint) as s0. assert (breakers_ok s0) as H0.
  { subst s0. split; cbn; [lia|by left|done]. }
  clear Heqs0. induction H; eauto using breakers_step_ok.
Qed.

(** C10: the circuit breaker of an upstream.  For any history of HTTP/3
    requests whose calls on the breaker do not overlap, a retryable failure
    gives HTTP/3 a rest exactly when it is the third, sixth, ... of a run of
    failures each at most a minute after the one before, uninterrupted by a
    success or another failure; and the rest is active until 30 seconds after
    the last failure that started one, unless a request has succeeded since.
    For any number of tasks and any interleaving of the atomic operations of
    their calls, a rest starts only when three failures have been counted,
    and a rest that is set ends 30 seconds after the time of a failure that
    has started one; and whatever others do in between, a call ends after
    five operations of its own, and does what its function does. *)
Theorem breaker_spec (hint : Z) (history : list h3_outcome) (now : Z) :
  (Forall timed history -> 0 < now <= u64_max ->
   fst (record_h3_failure undisturbed now (after hint history)) =
     (streak (Failed now :: history) mod 3 =? 0) /\
   h3_backoff_active now (after hint history) = (now <? rest_until history) /\
   protocol_hint (after hint history) = hint) /\
  (forall s, rtc breakers_step (fresh_breakers hint) s ->
     (forall t, Recorded t true ∈ calls s -> (3 <= counted s)%nat) /\
     (h3_backoff_until_ms (atomics s) = 0 \/
      exists t, Recorded t true ∈ calls s /\ h3_backoff_until_ms (atomics s) = saturating_add_u64 t 30000)) /\
  (forall others b,
     run_call 5 0 others b (RecordLoad now) =
       (snd (record_h3_failure others now b), Recorded now (fst (record_h3_failure others now b))) /\
     run_call 3 0 others b ClearCount = (clear_h3_failures others b, Cleared) /\
     run_call 2 0 others b ResetCount = (reset_h3_failure_counter others b, ResetDone)).
Proof.
  split_and!.
  - intros Ht Hnow. pose proof (matches_after hint history Ht) as Hm.
    destruct (matches_failed hint history now _ Hm Ht Hnow) as [-> _]. destruct Hm as [Hh _ _ Hb].
    split_and!; [done| |done]. unfold h3_backoff_active. by rewrite Hb.
  - intros s Hs. destruct (breakers_reachable_ok hint s Hs) as [_ Hrest Hcalls]. split; [|done].
    intros t Hin. rewrite Forall_forall in Hcalls. apply (Hcalls _ Hin).
  - intros others b. split; [apply record_runs|]. split; [apply clear_runs|apply reset_runs].
Qed.

(** Failures that overlap are lost: two tasks find no failure before theirs
    and both store a count of one, so that the third failure, at the same
    time, is counted as the second and starts no rest. *)
Lemma overlapping_failures (hint : Z) :
  exists s, rtc breakers_step (fresh_breakers hint) s /\
    calls s = [Recorded 1000 false; Recorded 1000 false; Recorded 1000 false] /\ counted s = 3%nat.
Proof.
  set (F l c m a n := {| atomics := {| protocol_hint := hint; h3_failures := c; h3_last_failure_ms := m;
                                       h3_backoff_until_ms := a |}; calls := l; counted := n |}).
  exists (F [Recorded 1000 false; Recorded 1000 false; Recorded 1000 false] 2 1000 0 3%nat).
  split; [|done]. unfold fresh_breakers, fresh_breaker.
  eapply rtc_l; [by apply (breakers_start _ (RecordLoad 1000))|].
  eapply rtc_l; [by apply (breakers_start _ (RecordLoad 1000))|]. cbn.
  eapply rtc_l; [eapply (breakers_operation _ _ [] (RecordLoad 1000) _ [RecordLoad 1000]); reflexivity|]. cbn.
  eapply rtc_l; [eapply (breakers_operation _ _ [RecordCount 1000 0] (RecordLoad 1000) _ []); reflexivity|]. cbn.
  eapply rtc_l; [eapply (breakers_operation _ _ [] (RecordCount 1000 0) _ [RecordCount 1000 0]); reflexivity|]. cbn.
  eapply rtc_l; [eapply (breakers_operation _ _ [RecordTime 1000 1] (RecordCount 1000 0) _ []); reflexivity|]. cbn.
  eapply rtc_l; [eapply (breakers_operation _ _ [] (RecordTime 1000 1) _ [RecordTime 1000 1]); reflexivity|]. cbn.
  eapply rtc_l; [eapply (breakers_operation _ _ [Recorded 1000 false] (RecordTime 1000 1) _ []); reflexivity|]. cbn.
  eapply rtc_l; [by apply (breakers_start _ (RecordLoad 1000))|]. cbn.
  set (rest := [Recorded 1000 false; Recorded 1000 false]).
  eapply rtc_l; [eapply (breakers_operation _ _ [] (RecordLoad 1000) _ rest); reflexivity|]. cbn.
  eapply rtc_l; [eapply (breakers_operation _ _ [] (RecordCount 1000 1000) _ rest); reflexivity|]. cbn.
  eapply rtc_l; [eapply (breakers_operation _ _ [] (RecordTime 1000 2) _ rest); reflexivity|]. cbn.
  apply rtc_refl.
Qed.

(** ** Rebuilds *)
Definition spaced (times : list Z) : Prop :=
  forall i later earlier, times !! i = Some later -> times !! S i = Some earlier ->
    earlier + DOH_MIN_REBUILD_INTERVAL_MS <= later.

Definition justified (granted : list Z) (t : rebuilder) : Prop :=
  match t with
  | Loading now => 0 < now
  | Exchanging now prev => 0 < now /\ (prev = 0 \/ prev + DOH_MIN_REBUILD_INTERVAL_MS <= now)
  | Answered now true => now ∈ granted
  | Answered now false => exists g, g ∈ granted /\ now < g + DOH_MIN_REBUILD_INTERVAL_MS
  end.

Record rebuilds_ok (s : rebuilds) : Prop := {
  ok_cell : cell s = hd 0 (granted s);
  ok_positive : Forall (fun g => 0 < g) (granted s);
  ok_spaced : spaced (granted s);
  ok_tasks : Forall (justified (granted s)) (tasks s)
}.

Lemma justified_more g granted t : justified granted t -> justified (g :: granted) t.
Proof.
  destruct t as [now|now prev|now [|]]; cbn; try done.
  - intros H. by right.
  - intros (x & Hx & Hn). exists x. split; [by right|done].
Qed.

Lemma spaced_cons now times :
  spaced times -> (hd 0 times = 0 \/ hd 0 times + DOH_MIN_REBUILD_INTERVAL_MS <= now) ->
  Forall (fun g => 0 < g) times -> spaced (now :: times).
Proof.
  intros Hs Hh Hp [|i] later earlier Hl He; [|by apply (Hs i)].
  cbn in Hl. injection Hl as <-. destruct times as [|g times]; [done|].
  cbn in He. injection He as ->. cbn in Hh. apply Forall_cons in Hp as [Hp _]. lia.
Qed.

(** One step of a task in a good state. *)
Lemma rebuild_step_ok s t cell' t' :
  rebuilds_ok s -> justified (granted s) t -> rebuild_step (cell s) t = Some (cell', t') ->
  let granted' := match t' with Answered now true => now :: granted s | _ => granted s end in
  cell' = hd 0 granted' /\ Forall (fun g => 0 < g) granted' /\ spaced granted' /\
  justified granted' t' /\ (forall u, justified (granted s) u -> justified granted' u).
Proof.
  intros [Hc Hp Hsp _] Hj Hst. unfold rebuild_step, saturating_sub in Hst.
  destruct t as [now|now prev|]; [| |done].
  - destruct (negb _ && _) eqn:Hb; injection Hst as <- <-; cbn in *; split_and!; try done.
    + apply andb_true_iff in Hb as [H1 H2]. bool_to_prop. exists (cell s). split; [|].
      * rewrite Hc in *. destruct (granted s) as [|g l]; [done|]. left.
      * unfold DOH_MIN_REBUILD_INTERVAL_MS in *. lia.
    + apply andb_false_iff in Hb as [H1|H1]; bool_to_prop; [by left|right; unfold DOH_MIN_REBUILD_INTERVAL_MS in *; lia].
  - destruct (Z.eqb_spec (cell s) prev) as [He|]; injection Hst as <- <-; cbn in *; [|cbn; split_and!; try done; tauto].
    destruct Hj as [Hn Hj]. split_and!; [done|by constructor| |left|].
    + apply spaced_cons; [done| |done]. by rewrite <- Hc, He.
    + intros u. apply justified_more.
Qed.

Lemma rebuilds_step_ok s s' : rebuilds_ok s -> rebuilds_step s s' -> rebuilds_ok s'.
Proof.
  intros Hs H. destruct H as [s now Hnow|c c' l t t' r g Hst].
  - destruct Hs. split; cbn; try done. constructor; [cbn; lia|done].
  - pose proof (ok_tasks _ Hs) as Ht. cbn in Ht. apply Forall_app in Ht as [Hl Ht].
    apply Forall_cons in Ht as [Ht Hr].
    destruct (rebuild_step_ok _ _ _ _ Hs Ht Hst) as (H1 & H2 & H3 & H4 & H5). cbn in *.
    split; cbn; try done. apply Forall_app. split; [by eapply Forall_impl|].
    constructor; [done|by eapply Forall_impl].
Qed.

Lemma rebuilds_reachable_ok s : rtc rebuilds_step no_rebuilds s -> rebuilds_ok s.
Proof.
  intros H. remember no_rebuilds as s0. assert (rebuilds_ok s0) as H0.
  { subst s0. split; cbn; try done. }
  clear Heqs0. induction H; eauto using rebuilds_step_ok.
Qed.

Lemma spaced_span times :
  spaced times -> times <> [] ->
  DOH_MIN_REBUILD_INTERVAL_MS * (len times - 1) <= hd 0 times - List.last times 0.
Proof.
  induction times as [|later times IH]; [done|]. intros Hs _.
  destruct times as [|earlier times]; [autorewrite with doh_len; cbn; lia|].
  assert (spaced (earlier :: times)) as Hs' by (intros i x y Hx Hy; by apply (Hs (S i))).
  specialize (IH Hs' ltac:(done)). specialize (Hs 0%nat later earlier eq_refl eq_refl).
  rewrite len_cons. cbn [hd] in *. change (List.last (later :: earlier :: times) 0)
    with (List.last (earlier :: times) 0). lia.
Qed.

(** C16: the rate of rebuilds, for any number of tasks that call
    [can_rebuild] at any times and any interleaving of their atomic steps:
    between two rebuilds that are granted there is at least a second, so [n]
    of them take at least [n - 1] seconds; a task that is refused has a
    rebuild granted less than a second before its time; an exchange fails
    only because another rebuild has been granted meanwhile; and a task on
    its own is answered, and granted a rebuild exactly when there has been
    none or the last one is a second ago. *)
Theorem rebuild_rate (s : rebuilds) :
  rtc rebuilds_step no_rebuilds s ->
  spaced (granted s) /\
  (granted s <> [] ->
   DOH_MIN_REBUILD_INTERVAL_MS * (len (granted s) - 1) <= hd 0 (granted s) - List.last (granted s) 0) /\
  (forall now, Answered now false ∈ tasks s ->
     exists g, g ∈ granted s /\ now < g + DOH_MIN_REBUILD_INTERVAL_MS) /\
  (forall now prev cell', rebuild_step (cell s) (Exchanging now prev) = Some (cell', Loading now) ->
     hd 0 (granted s) <> prev) /\
  (forall now,
     let grant := (cell s =? 0) || (cell s + DOH_MIN_REBUILD_INTERVAL_MS <=? now) in
     can_rebuild now (cell s) = Ok (grant, if grant then now else cell s)).
Proof.
  intros H. pose proof (rebuilds_reachable_ok s H) as [Hc Hp Hsp Ht]. split_and!.
  - done.
  - by apply spaced_span.
  - intros now Hin. rewrite Forall_forall in Ht. apply (Ht _ Hin).
  - intros now prev cell'. rewrite <- Hc. cbn. destruct (Z.eqb_spec (cell s) prev); [done|]. done.
  - intros now. unfold can_rebuild, rebuild_loop, rebuild_step, saturating_sub, DOH_MIN_REBUILD_INTERVAL_MS.
    destruct (Z.eqb_spec (cell s) 0) as [->|H0]; [done|]. cbn [negb andb orb].
    destruct (Z.leb_spec (cell s + 1000) now) as [Hle|Hgt]; cmp_simpl; done.
Qed.

(** ** At concrete inputs *)
Definition three_failures : list h3_outcome := [Failed 2000; Failed 1000; Succeeded; Failed 900].

Lemma breaker_spec_witness :
  fst (record_h3_failure undisturbed 50000 (after DOH_PROTO_H3 three_failures)) = true.
Proof.
  assert (Forall timed three_failures) as Ht
    by (repeat (apply Forall_cons; split; [cbn; first [exact I|lia]|]); apply Forall_nil_2).
  destruct (breaker_spec DOH_PROTO_H3 three_failures 50000) as [H _].
  rewrite (proj1 (H Ht ltac:(done))). reflexivity.
Defined.

Lemma rebuild_rate_witness :
  exists s, granted s = [5000] /\ spaced (granted s).
Proof.
  exists {| cell := 5000; tasks := [Answered 5000 true]; granted := [5000] |}.
  split; [reflexivity|].
  apply (rebuild_rate {| cell := 5000; tasks := [Answered 5000 true]; granted := [5000] |}).
  eapply rtc_l; [by apply (step_call no_rebuilds 5000)|].
  eapply rtc_l; [by apply (step_task 0 0 [] (Loading 5000) (Exchanging 5000 0) [] [])|].
  eapply rtc_l; [by apply (step_task 0 5000 [] (Exchanging 5000 0) (Answered 5000 true) [] [])|].
  apply rtc_refl.
Defined.
