(* ===== verification/DohClient.v ===== *)
(** * Asking an HTTPS upstream

    [proxy_doh] of src/libdoh/src/lib.rs and what it calls: the choice of
    HTTP/2 or HTTP/3, the probes, the requests and their retries, the clients
    and when they are thrown away.

    Sockets, TLS, QUIC and the HTTP client are arguments; so is what other
    tasks do to the shared state while one waits.  An operation that has not
    come back when the timeout of the query strikes is one that diverges, in
    the state it has then. *)

From S2P Require Import Prelude Bytes Text Net Errors Http H3Pending Bootstrap Upstream DohPool Breaker.

Definition DOH_REQUEST_RETRY_LIMIT : Z := 2.
Definition DOH_PROBE_TLS_TIMEOUT_SECS : Z := 10.

(** ** State *)

(** The source addresses of a client's connections, and the server name its
    certificates are checked against when it connects to an address. *)
Inductive local_addresses := AnyAddress | OnlyAddress (ip : IpAddr).
Record DohH2Client := {
  local : local_addresses;
  fixed_server_name : option bytes
}.

(** The clock, the atomics and clients of [DohUpstream], and the pools of
    HTTP/3 connections with their free slots. *)
Record state := {
  clock_ms : Z;
  doh_breaker : breaker;
  h2_last_rebuild_ms : Z;
  h3_last_rebuild_ms : Z;
  h2_client : option DohH2Client;
  h2_target_addr : option SocketAddr;
  h3_pools : gmap bytes DohH3Pool;
  h3_slots : gmap Z Z
}.

Abbreviation on_state E A := (mutates state E A).

Definition set_breaker (b : breaker) (s : state) : state :=
  {| clock_ms := clock_ms s; doh_breaker := b; h2_last_rebuild_ms := h2_last_rebuild_ms s;
     h3_last_rebuild_ms := h3_last_rebuild_ms s; h2_client := h2_client s;
     h2_target_addr := h2_target_addr s; h3_pools := h3_pools s; h3_slots := h3_slots s |}.
Definition set_h2 (rebuild_ms : Z) (client : option DohH2Client) (target : option SocketAddr) (s : state) : state :=
  {| clock_ms := clock_ms s; doh_breaker := doh_breaker s; h2_last_rebuild_ms := rebuild_ms;
     h3_last_rebuild_ms := h3_last_rebuild_ms s; h2_client := client;
     h2_target_addr := target; h3_pools := h3_pools s; h3_slots := h3_slots s |}.
Definition set_h3 (rebuild_ms : Z) (pools : gmap bytes DohH3Pool) (slots : gmap Z Z) (s : state) : state :=
  {| clock_ms := clock_ms s; doh_breaker := doh_breaker s; h2_last_rebuild_ms := h2_last_rebuild_ms s;
     h3_last_rebuild_ms := rebuild_ms; h2_client := h2_client s;
     h2_target_addr := h2_target_addr s; h3_pools := pools; h3_slots := slots |}.

Definition protocol (s : state) : Z := protocol_hint (doh_breaker s).
Definition backoff (s : state) : bool := h3_backoff_active (clock_ms s) (doh_breaker s).
Definition with_breaker (f : breaker -> breaker) (s : state) : state := set_breaker (f (doh_breaker s)) s.

(** ** Throwing clients away *)
Definition reset_doh_h2_client (s : state) : state := set_h2 (h2_last_rebuild_ms s) None None s.

Definition doh_h3_client_cache_key (upstream : DohUpstream) : bytes := url upstream.

Definition load_or_init_doh_h3_pool (upstream : DohUpstream) (s : state) : DohH3Pool * state :=
  let key := doh_h3_client_cache_key upstream in
  match h3_pools s !! key with
  | Some existing => (existing, s)
  | None =>
      (DohH3Pool_new, set_h3 (h3_last_rebuild_ms s) (<[key := DohH3Pool_new]> (h3_pools s)) (h3_slots s) s)
  end.

Definition doh_h3_client_cached (upstream : DohUpstream) (s : state) : bool :=
  default false (has_clients <$> h3_pools s !! doh_h3_client_cache_key upstream).

(** Closing a connection is dropping it. *)
Definition reset_doh_h3_client (upstream : DohUpstream) (s : state) : state :=
  set_h3 (h3_last_rebuild_ms s) (delete (doh_h3_client_cache_key upstream) (h3_pools s)) (h3_slots s) s.

Definition maybe_reset_doh_h2_client {E} : on_state E unit := fun s =>
  match can_rebuild (clock_ms s) (h2_last_rebuild_ms s) with
  | Ok (granted, cell) =>
      let s := set_h2 cell (h2_client s) (h2_target_addr s) s in
      (Ok tt, if granted : bool then reset_doh_h2_client s else s)
  | _ => (Diverge, s)
  end.

Definition maybe_reset_doh_h3_client {E} (upstream : DohUpstream) : on_state E unit := fun s =>
  match can_rebuild (clock_ms s) (h3_last_rebuild_ms s) with
  | Ok (granted, cell) =>
      let s := set_h3 cell (h3_pools s) (h3_slots s) s in
      (Ok tt, if granted : bool then reset_doh_h3_client upstream s else s)
  | _ => (Diverge, s)
  end.

(** ** Retries *)
Section retries.
Context {F : Type} (retryable : F -> bool) (reset : on_state F unit).

(** The loop over the attempts; the failure of the last one is returned. *)
Fixpoint retry_loop (fuel : nat) (once : nat -> on_state F bytes) (had_cached_client : bool) (retries : Z)
    : on_state F bytes := fun s =>
  match fuel with
  | O => (Diverge, s)
  | S fuel =>
      match once (Z.to_nat retries) s with
      | (Err failure, s) =>
          if negb (had_cached_client && retryable failure && (retries <? DOH_REQUEST_RETRY_LIMIT)) then
            ((if retryable failure then reset else mret tt);; lift (Err failure)) s
          else (reset;; retry_loop fuel once had_cached_client (retries + 1)) s
      | r => r
      end
  end.
End retries.

Definition RETRY_TURNS : nat := 3.

(** The error of a failure. *)
Definition fail_with {F A : Type} (to_error : F -> DoHError.t) (m : on_state F A) : on_state DoHError.t A := fun s =>
  let '(r, s) := m s in (map_err to_error r, s).

Definition doh_post_h2_with_retries (once : nat -> on_state H2Failure.t bytes) : on_state DoHError.t bytes := fun s =>
  let had_cached_client := bool_decide (is_Some (h2_client s)) in
  fail_with H2Failure.err
    (retry_loop H2Failure.retryable maybe_reset_doh_h2_client RETRY_TURNS once had_cached_client 0) s.

Definition doh_post_h3_with_retries (upstream : DohUpstream) (once : nat -> on_state H3Failure.t bytes)
    : on_state H3Failure.t bytes := fun s =>
  let had_cached_client := doh_h3_client_cached upstream s in
  retry_loop H3Failure.retryable (maybe_reset_doh_h3_client upstream) RETRY_TURNS once had_cached_client 0 s.

(** ** Choosing the protocol *)
Section probes.
Context (globals_timeout : Duration) (local_bind_address : SocketAddr).

Definition probe_quic_timeout : Duration :=
  if globals_timeout =? 0 then from_secs DOH_PROBE_TLS_TIMEOUT_SECS else globals_timeout.

(** [tokio::time::timeout(timeout, fut)] *)
Definition within (in_time : bool) (fut : outcome DoHError.t unit) : outcome DoHError.t unit :=
  match fut with
  | Panic => Panic
  | Diverge => Err DoHError.UpstreamTimeout
  | r => if in_time then r else Err DoHError.UpstreamTimeout
  end.

(** The TCP socket and the TLS handshake of a probe: whether the host is a
    server name, the platform verifier is available, the handshake succeeds,
    all in time. *)
Record TlsProbe := {
  server_name_ok : bool;
  tls_config_ok : bool;
  tls_socket : TcpSocket;
  tls_handshake : bool;
  tls_in_time : bool
}.
Definition probe_tls (peer_addr : SocketAddr) (p : TlsProbe) : outcome DoHError.t unit :=
  ensure (server_name_ok p) DoHError.UpstreamIssue;;
  ensure (tls_config_ok p) DoHError.UpstreamIssue;;
  within (tls_in_time p)
    (_ ← map_err DoHError.Io (connect_tcp_with_local_bind local_bind_address peer_addr (tls_socket p));
     ensure (tls_handshake p) DoHError.UpstreamIssue).

(** A UDP socket bound for the peer, handed to the QUIC library; and the
    result of the QUIC connection. *)
Definition quic_socket {E : Type} (of_io : io_error -> E) (peer_addr : SocketAddr) (socket : UdpSocket)
    (from_udp : option io_error) : outcome E unit :=
  let io (e : option io_error) : outcome E unit := match e with None => Ok tt | Some e => Err (of_io e) end in
  bind_addr ← ok_or (local_bind_for_peer local_bind_address peer_addr)
    (of_io (io_error_new ErrorKind.AddrNotAvailable (ascii_bytes "local bind address family mismatch")));
  _ ← io (udp_bind socket bind_addr);
  _ ← io (udp_connect socket peer_addr);
  io from_udp.

Record QuicProbe := {
  quic_udp : UdpSocket;
  quic_from_udp : option io_error;
  quic_connects : bool;
  quic_in_time : bool
}.
Definition probe_h3 (peer_addr : SocketAddr) (p : QuicProbe) : outcome DoHError.t unit :=
  within (quic_in_time p)
    (quic_socket DoHError.Io peer_addr (quic_udp p) (quic_from_udp p);;
     ensure (quic_connects p) DoHError.UpstreamIssue).

(** The address of the upstream, the two probes, and which of them
    [tokio::select!] takes; [None] while neither is done. *)
Record selection := {
  peer : outcome DoHError.t SocketAddr;
  quic : QuicProbe;
  tls : TlsProbe;
  quic_first : option bool;
  meanwhile : state -> state
}.

Definition select_doh_protocol (p : selection) : on_state DoHError.t Z := fun s =>
  if backoff s then (Ok DOH_PROTO_H2, s)
  else
    match peer p with
    | Ok peer_addr =>
        let s := meanwhile p s in
        match quic_first p with
        | None => (Diverge, s)
        | Some true =>
            (match probe_h3 peer_addr (quic p) with
             | Ok _ => Ok DOH_PROTO_H3 | Err _ => Ok DOH_PROTO_H2 | Panic => Panic | Diverge => Diverge end, s)
        | Some false =>
            (match probe_tls peer_addr (tls p) with
             | Ok _ => Ok DOH_PROTO_H2 | Err _ => Ok DOH_PROTO_H3 | Panic => Panic | Diverge => Diverge end, s)
        end
    | Err _ => (Ok DOH_PROTO_H2, meanwhile p s)
    | Panic => (Panic, s)
    | Diverge => (Diverge, meanwhile p s)
    end.
End probes.

(** ** The query *)
Section proxy_doh.
Context (timeout : Duration) (local_bind_address : SocketAddr) (upstream : DohUpstream).
Context (h2_once : nat -> on_state H2Failure.t bytes) (h3_once : nat -> on_state H3Failure.t bytes).
Context (sel : selection).
(** What others do between the operations of the query's call on the breaker. *)
Context (breaker_others : disturbance).

(** The protocol of the query: the hint, unless HTTP/3 has a rest; or the one
    selected, which becomes the hint unless the rest made it HTTP/2. *)
Definition choose_protocol : on_state DoHError.t Z := fun s =>
  let p := protocol s in
  let p := if (p =? DOH_PROTO_H3) && backoff s then DOH_PROTO_H2 else p in
  if p =? DOH_PROTO_UNKNOWN then
    (p ← select_doh_protocol local_bind_address sel;
     s ← current;
     (if negb ((p =? DOH_PROTO_H2) && backoff s)
      then update (fun s => Ok (with_breaker (store_hint p) s)) else mret tt);;
     mret p) s
  else (Ok p, s).

(** What a failure of HTTP/3 does to the breaker and the hint. *)
Definition after_h3_failure (failure : H3Failure.t) (s : state) : state :=
  if H3Failure.retryable failure then
    let '(h3_backoff, b) := record_h3_failure breaker_others (clock_ms s) (doh_breaker s) in
    let reset_hint := H3Failure.retryable failure || h3_backoff in
    set_breaker (if reset_hint then store_hint DOH_PROTO_UNKNOWN b else b) s
  else with_breaker (fun b => store_hint DOH_PROTO_H2 (reset_h3_failure_counter breaker_others b)) s.

Definition ask_h2 : on_state DoHError.t bytes := doh_post_h2_with_retries h2_once.
Definition ask_h3_only : on_state DoHError.t bytes :=
  fail_with H3Failure.err (doh_post_h3_with_retries upstream h3_once).

Definition ask_h3_then_h2 : on_state DoHError.t bytes := fun s =>
  match doh_post_h3_with_retries upstream h3_once s with
  | (Ok packet, s) => (Ok packet, with_breaker (clear_h3_failures breaker_others) s)
  | (Err failure, s) => ask_h2 (after_h3_failure failure s)
  | (Panic, s) => (Panic, s)
  | (Diverge, s) => (Diverge, s)
  end.

Definition doh_query : on_state DoHError.t bytes :=
  if h3_only upstream then ask_h3_only
  else
    protocol ← choose_protocol;
    if protocol =? DOH_PROTO_H3 then ask_h3_then_h2 else ask_h2.

(** The timeout has struck. *)
Definition give_up_query : on_state DoHError.t bytes :=
  maybe_reset_doh_h2_client;;
  maybe_reset_doh_h3_client upstream;;
  (if h3_only upstream then mret tt
   else update (fun s => Ok (with_breaker (store_hint DOH_PROTO_UNKNOWN) s)));;
  lift (Err DoHError.UpstreamTimeout).

Definition proxy_doh : on_state DoHError.t bytes := fun s =>
  match doh_query s with
  | (Diverge, s) => if timeout =? 0 then (Diverge, s) else give_up_query s
  | r => r
  end.
End proxy_doh.

(** ** One HTTP/2 request *)
Section h2.
Context (local_bind_address : SocketAddr) (has_bootstrap_dns : bool).

Definition socket_addr_to_authority (addr : SocketAddr) : bytes :=
  match addr with
  | SockV4 o port => fmt_ipv4 o ++ [x3a] ++ decimal port
  | SockV6 o port _ _ => [x5b] ++ fmt_ipv6 o ++ [x5d; x3a] ++ decimal port
  end.

Definition use_bootstrap_for_upstream_host (upstream : DohUpstream) : bool :=
  has_bootstrap_dns && bool_decide (parse_ip (doh_host upstream) = None).

(** What building a client needs: the upstream's addresses, the platform's
    root certificates, whether the host is a server name; and what others do
    while the addresses are looked up. *)
Record h2_setup := {
  upstream_addrs : outcome DoHError.t (list SocketAddr);
  native_roots_ok : bool;
  host_is_server_name : bool;
  during_resolve : state -> state
}.

Definition http_local_addresses : local_addresses :=
  let ip := sock_ip local_bind_address in
  if is_unspecified ip then AnyAddress else OnlyAddress ip.

(** The first address a local socket can be bound for. *)
Definition bindable (addrs : list SocketAddr) : option SocketAddr :=
  List.find (fun addr => bool_decide (is_Some (local_bind_for_peer local_bind_address addr))) addrs.

Definition doh_h2_client (upstream : DohUpstream) (p : h2_setup) : on_state DoHError.t DohH2Client := fun s =>
  match h2_client s with
  | Some client => (Ok client, s)
  | None =>
      let use_bootstrap := use_bootstrap_for_upstream_host upstream in
      (target_addr ←
         (if use_bootstrap then
            addrs ← (fun s => (upstream_addrs p, during_resolve p s));
            lift (ok_or (bindable addrs) family_mismatch_error)
          else mret (SockV4 (vreplicate 4 x00) 0));
       lift (ensure (native_roots_ok p) DoHError.UpstreamIssue);;
       lift (ensure (negb use_bootstrap || host_is_server_name p) DoHError.UpstreamIssue);;
       let client := {|
         local := http_local_addresses;
         fixed_server_name := if use_bootstrap then Some (doh_host upstream) else None
       |} in
       let target := if use_bootstrap then Some target_addr else None in
       update (fun s => Ok (set_h2 (h2_last_rebuild_ms s) (Some client) target s));;
       mret client) s
  end.

Record h2_request := {
  req_uri : bytes;
  req_headers : list (bytes * bytes);
  req_body : bytes
}.
Inductive h2_answer :=
  | H2Error (err : h2_client_error)
  | H2Response (status : Z) (body : option (hyper_error + bytes))
  | H2Silent.

(** [uri_ok]: the text is a URI; [net]: what the client's request comes to,
    with what others do meanwhile. *)
Context (uri_ok : bytes -> bool) (net : DohH2Client -> h2_request -> h2_answer) (during_request : state -> state).

Definition doh_request (connect_authority query : bytes) (upstream : DohUpstream) : h2_request := {|
  req_uri := ascii_bytes "https://" ++ connect_authority ++ path upstream;
  req_headers :=
    [(ascii_bytes "content-type", ascii_bytes "application/dns-message");
     (ascii_bytes "accept", ascii_bytes "application/dns-message");
     (ascii_bytes "content-length", decimal (len query));
     (ascii_bytes "host", authority upstream)];
  req_body := query
|}.

Definition h2_invalid : H2Failure.t := {| H2Failure.err := DoHError.InvalidData; H2Failure.retryable := false |}.

Definition read_h2_answer (answer : h2_answer) : outcome H2Failure.t bytes :=
  match answer with
  | H2Error err => Err (H2Failure.from_hyper_legacy_error err)
  | H2Response status body =>
      if negb (status =? 200)
      then Err {| H2Failure.err := DoHError.UpstreamIssue; H2Failure.retryable := false |}
      else
        match body with
        | Some (inr data) => Ok data
        | Some (inl err) => Err (H2Failure.from_hyper_error err)
        | None => Diverge
        end
  | H2Silent => Diverge
  end.

Definition send_h2 (client : DohH2Client) (request : h2_request) : on_state H2Failure.t bytes := fun s =>
  (read_h2_answer (net client request), during_request s).

Definition doh_post_h2_once (upstream : DohUpstream) (query : bytes) (p : h2_setup) : on_state H2Failure.t bytes :=
  client ← (fun s => let '(r, s) := doh_h2_client upstream p s in (map_err H2Failure.from_doh_error r, s));
  s ← current;
  let connect_authority :=
    match h2_target_addr s with Some addr => socket_addr_to_authority addr | None => authority upstream end in
  let request := doh_request connect_authority query upstream in
  lift (ensure (uri_ok (req_uri request)) h2_invalid);;
  lift (ensure (builder_ok (req_headers request)) h2_invalid);;
  send_h2 client request.
End h2.

(** ** One HTTP/3 request *)
Section h3.
Context (local_bind_address : SocketAddr).

(** What a connection needs: the upstream's address, a UDP socket, and the
    QUIC connection or its error. *)
Record h3_setup := {
  doh_addr : outcome DoHError.t SocketAddr;
  h3_udp : UdpSocket;
  h3_from_udp : option io_error;
  quic_connection : std_error + Z
}.

Definition create_doh_h3_client (p : h3_setup) : outcome H3Failure.t Z :=
  peer_addr ← map_err H3Failure.from_doh_error (doh_addr p);
  _ ← quic_socket local_bind_address H3Failure.from_io peer_addr (h3_udp p) (h3_from_udp p);
  match quic_connection p with
  | inr client => Ok client
  | inl err => Err (H3Failure.from_boxed_sync err)
  end.

Definition h3_request_headers (query : bytes) (upstream : DohUpstream) : list (bytes * bytes) :=
  [(ascii_bytes ":method", ascii_bytes "POST");
   (ascii_bytes ":scheme", ascii_bytes "https");
   (ascii_bytes ":authority", authority upstream);
   (ascii_bytes ":path", path upstream);
   (ascii_bytes "content-type", ascii_bytes "application/dns-message");
   (ascii_bytes "accept", ascii_bytes "application/dns-message");
   (ascii_bytes "content-length", decimal (len query))].

(** The channels of a request: the errors of sending it, of receiving the
    body's channel and of sending the body, and what the event loop answers:
    [None] when it drops the channel. *)
Record h3_exchange := {
  send_request : option std_error;
  body_sender : option std_error;
  send_body : option std_error;
  loop_answer : option (option h3_result)
}.

(** The outcome, and what the request does to the connection's table. *)
Definition request (request_id : Z) (x : h3_exchange) : outcome H3Failure.t bytes * list action :=
  let cleanup := PendingH3RequestGuard_new request_id in
  let leave guard := Register request_id :: drop_guard true guard in
  match send_request x with
  | Some err => (Err (H3Failure.from_send_error err), leave cleanup)
  | None =>
      match body_sender x with
      | Some err => (Err (H3Failure.from_send_error err), leave cleanup)
      | None =>
          match send_body x with
          | Some err => (Err (H3Failure.from_send_error err), leave cleanup)
          | None =>
              match loop_answer x with
              | Some result =>
                  let result :=
                    match result with
                    | Some (inr body) => Ok body
                    | Some (inl failure) => Err failure
                    | None => Err (H3Failure.new_retryable DoHError.UpstreamIssue)
                    end in
                  (result, leave (disarm cleanup))
              | None => (Diverge, leave cleanup)
              end
          end
      end
  end.

(** What others do to the pool while a connection is made, and to the rest of
    the state until the request is done; meanwhile the request may hold a slot
    of a connection.  [pool_kept]: whether, after a connection has been found,
    the pool is still in the map; a reset by another task has taken it out,
    and the request then goes on with a pool of its own. *)
Record h3_world := {
  creation : h3_setup;
  pool_others : nat -> pool_state -> pool_state;
  pool_kept : bool;
  exchange_on : Z -> h3_exchange;
  others_meanwhile : option Z -> state -> state
}.

(** The request's permit is dropped, also when the request is cut off. *)
Definition release_slot (client : Z) (s : state) : state :=
  set_h3 (h3_last_rebuild_ms s) (h3_pools s)
    (<[client := default 0 (h3_slots s !! client) + 1]> (h3_slots s)) s.

Definition doh_post_h3_once (upstream : DohUpstream) (request_id : Z) (w : h3_world) : on_state H3Failure.t bytes :=
  fun s =>
  let '(p, s) := load_or_init_doh_h3_pool upstream s in
  let '(client, ps) :=
    doh_h3_client (create_doh_h3_client (creation w)) (pool_others w) {| pool := p; slots := h3_slots s |} in
  let key := doh_h3_client_cache_key upstream in
  let pools := if pool_kept w then <[key := pool ps]> (h3_pools s) else delete key (h3_pools s) in
  let s := set_h3 (h3_last_rebuild_ms s) pools (slots ps) s in
  match client with
  | Ok client =>
      (fst (request request_id (exchange_on w client)), release_slot client (others_meanwhile w (Some client) s))
  | Err e => (Err e, others_meanwhile w None s)
  | Panic => (Panic, s)
  | Diverge => (Diverge, others_meanwhile w None s)
  end.
End h3.
