(* ===== verification/DohClientFacts.v ===== *)
(** * The invariant of the state shared by the queries to HTTPS upstreams

    Every pool holds at most two connections and every connection has 0 to
    64 free slots, whatever the queries do; and no query panics. *)

From S2P Require Import Prelude Bytes Text Net Errors Http H3Pending Bootstrap BootstrapFacts Upstream DohPool.
From S2P Require Import DohPoolProps.
From S2P Require Import Breaker DohClient.

Record state_ok (s : state) : Prop := {
  pools_ok : forall key p, h3_pools s !! key = Some p -> 0 <= next p /\ len (clients p) <= DOH_H3_POOL_SIZE;
  slots_ok : forall client, 0 <= default 0 (h3_slots s !! client) <= DOH_H3_MAX_INFLIGHT_PER_CONN
}.

(** [m] keeps the invariant and does not panic. *)
Definition keeps {E A : Type} (m : on_state E A) : Prop :=
  forall s, state_ok s -> state_ok (snd (m s)) /\ fst (m s) <> Panic.

(** What others do keeps the invariant. *)
Definition respects (f : state -> state) : Prop := forall s, state_ok s -> state_ok (f s).

(** The parts of the state the invariant does not mention. *)
Lemma state_ok_breaker b s : state_ok s -> state_ok (set_breaker b s).
Proof. by intros []. Qed.
Lemma state_ok_h2 r c t s : state_ok s -> state_ok (set_h2 r c t s).
Proof. by intros []. Qed.
Lemma state_ok_h3_rebuild r s : state_ok s -> state_ok (set_h3 r (h3_pools s) (h3_slots s) s).
Proof. by intros []. Qed.
#[export] Hint Resolve state_ok_breaker state_ok_h2 state_ok_h3_rebuild : doh_state.

Section keeps.
Context {E A B : Type}.

Lemma keeps_ret (a : A) : @keeps E A (mret a).
Proof. by intros s Hs. Qed.
Lemma keeps_lift (r : outcome E A) : r <> Panic -> keeps (lift r).
Proof. by intros Hr s Hs. Qed.
Lemma keeps_current : @keeps E state current.
Proof. by intros s Hs. Qed.
Lemma keeps_update (f : state -> state) : respects f -> @keeps E unit (update (fun s => Ok (f s))).
Proof. intros Hf s Hs. by split; [apply Hf|]. Qed.

Lemma keeps_bind (m : on_state E A) (f : A -> on_state E B) :
  keeps m -> (forall a, keeps (f a)) -> keeps (m ≫= f).
Proof.
  intros Hm Hf s Hs. unfold mbind, mutates_bind. destruct (Hm s Hs) as [H1 H2].
  destruct (m s) as [[a|e| |] s1]; try done. by apply Hf.
Qed.

Lemma keeps_fail_with {F} (to_error : F -> DoHError.t) (m : on_state F A) : keeps m -> keeps (fail_with to_error m).
Proof.
  intros Hm s Hs. unfold fail_with. destruct (Hm s Hs) as [H1 H2]. destruct (m s) as [[] s1]; by split.
Qed.
End keeps.

(** ** Resets and retries *)
Lemma respects_reset_h3 upstream : respects (reset_doh_h3_client upstream).
Proof.
  intros s [Hp Hs]. split; [|done]. intros key p. cbn. intros H.
  apply lookup_delete_Some in H as [_ H]. by apply (Hp key).
Qed.

Lemma keeps_maybe_reset_h2 {E} : keeps (@maybe_reset_doh_h2_client E).
Proof.
  intros s Hs. unfold maybe_reset_doh_h2_client, reset_doh_h2_client.
  destruct (can_rebuild _ _) as [[[] cell]| | |]; cbn; auto with doh_state.
Qed.

Lemma keeps_maybe_reset_h3 {E} upstream : keeps (@maybe_reset_doh_h3_client E upstream).
Proof.
  intros s Hs. unfold maybe_reset_doh_h3_client.
  destruct (can_rebuild _ _) as [[[] cell]| | |]; cbn [fst snd]; (split; [|done]);
    auto using respects_reset_h3 with doh_state. by apply respects_reset_h3, state_ok_h3_rebuild.
Qed.

Lemma keeps_retry_loop {F} (retryable : F -> bool) (reset : on_state F unit) (once : nat -> on_state F bytes) fuel cached :
  keeps reset -> (forall n, keeps (once n)) ->
  forall retries, keeps (retry_loop retryable reset fuel once cached retries).
Proof.
  intros Hr Ho. induction fuel as [|fuel IH]; intros retries s Hs; [done|]. cbn [retry_loop].
  destruct (Ho (Z.to_nat retries) s Hs) as [H1 H2].
  destruct (once (Z.to_nat retries) s) as [[a|f| |] s1]; try done. cbn [fst snd] in *.
  destruct (negb _).
  - apply keeps_bind; [|intros; by apply keeps_lift|done]. destruct (retryable f); [done|apply keeps_ret].
  - apply keeps_bind; [done|intros; apply IH|done].
Qed.

Lemma keeps_h2_retries once : (forall n, keeps (once n)) -> keeps (doh_post_h2_with_retries once).
Proof.
  intros Ho s Hs. unfold doh_post_h2_with_retries.
  by apply keeps_fail_with; [apply keeps_retry_loop; [apply keeps_maybe_reset_h2|]|].
Qed.

Lemma keeps_h3_retries upstream once : (forall n, keeps (once n)) -> keeps (doh_post_h3_with_retries upstream once).
Proof.
  intros Ho s Hs. unfold doh_post_h3_with_retries.
  by apply keeps_retry_loop; [apply keeps_maybe_reset_h3| |].
Qed.

(** ** The probes and the choice of the protocol *)
Section probes.
Context (local : SocketAddr).

(** A probe always comes to an answer. *)
Lemma within_total in_time fut : fut <> Panic -> total (within in_time fut).
Proof. destruct fut; cbn; try done; by destruct in_time. Qed.

Lemma probe_tls_total peer p : total (probe_tls local peer p).
Proof.
  unfold probe_tls, ensure. destruct (server_name_ok p); [|done]. destruct (tls_config_ok p); [|done].
  cbn [mbind outcome_bind]. apply within_total.
  pose proof (connect_not_panic local peer (tls_socket p)).
  destruct (connect_tcp_with_local_bind _ _ _); cbn; try done. by destruct (tls_handshake p).
Qed.

Lemma quic_socket_total {E} (of_io : io_error -> E) peer socket from_udp :
  total (quic_socket local of_io peer socket from_udp).
Proof.
  unfold quic_socket. destruct (local_bind_for_peer _ _); [|done]. cbn.
  destruct (udp_bind socket _); [done|]. cbn. destruct (udp_connect socket _); [done|]. cbn.
  by destruct from_udp.
Qed.

Lemma probe_h3_total peer p : total (probe_h3 local peer p).
Proof.
  unfold probe_h3. apply within_total.
  pose proof (@quic_socket_total _ DoHError.Io peer (quic_udp p) (quic_from_udp p)) as H.
  destruct (quic_socket _ _ _ _ _); try done. cbn. by destruct (quic_connects p).
Qed.

(** The selection answers HTTP/2 or HTTP/3, or waits. *)
Lemma select_answers sel s :
  peer sel <> Panic ->
  match select_doh_protocol local sel s with
  | (Ok p, _) => p = DOH_PROTO_H2 \/ p = DOH_PROTO_H3
  | (Diverge, _) => peer sel = Diverge \/ quic_first sel = None
  | _ => False
  end.
Proof.
  intros Hp. unfold select_doh_protocol. destruct (backoff s); [by left|].
  destruct (peer sel) as [a|e| |]; [|by left|done|by left].
  destruct (quic_first sel) as [[|]|]; [| |by right].
  - pose proof (probe_h3_total a (quic sel)). destruct (probe_h3 _ _ _); try done; auto.
  - pose proof (probe_tls_total a (tls sel)). destruct (probe_tls _ _ _); try done; auto.
Qed.

Lemma choose_answers sel s :
  peer sel <> Panic ->
  match choose_protocol local sel s with
  | (Ok _, _) => True
  | (Diverge, _) => peer sel = Diverge \/ quic_first sel = None
  | _ => False
  end.
Proof.
  intros Hp. unfold choose_protocol.
  match goal with |- context [if ?c =? DOH_PROTO_UNKNOWN then _ else _] => destruct (c =? DOH_PROTO_UNKNOWN) end;
    [|done].
  pose proof (select_answers sel s Hp) as Hs. unfold mbind, mutates_bind.
  destruct (select_doh_protocol local sel s) as [[p| | |] s1]; try done. cbn.
  by destruct (negb _).
Qed.


Lemma keeps_select sel : peer sel <> Panic -> respects (meanwhile sel) -> keeps (select_doh_protocol local sel).
Proof.
  intros Hp Hm s Hs. split.
  - unfold select_doh_protocol. destruct (backoff s); [done|].
    destruct (peer sel); [|by apply Hm|done|by apply Hm].
    destruct (quic_first sel) as [[]|]; by apply Hm.
  - pose proof (select_answers sel s Hp). by destruct (select_doh_protocol local sel s) as [[]].
Qed.

Lemma keeps_choose sel : peer sel <> Panic -> respects (meanwhile sel) -> keeps (choose_protocol local sel).
Proof.
  intros Hp Hm s Hs. unfold choose_protocol.
  match goal with |- context [if ?c =? DOH_PROTO_UNKNOWN then _ else _] => destruct (c =? DOH_PROTO_UNKNOWN) end;
    [|done].
  apply keeps_bind; [by apply keeps_select| |done]. intros p. apply keeps_bind; [apply keeps_current|]. intros s1.
  apply keeps_bind; [|intros; apply keeps_ret].
  destruct (negb _); [|apply keeps_ret]. apply keeps_update. intros s2. apply state_ok_breaker.
Qed.
End probes.

(** ** The query *)
Lemma respects_after_h3_failure others failure : respects (after_h3_failure others failure).
Proof.
  intros s Hs. unfold after_h3_failure. destruct (H3Failure.retryable failure).
  - destruct (record_h3_failure _ _ _). by apply state_ok_breaker.
  - by apply state_ok_breaker.
Qed.

Section query.
Context (timeout : Duration) (local : SocketAddr) (upstream : DohUpstream).
Context (h2 : nat -> on_state H2Failure.t bytes) (h3 : nat -> on_state H3Failure.t bytes) (sel : selection).
Hypothesis h2_keeps : forall n, keeps (h2 n).
Hypothesis h3_keeps : forall n, keeps (h3 n).
Hypothesis peer_found : peer sel <> Panic.
Hypothesis others_respect : respects (meanwhile sel).
Context (breaker_others : disturbance).

Lemma keeps_h3_then_h2 : keeps (ask_h3_then_h2 upstream h2 h3 breaker_others).
Proof.
  intros s Hs. unfold ask_h3_then_h2. destruct (keeps_h3_retries upstream h3 h3_keeps s Hs) as [H1 H2].
  destruct (doh_post_h3_with_retries upstream h3 s) as [[p|f| |] s1]; try done; cbn [fst snd] in *.
  - split; [by apply state_ok_breaker|done].
  - by apply keeps_h2_retries, respects_after_h3_failure.
Qed.

Lemma keeps_doh_query : keeps (doh_query local upstream h2 h3 sel breaker_others).
Proof.
  unfold doh_query. destruct (h3_only upstream).
  - by apply keeps_fail_with, keeps_h3_retries.
  - apply keeps_bind; [by apply keeps_choose|]. intros p.
    destruct (p =? DOH_PROTO_H3); [apply keeps_h3_then_h2|by apply keeps_h2_retries].
Qed.

Lemma keeps_give_up : keeps (give_up_query upstream).
Proof.
  unfold give_up_query. apply keeps_bind; [apply keeps_maybe_reset_h2|intros _].
  apply keeps_bind; [apply keeps_maybe_reset_h3|intros _].
  apply keeps_bind; [|intros _; by apply keeps_lift].
  destruct (h3_only upstream); [apply keeps_ret|]. apply keeps_update. intros s. apply state_ok_breaker.
Qed.

Lemma keeps_proxy_doh : keeps (proxy_doh timeout local upstream h2 h3 sel breaker_others).
Proof.
  intros s Hs. unfold proxy_doh. destruct (keeps_doh_query s Hs) as [H1 H2].
  destruct (doh_query local upstream h2 h3 sel breaker_others s) as [[a|e| |] s1]; try done.
  destruct (timeout =? 0); [done|]. by apply keeps_give_up.
Qed.
End query.

(** ** The requests *)
Lemma keeps_h2_client local boot upstream p :
  upstream_addrs p <> Panic -> respects (during_resolve p) -> keeps (doh_h2_client local boot upstream p).
Proof.
  intros Ha Hd s Hs. unfold doh_h2_client. destruct (h2_client s); [done|]. cbn zeta.
  apply keeps_bind; [| |done].
  - destruct (use_bootstrap_for_upstream_host _ _); [|apply keeps_ret].
    apply keeps_bind; [intros s1 H1; split; [by apply Hd|done]|]. intros addrs. apply keeps_lift.
    by destruct (bindable local addrs).
  - intros target. apply keeps_bind; [apply keeps_lift; by destruct (native_roots_ok p)|intros _].
    apply keeps_bind; [apply keeps_lift; by destruct (_ || _)|intros _].
    apply keeps_bind; [|intros _; apply keeps_ret]. apply keeps_update. intros s1. apply state_ok_h2.
Qed.

Lemma keeps_post_h2 local boot uri_ok net during upstream query p :
  upstream_addrs p <> Panic -> respects (during_resolve p) -> respects during ->
  keeps (doh_post_h2_once local boot uri_ok net during upstream query p).
Proof.
  intros Ha Hd Hr. unfold doh_post_h2_once. apply keeps_bind.
  - intros s Hs. destruct (keeps_h2_client local boot upstream p Ha Hd s Hs) as [H1 H2].
    destruct (doh_h2_client local boot upstream p s) as [[] s1]; by split.
  - intros client. apply keeps_bind; [apply keeps_current|]. intros s1.
    apply keeps_bind; [apply keeps_lift; by destruct (uri_ok _)|intros _].
    apply keeps_bind; [apply keeps_lift; by destruct (builder_ok _)|intros _].
    intros s Hs. split; [by apply Hr|]. cbn. unfold read_h2_answer.
    destruct (net client _) as [e|st [[e|b]|]|]; try done; by destruct (negb _).
Qed.

Lemma pool_state_ok s p :
  state_ok s -> 0 <= next p -> len (clients p) <= DOH_H3_POOL_SIZE ->
  pool_ok {| pool := p; slots := h3_slots s |}.
Proof. intros [_ Hs] Hn Hl. by split. Qed.

Lemma load_or_init_ok upstream s :
  state_ok s ->
  let '(p, s') := load_or_init_doh_h3_pool upstream s in
  state_ok s' /\ 0 <= next p /\ len (clients p) <= DOH_H3_POOL_SIZE.
Proof.
  intros [Hp Hs]. unfold load_or_init_doh_h3_pool.
  destruct (h3_pools s !! doh_h3_client_cache_key upstream) as [p|] eqn:Hk.
  - split; [by split|]. by apply (Hp _ _ Hk).
  - split; [|done]. split; [|done]. intros key p. cbn.
    destruct (decide (key = doh_h3_client_cache_key upstream)) as [->|Hne].
    + rewrite lookup_insert_eq. by intros [= <-].
    + rewrite lookup_insert_ne by congruence. apply Hp.
Qed.

Lemma store_pool_ok upstream ps s :
  state_ok s -> pool_ok ps ->
  forall kept : bool, let key := doh_h3_client_cache_key upstream in
  state_ok (set_h3 (h3_last_rebuild_ms s)
    (if kept then <[key := pool ps]> (h3_pools s) else delete key (h3_pools s)) (slots ps) s).
Proof.
  intros [Hp Hs] [H1 H2 H3] kept k. subst k. split; [|exact H3]. intros key p. cbn.
  destruct kept; [|intros [_ H]%lookup_delete_Some; by apply (Hp key)].
  destruct (decide (key = doh_h3_client_cache_key upstream)) as [->|Hne].
  - rewrite lookup_insert_eq. by intros [= <-].
  - rewrite lookup_insert_ne by congruence. apply Hp.
Qed.

Lemma create_not_panic local p : doh_addr p <> Panic -> create_doh_h3_client local p <> Panic.
Proof.
  intros H. unfold create_doh_h3_client. destruct (doh_addr p) as [a|e| |]; try done. cbn.
  pose proof (quic_socket_total local H3Failure.from_io a (h3_udp p) (h3_from_udp p)) as Ht.
  destruct (quic_socket _ _ _ _ _); try done. cbn. by destruct (quic_connection p).
Qed.

Lemma request_not_panic request_id x : fst (request request_id x) <> Panic.
Proof. unfold request. by repeat case_match. Qed.

(** Others do not give back the slot the request holds. *)
Definition holds_slot (held : option Z) (s : state) : Prop :=
  match held with
  | Some client => default 0 (h3_slots s !! client) < DOH_H3_MAX_INFLIGHT_PER_CONN
  | None => True
  end.
Definition respects_holding (f : option Z -> state -> state) : Prop := forall held s,
  state_ok s -> holds_slot held s -> state_ok (f held s) /\ holds_slot held (f held s).

Lemma release_slot_ok client s : state_ok s -> holds_slot (Some client) s -> state_ok (release_slot client s).
Proof.
  intros [Hp Hs] Hh. split; [exact Hp|]. intros c. cbn. pose proof (Hs c).
  destruct (decide (c = client)) as [->|]; [rewrite lookup_insert_eq|by rewrite lookup_insert_ne by congruence].
  cbn in *. lia.
Qed.

Lemma keeps_post_h3 local upstream request_id w :
  doh_addr (creation w) <> Panic -> (forall n s, pool_ok s -> pool_ok (pool_others w n s)) ->
  respects_holding (others_meanwhile w) -> keeps (doh_post_h3_once local upstream request_id w).
Proof.
  intros Ha Ho Hr s Hs. unfold doh_post_h3_once.
  pose proof (load_or_init_ok upstream s Hs) as Hl.
  destruct (load_or_init_doh_h3_pool upstream s) as [p s1]. destruct Hl as (Hs1 & Hn & Hlen).
  pose proof (doh_h3_client_outcome (create_doh_h3_client local (creation w)) (pool_others w) Ho _
    (pool_state_ok s1 p Hs1 Hn Hlen)) as Hc.
  pose proof (create_not_panic local (creation w) Ha) as Hcp.
  destruct (doh_h3_client _ _ _) as [r ps].
  assert (pool_ok ps) as Hps by (destruct r; by destruct Hc).
  pose proof (store_pool_ok upstream ps s1 Hs1 Hps (pool_kept w)) as Hs2.
  destruct r as [client|e| |]; cbn [fst snd].
  - split; [|apply request_not_panic]. destruct Hc as (_ & s0 & Hok & Hf & ->).
    destruct (Hr (Some client) _ Hs2) as [H1 H2]; [|by apply release_slot_ok].
    cbn. rewrite lookup_insert_eq. cbn. pose proof (slots_bounded _ Hok client). lia.
  - split; [|done]. by apply (Hr None).
  - by destruct Hc.
  - split; [|done]. by apply (Hr None).
Qed.
