(* ===== verification/DohClientProps.v ===== *)
(** * Properties of asking an HTTPS upstream *)

From S2P Require Import Prelude Bytes Text Net Errors Http H3Pending Bootstrap Upstream DohPool Breaker DohClient.
From S2P Require Import DohClientFacts.

(** ** Resets always come back *)
Lemma can_rebuild_answers now cell : exists granted cell', can_rebuild now cell = Ok (granted, cell').
Proof.
  unfold can_rebuild. cbn. destruct (negb _ && _); cbn; [by eexists _, _|].
  rewrite Z.eqb_refl. by eexists _, _.
Qed.

Definition quiet {E} (m : on_state E unit) : Prop := forall s,
  exists s', m s = (Ok tt, s') /\ doh_breaker s' = doh_breaker s /\ clock_ms s' = clock_ms s.

Lemma reset_h2_quiet {E} : quiet (@maybe_reset_doh_h2_client E).
Proof.
  intros s. unfold maybe_reset_doh_h2_client.
  destruct (can_rebuild_answers (clock_ms s) (h2_last_rebuild_ms s)) as (g & c & ->).
  destruct g; by eexists.
Qed.

Lemma reset_h3_quiet {E} upstream : quiet (@maybe_reset_doh_h3_client E upstream).
Proof.
  intros s. unfold maybe_reset_doh_h3_client.
  destruct (can_rebuild_answers (clock_ms s) (h3_last_rebuild_ms s)) as (g & c & ->).
  destruct g; by eexists.
Qed.

(** ** Retries *)
Section retries.
Context {F : Type} (retryable : F -> bool) (reset : on_state F unit).
Context (reset_quiet : quiet reset).

(** The state before the [n]-th attempt: each attempt before it is followed
    by a reset. *)
Fixpoint state_before (once : nat -> on_state F bytes) (n : nat) (s : state) : state :=
  match n with
  | O => s
  | S n => snd (reset (snd (once n (state_before once n s))))
  end.
Definition attempt (once : nat -> on_state F bytes) (n : nat) (s : state) : outcome F bytes :=
  fst (once n (state_before once n s)).

Definition can_retry (r : outcome F bytes) : Prop := exists f, r = Err f /\ retryable f = true.

(** [answers once cached s r]: [r] is the result of attempt [n], the first
    whose result is not a failure that can be retried, or the last allowed. *)
Definition answers (once : nat -> on_state F bytes) (cached : bool) (s : state) (r : outcome F bytes) : Prop :=
  let last := if cached then 2%nat else 0%nat in
  exists n, (n <= last)%nat /\ r = attempt once n s /\
    (forall i, (i < n)%nat -> can_retry (attempt once i s)) /\
    (n = last \/ ~ can_retry (attempt once n s)).

Lemma retry_step fuel once cached retries s :
  retry_loop retryable reset (S fuel) once cached retries s =
  match once (Z.to_nat retries) s with
  | (Err failure, s') =>
      if cached && retryable failure && (retries <? DOH_REQUEST_RETRY_LIMIT)
      then retry_loop retryable reset fuel once cached (retries + 1) (snd (reset s'))
      else (Err failure, if retryable failure then snd (reset s') else s')
  | r => r
  end.
Proof.
  cbn [retry_loop]. destruct (once (Z.to_nat retries) s) as [[a|f| |] s']; try done.
  unfold mbind, mutates_bind. destruct (reset_quiet s') as (s2 & Hr & _).
  destruct (cached && retryable f && (retries <? DOH_REQUEST_RETRY_LIMIT)); cbn [negb].
  - by rewrite Hr.
  - destruct (retryable f); [by rewrite Hr|done].
Qed.

(** The loop, from the attempt it has come to. *)
Lemma retry_loop_from once cached s : forall n fuel,
  (n <= 2)%nat -> (cached = false -> n = 0%nat) -> (2 - n < fuel)%nat ->
  (forall i, (i < n)%nat -> can_retry (attempt once i s)) ->
  answers once cached s
    (fst (retry_loop retryable reset fuel once cached (Z.of_nat n) (state_before once n s))).
Proof.
  intros n fuel. revert n. induction fuel as [|fuel IH]; intros n Hn Hc Hf Hbefore; [lia|].
  rewrite retry_step, Nat2Z.id.
  assert (forall r, fst (once n (state_before once n s)) = r ->
    (n = (if cached then 2 else 0)%nat \/ ~ can_retry r) -> answers once cached s r) as Hdone.
  { intros r Hr Hl. exists n. split_and!; [|done|done|by unfold attempt; rewrite Hr].
    destruct cached; [done|]. rewrite Hc by done. lia. }
  destruct (once n (state_before once n s)) as [[a|f| |] s'] eqn:Ho; cbn [fst] in *.
  - apply Hdone; [done|]. right. intros (f & Hx & _). discriminate.
  - destruct (cached && retryable f && (Z.of_nat n <? DOH_REQUEST_RETRY_LIMIT)) eqn:Hgo.
    + apply andb_true_iff in Hgo as [Hgo Hlt]. apply andb_true_iff in Hgo as [-> Hret].
      apply Z.ltb_lt in Hlt. change DOH_REQUEST_RETRY_LIMIT with 2 in Hlt.
      replace (Z.of_nat n + 1) with (Z.of_nat (S n)) by lia.
      assert (snd (reset s') = state_before once (S n) s) as -> by (cbn; by rewrite Ho).
      apply IH; [lia|done|lia|]. intros i Hi.
      destruct (decide (i = n)) as [->|]; [|apply Hbefore; lia].
      exists f. unfold attempt. by rewrite Ho.
    + apply Hdone; [done|]. change DOH_REQUEST_RETRY_LIMIT with 2 in Hgo.
      destruct cached; [|left; by apply Hc]. destruct (retryable f) eqn:Hret.
      * left. cbn in Hgo. apply Z.ltb_ge in Hgo. lia.
      * right. intros (f' & [= <-] & Hx). congruence.
  - apply Hdone; [done|]. right. intros (f & Hx & _). discriminate.
  - apply Hdone; [done|]. right. intros (f & Hx & _). discriminate.
Qed.

Lemma retry_loop_answers once cached s :
  answers once cached s (fst (retry_loop retryable reset RETRY_TURNS once cached 0 s)).
Proof. apply (retry_loop_from once cached s 0 RETRY_TURNS); unfold RETRY_TURNS; (done || lia). Qed.
End retries.

Lemma h2_answers (once : nat -> on_state H2Failure.t bytes) s :
  exists r, fst (doh_post_h2_with_retries once s) = map_err H2Failure.err r /\
    answers H2Failure.retryable maybe_reset_doh_h2_client once (bool_decide (is_Some (h2_client s))) s r.
Proof.
  eexists. split; [|apply retry_loop_answers, reset_h2_quiet].
  unfold doh_post_h2_with_retries, fail_with. by destruct (retry_loop _ _ _ _ _ _ _).
Qed.

Lemma h3_answers upstream (once : nat -> on_state H3Failure.t bytes) s :
  answers H3Failure.retryable (maybe_reset_doh_h3_client upstream) once
    (doh_h3_client_cached upstream s) s (fst (doh_post_h3_with_retries upstream once s)).
Proof. apply retry_loop_answers, reset_h3_quiet. Qed.

(** C32: the retries of a request to an HTTPS upstream, over HTTP/2 and over
    HTTP/3, whatever the attempts do to the shared state.  Without a cached
    client there is one attempt, with one at most three; the result is that
    of the first attempt that succeeds or fails for good, or of the last one;
    and each attempt that is retried has failed in a way worth a retry and is
    followed by a call that resets the client. *)
Theorem retries_spec (upstream : DohUpstream) (h2_once : nat -> on_state H2Failure.t bytes)
    (h3_once : nat -> on_state H3Failure.t bytes) (s : state) :
  (exists r, fst (doh_post_h2_with_retries h2_once s) = map_err H2Failure.err r /\
     answers H2Failure.retryable maybe_reset_doh_h2_client h2_once
       (bool_decide (is_Some (h2_client s))) s r) /\
  answers H3Failure.retryable (maybe_reset_doh_h3_client upstream) h3_once
    (doh_h3_client_cached upstream s) s (fst (doh_post_h3_with_retries upstream h3_once s)).
Proof. split; [apply h2_answers|apply h3_answers]. Qed.

(** ** The query *)
Abbreviation h2_attempts := (nat -> on_state H2Failure.t bytes).
Abbreviation h3_attempts := (nat -> on_state H3Failure.t bytes).

Section proxy_doh.
Context (local : SocketAddr) (upstream : DohUpstream).

Definition hint_of {A} (r : A * state) : Z := protocol (snd r).

Lemma choose_backoff sel s :
  backoff s = true -> protocol s <> DOH_PROTO_UNKNOWN ->
  exists p, choose_protocol local sel s = (Ok p, s) /\ p <> DOH_PROTO_H3.
Proof.
  intros Hb Hp. unfold choose_protocol. rewrite Hb, andb_true_r.
  destruct (Z.eqb_spec (protocol s) DOH_PROTO_H3) as [H3|H3]; [by eexists|].
  rewrite (proj2 (Z.eqb_neq _ _) Hp). by eexists.
Qed.

Lemma choose_backoff_unknown sel s :
  backoff s = true -> protocol s = DOH_PROTO_UNKNOWN ->
  choose_protocol local sel s = (Ok DOH_PROTO_H2, s).
Proof.
  intros Hb Hp. unfold choose_protocol. rewrite Hp. cbn. unfold mbind, mutates_bind, select_doh_protocol.
  rewrite Hb. cbn. by rewrite Hb.
Qed.

(** HTTP/3 has a rest: HTTP/2 answers, nothing is probed and the hint stays. *)
Lemma doh_query_backoff (h2 : h2_attempts) (h3 : h3_attempts) sel bo s :
  h3_only upstream = false -> backoff s = true ->
  doh_query local upstream h2 h3 sel bo s = doh_post_h2_with_retries h2 s.
Proof.
  intros Ho Hb. unfold doh_query. rewrite Ho. unfold mbind, mutates_bind.
  destruct (decide (protocol s = DOH_PROTO_UNKNOWN)) as [Hu|Hu].
  - by rewrite choose_backoff_unknown.
  - destruct (choose_backoff sel s Hb Hu) as (p & -> & Hp). by rewrite (proj2 (Z.eqb_neq _ _) Hp).
Qed.

(** What an HTTP/3 failure leaves. *)
Lemma after_h3_failure_spec others (f : H3Failure.t) (s : state) :
  protocol (after_h3_failure others f s) = (if H3Failure.retryable f then DOH_PROTO_UNKNOWN else DOH_PROTO_H2) /\
  (H3Failure.retryable f = true -> fst (record_h3_failure others (clock_ms s) (doh_breaker s)) = true ->
   clock_ms s + 30000 <= u64_max ->
   forall now, now < clock_ms s + 30000 -> h3_backoff_active now (doh_breaker (after_h3_failure others f s)) = true).
Proof.
  unfold after_h3_failure. destruct (H3Failure.retryable f); [|done].
  unfold record_h3_failure. destruct (count_failure _ _ _) as [count b].
  destruct (H3_FAILURE_THRESHOLD <=? count); cbn; (split; [done|]); [|done].
  intros _ _ Hu now Hn. unfold h3_backoff_active, saturating_add_u64, H3_BACKOFF_SECS. cbn.
  apply Z.ltb_lt. lia.
Qed.

Lemma attempts_not {F} (retryable : F -> bool) (reset : on_state F unit) (once : nat -> on_state F bytes) cached s r :
  answers retryable reset once cached s r ->
  (forall (n : nat) (s : state), fst (once n s) <> Panic /\ fst (once n s) <> Diverge) -> r <> Panic /\ r <> Diverge.
Proof. intros (n & _ & -> & _) H. apply H. Qed.
End proxy_doh.

Section availability.
Context (local : SocketAddr) (upstream : DohUpstream).

Lemma h2_always (h2 : h2_attempts) s :
  (forall n s, exists packet, fst (h2 n s) = Ok packet) ->
  exists packet, fst (doh_post_h2_with_retries h2 s) = Ok packet.
Proof.
  intros H. destruct (h2_answers h2 s) as (r & -> & Ha).
  destruct Ha as (n & _ & -> & _). destruct (H n (state_before maybe_reset_doh_h2_client h2 n s)) as (packet & Hp).
  exists packet. unfold attempt. by rewrite Hp.
Qed.

Lemma h3_comes_back (h3 : h3_attempts) s :
  (forall n s, fst (h3 n s) <> Panic /\ fst (h3 n s) <> Diverge) ->
  fst (doh_post_h3_with_retries upstream h3 s) <> Panic /\ fst (doh_post_h3_with_retries upstream h3 s) <> Diverge.
Proof.
  intros H. by eapply attempts_not; [apply h3_answers|].
Qed.

(** With HTTP/2 in order, the query is answered. *)
Lemma doh_query_available (h2 : h2_attempts) (h3 : h3_attempts) sel bo s :
  h3_only upstream = false ->
  peer sel <> Panic -> peer sel <> Diverge -> quic_first sel <> None ->
  (forall n s, exists packet, fst (h2 n s) = Ok packet) ->
  (forall n s, fst (h3 n s) <> Panic /\ fst (h3 n s) <> Diverge) ->
  exists packet, fst (doh_query local upstream h2 h3 sel bo s) = Ok packet.
Proof.
  intros Ho Hp Hd Hq H2 H3. unfold doh_query. rewrite Ho. unfold mbind, mutates_bind.
  pose proof (choose_answers local sel s Hp) as Hc.
  destruct (choose_protocol local sel s) as [[p| | |] s1]; try done; [|by destruct Hc].
  destruct (p =? DOH_PROTO_H3); [|by apply h2_always].
  unfold ask_h3_then_h2. pose proof (h3_comes_back h3 s1 H3) as [Hx Hy].
  destruct (doh_post_h3_with_retries upstream h3 s1) as [[packet|f| |] s2]; try done.
  - by exists packet.
  - by apply h2_always.
Qed.
(** The timeout ends the query. *)
Lemma doh_query_cut_off timeout (h2 : h2_attempts) (h3 : h3_attempts) sel bo s :
  timeout <> 0 ->
  let r := proxy_doh timeout local upstream h2 h3 sel bo s in
  fst r <> Diverge /\
  (fst (doh_query local upstream h2 h3 sel bo s) = Diverge ->
   fst r = Err DoHError.UpstreamTimeout /\
   (h3_only upstream = false -> protocol (snd r) = DOH_PROTO_UNKNOWN)).
Proof.
  intros Ht r. subst r. unfold proxy_doh. rewrite (proj2 (Z.eqb_neq _ _) Ht).
  destruct (doh_query local upstream h2 h3 sel bo s) as [[a|e| |] s1]; try done.
  unfold give_up_query, mbind, mutates_bind.
  destruct (@reset_h2_quiet DoHError.t s1) as (s2 & -> & _).
  destruct (@reset_h3_quiet DoHError.t upstream s2) as (s3 & -> & _).
  by destruct (h3_only upstream).
Qed.
End availability.

(** C4: a query to an HTTPS upstream, whatever its requests do.  An
    HTTP/3-only upstream is never asked over HTTP/2, nor probed.  Any other
    is not asked over HTTP/3, nor probed, while HTTP/3 has a rest; after an
    HTTP/3 request that failed, with its retries, it is asked over HTTP/2, in
    a state whose hint is "unknown" if the failure was worth a retry and
    HTTP/2 if not; and when every HTTP/2 request succeeds, and the look-up,
    the probes and the HTTP/3 requests end, in whatever way, the query
    succeeds.  One that does not end is waited for, without asking over
    HTTP/2; with a timeout, the query comes back: a query cut off by it fails
    with [UpstreamTimeout], and unless the upstream is HTTP/3-only the next
    one probes again. *)
Theorem proxy_doh_spec (timeout : Duration) (local : SocketAddr) (upstream : DohUpstream)
    (h2 h2' : h2_attempts) (h3 h3' : h3_attempts) (sel sel' : selection) (bo : disturbance) (s : state) :
  (h3_only upstream = true ->
   proxy_doh timeout local upstream h2 h3 sel bo s = proxy_doh timeout local upstream h2' h3 sel' bo s) /\
  (h3_only upstream = false ->
   (backoff s = true ->
    proxy_doh timeout local upstream h2 h3 sel bo s = proxy_doh timeout local upstream h2 h3' sel' bo s) /\
   (forall f s1, doh_post_h3_with_retries upstream h3 s = (Err f, s1) ->
      ask_h3_then_h2 upstream h2 h3 bo s = doh_post_h2_with_retries h2 (after_h3_failure bo f s1) /\
      protocol (after_h3_failure bo f s1) =
        (if H3Failure.retryable f then DOH_PROTO_UNKNOWN else DOH_PROTO_H2)) /\
   (peer sel <> Panic -> peer sel <> Diverge -> quic_first sel <> None ->
    (forall n s, exists packet, fst (h2 n s) = Ok packet) ->
    (forall n s, fst (h3 n s) <> Panic /\ fst (h3 n s) <> Diverge) ->
    exists packet, fst (proxy_doh timeout local upstream h2 h3 sel bo s) = Ok packet)) /\
  (timeout <> 0 ->
   let r := proxy_doh timeout local upstream h2 h3 sel bo s in
   fst r <> Diverge /\
   (fst (doh_query local upstream h2 h3 sel bo s) = Diverge ->
    fst r = Err DoHError.UpstreamTimeout /\
    (h3_only upstream = false -> protocol (snd r) = DOH_PROTO_UNKNOWN))).
Proof.
  split_and!.
  - intros Ho. unfold proxy_doh, doh_query. by rewrite Ho.
  - intros Ho. split_and!.
    + intros Hb. unfold proxy_doh. by rewrite !doh_query_backoff.
    + intros f s1 Hf. unfold ask_h3_then_h2. rewrite Hf. split; [done|]. apply after_h3_failure_spec.
    + intros Hp Hd Hq H2 H3.
      destruct (doh_query_available local upstream h2 h3 sel bo s) as [packet Hr]; try done.
      exists packet. unfold proxy_doh. destruct (doh_query _ _ _ _ _ _ _) as [[]]; cbn in *; congruence.
  - by apply doh_query_cut_off.
Qed.

(** ** At a concrete input *)
Definition some_upstream : DohUpstream := {|
  url := ascii_bytes "https://dns.example/q"; doh_host := ascii_bytes "dns.example"; doh_port := 443;
  path := ascii_bytes "/q"; authority := ascii_bytes "dns.example"; h3_only := false
|}.
Definition some_state : state := {|
  clock_ms := 1000; doh_breaker := fresh_breaker DOH_PROTO_H3; h2_last_rebuild_ms := 0;
  h3_last_rebuild_ms := 0; h2_client := None; h2_target_addr := None; h3_pools := ∅; h3_slots := ∅
|}.
Definition some_selection : selection := {|
  peer := Err DoHError.UpstreamIssue;
  quic := {| quic_udp := {| udp_bind := fun _ => None; udp_connect := fun _ => None; udp_send := fun _ => None;
                            udp_recv := fun _ => Silence |};
             quic_from_udp := None; quic_connects := true; quic_in_time := true |};
  tls := {| server_name_ok := true; tls_config_ok := true;
            tls_socket := {| tcp_new := None; tcp_bind := fun _ => None; tcp_connect := fun _ => Connected |};
            tls_handshake := true; tls_in_time := true |};
  quic_first := Some true;
  meanwhile := fun s => s
|}.

(** HTTP/3 fails, HTTP/2 answers. *)
Lemma proxy_doh_spec_witness :
  exists packet,
    fst (proxy_doh 0 (SockV4 (vreplicate 4 x00) 0) some_upstream
      (fun _ s => (Ok [x2a], s)) (fun _ s => (Err (H3Failure.new_retryable DoHError.UpstreamIssue), s))
      some_selection undisturbed some_state) = Ok packet.
Proof.
  apply (proxy_doh_spec 0 (SockV4 (vreplicate 4 x00) 0) some_upstream
    (fun _ s => (Ok [x2a], s)) (fun _ s => (Ok [], s))
    (fun _ s => (Err (H3Failure.new_retryable DoHError.UpstreamIssue), s)) (fun _ s => (Ok [], s))
    some_selection some_selection undisturbed some_state); try done.
  intros _ s. by exists [x2a].
Defined.
