(* ===== verification/Config.v ===== *)
(** * The program's options: src/config.rs, src/utils.rs, src/main.rs

    What the command line becomes: the upstreams, addresses and limits of
    [Globals].  The parser of URLs ([url]), the resolver behind
    [to_socket_addrs] and the option parser ([clap]) are not part of the
    repository: the first is a class, the second an argument, and what the
    third gives is a record of raw values.

    [exit_with_error(msg)] ends the process: it is the error of a function
    of this file. *)

From S2P Require Import Prelude Bytes Text Net Errors Upstream.

Abbreviation exits := (outcome bytes).

(** ** Socket addresses: [s.parse::<SocketAddr>()] *)

(** [read_number(10, None, true)]: any number of digits *)
Definition read_decimal (mx : Z) : parser Z := fun s => read_number 10 (len s) true mx s.

Definition read_port : parser Z := fun s =>
  match read_given_char x3a s with Some (_, s) => read_decimal u16_max s | None => None end.

Definition read_scope_id : parser Z := fun s =>
  match read_given_char x25 s with Some (_, s) => read_decimal u32_max s | None => None end.

Definition read_socket_addr_v4 : parser SocketAddr := fun s =>
  match read_ipv4_addr s with
  | Some (ip, s) =>
      match read_port s, to_vec 4 ip with
      | Some (port, s), Some o => Some (SockV4 o port, s)
      | _, _ => None
      end
  | None => None
  end.

Definition read_socket_addr_v6 : parser SocketAddr := fun s =>
  match read_given_char x5b s with
  | None => None
  | Some (_, s) =>
      match read_ipv6_addr s with
      | None => None
      | Some (ip, s) =>
          let '(scope_id, s) := default (0, s) (read_scope_id s) in
          match read_given_char x5d s with
          | None => None
          | Some (_, s) =>
              match read_port s, to_vec 16 ip with
              | Some (port, s), Some o => Some (SockV6 o port 0 scope_id, s)
              | _, _ => None
              end
          end
      end
  end.

Definition parse_socket_addr (s : bytes) : option SocketAddr :=
  match
    match read_socket_addr_v4 s with Some r => Some r | None => read_socket_addr_v6 s end
  with
  | Some (a, []) => Some a
  | _ => None
  end.

Example parse_socket_addr_v4 :
  fmt_socket_addr <$> parse_socket_addr (ascii_bytes "127.0.0.1:3000") = Some (ascii_bytes "127.0.0.1:3000").
Proof. by vm_compute. Qed.
Example parse_socket_addr_v6 :
  fmt_socket_addr <$> parse_socket_addr (ascii_bytes "[2001:db8::1%7]:53") = Some (ascii_bytes "[2001:db8::1%7]:53").
Proof. by vm_compute. Qed.
Example parse_socket_addr_no_port : parse_socket_addr (ascii_bytes "9.9.9.9") = None.
Proof. by vm_compute. Qed.

(** ** Numbers *)

(** [ParseIntError] as text *)
Fixpoint digits_error (mx : Z) (s : bytes) (acc : Z) : string :=
  match s with
  | [] => "invalid digit found in string"
  | b :: s' =>
      match to_digit 10 b with
      | Some d => if acc * 10 + d <=? mx then digits_error mx s' (acc * 10 + d)
                  else "number too large to fit in target type"
      | None => "invalid digit found in string"
      end
  end.
Definition parse_int_error (mx : Z) (s : bytes) : bytes :=
  ascii_bytes
    match s with
    | [] => "cannot parse integer from empty string"
    | b :: s' => digits_error mx (if bool_decide (b = x2b) then s' else s) 0
    end.

(** [format!("Invalid {name} '{value}': {error}")] *)
Definition invalid (name : string) (value error : bytes) : bytes :=
  ascii_bytes "Invalid " ++ ascii_bytes name ++ ascii_bytes " '" ++ value ++ ascii_bytes "': " ++ error.

Definition parse_number (name : string) (mx : Z) (value : bytes) : exits Z :=
  ok_or (parse_uint mx value) (invalid name value (parse_int_error mx value)).

Definition parse_address (name : string) (value : bytes) : exits SocketAddr :=
  ok_or (parse_socket_addr value) (invalid name value (ascii_bytes "invalid socket address syntax")).

(** ** Defaults: src/constants.rs *)
Definition LISTEN_ADDRESS : bytes := ascii_bytes "127.0.0.1:3000".
Definition MAX_CLIENTS : Z := 512.
Definition MAX_CONCURRENT_STREAMS : Z := 16.
Definition PATH : bytes := ascii_bytes "/dns-query".
Definition ODOH_CONFIGS_PATH : bytes := ascii_bytes "/.well-known/odohconfigs".
Definition SERVER_ADDRESS : bytes := ascii_bytes "9.9.9.9:53".
Definition TIMEOUT_SEC : Z := 10.
Definition MAX_TTL : Z := 86400 * 7.
Definition MIN_TTL : Z := 10.
Definition ERR_TTL : Z := 2.

(** ** Upstreams *)
Inductive Host :=
  | Domain (domain : bytes)
  | Ipv4 (octets : vec byte 4)
  | Ipv6 (octets : vec byte 16).

(** The [url] crate: the text of the error, or the parts of the URL. *)
Class UrlApi := {
  Url : Type;
  Url_parse : bytes -> bytes + Url;
  as_str : Url -> bytes;
  scheme : Url -> bytes;
  host_str : Url -> option bytes;
  url_host : Url -> option Host;
  url_port : Url -> option Z;
  port_or_known_default : Url -> option Z;
  url_path : Url -> bytes;
  url_query : Url -> option bytes
}.

(** What its documentation promises of the URLs the program asks about. *)
Class UrlLaws `{UA : UrlApi} := {
  host_str_host : forall u, host_str u = None <-> url_host u = None;
  known_default : forall u, scheme u = ascii_bytes "https" ->
    port_or_known_default u = Some (default 443 (url_port u));
  path_absolute : forall u, url_path u = [] \/ head (url_path u) = Some x2f;
  host_str_ipv6 : forall u o, url_host u = Some (Ipv6 o) ->
    host_str u = Some ([x5b] ++ fmt_ipv6 (vec_to_list o) ++ [x5d])
}.

Section upstreams.
Context `{UA : UrlApi}.
(** [s.to_socket_addrs()]: the text of the error, or the addresses *)
Context (to_socket_addrs : bytes -> bytes + list SocketAddr).

Definition url_prefix (s : bytes) : bool :=
  starts_with (ascii_bytes "http://") s || starts_with (ascii_bytes "https://") s
  || starts_with (ascii_bytes "h3://") s || starts_with (ascii_bytes "tls://") s.

Definition is_scheme (url : Url) (s : string) : bool := bool_decide (scheme url = ascii_bytes s).

Definition quoted (before : string) (s : bytes) (behind : string) : bytes :=
  ascii_bytes before ++ s ++ ascii_bytes behind.

Definition fmt_host (host : Host) : bytes :=
  match host with
  | Ipv6 ip => [x5b] ++ fmt_ipv6 (vec_to_list ip) ++ [x5d]
  | Ipv4 ip => fmt_ipv4 (vec_to_list ip)
  | Domain domain => domain
  end.

(** An [https] or [h3] URL. *)
Definition doh_upstream (arg : bytes) (url : Url) : exits DohUpstream :=
  host ← ok_or (host_str url) (quoted "DoH URL '" arg "' must include a host");
  host_header ← ok_or (fmt_host <$> url_host url) (quoted "DoH URL '" arg "' must include a host");
  let port :=
    if is_scheme url "https" then default 443 (port_or_known_default url)
    else default 443 (url_port url) in
  let path := url_path url in
  let path := if bool_decide (path = [] \/ path = [x2f]) then PATH else path in
  let path := match url_query url with Some query => path ++ [x3f] ++ query | None => path end in
  let authority :=
    match url_port url with Some _ => host_header ++ [x3a] ++ decimal port | None => host_header end in
  Ok {| url := as_str url; doh_host := host; doh_port := port; path := path; authority := authority;
        h3_only := is_scheme url "h3" |}.

Definition parse_upstream_arg (server_address_str : bytes) : exits Upstream.t :=
  if url_prefix server_address_str then
    match Url_parse server_address_str with
    | inl e => Err (invalid "URL" server_address_str e)
    | inr url =>
        if is_scheme url "https" || is_scheme url "h3" then
          Upstream.Doh <$> doh_upstream server_address_str url
        else if is_scheme url "tls" then
          host ← ok_or (host_str url) (quoted "DoT URL '" server_address_str "' must include a host");
          Ok (Upstream.Dot {| dot_host := host; dot_port := default 853 (url_port url) |})
        else if is_scheme url "http" then
          Err (ascii_bytes "Only https://, h3://, or tls:// URLs are supported for upstreams")
        else Err (quoted "Unsupported URL scheme '" (scheme url) "' for upstream")
    end
  else
    match to_socket_addrs server_address_str with
    | inl e => Err (invalid "server address" server_address_str e)
    | inr [] => Err (quoted "Cannot resolve server address '" server_address_str "'")
    | inr (server_address :: _) => Ok (Upstream.Dns server_address)
    end.

Definition default_local_bind_addr (upstream : Upstream.t) : SocketAddr :=
  match upstream with
  | Upstream.Dns (SockV4 _ _) => SockV4 (vreplicate 4 x00) 0
  | Upstream.Dns (SockV6 _ _ flowinfo scope_id) => SockV6 (vreplicate 16 x00) 0 flowinfo scope_id
  | Upstream.Doh _ | Upstream.Dot _ => SockV4 (vreplicate 4 x00) 0
  end.

(** *** The checks of the option parser: src/utils.rs *)
Definition verify_sock_addr (arg_val : bytes) : outcome bytes bytes :=
  match parse_socket_addr arg_val with
  | Some _ => Ok arg_val
  | None =>
      Err (ascii_bytes "Could not parse " ++ [x22] ++ arg_val ++ [x22]
           ++ ascii_bytes " as a valid socket address (with port).")
  end.

Definition verify_remote_server (arg_val : bytes) : outcome bytes bytes :=
  match to_socket_addrs arg_val with
  | inr (_ :: _) => Ok arg_val
  | inr [] =>
      Err (ascii_bytes "Could not parse " ++ [x22] ++ arg_val ++ [x22] ++ ascii_bytes " as a valid remote uri")
  | inl err => Err err
  end.

Definition verify_upstream (arg_val : bytes) : outcome bytes bytes :=
  if url_prefix arg_val then
    match Url_parse arg_val with
    | inl e => Err (ascii_bytes "Invalid URL: " ++ e)
    | inr url =>
        _ ← (if is_scheme url "https" || is_scheme url "h3" || is_scheme url "tls" then Ok tt
             else if is_scheme url "http" then
               Err (ascii_bytes "Only https://, h3://, or tls:// URLs are supported for upstreams")
             else Err (quoted "Unsupported URL scheme '" (scheme url) "'"));
        match host_str url with
        | None => Err (ascii_bytes "URL must include a host")
        | Some _ => Ok arg_val
        end
    end
  else verify_remote_server arg_val.
End upstreams.

(** ** The command line *)

(** The raw values of the options; the ones with a default are always
    there. *)
Record Matches := {
  listen_address : option (list bytes);
  upstream_mode_arg : bytes;
  upstream_args : option (list bytes);
  local_bind_arg : option bytes;
  bootstrap : option (list bytes);
  path_arg : bytes;
  max_clients_arg : bytes;
  timeout_arg : bytes;
  max_concurrent : bytes;
  min_ttl_arg : bytes;
  max_ttl_arg : bytes;
  err_ttl_arg : bytes;
  disable_keepalive : bool;
  disable_post_arg : bool;
  allow_odoh_post_arg : bool;
  enable_ecs_arg : bool;
  ecs_prefix_v4_arg : bytes;
  ecs_prefix_v6_arg : bytes;
  tls_cert_path_arg : option bytes;
  tls_cert_key_path_arg : option bytes;
  hostname : option bytes;
  public_address : list bytes;
  public_port : option bytes
}.

(** The settings of the server, all of [Globals] but its shared state. *)
Record Settings := {
  tls_cert_path : option bytes;
  tls_cert_key_path : option bytes;
  listen_addresses : list SocketAddr;
  local_bind : SocketAddr;
  bootstrap_dns : list SocketAddr;
  all_upstreams : list Upstream.t;
  mode : UpstreamMode.t;
  doh_path : bytes;
  clients_limit : Z;
  timeout_ns : Duration;
  max_concurrent_streams : Z;
  ttl_min : Z;
  ttl_max : Z;
  ttl_err : Z;
  keepalive : bool;
  no_post : bool;
  odoh_post : bool;
  ecs : bool;
  ecs_v4 : Z;
  ecs_v6 : Z
}.

(** The DNS stamps that are printed. *)
Inductive stamp :=
  | DohStamp (host path : bytes) (address : option bytes) (port : option Z)
  | OdohStamp (host path : bytes) (port : option Z).

(** The options before any is given. *)
Definition default_matches : Matches := {|
  listen_address := None; upstream_mode_arg := ascii_bytes "load_balance"; upstream_args := None;
  local_bind_arg := None; bootstrap := None; path_arg := PATH; max_clients_arg := decimal MAX_CLIENTS;
  timeout_arg := decimal TIMEOUT_SEC; max_concurrent := decimal MAX_CONCURRENT_STREAMS;
  min_ttl_arg := decimal MIN_TTL; max_ttl_arg := decimal MAX_TTL; err_ttl_arg := decimal ERR_TTL;
  disable_keepalive := false; disable_post_arg := false; allow_odoh_post_arg := false;
  enable_ecs_arg := false; ecs_prefix_v4_arg := ascii_bytes "24"; ecs_prefix_v6_arg := ascii_bytes "56";
  tls_cert_path_arg := None; tls_cert_key_path_arg := None; hostname := None; public_address := [];
  public_port := None
|}.

Section parse_opts.
Context `{UA : UrlApi}.
Context (to_socket_addrs : bytes -> bytes + list SocketAddr).

Definition parse_listen_addresses (m : Matches) : exits (list SocketAddr) :=
  match listen_address m with
  | Some values => mapM (parse_address "listen address") values
  | None => a ← parse_address "default listen address" LISTEN_ADDRESS; Ok [a]
  end.

Definition parse_upstreams (m : Matches) : exits (list Upstream.t) :=
  let upstream_values := default [SERVER_ADDRESS] (upstream_args m) in
  upstreams ← mapM (parse_upstream_arg to_socket_addrs) upstream_values;
  match upstreams with
  | [] => u ← parse_upstream_arg to_socket_addrs SERVER_ADDRESS; Ok [u]
  | _ => Ok upstreams
  end.

Definition parse_local_bind (m : Matches) (upstreams : list Upstream.t) : exits SocketAddr :=
  match local_bind_arg m with
  | Some address => parse_address "local bind address" address
  | None => Ok (default (SockV4 (vreplicate 4 x00) 0) (default_local_bind_addr <$> head upstreams))
  end.

Definition parse_bootstrap (m : Matches) : exits (list SocketAddr) :=
  mapM (parse_address "bootstrap address") (default [] (bootstrap m)).

Definition absolute_path (path : bytes) : bytes :=
  if starts_with [x2f] path then path else x2f :: path.

(** The stamps: one for each public address, or one without an address; and
    one for Oblivious DoH. *)
Definition print_stamps (m : Matches) (path : bytes) : exits (list stamp) :=
  match hostname m with
  | None => Ok []
  | Some hostname =>
      public_port ←
        match public_port m with
        | Some port => Some <$> parse_number "public port" u16_max port
        | None => Ok None
        end;
      Ok (match public_address m with
          | [] => [DohStamp hostname path None public_port]
          | addresses => map (fun a => DohStamp hostname path (Some a) public_port) addresses
          end ++ [OdohStamp hostname path public_port])
  end.

(** Everything from the values of the options to the settings and the stamps.
    The addresses are resolved again here, after the option parser has
    resolved them: the resolver of this section need not answer as before. *)
Definition parse_opts (m : Matches) : exits (Settings * list stamp) :=
  listen_addresses ← parse_listen_addresses m;
  let upstream_mode := default UpstreamMode.LoadBalance (UpstreamMode.from_str (upstream_mode_arg m)) in
  upstreams ← parse_upstreams m;
  local_bind_address ← parse_local_bind m upstreams;
  bootstrap_dns ← parse_bootstrap m;
  let path := absolute_path (path_arg m) in
  max_clients ← parse_number "max clients" u64_max (max_clients_arg m);
  timeout_secs ← parse_number "timeout" u64_max (timeout_arg m);
  max_concurrent_streams ← parse_number "max concurrent streams" u32_max (max_concurrent m);
  min_ttl ← parse_number "min TTL" u32_max (min_ttl_arg m);
  max_ttl ← parse_number "max TTL" u32_max (max_ttl_arg m);
  err_ttl ← parse_number "error TTL" u32_max (err_ttl_arg m);
  ecs_prefix_v4 ← parse_number "ECS IPv4 prefix" 255 (ecs_prefix_v4_arg m);
  ecs_prefix_v6 ← parse_number "ECS IPv6 prefix" 255 (ecs_prefix_v6_arg m);
  stamps ← print_stamps m path;
  Ok ({|
    tls_cert_path := tls_cert_path_arg m;
    tls_cert_key_path :=
      match tls_cert_key_path_arg m with Some key => Some key | None => tls_cert_path_arg m end;
    listen_addresses := listen_addresses;
    local_bind := local_bind_address;
    bootstrap_dns := bootstrap_dns;
    all_upstreams := upstreams;
    mode := upstream_mode;
    doh_path := path;
    clients_limit := max_clients;
    timeout_ns := from_secs timeout_secs;
    max_concurrent_streams := max_concurrent_streams;
    ttl_min := min_ttl;
    ttl_max := max_ttl;
    ttl_err := err_ttl;
    keepalive := negb (disable_keepalive m);
    no_post := disable_post_arg m;
    odoh_post := allow_odoh_post_arg m;
    ecs := enable_ecs_arg m;
    ecs_v4 := ecs_prefix_v4;
    ecs_v6 := ecs_prefix_v6
  |}, stamps).

(** ** The start of the program: [main] *)

(** The settings and the stamps, or the message the program exits with.  The
    constants [main] fills [Globals] with are parsed first. *)
Definition configure (m : Matches) : exits (Settings * list stamp) :=
  _ ← parse_address "default listen address" LISTEN_ADDRESS;
  _ ← parse_address "default server address" SERVER_ADDRESS;
  parse_opts m.
End parse_opts.
