(* ===== verification/ConfigProps.v ===== *)
(** * Properties of the options *)

From S2P Require Import Prelude Bytes Text Net Errors Bootstrap Upstream Config.

(** ** Lists of values *)
Lemma mapM_exits {A B : Type} (f : A -> exits B) (l : list A) (R : A -> B -> Prop) :
  Forall (fun a => exists b, f a = Ok b /\ R a b) l -> exists r, mapM f l = Ok r /\ Forall2 R l r.
Proof.
  induction 1 as [|a l (b & Hb & HR) Hl (r & Hr & Hf)]; [by exists []|].
  exists (b :: r). cbn. rewrite Hb. cbn. rewrite Hr. cbn. split; [done|by constructor].
Qed.

Lemma parse_address_verified name value :
  verify_sock_addr value = Ok value -> exists a, parse_address name value = Ok a.
Proof.
  unfold verify_sock_addr, parse_address. destruct (parse_socket_addr value) as [a|]; [|done].
  by exists a.
Qed.

(** The value of an address option, and the options of addresses. *)
Definition address_of (value : bytes) (a : SocketAddr) : Prop := parse_socket_addr value = Some a.

Lemma parse_address_Ok name value a : parse_address name value = Ok a <-> address_of value a.
Proof. unfold parse_address, address_of, ok_or. destruct (parse_socket_addr value); split; congruence. Qed.

Lemma parse_addresses_verified name values :
  Forall (fun v => verify_sock_addr v = Ok v) values ->
  exists r, mapM (parse_address name) values = Ok r /\ Forall2 address_of values r.
Proof.
  intros H. apply mapM_exits. eapply Forall_impl; [exact H|]. intros v Hv.
  destruct (parse_address_verified name v Hv) as (a & Ha). exists a. split; [done|].
  by apply parse_address_Ok in Ha.
Qed.

Lemma parse_number_Ok name mx value n :
  parse_number name mx value = Ok n <-> parse_uint mx value = Some n.
Proof. unfold parse_number, ok_or. destruct (parse_uint mx value); split; congruence. Qed.

Lemma parse_digits_bounds mx s : forall acc n, 0 <= acc <= mx -> parse_digits mx s acc = Some n -> 0 <= n <= mx.
Proof.
  induction s as [|b s IH]; intros acc n Ha; cbn; [by intros [= <-]|].
  destruct (to_digit 10 b) as [d|] eqn:Hd; [|done].
  assert (0 <= d) as H0.
  { unfold to_digit in Hd. case_match; [|done]. injection Hd as <-. repeat case_match; bool_to_prop; lia. }
  destruct (Z.leb_spec (acc * 10 + d) mx); [|done]. apply IH. lia.
Qed.

Lemma parse_uint_bounds mx s n : 0 <= mx -> parse_uint mx s = Some n -> 0 <= n <= mx.
Proof.
  intros Hm. unfold parse_uint. destruct s as [|b s]; [done|]. case_bool_decide.
  - destruct s; [done|]. apply parse_digits_bounds. lia.
  - apply parse_digits_bounds. lia.
Qed.

(** ** Upstreams *)
Section upstreams.
Context `{UL : UrlLaws}.
Context (to_socket_addrs : bytes -> bytes + list SocketAddr).

(** What an accepted argument becomes. *)
Definition upstream_of (arg : bytes) (u : Upstream.t) : Prop :=
  match u with
  | Upstream.Dns a => url_prefix arg = false /\ exists l, to_socket_addrs arg = inr (a :: l)
  | Upstream.Doh d =>
      exists url, Url_parse arg = inr url /\ host_str url = Some (doh_host d) /\
        (scheme url = ascii_bytes "https" \/ scheme url = ascii_bytes "h3") /\
        (h3_only d = true <-> scheme url = ascii_bytes "h3") /\
        Upstream.url d = as_str url /\
        doh_port d = default 443 (url_port url) /\ head (Upstream.path d) = Some x2f /\
        Upstream.path d =
          (if bool_decide (url_path url = [] \/ url_path url = [x2f]) then ascii_bytes "/dns-query" else url_path url)
          ++ match url_query url with Some query => [x3f] ++ query | None => [] end /\
        exists h, url_host url = Some h /\
          Upstream.authority d =
          fmt_host h ++ match url_port url with Some p => [x3a] ++ decimal p | None => [] end
  | Upstream.Dot d =>
      exists url, Url_parse arg = inr url /\ host_str url = Some (dot_host d) /\
        scheme url = ascii_bytes "tls" /\ dot_port d = default 853 (url_port url)
  end.

Lemma host_some url h : host_str url = Some h -> exists host, url_host url = Some host.
Proof.
  intros Hh. destruct (url_host url) as [host|] eqn:He; [by exists host|].
  apply host_str_host in He. congruence.
Qed.

Lemma doh_path_absolute url :
  head (let path := url_path url in
        let path := if bool_decide (path = [] \/ path = [x2f]) then PATH else path in
        match url_query url with Some query => path ++ [x3f] ++ query | None => path end) = Some x2f.
Proof.
  cbn zeta. case_bool_decide as Hp.
  - destruct (url_query url); by vm_compute.
  - destruct (path_absolute url) as [He|He]; [tauto|].
    destruct (url_path url) as [|b p]; [done|]. cbn in He. injection He as ->. by destruct (url_query url).
Qed.

Lemma doh_upstream_spec arg url h :
  Url_parse arg = inr url -> host_str url = Some h ->
  (scheme url = ascii_bytes "https" \/ scheme url = ascii_bytes "h3") ->
  exists d, doh_upstream arg url = Ok d /\ upstream_of arg (Upstream.Doh d).
Proof.
  intros Hu Hh Hs. destruct (host_some url h Hh) as (host & Hhost).
  unfold doh_upstream. rewrite Hh, Hhost. cbn [ok_or fmap option_fmap option_map mbind outcome_bind].
  assert ((if is_scheme url "https" then default 443 (port_or_known_default url)
           else default 443 (url_port url)) = default 443 (url_port url)) as ->.
  { unfold is_scheme. case_bool_decide as Hc; [|done]. by rewrite known_default. }
  eexists. split; [reflexivity|]. exists url. cbn [Upstream.path Upstream.authority doh_host doh_port h3_only].
  split_and!; try done.
  - unfold is_scheme. by rewrite bool_decide_eq_true.
  - apply doh_path_absolute.
  - destruct (url_query url); [done|]. by rewrite app_nil_r.
  - exists host. split; [done|]. destruct (url_port url); [done|]. by rewrite app_nil_r.
Qed.

Lemma upstream_verified arg :
  verify_upstream to_socket_addrs arg = Ok arg ->
  exists u, parse_upstream_arg to_socket_addrs arg = Ok u /\ upstream_of arg u.
Proof.
  unfold verify_upstream, parse_upstream_arg, verify_remote_server.
  destruct (url_prefix arg) eqn:Hp.
  - destruct (Url_parse arg) as [e|url] eqn:Hu; [done|].
    destruct (is_scheme url "https" || is_scheme url "h3") eqn:Hs; cbn [orb].
    + intros H. cbn in H. destruct (host_str url) as [h|] eqn:Hh; [|done].
      destruct (doh_upstream_spec arg url h Hu Hh) as (d & -> & Hd); [|by eexists].
      apply orb_true_iff in Hs. unfold is_scheme in Hs. by rewrite !bool_decide_eq_true in Hs.
    + destruct (is_scheme url "tls") eqn:Ht; [|by destruct (is_scheme url "http")].
      intros H. cbn in H. destruct (host_str url) as [h|] eqn:Hh; [|done]. cbn. eexists. split; [done|].
      exists url. cbn. split_and!; try done. by apply bool_decide_eq_true in Ht.
  - destruct (to_socket_addrs arg) as [e|[|a l]] eqn:Ha; try done. intros _. eexists. split; [done|].
    split; [done|by exists l].
Qed.

(** An IPv6 literal never parses as an address once it is in the brackets in
    which [host_str] gives it: such a host is looked up as a name. *)
Lemma bracketed_not_ip s : parse_ip ([x5b] ++ s) = None.
Proof. reflexivity. Qed.

Lemma ipv6_literal_not_ip arg url o :
  Url_parse arg = inr url -> url_host url = Some (Ipv6 o) ->
  forall d, parse_upstream_arg to_socket_addrs arg = Ok (Upstream.Dot d) -> parse_ip (dot_host d) = None.
Proof.
  intros Hu Ho d. unfold parse_upstream_arg. destruct (url_prefix arg).
  - rewrite Hu. destruct (_ || _); [by destruct (doh_upstream arg url)|].
    destruct (is_scheme url "tls"); [|by destruct (is_scheme url "http")].
    rewrite (host_str_ipv6 url o Ho). cbn [ok_or mbind outcome_bind]. intros [= <-]. apply bracketed_not_ip.
  - by destruct (to_socket_addrs arg) as [|[]].
Qed.
End upstreams.

(** An upstream the option parser accepts never makes the program exit,
    and becomes what it says: a plain address the first one it resolves to;
    a URL the host, the port, given or that of the protocol, a path that
    starts with a slash, and the authority, with the port exactly when it is
    given; HTTP/3 only when the scheme is [h3]. *)
Theorem upstream_arg_spec `{UL : UrlLaws} (to_socket_addrs : bytes -> bytes + list SocketAddr) (arg : bytes) :
  verify_upstream to_socket_addrs arg = Ok arg ->
  exists u, parse_upstream_arg to_socket_addrs arg = Ok u /\ upstream_of to_socket_addrs arg u.
Proof. apply upstream_verified. Qed.

(** ** All options *)

(** The option parser has accepted the values. *)
Record verified `{UA : UrlApi} (to_socket_addrs : bytes -> bytes + list SocketAddr) (m : Matches) : Prop := {
  ok_listen : forall values, listen_address m = Some values ->
    values <> [] /\ Forall (fun v => verify_sock_addr v = Ok v) values;
  ok_upstreams : forall values, upstream_args m = Some values ->
    values <> [] /\ Forall (fun v => verify_upstream to_socket_addrs v = Ok v) values;
  ok_local : forall value, local_bind_arg m = Some value -> verify_sock_addr value = Ok value;
  ok_bootstrap : forall values, bootstrap m = Some values ->
    Forall (fun v => verify_sock_addr v = Ok v) values;
  ok_mode : is_Some (UpstreamMode.from_str (upstream_mode_arg m))
}.

(** The numbers it leaves to the program. *)
Definition numbers_ok (m : Matches) : Prop :=
  is_Some (parse_uint u64_max (max_clients_arg m)) /\ is_Some (parse_uint u64_max (timeout_arg m)) /\
  is_Some (parse_uint u32_max (max_concurrent m)) /\ is_Some (parse_uint u32_max (min_ttl_arg m)) /\
  is_Some (parse_uint u32_max (max_ttl_arg m)) /\ is_Some (parse_uint u32_max (err_ttl_arg m)) /\
  is_Some (parse_uint 255 (ecs_prefix_v4_arg m)) /\ is_Some (parse_uint 255 (ecs_prefix_v6_arg m)).

(** The public port, which is only read when there is a host name. *)
Definition public_port_ok (m : Matches) : Prop :=
  match hostname m, public_port m with
  | Some _, Some port => is_Some (parse_uint u16_max port)
  | _, _ => True
  end.

(** The addresses resolve once more. *)
Definition resolves `{UA : UrlApi} (to_socket_addrs : bytes -> bytes + list SocketAddr) (m : Matches) : Prop :=
  Forall (fun arg => url_prefix arg = false -> exists a l, to_socket_addrs arg = inr (a :: l))
    (default [SERVER_ADDRESS] (upstream_args m)).

(** The address to connect from when none is given. *)
Definition any_address_for (upstream : Upstream.t) : SocketAddr :=
  match upstream with
  | Upstream.Dns (SockV6 _ _ flowinfo scope_id) => SockV6 (vreplicate 16 x00) 0 flowinfo scope_id
  | _ => SockV4 (vreplicate 4 x00) 0
  end.

(** Every setting, as the options have it. *)
Record well_formed `{UA : UrlApi} (to_socket_addrs : bytes -> bytes + list SocketAddr) (m : Matches)
    (s : Settings) : Prop := {
  wf_listen : Forall2 address_of (default [LISTEN_ADDRESS] (listen_address m)) (listen_addresses s);
  wf_upstreams : Forall2 (upstream_of to_socket_addrs) (default [SERVER_ADDRESS] (upstream_args m)) (all_upstreams s);
  wf_some : listen_addresses s <> [] /\ all_upstreams s <> [];
  wf_local : match local_bind_arg m with
    | Some value => address_of value (local_bind s)
    | None => exists u, head (all_upstreams s) = Some u /\ local_bind s = any_address_for u
    end;
  wf_bind : forall a, local_bind_arg m = None -> head (all_upstreams s) = Some (Upstream.Dns a) ->
    local_bind_for_peer (local_bind s) a = Some (local_bind s);
  wf_bootstrap : Forall2 address_of (default [] (bootstrap m)) (bootstrap_dns s);
  wf_mode : UpstreamMode.from_str (upstream_mode_arg m) = Some (mode s);
  wf_path : doh_path s = (if bool_decide (head (path_arg m) = Some x2f) then path_arg m else x2f :: path_arg m);
  wf_clients : parse_uint u64_max (max_clients_arg m) = Some (clients_limit s);
  wf_timeout : exists secs, parse_uint u64_max (timeout_arg m) = Some secs /\ timeout_ns s = secs * 1000000000;
  wf_streams : parse_uint u32_max (max_concurrent m) = Some (max_concurrent_streams s);
  wf_min_ttl : parse_uint u32_max (min_ttl_arg m) = Some (ttl_min s);
  wf_max_ttl : parse_uint u32_max (max_ttl_arg m) = Some (ttl_max s);
  wf_err_ttl : parse_uint u32_max (err_ttl_arg m) = Some (ttl_err s);
  wf_keepalive : keepalive s = true <-> disable_keepalive m = false;
  wf_post : no_post s = disable_post_arg m /\ odoh_post s = allow_odoh_post_arg m;
  wf_ecs : ecs s = enable_ecs_arg m /\ parse_uint 255 (ecs_prefix_v4_arg m) = Some (ecs_v4 s) /\
    parse_uint 255 (ecs_prefix_v6_arg m) = Some (ecs_v6 s);
  wf_cert : tls_cert_path s = tls_cert_path_arg m;
  wf_cert_key : tls_cert_key_path s =
    match tls_cert_key_path_arg m with Some key => Some key | None => tls_cert_path_arg m end
}.

(** The stamps: for a host name, one for each public address, or one without
    an address, and one for Oblivious DoH, all with the public port. *)
Definition well_printed (m : Matches) (s : Settings) (stamps : list stamp) : Prop :=
  match hostname m with
  | None => stamps = []
  | Some host =>
      exists port,
        match public_port m with
        | Some p => exists n, parse_uint u16_max p = Some n /\ port = Some n
        | None => port = None
        end /\
        stamps =
          match public_address m with
          | [] => [DohStamp host (doh_path s) None port]
          | addresses => (fun a => DohStamp host (doh_path s) (Some a) port) <$> addresses
          end ++ [OdohStamp host (doh_path s) port]
  end.

(** Every limit is in the range of its type, and a certificate has a key. *)
Lemma wf_numbers `{UA : UrlApi} to_socket_addrs m s :
  well_formed to_socket_addrs m s ->
  0 <= clients_limit s <= u64_max /\ 0 <= timeout_ns s /\
  0 <= max_concurrent_streams s <= u32_max /\ 0 <= ttl_min s <= u32_max /\ 0 <= ttl_max s <= u32_max /\
  0 <= ttl_err s <= u32_max /\ 0 <= ecs_v4 s <= 255 /\ 0 <= ecs_v6 s <= 255.
Proof.
  intros H. destruct (wf_timeout _ _ _ H) as (secs & Hs & ->). destruct (wf_ecs _ _ _ H) as (_ & H4 & H6).
  pose proof (wf_clients _ _ _ H) as H1. pose proof (wf_streams _ _ _ H) as H2.
  pose proof (wf_min_ttl _ _ _ H) as H3. pose proof (wf_max_ttl _ _ _ H) as H5. pose proof (wf_err_ttl _ _ _ H) as H7.
  apply parse_uint_bounds in Hs, H1, H2, H3, H4, H5, H6, H7; lia.
Qed.

Lemma wf_key `{UA : UrlApi} to_socket_addrs m s :
  well_formed to_socket_addrs m s -> is_Some (tls_cert_path s) -> is_Some (tls_cert_key_path s).
Proof.
  intros H. rewrite (wf_cert _ _ _ H), (wf_cert_key _ _ _ H). intros [c ->]. by destruct (tls_cert_key_path_arg m).
Qed.

(** ** The parts *)
Section parse_opts.
Context `{UL : UrlLaws}.
(** The resolver as the option parser saw it, and as the program does. *)
Context (resolver to_socket_addrs : bytes -> bytes + list SocketAddr) (m : Matches).
Hypothesis accepted : verified resolver m.

Lemma listen_ok :
  exists r, parse_listen_addresses m = Ok r /\
    Forall2 address_of (default [LISTEN_ADDRESS] (listen_address m)) r /\ r <> [].
Proof.
  unfold parse_listen_addresses. destruct (listen_address m) as [values|] eqn:Hl.
  - destruct (ok_listen _ _ accepted values Hl) as [Hn Hv].
    destruct (parse_addresses_verified "listen address" values Hv) as (r & Hr & Hf).
    exists r. split_and!; [done|done|]. intros ->. by apply Forall2_nil_inv_r in Hf.
  - assert (exists a, parse_socket_addr LISTEN_ADDRESS = Some a) as (a & Ha) by (eexists; by vm_compute).
    exists [a]. unfold parse_address. rewrite Ha. split_and!; [done| |done]. by repeat constructor.
Qed.

(** What the option parser says of a URL does not depend on the resolver. *)
Lemma verify_upstream_again arg :
  verify_upstream resolver arg = Ok arg ->
  (url_prefix arg = false -> exists a l, to_socket_addrs arg = inr (a :: l)) ->
  verify_upstream to_socket_addrs arg = Ok arg.
Proof.
  unfold verify_upstream. destruct (url_prefix arg); [done|]. intros _ H.
  destruct (H eq_refl) as (a & l & Ha). unfold verify_remote_server. by rewrite Ha.
Qed.

Lemma upstreams_verified :
  resolves to_socket_addrs m ->
  Forall (fun arg => verify_upstream to_socket_addrs arg = Ok arg) (default [SERVER_ADDRESS] (upstream_args m)).
Proof.
  intros Hr. unfold resolves in Hr. destruct (upstream_args m) as [values|] eqn:Hu; cbn [default] in *.
  - destruct (ok_upstreams _ _ accepted values Hu) as [_ Hv].
    rewrite Forall_forall in *. intros arg Ha. by apply verify_upstream_again; [apply Hv|apply Hr].
  - apply Forall_inv in Hr. constructor; [|constructor]. unfold verify_upstream.
    assert (url_prefix SERVER_ADDRESS = false) as Hp by reflexivity. rewrite Hp.
    destruct (Hr Hp) as (a & l & Ha). unfold verify_remote_server. by rewrite Ha.
Qed.

Lemma upstream_values_some : default [SERVER_ADDRESS] (upstream_args m) <> [].
Proof.
  destruct (upstream_args m) as [values|] eqn:Hu; [|done]. cbn. by apply (ok_upstreams _ _ accepted values Hu).
Qed.

Lemma upstreams_ok :
  resolves to_socket_addrs m ->
  exists r, parse_upstreams to_socket_addrs m = Ok r /\
    Forall2 (upstream_of to_socket_addrs) (default [SERVER_ADDRESS] (upstream_args m)) r /\ r <> [].
Proof.
  intros Hres. unfold parse_upstreams.
  destruct (mapM_exits (parse_upstream_arg to_socket_addrs) (default [SERVER_ADDRESS] (upstream_args m))
    (upstream_of to_socket_addrs)) as (r & Hr & Hf).
  { eapply Forall_impl; [by apply upstreams_verified|]. intros. by apply upstream_verified. }
  exists r. rewrite Hr. cbn. assert (r <> []) as Hn.
  { intros ->. apply Forall2_nil_inv_r in Hf. by apply upstream_values_some. }
  by destruct r.
Qed.

(** An address that no longer resolves ends the program. *)
Lemma upstreams_resolved r : parse_upstreams to_socket_addrs m = Ok r -> resolves to_socket_addrs m.
Proof.
  unfold parse_upstreams, resolves. generalize (default [SERVER_ADDRESS] (upstream_args m)). intros values H.
  destruct (mapM (parse_upstream_arg to_socket_addrs) values) as [ups|e| |] eqn:Hm; try done. clear H.
  revert ups Hm. induction values as [|arg values IH]; intros ups Hm; [constructor|].
  cbn in Hm. destruct (parse_upstream_arg to_socket_addrs arg) as [u|e| |] eqn:Hu; try done. cbn in Hm.
  destruct (mapM (parse_upstream_arg to_socket_addrs) values) as [us|e| |] eqn:Hus; try done.
  constructor; [|by eapply IH]. intros Hp. unfold parse_upstream_arg in Hu. rewrite Hp in Hu.
  destruct (to_socket_addrs arg) as [e|[|a l]]; try done. by eexists _, _.
Qed.

Lemma parse_upstream_total arg : total (parse_upstream_arg to_socket_addrs arg).
Proof.
  unfold parse_upstream_arg, doh_upstream, ok_or. repeat (case_match; cbn [mbind fmap outcome_bind outcome_fmap]; try done).
Qed.

Lemma parse_upstreams_total : total (parse_upstreams to_socket_addrs m).
Proof.
  unfold parse_upstreams. generalize (default [SERVER_ADDRESS] (upstream_args m)). intros values.
  assert (total (mapM (parse_upstream_arg to_socket_addrs) values)) as Ht.
  { induction values as [|arg values IH]; [done|]. cbn. pose proof (parse_upstream_total arg).
    destruct (parse_upstream_arg to_socket_addrs arg); try done. cbn.
    by destruct (mapM (parse_upstream_arg to_socket_addrs) values). }
  destruct (mapM _ values) as [[|u ups]|e| |]; try done. cbn [mbind outcome_bind].
  pose proof (parse_upstream_total SERVER_ADDRESS) as Hd.
  by destruct (parse_upstream_arg to_socket_addrs SERVER_ADDRESS).
Qed.

Lemma local_ok ups :
  ups <> [] ->
  exists a, parse_local_bind m ups = Ok a /\
    match local_bind_arg m with
    | Some value => address_of value a
    | None => exists u, head ups = Some u /\ a = any_address_for u
    end.
Proof.
  intros Hn. unfold parse_local_bind. destruct (local_bind_arg m) as [v|] eqn:Hv.
  - destruct (parse_address_verified "local bind address" v (ok_local _ _ accepted v Hv)) as (a & Ha).
    exists a. split; [done|]. by apply parse_address_Ok in Ha.
  - destruct ups as [|u ups]; [done|]. eexists. split; [done|]. exists u. split; [done|]. by destruct u as [[]| |].
Qed.

Lemma bootstrap_ok : exists r, parse_bootstrap m = Ok r /\ Forall2 address_of (default [] (bootstrap m)) r.
Proof.
  unfold parse_bootstrap. destruct (bootstrap m) as [values|] eqn:Hb; cbn; [|by exists []].
  apply (parse_addresses_verified "bootstrap address" values (ok_bootstrap _ _ accepted values Hb)).
Qed.
End parse_opts.

Lemma absolute_path_exact path :
  absolute_path path = if bool_decide (head path = Some x2f) then path else x2f :: path.
Proof.
  unfold absolute_path, starts_with. destruct path as [|b path]; [done|]. cbn.
  repeat case_bool_decide; naive_solver.
Qed.

Lemma number_ok name mx value : is_Some (parse_uint mx value) -> exists n, parse_number name mx value = Ok n.
Proof. intros [n Hn]. exists n. by apply parse_number_Ok. Qed.

Lemma stamps_ok m p : public_port_ok m -> exists stamps, print_stamps m p = Ok stamps.
Proof.
  unfold print_stamps, public_port_ok. destruct (hostname m) as [h|]; [|by eexists].
  destruct (public_port m) as [port|]; [|by eexists]. intros [n Hn]%(number_ok "public port").
  rewrite Hn. by eexists.
Qed.

Lemma stamps_printed m s stamps :
  print_stamps m (doh_path s) = Ok stamps -> public_port_ok m /\ well_printed m s stamps.
Proof.
  unfold print_stamps, public_port_ok, well_printed. destruct (hostname m) as [h|]; [|by intros [= <-]].
  destruct (public_port m) as [port|]; cbn.
  - destruct (parse_number "public port" u16_max port) as [n|e| |] eqn:Hn; cbn; try done.
    apply parse_number_Ok in Hn. intros [= <-]. split; [by exists n|]. exists (Some n). split; [by exists n|done].
  - intros [= <-]. split; [done|]. by exists None.
Qed.

Lemma print_stamps_total m p : total (print_stamps m p).
Proof.
  unfold print_stamps. destruct (hostname m); [|done]. destruct (public_port m) as [port|]; [|done].
  unfold parse_number, ok_or. by destruct (parse_uint u16_max port).
Qed.

(** What a successful run has parsed. *)
Lemma parse_opts_parsed `{UL : UrlLaws} (resolver to_socket_addrs : bytes -> bytes + list SocketAddr)
    (m : Matches) s stamps :
  verified resolver m -> parse_opts to_socket_addrs m = Ok (s, stamps) ->
  (numbers_ok m /\ public_port_ok m /\ resolves to_socket_addrs m) /\
  well_formed to_socket_addrs m s /\ well_printed m s stamps.
Proof.
  intros Hv H. destruct (listen_ok resolver m Hv) as (la & Hla & Hlaf & Hlan).
  destruct (bootstrap_ok resolver m Hv) as (bs & Hbs & Hbsf). destruct (ok_mode _ _ Hv) as [md Hmd].
  unfold parse_opts in H. rewrite Hla in H. cbn [mbind outcome_bind] in H.
  destruct (parse_upstreams to_socket_addrs m) as [ups|e| |] eqn:Hups; try done. cbn [mbind outcome_bind] in H.
  pose proof (upstreams_resolved _ _ _ Hups) as Hres.
  destruct (upstreams_ok resolver to_socket_addrs m Hv Hres) as (ups' & Hups' & Hupsf & Hupsn).
  rewrite Hups in Hups'. injection Hups' as <-.
  destruct (local_ok resolver m Hv ups Hupsn) as (lb & Hlb & Hlbf). rewrite Hlb, Hbs, Hmd in H.
  cbn [mbind outcome_bind default] in H. inv_ok.
  repeat match goal with Hn : parse_number _ _ _ = Ok _ |- _ => apply parse_number_Ok in Hn end.
  match goal with Hp : print_stamps _ _ = Ok _ |- context [well_formed _ _ ?s] =>
    destruct (stamps_printed m s stamps Hp) as [Hport Hst] end.
  split; [|split; [|done]].
  - split_and!; [|done|done]. unfold numbers_ok. split_and!; by eexists.
  - split; cbn; try done.
    + intros peer Hn Hh. rewrite Hn in Hlbf. destruct Hlbf as (u & Hu & ->). rewrite Hh in Hu. injection Hu as <-.
      by destruct peer.
    + apply absolute_path_exact.
    + eexists. split; [eassumption|]. unfold from_secs. lia.
    + by destruct (disable_keepalive m).
Qed.

(** Which options make a successful run. *)
Lemma parse_opts_succeeds `{UL : UrlLaws} (resolver to_socket_addrs : bytes -> bytes + list SocketAddr)
    (m : Matches) :
  verified resolver m -> numbers_ok m /\ public_port_ok m /\ resolves to_socket_addrs m ->
  exists s stamps, parse_opts to_socket_addrs m = Ok (s, stamps).
Proof.
  intros Hv ((H1 & H2 & H3 & H4 & H5 & H6 & H7 & H8) & Hport & Hres).
  destruct (listen_ok resolver m Hv) as (la & Hla & _), (bootstrap_ok resolver m Hv) as (bs & Hbs & _).
  destruct (upstreams_ok resolver to_socket_addrs m Hv Hres) as (ups & Hups & _ & Hupsn).
  destruct (local_ok resolver m Hv ups Hupsn) as (lb & Hlb & _).
  destruct (stamps_ok m (absolute_path (path_arg m)) Hport) as [stamps Hst].
  unfold parse_opts. rewrite Hla, Hups. cbn [mbind outcome_bind]. rewrite Hlb, Hbs, Hst.
  destruct (number_ok "max clients" _ _ H1) as [? ->], (number_ok "timeout" _ _ H2) as [? ->],
    (number_ok "max concurrent streams" _ _ H3) as [? ->], (number_ok "min TTL" _ _ H4) as [? ->],
    (number_ok "max TTL" _ _ H5) as [? ->], (number_ok "error TTL" _ _ H6) as [? ->],
    (number_ok "ECS IPv4 prefix" _ _ H7) as [? ->], (number_ok "ECS IPv6 prefix" _ _ H8) as [? ->].
  by eexists _, _.
Qed.

(** The program exits with a message or starts. *)
Lemma parse_opts_total `{UL : UrlLaws} (resolver to_socket_addrs : bytes -> bytes + list SocketAddr)
    (m : Matches) :
  verified resolver m -> total (parse_opts to_socket_addrs m).
Proof.
  intros Hv. destruct (listen_ok resolver m Hv) as (la & Hla & _), (bootstrap_ok resolver m Hv) as (bs & Hbs & _).
  unfold parse_opts. rewrite Hla. cbn [mbind outcome_bind]. pose proof (parse_upstreams_total to_socket_addrs m).
  destruct (parse_upstreams to_socket_addrs m) as [ups|e| |] eqn:Hups; try done. cbn [mbind outcome_bind].
  destruct (local_ok resolver m Hv ups) as (lb & -> & _).
  { destruct (upstreams_ok resolver to_socket_addrs m Hv) as (r & Hr & _ & Hn); [by eapply upstreams_resolved|].
    congruence. }
  cbn [mbind outcome_bind]. rewrite Hbs. unfold parse_number, ok_or.
  pose proof (print_stamps_total m (absolute_path (path_arg m))).
  destruct (print_stamps m (absolute_path (path_arg m))); try done;
    repeat (case_match; cbn [mbind outcome_bind]; try done).
Qed.

(** C19: the options.  When the option parser has accepted the values, the
    program starts exactly if the limits are numbers that fit their types,
    the public port is one too when there is a host name, and the upstreams'
    addresses still resolve; otherwise it exits with a message, and it never
    panics.  The settings are then exactly what the options say: an address
    to listen to for each argument and an upstream for each, in their order,
    or the defaults; the address to connect from, or one of the family of
    the first upstream; the mode; the path, with a slash before it if it has
    none; each limit the number of its own option, the timeout in seconds;
    each switch; the certificate and its key, by default in the same file;
    and the stamps are those of the host name, its addresses and its port. *)
Theorem parse_opts_spec `{UL : UrlLaws} (resolver to_socket_addrs : bytes -> bytes + list SocketAddr)
    (m : Matches) :
  verified resolver m ->
  total (parse_opts to_socket_addrs m) /\
  ((exists s stamps, parse_opts to_socket_addrs m = Ok (s, stamps)) <->
    numbers_ok m /\ public_port_ok m /\ resolves to_socket_addrs m) /\
  forall s stamps, parse_opts to_socket_addrs m = Ok (s, stamps) ->
    well_formed to_socket_addrs m s /\ well_printed m s stamps.
Proof.
  intros Hv. split_and!; [by eapply parse_opts_total| |intros s stamps H; by eapply parse_opts_parsed].
  split; [intros (s & stamps & H); by eapply parse_opts_parsed|by eapply parse_opts_succeeds].
Qed.

(** ** At concrete inputs *)

(** A parser that knows one URL. *)
Record one_url := { one_scheme : bytes; one_port : option Z }.
Definition one_url_api : UrlApi := {|
  Url := one_url;
  Url_parse := fun _ => inr {| one_scheme := ascii_bytes "h3"; one_port := None |};
  as_str := fun u => one_scheme u ++ ascii_bytes "://dns.example/";
  scheme := one_scheme;
  host_str := fun _ => Some (ascii_bytes "dns.example");
  url_host := fun _ => Some (Domain (ascii_bytes "dns.example"));
  url_port := one_port;
  port_or_known_default := fun u => Some (default 443 (one_port u));
  url_path := fun _ => [x2f];
  url_query := fun _ => None
|}.
Definition one_url_laws : @UrlLaws one_url_api.
Proof.
  split.
  - done.
  - done.
  - intros u. by right.
  - done.
Qed.
Definition quad9 (_ : bytes) : bytes + list SocketAddr := inr [SockV4 (vmap as_u8 [# 9; 9; 9; 9]) 53].

Lemma upstream_arg_spec_witness :
  exists u, @parse_upstream_arg one_url_api quad9 (ascii_bytes "h3://dns.example/") = Ok u.
Proof.
  destruct (@upstream_arg_spec one_url_api one_url_laws quad9 (ascii_bytes "h3://dns.example/") eq_refl)
    as (u & Hu & _).
  by exists u.
Defined.

(** A resolver that no longer knows the names it knew. *)
Definition no_resolver (_ : bytes) : bytes + list SocketAddr := inl (ascii_bytes "lookup failed").

Lemma default_verified : @verified one_url_api quad9 default_matches.
Proof. by split. Qed.

Lemma parse_opts_spec_witness :
  (exists s stamps, @parse_opts one_url_api quad9 default_matches = Ok (s, stamps)) /\
  ~ exists s stamps, @parse_opts one_url_api no_resolver default_matches = Ok (s, stamps).
Proof.
  split.
  - apply (@parse_opts_spec one_url_api one_url_laws quad9 quad9 default_matches default_verified).
    split_and!; [unfold numbers_ok; split_and!; eexists; by vm_compute|done|].
    constructor; [|constructor]. intros _. by eexists _, _.
  - destruct (@parse_opts_spec one_url_api one_url_laws quad9 no_resolver default_matches default_verified)
      as (_ & H & _).
    intros Hs. apply H in Hs as (_ & _ & Hr). apply Forall_inv in Hr. by destruct (Hr eq_refl) as (a & l & ?).
Defined.
