(* ===== verification/Serve.v ===== *)
(** * Starting and supervising the server: src/libdoh/src/lib.rs, tls.rs

    The listeners, the TLS certificates and their renewal, and the HTTP/3
    listener with its supervisor.  Files, sockets and the libraries that read
    PEM files and accept connections are arguments; a task that waits is given
    the sequence of what happens to it, and diverges where that ends. *)

From S2P Require Import Prelude Bytes Net Errors.

Definition CERTS_WATCH_DELAY_SECS : Z := 10.
Definition H3_SUPERVISOR_RESTART_DELAY_MS : Z := 500.
Definition H3_SUPERVISOR_RESTART_DELAY_MAX_MS : Z := 30000.

(** ** Listeners *)

(** The addresses that could be bound, and the last error. *)
Fixpoint bind_all (bind : SocketAddr -> option io_error) (addresses : list SocketAddr)
    (bound : list SocketAddr) (last_error : option io_error) : list SocketAddr * option io_error :=
  match addresses with
  | [] => (bound, last_error)
  | address :: addresses =>
      match bind address with
      | None => bind_all bind addresses (bound ++ [address]) last_error
      | Some err => bind_all bind addresses bound (Some err)
      end
  end.

Definition bind_listeners (bind : SocketAddr -> option io_error) (listen_addresses : list SocketAddr)
    : outcome DoHError.t (list SocketAddr) :=
  match listen_addresses with
  | [] => Err (DoHError.Io (io_error_new ErrorKind.InvalidInput (ascii_bytes "No listen addresses configured")))
  | _ =>
      let '(listeners, last_error) := bind_all bind listen_addresses [] None in
      match listeners with
      | [] =>
          Err (DoHError.Io (default
            (io_error_new ErrorKind.AddrNotAvailable (ascii_bytes "No available listen addresses")) last_error))
      | _ => Ok listeners
      end
  end.

(** [while let Ok(..) = listener.accept().await]: the connections served,
    and whether the loop has ended. *)
Fixpoint accept_loop {C : Type} (accepts : list (io_error + C)) : list C * bool :=
  match accepts with
  | [] => ([], false)
  | inr conn :: accepts => let '(served, ended) := accept_loop accepts in (conn :: served, ended)
  | inl _ :: _ => ([], true)
  end.

(** ** Certificates *)
Section tls.
Context {Cert Key Acceptor File : Type}.

(** The file system at one moment and the PEM parser; [with_single_cert]
    checks a key against the certificates. *)
Record tls_files := {
  open_file : bytes -> io_error + File;
  parse_certs : File -> io_error + list Cert;
  read_to_end : File -> io_error + bytes
}.
Context (pkcs8_private_keys rsa_private_keys : bytes -> io_error + list Key).
Context (with_single_cert : list Cert -> Key -> option Acceptor).

Definition io_try {A : Type} (r : io_error + A) (f : io_error -> io_error) : outcome io_error A :=
  match r with inr a => Ok a | inl e => Err (f e) end.

Definition about (text : string) (e : io_error) : io_error :=
  io_error_new ErrorKind.InvalidInput (ascii_bytes text ++ ascii_bytes ": " ++ io_text e).
Definition about_file (text : string) (path : bytes) (e : io_error) : io_error :=
  io_error_new (io_kind e) (ascii_bytes text ++ ascii_bytes " [" ++ path ++ ascii_bytes "]: " ++ io_text e).

(** [find_map] *)
Fixpoint find_map {A B : Type} (f : A -> option B) (l : list A) : option B :=
  match l with
  | [] => None
  | a :: l => match f a with Some b => Some b | None => find_map f l end
  end.

Definition load_certs (fs : tls_files) (certs_path : bytes) : outcome io_error (list Cert) :=
  file ← io_try (open_file fs certs_path) (about_file "Unable to load the certificates" certs_path);
  io_try (parse_certs fs file) (about "Unable to parse the certificates").

Definition load_keys (fs : tls_files) (certs_keys_path : bytes) : outcome io_error (list Key) :=
  file ← io_try (open_file fs certs_keys_path)
    (about_file "Unable to load the certificate keys" certs_keys_path);
  encoded_keys ← io_try (read_to_end fs file) id;
  pkcs8_keys ← io_try (pkcs8_private_keys encoded_keys)
    (about "Unable to parse the certificates private keys (PKCS8)");
  rsa_keys ← io_try (rsa_private_keys encoded_keys)
    (about "Unable to parse the certificates private keys (RSA)");
  let keys := pkcs8_keys ++ rsa_keys in
  match keys with
  | [] => Err (io_error_new ErrorKind.InvalidInput
            (ascii_bytes "No private keys found - Make sure that they are in PKCS#8/PEM format"))
  | _ => Ok keys
  end.

Definition create_tls_acceptor (fs : tls_files) (certs_path certs_keys_path : bytes)
    : outcome io_error Acceptor :=
  certs ← load_certs fs certs_path;
  certs_keys ← load_keys fs certs_keys_path;
  ok_or (find_map (with_single_cert certs) certs_keys)
    (io_error_new ErrorKind.InvalidInput (ascii_bytes "Unable to find a valid certificate and key")).

(** What the HTTP/3 listener asks before it starts. *)
Definition validate_tls_files (fs : tls_files) (certs_path certs_keys_path : bytes) : outcome io_error unit :=
  (fun _ => tt) <$> create_tls_acceptor fs certs_path certs_keys_path.

Section renewal.
Context (certs_path certs_keys_path : bytes).

(** The first loop of [start_with_tls]: an attempt every ten seconds; the
    acceptor, and the attempts that are left. *)
Fixpoint initial_acceptor (attempts : list tls_files) : option (Acceptor * list tls_files) :=
  match attempts with
  | [] => None
  | fs :: attempts =>
      match create_tls_acceptor fs certs_path certs_keys_path with
      | Ok acceptor => Some (acceptor, attempts)
      | _ => initial_acceptor attempts
      end
  end.

(** [cert_service]: it never ends. *)
Fixpoint cert_service (attempts : list tls_files) (tls_acceptor_store : Acceptor) : Acceptor :=
  match attempts with
  | [] => tls_acceptor_store
  | fs :: attempts =>
      cert_service attempts
        match create_tls_acceptor fs certs_path certs_keys_path with
        | Ok new_acceptor => new_acceptor
        | _ => tls_acceptor_store
        end
  end.
End renewal.

(** [ErrorKind::NotFound], which nothing else of the source names *)
Definition not_provided (text : string) : DoHError.t :=
  DoHError.Io (io_error_new (ErrorKind.Other 0) (ascii_bytes text)).

(** The services of the listeners are joined with [cert_service]: the result
    comes only when both have ended.  With it, the acceptor in the store. *)
Definition start_with_tls (tls_cert_path tls_cert_key_path : option bytes) (attempts : list tls_files)
    : outcome DoHError.t unit * option Acceptor :=
  match tls_cert_path, tls_cert_key_path with
  | None, _ => (Err (not_provided "TLS certificate path not provided"), None)
  | _, None => (Err (not_provided "TLS certificate key path not provided"), None)
  | Some certs_path, Some certs_keys_path =>
      match initial_acceptor certs_path certs_keys_path attempts with
      | None => (Diverge, None)
      | Some (acceptor, attempts) => (Diverge, Some (cert_service certs_path certs_keys_path attempts acceptor))
      end
  end.
End tls.

(** ** The HTTP/3 listener *)

(** What happens to the task that accepts the connections of one socket. *)
Inductive accept_event :=
  | ShutDown
  | Accepted (peer : SocketAddr)
  | AcceptFailed
  | AcceptOver
  | TaskPanics.

(** The peers whose connections it has taken, and how it has ended, if it
    has: [Some false] after a panic, in a build that unwinds; a release
    aborts (Process.v). *)
Fixpoint h3_accept_task (events : list accept_event) : list SocketAddr * option bool :=
  match events with
  | [] => ([], None)
  | ShutDown :: _ => ([], Some true)
  | Accepted peer :: events => let '(peers, ended) := h3_accept_task events in (peer :: peers, ended)
  | AcceptFailed :: events => h3_accept_task events
  | AcceptOver :: _ => ([], Some true)
  | TaskPanics :: _ => ([], Some false)
  end.

(** [accept_join]: the tasks are awaited one after the other. *)
Fixpoint accept_join (tasks : list (list accept_event)) : outcome DoHError.t unit :=
  match tasks with
  | [] => Ok tt
  | task :: tasks =>
      match snd (h3_accept_task task) with
      | Some true => accept_join tasks
      | Some false => Err DoHError.UpstreamIssue
      | None => Diverge
      end
  end.

(** What ends the wait of a listener that serves: its accept tasks are
    joined; a reload arrives, with files that are valid or not; the watcher
    is gone. *)
Inductive serve_event :=
  | AcceptDone
  | Reload (files_valid : bool)
  | WatcherGone.

(** [Ok]: the listener restarts with new certificates, once the tasks, told
    to shut down, have ended. *)
Fixpoint serve_events (tasks : list (list accept_event)) (events : list serve_event) : outcome DoHError.t unit :=
  match events with
  | [] => Diverge
  | AcceptDone :: _ => accept_join tasks;; Err DoHError.UpstreamIssue
  | Reload false :: events => serve_events tasks events
  | Reload true :: _ => accept_join tasks
  | WatcherGone :: _ => accept_join tasks;; Err DoHError.UpstreamIssue
  end.

(** One turn of the loop: whether [validate_tls_files] succeeds, what a wait for
    a reload ends with, the sockets, the library's [listen], what happens to
    the accept tasks, and to the listener while it serves. *)
Record h3_turn := {
  tls_files_valid : bool;
  reload_recv : option bool;
  bind_udp : SocketAddr -> option io_error;
  listen_ok : bool;
  accept_tasks : list (list accept_event);
  serving : list serve_event
}.

(** Wait for a reload: go on, or return the error when the watcher is gone. *)
Definition wait_reload (t : h3_turn) (err : DoHError.t) (next : outcome DoHError.t unit) : outcome DoHError.t unit :=
  match reload_recv t with
  | Some true => next
  | Some false => Err err
  | None => Diverge
  end.

Definition is_addr_in_use (err : io_error) : bool :=
  match io_kind err with ErrorKind.AddrInUse => true | _ => false end.

Fixpoint http3_loop (listen_addresses : list SocketAddr) (had_successful_bind : bool) (turns : list h3_turn)
    : outcome DoHError.t unit :=
  match turns with
  | [] => Diverge
  | t :: turns =>
      if negb (tls_files_valid t) then
        wait_reload t DoHError.UpstreamIssue (http3_loop listen_addresses had_successful_bind turns)
      else
        let '(sockets, last_error) := bind_all (bind_udp t) listen_addresses [] None in
        match sockets with
        | [] =>
            let err := default (io_error_new ErrorKind.AddrNotAvailable
              (ascii_bytes "No available HTTP/3 listen addresses")) last_error in
            if had_successful_bind && is_addr_in_use err then
              wait_reload t (DoHError.Io err) (http3_loop listen_addresses had_successful_bind turns)
            else Err (DoHError.Io err)
        | _ =>
            if negb (listen_ok t) then Err DoHError.UpstreamIssue
            else _ ← serve_events (accept_tasks t) (serving t); http3_loop listen_addresses true turns
        end
  end.

Definition start_http3 (tls_cert_path tls_cert_key_path : option bytes) (listen_addresses : list SocketAddr)
    (turns : list h3_turn) : outcome DoHError.t unit :=
  match tls_cert_path, tls_cert_key_path with
  | Some _, Some _ => http3_loop listen_addresses false turns
  | _, _ => Err DoHError.InvalidData
  end.

(** ** Its supervisor *)

(** One turn: whether the stop signal has been sent, the watcher's thread is
    started, what becomes of the listener before a stop signal ([None] when
    the signal comes first), and whether the signal comes during the sleep
    that follows. *)
Record supervisor_turn := {
  stop_sent : bool;
  watcher_spawned : bool;
  runner : option (list h3_turn);
  stop_in_sleep : bool
}.

(** The milliseconds slept, and whether the supervisor has ended. *)
Fixpoint supervise (cert key : bytes) (listen_addresses : list SocketAddr)
    (restart_delay_ms : Z) (turns : list supervisor_turn) : list Z * bool :=
  match turns with
  | [] => ([], false)
  | t :: turns =>
      if stop_sent t then ([], true)
      else if negb (watcher_spawned t) then
        if stop_in_sleep t then ([], true)
        else
          let '(sleeps, ended) := supervise cert key listen_addresses restart_delay_ms turns in
          (H3_SUPERVISOR_RESTART_DELAY_MS :: sleeps, ended)
      else
        match runner t with
        | None => ([], true)
        | Some h3_turns =>
            match start_http3 (Some cert) (Some key) listen_addresses h3_turns with
            | Err _ =>
                if stop_in_sleep t then ([], true)
                else
                  let next := Z.min (saturating_mul_u64 restart_delay_ms 2) H3_SUPERVISOR_RESTART_DELAY_MAX_MS in
                  let '(sleeps, ended) := supervise cert key listen_addresses next turns in
                  (restart_delay_ms :: sleeps, ended)
            | Ok _ => ([], true)
            | _ => ([], false)
            end
        end
  end.

Definition run_http3_supervisor (tls_cert_path tls_cert_key_path : option bytes)
    (listen_addresses : list SocketAddr) (turns : list supervisor_turn) : list Z * bool :=
  match tls_cert_path, tls_cert_key_path with
  | Some cert, Some key => supervise cert key listen_addresses H3_SUPERVISOR_RESTART_DELAY_MS turns
  | _, _ => ([], true)
  end.

(** ** The server *)
Inductive service := Https | Http.

(** The addresses served, and how. *)
Definition entrypoint (bind : SocketAddr -> option io_error) (listen_addresses : list SocketAddr)
    (tls_cert_path tls_cert_key_path : option bytes) : outcome DoHError.t (list SocketAddr * service) :=
  bound_listeners ← bind_listeners bind listen_addresses;
  let tls_enabled := bool_decide (is_Some tls_cert_path) && bool_decide (is_Some tls_cert_key_path) in
  Ok (bound_listeners, if tls_enabled then Https else Http).
