(* ===== verification/ServeProps.v ===== *)
(** * Properties of starting and supervising the server *)

From S2P Require Import Prelude Bytes Text Net Errors Upstream Config ConfigProps Serve.

(** ** Listeners *)
Definition bindable (bind : SocketAddr -> option io_error) (a : SocketAddr) : bool := bool_decide (bind a = None).

Lemma bind_all_bound bind addresses : forall bound last_error,
  fst (bind_all bind addresses bound last_error) = bound ++ List.filter (bindable bind) addresses.
Proof.
  induction addresses as [|a l IH]; intros bound last_error; cbn; [by rewrite app_nil_r|].
  unfold bindable at 1. destruct (bind a); cbn; rewrite IH; [done|]. by rewrite <- (assoc_L (++)).
Qed.

(** A listener is served up to the first connection whose accept fails. *)
Lemma accept_stops {C : Type} (e : io_error) (later later' : list (io_error + C)) (earlier : list C) :
  accept_loop (map inr earlier ++ inl e :: later) = (earlier, true) /\
  accept_loop (map inr earlier ++ inl e :: later) = accept_loop (map inr earlier ++ inl e :: later').
Proof.
  assert (forall l, accept_loop (map inr earlier ++ inl e :: l) = (earlier, true)) as H.
  { intros l. induction earlier as [|c r IH]; [done|]. cbn. by rewrite IH. }
  by rewrite !H.
Qed.

Definition entrypoint_result (s : Settings) (bind : SocketAddr -> option io_error) : Prop :=
  let bound := List.filter (bindable bind) (listen_addresses s) in
  match entrypoint bind (listen_addresses s) (tls_cert_path s) (tls_cert_key_path s) with
  | Ok (served, how) => bound <> [] /\ served = bound /\ (how = Https <-> is_Some (tls_cert_path s))
  | Err _ => bound = []
  | _ => False
  end.

Lemma entrypoint_outcome `{UA : UrlApi} (to_socket_addrs : bytes -> bytes + list SocketAddr) (m : Matches)
    (s : Settings) (bind : SocketAddr -> option io_error) :
  well_formed to_socket_addrs m s -> entrypoint_result s bind.
Proof.
  intros Hw. unfold entrypoint_result. set (bound := List.filter _ _). unfold entrypoint, bind_listeners.
  pose proof (bind_all_bound bind (listen_addresses s) [] None) as Hb. cbn [app] in Hb. fold bound in Hb.
  pose proof (wf_some _ _ _ Hw) as [Hl _]. destruct (listen_addresses s) as [|a l]; [done|].
  destruct (bind_all bind (a :: l) [] None) as [listeners last_error]. cbn [fst] in Hb. subst listeners.
  destruct bound as [|b r]; [done|]. cbn [mbind outcome_bind]. split_and!; [done|done|].
  pose proof (wf_key _ _ _ Hw) as Hk. destruct (tls_cert_path s) as [c|].
  - destruct (Hk ltac:(by eexists)) as [k ->]. split; [by eexists|done].
  - cbn. split; [done|]. by intros [? ?].
Qed.

(** The start of the server with well-formed settings.  It fails exactly
    when none of the addresses can be bound; otherwise it serves those that
    can, in the order they are given, over HTTPS exactly when a certificate
    is given. *)
Theorem entrypoint_spec `{UL : UrlLaws} (to_socket_addrs : bytes -> bytes + list SocketAddr) (m : Matches)
    (s : Settings) (bind : SocketAddr -> option io_error) :
  well_formed to_socket_addrs m s ->
  let bound := List.filter (bindable bind) (listen_addresses s) in
  match entrypoint bind (listen_addresses s) (tls_cert_path s) (tls_cert_key_path s) with
  | Ok (served, how) => bound <> [] /\ served = bound /\ (how = Https <-> is_Some (tls_cert_path s))
  | Err _ => bound = []
  | _ => False
  end.
Proof. apply entrypoint_outcome. Qed.

(** ** Certificates *)
Section tls.
Context {Cert Key Acceptor File : Type}.
Context (pkcs8 rsa : bytes -> io_error + list Key) (with_single_cert : list Cert -> Key -> option Acceptor).
Abbreviation create := (@create_tls_acceptor Cert Key Acceptor File pkcs8 rsa with_single_cert).

Lemma find_map_head {A B : Type} (f : A -> option B) l : find_map f l = head (omap f l).
Proof. induction l as [|a l IH]; [done|]. cbn. by destruct (f a). Qed.

(** What can be served with the files of one moment: the first of the keys,
    PKCS#8 before RSA, that goes with the certificates. *)
Lemma create_tls_acceptor_iff fs cert key a :
  create fs cert key = Ok a <->
  exists cf kf certs data k1 k2,
    open_file fs cert = inr cf /\ parse_certs fs cf = inr certs /\
    open_file fs key = inr kf /\ read_to_end fs kf = inr data /\ pkcs8 data = inr k1 /\ rsa data = inr k2 /\
    head (omap (with_single_cert certs) (k1 ++ k2)) = Some a.
Proof.
  unfold create_tls_acceptor, load_certs, load_keys, io_try. split.
  - intros H. destruct (open_file fs cert) as [e|cf] eqn:H1; [done|]. cbn in H.
    destruct (parse_certs fs cf) as [e|certs] eqn:H2; [done|]. cbn in H.
    destruct (open_file fs key) as [e|kf] eqn:H3; [done|]. cbn in H.
    destruct (read_to_end fs kf) as [e|data] eqn:H4; [done|]. cbn in H.
    destruct (pkcs8 data) as [e|k1] eqn:H5; [done|]. cbn in H.
    destruct (rsa data) as [e|k2] eqn:H6; [done|]. cbn in H.
    exists cf, kf, certs, data, k1, k2. split_and!; try done.
    rewrite <- find_map_head. destruct (k1 ++ k2); [done|]. cbn [mbind outcome_bind] in H.
    unfold ok_or in H. by destruct (find_map _ _); simplify_eq.
  - intros (cf & kf & certs & data & k1 & k2 & -> & H2 & -> & H4 & H5 & H6 & H7). cbn.
    rewrite H2. cbn. rewrite H4. cbn. rewrite H5. cbn. rewrite H6. cbn.
    rewrite <- find_map_head in H7. destruct (k1 ++ k2); [done|]. cbn [mbind outcome_bind]. by rewrite H7.
Qed.

(** The HTTP/3 listener starts with the files the HTTPS service would serve. *)
Lemma validate_iff fs cert key :
  (exists u, validate_tls_files pkcs8 rsa with_single_cert fs cert key = Ok u) <-> exists a, create fs cert key = Ok a.
Proof. unfold validate_tls_files. destruct (create fs cert key); cbn; naive_solver. Qed.

Lemma cert_service_last cert key attempts : forall store,
  cert_service pkcs8 rsa with_single_cert cert key attempts store =
  default store (last (omap (fun fs => to_option (create fs cert key)) attempts)).
Proof.
  induction attempts as [|fs l IH]; intros store; [done|]. cbn [cert_service]. rewrite IH.
  cbn [omap list_omap]. destruct (create fs cert key) as [a|e| |]; cbn [to_option]; try done.
  rewrite last_cons. by destruct (last _).
Qed.
End tls.

(** C40: the certificates of the HTTPS service.  It fails at once exactly when
    a path is missing; otherwise it never returns, whatever becomes of the
    listeners, and after any attempts to read the files the certificates
    served are those of the last attempt that gave valid ones, that is
    certificates and a key, PKCS#8 before RSA, that goes with them; until
    there is one, nothing is served. *)
Theorem certificates_spec {Cert Key Acceptor File : Type} (pkcs8 rsa : bytes -> io_error + list Key)
    (with_single_cert : list Cert -> Key -> option Acceptor) (cert key : option bytes)
    (attempts : list (@tls_files Cert File)) :
  let '(r, store) := start_with_tls pkcs8 rsa with_single_cert cert key attempts in
  (forall u, r <> Ok u) /\
  match cert, key with
  | Some cert, Some key =>
      r = Diverge /\
      store = last (omap (fun fs => to_option (create_tls_acceptor pkcs8 rsa with_single_cert fs cert key)) attempts) /\
      forall a, store = Some a -> exists fs cf kf certs data k1 k2, fs ∈ attempts /\
        open_file fs cert = inr cf /\ parse_certs fs cf = inr certs /\
        open_file fs key = inr kf /\ read_to_end fs kf = inr data /\ pkcs8 data = inr k1 /\ rsa data = inr k2 /\
        head (omap (with_single_cert certs) (k1 ++ k2)) = Some a
  | _, _ => (exists e, r = Err e) /\ store = None
  end.
Proof.
  unfold start_with_tls. destruct cert as [cert|]; [|split; [done|by split; [eexists|]]].
  destruct key as [key|]; [|split; [done|by split; [eexists|]]].
  set (valid := fun fs => to_option (create_tls_acceptor pkcs8 rsa with_single_cert fs cert key)).
  assert (match initial_acceptor pkcs8 rsa with_single_cert cert key attempts with
          | None => last (omap valid attempts) = None
          | Some (a, rest) => last (omap valid attempts) =
              Some (cert_service pkcs8 rsa with_single_cert cert key rest a) end) as Hstore.
  { induction attempts as [|fs l IH]; [done|]. cbn [initial_acceptor omap list_omap].
    change (valid fs) with (to_option (create_tls_acceptor pkcs8 rsa with_single_cert fs cert key)).
    destruct (create_tls_acceptor pkcs8 rsa with_single_cert fs cert key) as [a|e| |];
      cbn [to_option]; try exact IH.
    rewrite cert_service_last, last_cons. fold valid. by destruct (last _). }
  assert (forall a, last (omap valid attempts) = Some a -> exists fs, fs ∈ attempts /\ valid fs = Some a) as Hin.
  { intros a Ha. apply last_Some_elem_of in Ha. by apply list_elem_of_omap in Ha. }
  assert (forall a, last (omap valid attempts) = Some a -> exists fs cf kf certs data k1 k2, fs ∈ attempts /\
        open_file fs cert = inr cf /\ parse_certs fs cf = inr certs /\
        open_file fs key = inr kf /\ read_to_end fs kf = inr data /\ pkcs8 data = inr k1 /\ rsa data = inr k2 /\
        head (omap (with_single_cert certs) (k1 ++ k2)) = Some a) as Hfiles.
  { intros a Ha. destruct (Hin a Ha) as (fs & Hfs & Hv). unfold valid, to_option in Hv.
    destruct (create_tls_acceptor _ _ _ fs cert key) as [a'| | |] eqn:Hc; [|done..]. injection Hv as ->.
    apply create_tls_acceptor_iff in Hc as (cf & kf & certs & data & k1 & k2 & H).
    exists fs, cf, kf, certs, data, k1, k2. tauto. }
  destruct (initial_acceptor _ _ _ _ _ _) as [[a rest]|].
  - split; [done|]. split; [done|]. split; [by rewrite Hstore|]. intros a' Ha. apply Hfiles. by rewrite Hstore.
  - split; [done|]. split; [done|]. by split.
Qed.

(** ** The HTTP/3 listener *)
Lemma accept_join_ends tasks :
  match accept_join tasks with
  | Ok _ => Forall (fun task => snd (h3_accept_task task) = Some true) tasks
  | Err e => e = DoHError.UpstreamIssue /\ Exists (fun task => snd (h3_accept_task task) = Some false) tasks
  | Panic => False
  | Diverge => Exists (fun task => snd (h3_accept_task task) = None) tasks
  end.
Proof.
  induction tasks as [|task tasks IH]; cbn; [constructor|].
  destruct (snd (h3_accept_task task)) as [[]|] eqn:Ht; [|split; [done|by left]|by left].
  destruct (accept_join tasks); try done; [by constructor|destruct IH; split; [done|by right]|by right].
Qed.

Lemma serve_events_fails tasks events e : serve_events tasks events = Err e -> e = DoHError.UpstreamIssue.
Proof.
  pose proof (accept_join_ends tasks) as H.
  induction events as [|[|[]|] events IH]; cbn; try done; destruct (accept_join tasks); cbn in *;
    try done; destruct H; congruence.
Qed.

Lemma serve_events_not_panic tasks events : serve_events tasks events <> Panic.
Proof.
  pose proof (accept_join_ends tasks) as H.
  induction events as [|[|[]|] events IH]; cbn; try done; by destruct (accept_join tasks).
Qed.

(** A task that is told to shut down ends, unless it has panicked. *)
Lemma accept_task_ends events :
  ShutDown ∈ events -> TaskPanics ∉ events -> snd (h3_accept_task events) = Some true.
Proof.
  induction events as [|ev events IH]; [by intros []%elem_of_nil|]. rewrite !elem_of_cons. intros Hs Hp.
  destruct ev as [|peer| | |]; cbn; [done| | |done|tauto].
  - destruct (h3_accept_task events). apply IH; [by destruct Hs|tauto].
  - apply IH; [by destruct Hs|tauto].
Qed.

(** A reload with valid files restarts the listener: every accept task ends. *)
Lemma reload_restarts tasks events :
  Forall (fun task => ShutDown ∈ task /\ TaskPanics ∉ task) tasks ->
  Reload true ∈ events -> AcceptDone ∉ events -> WatcherGone ∉ events ->
  serve_events tasks events = Ok tt.
Proof.
  intros Ht. assert (accept_join tasks = Ok tt) as Hj.
  { induction Ht as [|task tasks [Hs Hp] _ IH]; [done|]. cbn. by rewrite accept_task_ends. }
  induction events as [|ev events IH]; [by intros []%elem_of_nil|]. rewrite !elem_of_cons. intros Hr Ha Hw.
  destruct ev as [|[]|]; cbn; [tauto|done| |tauto]. apply IH; [by destruct Hr|tauto|tauto].
Qed.

Lemma http3_loop_never_Ok addrs turns : forall had u,
  http3_loop addrs had turns <> Ok u /\ http3_loop addrs had turns <> Panic.
Proof.
  induction turns as [|t turns IH]; intros had u; [done|]. cbn [http3_loop]. unfold wait_reload.
  destruct (tls_files_valid t); cbn [negb]; [|destruct (reload_recv t) as [[]|]; [apply IH|done|done]].
  destruct (bind_all _ _ _ _) as [[|a l] err].
  - destruct (had && _); [|done]. destruct (reload_recv t) as [[]|]; [apply IH|done|done].
  - destruct (listen_ok t); cbn [negb]; [|done].
    pose proof (serve_events_not_panic (accept_tasks t) (serving t)).
    destruct (serve_events _ (serving t)); cbn; first [done|apply IH].
Qed.

(** In this turn an address is bound. *)
Definition binds (addrs : list SocketAddr) (t : h3_turn) : Prop :=
  tls_files_valid t = true /\ exists a, a ∈ addrs /\ bind_udp t a = None.

Lemma bind_all_none bind addrs err :
  bind_all bind addrs [] None = ([], err) -> Forall (fun a => bind a <> None) addrs.
Proof.
  intros H. pose proof (bind_all_bound bind addrs [] None) as Hb. rewrite H in Hb. cbn in Hb.
  apply Forall_forall. intros a Ha Hn. assert (In a []) as []. rewrite Hb. apply List.filter_In.
  split; [by apply list_elem_of_In|by apply bool_decide_eq_true].
Qed.

(** An address in use ends the loop only if the watcher is gone, or nothing
    has been bound before. *)
Lemma http3_loop_in_use addrs turns : forall had e,
  http3_loop addrs had turns = Err (DoHError.Io e) -> is_addr_in_use e = true ->
  exists before t after, turns = before ++ t :: after /\
    tls_files_valid t = true /\ Forall (fun a => bind_udp t a <> None) addrs /\
    (reload_recv t = Some false \/ had = false /\ Forall (fun t' => ~ binds addrs t') before).
Proof.
  induction turns as [|t turns IH]; intros had e; [done|]. cbn [http3_loop]. unfold wait_reload.
  assert (forall had', (had' = false -> had = false /\ ~ binds addrs t) ->
    http3_loop addrs had' turns = Err (DoHError.Io e) -> is_addr_in_use e = true ->
    exists before t0 after, t :: turns = before ++ t0 :: after /\
      tls_files_valid t0 = true /\ Forall (fun a => bind_udp t0 a <> None) addrs /\
      (reload_recv t0 = Some false \/ had = false /\ Forall (fun t' => ~ binds addrs t') before)) as Hnext.
  { intros had' Hhad H He. destruct (IH had' e H He) as (before & t' & after & -> & Hv & Hb & Hc).
    exists (t :: before), t', after. split_and!; [done..|].
    destruct Hc as [Hc|[Hc Hf]]; [by left|right]. destruct (Hhad Hc) as [-> Hn]. split; [done|by constructor]. }
  destruct (tls_files_valid t) eqn:Hv; cbn [negb].
  - destruct (bind_all (bind_udp t) addrs [] None) as [[|a l] err] eqn:Hb.
    + pose proof (bind_all_none _ _ _ Hb) as Hnone.
      assert (~ binds addrs t) as Hnb.
      { intros (_ & a & Ha & Hn). rewrite Forall_forall in Hnone. by apply (Hnone a). }
      destruct had; cbn [andb].
      * destruct (is_addr_in_use (default _ err)) eqn:Hu; [|by intros [= <-]; congruence].
        destruct (reload_recv t) as [[]|] eqn:Hr; [by apply Hnext| |done]. intros _ _.
        exists [], t, turns. split_and!; try done. by left.
      * intros _ _. exists [], t, turns. split_and!; try done. right. split; [done|constructor].
    + destruct (listen_ok t); cbn [negb]; [|done].
      destruct (serve_events _ (serving t)) as [u|e'| |] eqn:Hs; cbn; try done; [by apply Hnext|].
      intros [= ->]. by apply serve_events_fails in Hs.
  - destruct (reload_recv t) as [[]|]; [|done..]. apply Hnext. intros ->. split; [done|].
    intros [Hv' _]. congruence.
Qed.

(** The first listener does not wait for an address. *)
Lemma http3_first_fails addrs t turns :
  tls_files_valid t = true -> Forall (fun a => bind_udp t a <> None) addrs ->
  exists e, http3_loop addrs false (t :: turns) = Err (DoHError.Io e).
Proof.
  intros Hv Hn. cbn [http3_loop]. rewrite Hv. cbn [negb].
  destruct (bind_all (bind_udp t) addrs [] None) as [[|a l] err] eqn:Hb; [by eexists|exfalso].
  pose proof (bind_all_bound (bind_udp t) addrs [] None) as Hf. rewrite Hb in Hf. cbn [fst app] in Hf.
  assert (In a (List.filter (bindable (bind_udp t)) addrs)) as Ha by (rewrite <- Hf; by left).
  apply List.filter_In in Ha as [Ha Hba]. apply bool_decide_eq_true in Hba. rewrite Forall_forall in Hn.
  apply (Hn a); [by apply list_elem_of_In|done].
Qed.

(** ** The supervisor *)

(** The [k]-th pause. *)
Definition pause (k : nat) : Z := Z.min (H3_SUPERVISOR_RESTART_DELAY_MS * 2 ^ Z.of_nat k) H3_SUPERVISOR_RESTART_DELAY_MAX_MS.

Lemma pause_next k : Z.min (saturating_mul_u64 (pause k) 2) H3_SUPERVISOR_RESTART_DELAY_MAX_MS = pause (S k).
Proof.
  unfold pause, saturating_mul_u64, H3_SUPERVISOR_RESTART_DELAY_MS, H3_SUPERVISOR_RESTART_DELAY_MAX_MS.
  rewrite Nat2Z.inj_succ, Z.pow_succ_r by lia. pose proof (Z.pow_pos_nonneg 2 (Z.of_nat k)). lia.
Qed.

Definition stops_at (t : supervisor_turn) : Prop :=
  stop_sent t = true \/ runner t = None \/ stop_in_sleep t = true.

(** The pause of the [i]-th turn, the [k]-th with a watcher. *)
Definition pause_of (k : nat) (t : supervisor_turn) : Z := if watcher_spawned t then pause k else 500.
Definition with_watcher (turns : list supervisor_turn) : nat := length (List.filter watcher_spawned turns).

(** A turn after which the supervisor goes on. *)
Definition goes_on (cert key : bytes) (addrs : list SocketAddr) (t : supervisor_turn) : Prop :=
  ~ stops_at t /\ (watcher_spawned t = true ->
    exists h3 e, runner t = Some h3 /\ start_http3 (Some cert) (Some key) addrs h3 = Err e).

Lemma supervise_spec cert key addrs turns : forall k,
  let '(sleeps, ended) := supervise cert key addrs (pause k) turns in
  (ended = true -> Exists stops_at turns) /\
  (forall i d, sleeps !! i = Some d -> exists t, turns !! i = Some t /\
     d = pause_of (k + with_watcher (take i turns)) t) /\
  (Forall (goes_on cert key addrs) turns -> length sleeps = length turns).
Proof.
  induction turns as [|t turns IH]; intros k; [done|]. cbn [supervise].
  assert (forall k' sleeps (ended : bool) d, k' = (k + with_watcher [t])%nat -> d = pause_of k t ->
    ((ended = true -> Exists stops_at turns) /\
     (forall i d, sleeps !! i = Some d -> exists t, turns !! i = Some t /\
        d = pause_of (k' + with_watcher (take i turns)) t) /\
     (Forall (goes_on cert key addrs) turns -> length sleeps = length turns)) ->
    (ended = true -> Exists stops_at (t :: turns)) /\
    (forall i d', (d :: sleeps) !! i = Some d' -> exists t', (t :: turns) !! i = Some t' /\
       d' = pause_of (k + with_watcher (take i (t :: turns))) t') /\
    (Forall (goes_on cert key addrs) (t :: turns) -> length (d :: sleeps) = length (t :: turns))) as Hnext.
  { intros k' sleeps ended d -> -> (H1 & H2 & H3). split_and!.
    - intros He. right. by apply H1.
    - intros [|i] d'; cbn [lookup list_lookup take].
      + intros [= <-]. exists t. split; [done|]. by rewrite Nat.add_0_r.
      + intros Hi. destruct (H2 i d' Hi) as (t' & Ht & ->). exists t'. split; [done|]. f_equal.
        unfold with_watcher. cbn [List.filter]. destruct (watcher_spawned t); cbn; lia.
    - intros [_ Hg]%Forall_cons. cbn. by rewrite H3. }
  assert (forall P : Prop, stops_at t -> (true = true -> Exists stops_at (t :: turns)) /\
    (forall i d, @nil Z !! i = Some d -> exists t', (t :: turns) !! i = Some t' /\
       d = pause_of (k + with_watcher (take i (t :: turns))) t') /\
    (Forall (goes_on cert key addrs) (t :: turns) -> length (@nil Z) = length (t :: turns))) as Hstop.
  { intros _ Hs. split_and!; [intros _; by left|done|]. by intros [[Hn _] _]%Forall_cons. }
  destruct (stop_sent t) eqn:Hs; [apply (Hstop True); by left|].
  destruct (watcher_spawned t) eqn:Hw; cbn [negb].
  - destruct (runner t) as [h3|] eqn:Hr; [|apply (Hstop True); right; by left].
    assert (forall u, start_http3 (Some cert) (Some key) addrs h3 <> Ok u) as Hok.
    { intros u. apply http3_loop_never_Ok. }
    assert ((forall e, start_http3 (Some cert) (Some key) addrs h3 <> Err e) ->
      Forall (goes_on cert key addrs) (t :: turns) -> length (@nil Z) = length (t :: turns)) as Hdiv.
    { intros Hne [[_ Hg] _]%Forall_cons. destruct (Hg Hw) as (h3' & e & Hr' & He). rewrite Hr in Hr'.
      injection Hr' as <-. by destruct (Hne e). }
    destruct (start_http3 _ _ _ _) as [u|e| |]; [by destruct (Hok u)| | |].
    + destruct (stop_in_sleep t) eqn:Hz; [apply (Hstop True); right; by right|].
      rewrite pause_next. specialize (IH (S k)). destruct (supervise cert key addrs (pause (S k)) turns) as [sleeps ended].
      apply (Hnext (S k)); [|by unfold pause_of; rewrite Hw|done].
      unfold with_watcher. cbn. rewrite Hw. cbn. lia.
    + split_and!; [done|done|by apply Hdiv].
    + split_and!; [done|done|by apply Hdiv].
  - destruct (stop_in_sleep t) eqn:Hz; [apply (Hstop True); right; by right|].
    specialize (IH k). destruct (supervise cert key addrs (pause k) turns) as [sleeps ended].
    apply (Hnext k); [|by unfold pause_of; rewrite Hw|done].
    unfold with_watcher. cbn. rewrite Hw. cbn. lia.
Qed.

(** C20: the HTTP/3 listener and its supervisor.  The listener never returns
    successfully nor panics, whatever the certificates, the sockets and the
    watcher do.  When it fails because an address is in use, in that turn no
    address could be bound, and either the watcher is gone or none has been
    bound in an earlier turn either: once it has been bound, it waits for
    the next certificate instead; before, it fails at once.  The supervisor
    ends only because of the stop signal, and goes on after every failure;
    its pauses are 500 milliseconds when there is no watcher, and otherwise
    500 milliseconds doubled with each turn that had one, up to 30 seconds,
    over its whole life: no success ever resets them. *)
Theorem http3_supervision (cert key : option bytes) (addrs : list SocketAddr) (turns : list supervisor_turn)
    (h3 : list h3_turn) :
  (forall u, start_http3 cert key addrs h3 <> Ok u) /\ start_http3 cert key addrs h3 <> Panic /\
  (forall e, start_http3 cert key addrs h3 = Err (DoHError.Io e) -> is_addr_in_use e = true ->
     exists before t after, h3 = before ++ t :: after /\
       tls_files_valid t = true /\ Forall (fun a => bind_udp t a <> None) addrs /\
       (reload_recv t = Some false \/ Forall (fun t' => ~ binds addrs t') before)) /\
  match cert, key with
  | Some cert, Some key =>
      (forall t, tls_files_valid t = true -> Forall (fun a => bind_udp t a <> None) addrs ->
         exists e, start_http3 (Some cert) (Some key) addrs (t :: h3) = Err (DoHError.Io e)) /\
      let '(sleeps, ended) := run_http3_supervisor (Some cert) (Some key) addrs turns in
      (ended = true -> Exists stops_at turns) /\
      (forall i d, sleeps !! i = Some d -> exists t, turns !! i = Some t /\
         d = if watcher_spawned t then Z.min (500 * 2 ^ Z.of_nat (with_watcher (take i turns))) 30000 else 500) /\
      (Forall (goes_on cert key addrs) turns -> length sleeps = length turns)
  | _, _ => run_http3_supervisor cert key addrs turns = ([], true)
  end.
Proof.
  split_and!.
  - intros u. unfold start_http3. destruct cert, key; try done. apply http3_loop_never_Ok.
  - unfold start_http3. destruct cert, key; try done. by apply http3_loop_never_Ok.
  - intros e. unfold start_http3. destruct cert, key; try done. intros H He.
    destruct (http3_loop_in_use _ _ _ _ H He) as (before & t & after & -> & Hv & Hb & Hc).
    exists before, t, after. split_and!; [done..|]. tauto.
  - destruct cert as [c|], key as [k|]; try done. split; [intros t; by apply http3_first_fails|].
    exact (supervise_spec c k addrs turns 0).
Qed.

(** ** At concrete inputs *)
Definition one_settings : Settings := {|
  tls_cert_path := None; tls_cert_key_path := None; listen_addresses := [SockV4 (vmap as_u8 [# 127; 0; 0; 1]) 3000];
  local_bind := SockV4 (vreplicate 4 x00) 0; bootstrap_dns := [];
  all_upstreams := [Upstream.Dns (SockV4 (vmap as_u8 [# 9; 9; 9; 9]) 53)]; mode := UpstreamMode.LoadBalance;
  doh_path := PATH; clients_limit := 512; timeout_ns := from_secs 10; max_concurrent_streams := 16;
  ttl_min := 10; ttl_max := 604800; ttl_err := 2; keepalive := true; no_post := false; odoh_post := false;
  ecs := false; ecs_v4 := 24; ecs_v6 := 56
|}.

Lemma one_settings_well_formed : @well_formed one_url_api quad9 default_matches one_settings.
Proof.
  split; try reflexivity; try done.
  - repeat constructor.
  - constructor; [|constructor]. split; [reflexivity|by exists []].
  - by eexists.
  - by intros a _ [= <-].
  - by exists 10.
Qed.

Lemma entrypoint_spec_witness :
  match entrypoint (fun _ => None) (listen_addresses one_settings) (tls_cert_path one_settings)
          (tls_cert_key_path one_settings) with
  | Ok (served, how) => served = listen_addresses one_settings
  | _ => False
  end.
Proof.
  pose proof (@entrypoint_spec one_url_api one_url_laws quad9 default_matches one_settings (fun _ => None)
    one_settings_well_formed) as H.
  vm_compute in H |- *. exact (proj1 (proj2 H)).
Defined.
