(* ===== verification/Watcher.v ===== *)
(** * The watcher of the certificate files: src/libdoh/src/lib.rs

    The thread that tells the HTTP/3 listener to reload.  The file system, the
    working directory and the debouncer of file-system events are arguments:
    whether it starts, and the batches of events it hands over. *)

From S2P Require Import Prelude Bytes Text Errors Serve.

(** ** Paths: [std::path] on Unix, and [Path::join] *)
Definition is_absolute (path : bytes) : bool := starts_with [x2f] path.

Definition path_join (base path : bytes) : bytes :=
  if is_absolute path then path
  else
    match base with
    | [] => path
    | _ => if bool_decide (last base = Some x2f) then base ++ path else base ++ [x2f] ++ path
    end.

(** [cwd]: [env::current_dir()] *)
Definition absolutize_path (cwd : option bytes) (path : bytes) : bytes :=
  if is_absolute path then path
  else match cwd with Some cwd => path_join cwd path | None => path end.

(** ** The state of a file *)

(** [fs::metadata]: the time of the last change, in milliseconds since the
    epoch if there is one, and the length *)
Record metadata := {
  modified_ms : option Z;
  file_len : Z
}.
Definition file_state : Type := option (Z * Z).

Definition tls_file_state (m : option metadata) : file_state :=
  m ← m;
  modified ← modified_ms m;
  Some (Z.min modified u64_max, file_len m).

(** The directories to watch. *)
Definition watch_dirs (parent : bytes -> option bytes) (paths : list bytes) : list bytes :=
  fold_left (fun dirs path =>
    let dir := default [x2e] (parent path) in
    if bool_decide (dir ∈ dirs) then dirs else dirs ++ [dir]) paths [].

(** ** The handler of the events *)
Record watched := {
  last_cert_state : file_state;
  last_key_state : file_state
}.

(** A batch of events, each the paths it is about: whether a reload is sent. *)
Definition handle_events (certs_path certs_keys_path : bytes) (events : list (list bytes))
    (cert_state key_state : file_state) (w : watched) : bool * watched :=
  let changed :=
    existsb (existsb (fun path => bool_decide (path = certs_path) || bool_decide (path = certs_keys_path))) events in
  if changed && (negb (bool_decide (cert_state = last_cert_state w))
                 || negb (bool_decide (key_state = last_key_state w)))
  then (true, {| last_cert_state := cert_state; last_key_state := key_state |})
  else (false, w).

(** What the debouncer hands over: events, with the files as they are then,
    or errors. *)
Definition file_system : Type := bytes -> option metadata.
Inductive batch :=
  | Events (events : list (list bytes)) (files : file_system)
  | EventErrors.

(** The reloads that are sent, one answer for each batch. *)
Fixpoint handle_batches (certs_path certs_keys_path : bytes) (batches : list batch) (w : watched) : list bool :=
  match batches with
  | [] => []
  | Events events files :: batches =>
      let '(sent, w) := handle_events certs_path certs_keys_path events (tls_file_state (files certs_path))
        (tls_file_state (files certs_keys_path)) w in
      sent :: handle_batches certs_path certs_keys_path batches w
  | EventErrors :: batches => false :: handle_batches certs_path certs_keys_path batches w
  end.

(** ** The thread *)
Record surroundings := {
  spawn_error : option io_error;
  current_dir : option bytes;
  files_at_start : file_system;
  debouncer_starts : bool;
  dir_watchable : bytes -> bool;
  batches : list batch
}.

(** What the receiver of the reloads sees: the answers to the batches, and
    whether the sender is still there. *)
Record watching := {
  answers : list bool;
  sender_alive : bool
}.

Definition watcher_thread (parent : bytes -> option bytes) (certs_path certs_keys_path : bytes) (env : surroundings)
    : watching :=
  let certs_path := absolutize_path (current_dir env) certs_path in
  let certs_keys_path := absolutize_path (current_dir env) certs_keys_path in
  let watch_dirs := watch_dirs parent [certs_path; certs_keys_path] in
  let w := {| last_cert_state := tls_file_state (files_at_start env certs_path);
              last_key_state := tls_file_state (files_at_start env certs_keys_path) |} in
  let gone := {| answers := []; sender_alive := false |} in
  if negb (debouncer_starts env) then gone
  else if negb (forallb (dir_watchable env) watch_dirs) then gone
  else {| answers := handle_batches certs_path certs_keys_path (batches env) w; sender_alive := true |}.

(** [None]: the thread cannot be started. *)
Definition spawn_cert_watcher (parent : bytes -> option bytes) (certs_path certs_keys_path : bytes)
    (env : surroundings) : option watching :=
  match spawn_error env with
  | None => Some (watcher_thread parent certs_path certs_keys_path env)
  | Some _ => None
  end.

(** ** What the listener makes of it *)

(** The events of a listener that serves: each reload finds the files valid
    or not; the channel closes when the sender is gone. *)
Definition reload_events (valid : nat -> bool) (w : watching) : list serve_event :=
  map (fun i => Reload (valid i)) (seq 0 (length (List.filter id (answers w))))
  ++ (if sender_alive w then [] else [WatcherGone]).
