(* ===== verification/WatcherProps.v ===== *)
(** * Properties of the watcher of the certificate files *)

From S2P Require Import Prelude Bytes Text Errors Serve ServeProps Watcher.

Definition states : Type := file_state * file_state.

Section handler.
Context (cert key : bytes).

(** The batch is about one of the files. *)
Definition names_file (events : list (list bytes)) : Prop :=
  exists paths path, paths ∈ events /\ path ∈ paths /\ (path = cert \/ path = key).
Definition naming (events : list (list bytes)) : bool :=
  existsb (existsb (fun path => bool_decide (path = cert) || bool_decide (path = key))) events.

Lemma naming_iff events : naming events = true <-> names_file events.
Proof.
  unfold naming, names_file. rewrite List.existsb_exists. split.
  - intros (paths & Hp & H). apply List.existsb_exists in H as (path & Hq & H).
    exists paths, path. rewrite !list_elem_of_In. split_and!; [done|done|].
    apply orb_true_iff in H. by rewrite !bool_decide_eq_true in H.
  - intros (paths & path & Hp & Hq & H). exists paths. rewrite list_elem_of_In in Hp. split; [done|].
    apply List.existsb_exists. exists path. rewrite list_elem_of_In in Hq. split; [done|].
    by rewrite orb_true_iff, !bool_decide_eq_true.
Qed.

Definition states_of (files : file_system) : states := (tls_file_state (files cert), tls_file_state (files key)).
Definition recorded (w : watched) : states := (last_cert_state w, last_key_state w).

(** The files as the last batch about them has shown them. *)
Definition see (s : states) (b : batch) : states :=
  match b with
  | Events events files => if naming events then states_of files else s
  | EventErrors => s
  end.
Definition seen (s : states) (batches : list batch) : states := fold_left see batches s.

Lemma handle_events_spec events files w :
  let '(sent, w') := handle_events cert key events (tls_file_state (files cert)) (tls_file_state (files key)) w in
  (sent = true <-> names_file events /\ states_of files <> recorded w) /\
  recorded w' = see (recorded w) (Events events files).
Proof.
  unfold handle_events, see. fold (naming events). pose proof (naming_iff events) as Hn.
  set (c := tls_file_state (files cert)). set (k := tls_file_state (files key)).
  change (states_of files) with (c, k). destruct w as [lc lk]. cbn [last_cert_state last_key_state recorded].
  unfold recorded. cbn [last_cert_state last_key_state].
  destruct (naming events); cbn [andb]; [|split; [by split; [|intros [H%Hn _]]|done]].
  destruct (negb (bool_decide (c = lc)) || negb (bool_decide (k = lk))) eqn:Hd.
  - split; [|done]. split; [|done]. intros _. split; [by apply Hn|]. intros Heq.
    apply orb_true_iff in Hd as [Hd|Hd]; apply negb_true_iff, bool_decide_eq_false in Hd; apply Hd;
      by injection Heq.
  - apply orb_false_iff in Hd as [Hc Hk]. apply negb_false_iff, bool_decide_eq_true in Hc, Hk.
    rewrite Hc, Hk. split; [by split; [|intros [_ []]]|done].
Qed.

(** A reload for each batch that shows other files than the last one did. *)
Lemma handle_batches_spec batches : forall w i,
  handle_batches cert key batches w !! i = Some true <->
  exists events files, batches !! i = Some (Events events files) /\ names_file events /\
    states_of files <> seen (recorded w) (take i batches).
Proof.
  induction batches as [|b batches IH]; intros w i; [split; [done|by intros (? & ? & ? & _)]|].
  cbn [handle_batches]. destruct b as [events files|].
  - pose proof (handle_events_spec events files w) as H.
    destruct (handle_events _ _ _ _ _ _) as [sent w']. destruct H as [Hs Hw].
    destruct i as [|i]; cbn [take seen fold_left lookup list_lookup].
    + split; [intros [= ->]; exists events, files; split; [done|by apply Hs]|].
      intros (e & f & [= <- <-] & H). f_equal. by apply Hs.
    + change (fold_left see (take i batches) (see (recorded w) (Events events files)))
        with (seen (see (recorded w) (Events events files)) (take i batches)).
      rewrite <- Hw. apply IH.
  - destruct i as [|i]; cbn [take seen fold_left lookup list_lookup].
    + split; [done|by intros (? & ? & ? & _)].
    + apply (IH w i).
Qed.

Lemma handle_batches_length batches : forall w, length (handle_batches cert key batches w) = length batches.
Proof.
  induction batches as [|[events files|] batches IH]; intros w; cbn [handle_batches]; [done| |].
  - destruct (handle_events _ _ _ _ _ _). cbn. by rewrite IH.
  - cbn. by rewrite IH.
Qed.

(** The files as they are at each batch, and that every change of them is in
    a batch about them. *)
Definition pass (s : states) (b : batch) : states :=
  match b with Events _ files => states_of files | EventErrors => s end.
Inductive notified : states -> list batch -> Prop :=
  | notified_nil s : notified s []
  | notified_events s events files bs :
      names_file events \/ states_of files = s -> notified (states_of files) bs ->
      notified s (Events events files :: bs)
  | notified_errors s bs : notified s bs -> notified s (EventErrors :: bs).

Lemma notified_seen s bs : notified s bs -> seen s bs = fold_left pass bs s.
Proof.
  induction 1 as [s|s events files bs Hn _ IH|s bs _ IH]; cbn [seen fold_left see pass]; [done| |done].
  change (fold_left see bs ?x) with (seen x bs).
  destruct (naming events) eqn:Hm; [done|]. destruct Hn as [Hn|<-]; [|done].
  apply naming_iff in Hn. congruence.
Qed.
End handler.

(** C39: the watcher of the certificate files.  It is not there if its thread
    cannot be started, and gone at once if the debouncer or the watch of a
    directory fails; otherwise it stays and sends a reload for exactly those
    batches of events that are about one of the two files, made absolute, and
    show them in another state than the last such batch did, or the start.
    So when every change is notified none is missed: the state last seen is
    the one the files have. *)
Theorem watcher_spec (parent : bytes -> option bytes) (certs_path certs_keys_path : bytes) (env : surroundings) :
  let cert := absolutize_path (current_dir env) certs_path in
  let key := absolutize_path (current_dir env) certs_keys_path in
  let start := states_of cert key (files_at_start env) in
  match spawn_cert_watcher parent certs_path certs_keys_path env with
  | None => is_Some (spawn_error env)
  | Some w =>
      (sender_alive w = false <->
       debouncer_starts env = false \/ exists dir, dir ∈ watch_dirs parent [cert; key] /\ dir_watchable env dir = false) /\
      (sender_alive w = false -> answers w = []) /\
      (sender_alive w = true ->
       length (answers w) = length (batches env) /\
       (forall i, answers w !! i = Some true <->
          exists events files, batches env !! i = Some (Events events files) /\ names_file cert key events /\
            states_of cert key files <> seen cert key start (take i (batches env))) /\
       (notified cert key start (batches env) ->
        seen cert key start (batches env) = fold_left (pass cert key) (batches env) start))
  end.
Proof.
  intros cert key start. unfold spawn_cert_watcher. destruct (spawn_error env) as [e|]; [by exists e|].
  unfold watcher_thread. fold cert key.
  destruct (debouncer_starts env); cbn [negb]; [|split_and!; [by split; [left|]|done|done]].
  destruct (forallb _ _) eqn:Hall; cbn [negb sender_alive answers].
  - split_and!; [|done|].
    + split; [done|]. intros [H|(dir & Hin & Hw)]; [done|].
      apply list_elem_of_In in Hin. rewrite forallb_forall in Hall. rewrite (Hall dir Hin) in Hw. done.
    + intros _. split_and!; [apply handle_batches_length| |apply notified_seen].
      intros i. apply handle_batches_spec.
  - split_and!; [|done|done]. split; [intros _; right|done].
    apply not_true_iff_false in Hall. rewrite forallb_forall in Hall.
    destruct (decide (Exists (fun dir => dir_watchable env dir = false) (watch_dirs parent [cert; key]))) as [H|H].
    + by apply Exists_exists in H as (dir & Hin & Hw); exists dir.
    + destruct Hall. intros dir Hin. destruct (dir_watchable env dir) eqn:Hw; [done|].
      destruct H. apply Exists_exists. exists dir. by rewrite list_elem_of_In.
Qed.

(** ** The listener that is told *)

(** A reload restarts the listener when it finds valid files. *)
Lemma reload_served tasks valid w i :
  Forall (fun task => ShutDown ∈ task /\ TaskPanics ∉ task) tasks ->
  sender_alive w = true -> answers w !! i = Some true -> (forall n, valid n = true) ->
  serve_events tasks (reload_events valid w) = Ok tt.
Proof.
  intros Ht Ha Hi Hv. apply reload_restarts; [done| | |]; unfold reload_events; rewrite Ha, app_nil_r.
  - assert (In true (List.filter id (answers w))) as Hin.
    { apply List.filter_In. split; [|done]. apply list_elem_of_In. by eapply list_elem_of_lookup_2. }
    destruct (List.filter id (answers w)) as [|b l]; [done|]. cbn. rewrite Hv. left.
  - intros (n & Hn & _)%list_elem_of_fmap. done.
  - intros (n & Hn & _)%list_elem_of_fmap. done.
Qed.

(** Without its watcher a listener serves on: the tasks it then waits for are
    not told to shut down. *)
Lemma unwatched_serves_on tasks valid w :
  sender_alive w = false -> answers w = [] -> Exists (fun task => snd (h3_accept_task task) = None) tasks ->
  Forall (fun task => TaskPanics ∉ task) tasks ->
  serve_events tasks (reload_events valid w) = Diverge.
Proof.
  intros Ha Hw Ht Hp. unfold reload_events. rewrite Ha, Hw. cbn.
  assert (accept_join tasks = Diverge) as ->; [|done].
  induction tasks as [|task tasks IH]; [by apply Exists_nil in Ht|]. cbn.
  apply Forall_cons in Hp as [Hp1 Hp2].
  destruct (snd (h3_accept_task task)) as [[]|] eqn:Hs; [| |done].
  - apply IH; [|done]. apply Exists_cons in Ht as [Ht|Ht]; [congruence|done].
  - exfalso. clear - Hs Hp1. induction task as [|ev task IH]; [done|].
    rewrite elem_of_cons in Hp1. destruct ev; cbn in Hs; try done; try tauto.
    destruct (h3_accept_task task). apply IH; tauto.
Qed.

(** ** At a concrete input *)

(** The certificate is written again: one reload, on the batch that names it
    and shows the new time. *)
Definition sample_files (modified : Z) : file_system := fun path =>
  if bool_decide (path = ascii_bytes "/etc/tls/cert.pem")
  then Some {| modified_ms := Some modified; file_len := 1000 |} else None.
Definition sample_surroundings : surroundings := {|
  spawn_error := None; current_dir := Some (ascii_bytes "/etc"); files_at_start := sample_files 1;
  debouncer_starts := true; dir_watchable := fun _ => true;
  batches := [Events [[ascii_bytes "/etc/tls/other"]] (sample_files 2); EventErrors;
              Events [[ascii_bytes "/etc/tls/other"]; [ascii_bytes "/etc/tls/cert.pem"]] (sample_files 2);
              Events [[ascii_bytes "/etc/tls/cert.pem"]] (sample_files 2)] |}.

Example sample_watcher :
  spawn_cert_watcher (fun _ => Some (ascii_bytes "/etc/tls")) (ascii_bytes "tls/cert.pem") (ascii_bytes "tls/key.pem")
    sample_surroundings = Some {| answers := [false; false; true; false]; sender_alive := true |}.
Proof. vm_compute. reflexivity. Qed.
