(* ===== verification/Connection.v ===== *)
(** * Serving a connection: src/libdoh/src/lib.rs, tls.rs

    The time a TCP connection is served.  What hyper makes of a connection is
    an argument: the responses it writes and the end of the connection, each
    with its time, in nanoseconds from the start, in the order in which they
    happen when nobody cuts the connection.  Clients.v has the counter and
    the interleaving of the connections. *)

From S2P Require Import Prelude Errors Proxy.

(** ** Durations: [std::time::Duration] *)
Definition Duration_MAX : Duration := u64_max * 1000000000 + 999999999.

(** [a + b], which panics on overflow *)
Definition Duration_add {E : Type} (a b : Duration) : outcome E Duration :=
  if a + b <=? Duration_MAX then Ok (a + b) else Panic.

(** ** The settings of hyper *)
Record ServerConfig := {
  keepalive : bool;
  max_concurrent_streams : Z
}.
Record Builder := {
  http1_keep_alive : bool;
  http2_max_concurrent_streams : Z
}.
Definition build (self : ServerConfig) : Builder :=
  {| http1_keep_alive := keepalive self; http2_max_concurrent_streams := max_concurrent_streams self |}.

(** ** A connection *)
Section connection.
Context {R : Type}.

(** What hyper does on a connection: a response has been written; the
    connection is over, because the client has closed it or failed or has no
    more requests.  A list that ends without [Over] is a connection on which
    nothing happens any more. *)
Inductive connection_event :=
  | Responded (response : R)
  | Over.
Definition served : Type := list (Duration * connection_event).
Context (serve_connection : Builder -> served).

(** What has been sent, and when the client's place is given back. *)
Record outcome_of_connection := {
  sent_responses : list R;
  released_at : Duration
}.

(** [tokio::time::timeout(deadline, server.serve_connection(io, self))]: the
    connection is polled before the timer, so that what happens at the
    deadline still counts; at the deadline the connection is dropped. *)
Fixpoint cut_off (deadline : Duration) (events : served) : outcome_of_connection :=
  match events with
  | [] => {| sent_responses := []; released_at := deadline |}
  | (t, event) :: events =>
      if deadline <? t then {| sent_responses := []; released_at := deadline |}
      else
        match event with
        | Over => {| sent_responses := []; released_at := t |}
        | Responded r =>
            let c := cut_off deadline events in
            {| sent_responses := r :: sent_responses c; released_at := released_at c |}
        end
  end.

Definition client_serve_reserved (globals : Globals) (server_config : ServerConfig)
    : outcome Empty_set outcome_of_connection :=
  timeout ← Duration_add (timeout globals) (from_secs 1);
  Ok (cut_off timeout (serve_connection (build server_config))).

(** [None]: there are too many clients; [previous] is what [increment()]
    returns. *)
Definition client_serve (globals : Globals) (server_config : ServerConfig) (previous : Z)
    : outcome Empty_set (option outcome_of_connection) :=
  if max_clients globals <=? previous then Ok None
  else Some <$> client_serve_reserved globals server_config.

(** The task of a connection to a TLS listener: [handshake] is the time the
    handshake ends, and whether it succeeds; [None]: it never ends, and the
    place is held for ever, for the deadline starts only after it. *)
Definition https_task (globals : Globals) (server_config : ServerConfig) (previous : Z)
    (handshake : option (Duration * bool)) : outcome Empty_set (option outcome_of_connection) :=
  if max_clients globals <=? previous then Ok None
  else
    match handshake with
    | None => Diverge
    | Some (t, false) => Ok (Some {| sent_responses := []; released_at := t |})
    | Some (t, true) =>
        c ← client_serve_reserved globals server_config;
        Ok (Some {| sent_responses := sent_responses c; released_at := t + released_at c |})
    end.
End connection.
Arguments served : clear implicits.
Arguments connection_event : clear implicits.
