(* ===== verification/ConnectionProps.v ===== *)
(** * Properties of the time a connection is served *)

From Stdlib Require Import Sorting.Sorted.
From S2P Require Import Prelude Bytes Errors F64 Upstream UpstreamFacts Proxy Connection.

Section connection.
Context {R : Type}.
Implicit Types (events : served R).

(** Things happen one after the other. *)
Definition in_order events : Prop := StronglySorted Z.le events.*1.

(** What a connection with this deadline comes to: a response is sent exactly
    if it is written by the deadline, on a connection that is not over; and
    the place is given back when the connection is over, or at the deadline,
    neither sooner nor later. *)
Definition until_deadline (deadline : Duration) events (c : outcome_of_connection) : Prop :=
  (forall i r, sent_responses c !! i = Some r <->
    exists t, events !! i = Some (t, Responded r) /\ t <= deadline /\
      forall j t', events !! j = Some (t', Over) -> (i < j)%nat) /\
  ((exists j, events !! j = Some (released_at c, Over) /\ released_at c <= deadline /\
      forall k t, (k < j)%nat -> events !! k <> Some (t, Over)) \/
   (forall j t, events !! j = Some (t, Over) -> deadline < t) /\ released_at c = deadline).

Lemma in_order_later t ev events i t' ev' :
  in_order ((t, ev) :: events) -> events !! i = Some (t', ev') -> t <= t'.
Proof.
  intros [_ Hall]%StronglySorted_inv Hi. rewrite Forall_forall in Hall. apply Hall.
  apply list_elem_of_fmap. exists (t', ev'). split; [done|]. by eapply list_elem_of_lookup_2.
Qed.

Lemma cut_off_late deadline events :
  (forall i t ev, events !! i = Some (t, ev) -> deadline < t) ->
  until_deadline deadline events {| sent_responses := []; released_at := deadline |}.
Proof.
  intros Hlate. split.
  - intros i r. split; [done|]. intros (t & Hi & Ht & _). apply Hlate in Hi. lia.
  - right. split; [|done]. intros j t Hj. by eapply Hlate.
Qed.

Lemma cut_off_spec deadline events :
  in_order events -> until_deadline deadline events (cut_off deadline events).
Proof.
  induction events as [|[t ev] events IH]; intros Ho; [by apply cut_off_late|].
  cbn [cut_off]. destruct (Z.ltb_spec deadline t) as [Hlate|Hlate].
  { apply cut_off_late. intros [|i] t' ev' Hi; [by injection Hi as <- <-|].
    pose proof (in_order_later _ _ _ _ _ _ Ho Hi). lia. }
  destruct ev as [r|].
  - destruct IH as [IHs IHr]; [by eapply StronglySorted_inv|]. split; cbn [sent_responses released_at].
    + intros [|i] r'; cbn.
      * split; [intros [= <-]; exists t; split_and!; [done|done|]; intros [|j] t' Hj; [done|lia]|].
        by intros (? & [= <- <-] & _).
      * rewrite IHs. split; intros (t' & Hi & Ht & Hj); exists t'; split_and!; try done.
        -- intros [|j] u Hu; [done|]. apply Hj in Hu. lia.
        -- intros j u Hu. specialize (Hj (S j) u Hu). lia.
    + destruct IHr as [(j & Hj & Hd & Hk)|[Hj Hd]].
      * left. exists (S j). split_and!; [done|done|]. intros [|k] u Hlt; [done|]. apply Hk. lia.
      * right. split; [|done]. intros [|j] u Hu; [done|]. by eapply Hj.
  - split; cbn [sent_responses released_at].
    + intros i r. split; [done|]. intros (t' & Hi & _ & Hj). specialize (Hj 0%nat t eq_refl). lia.
    + left. exists 0%nat. split_and!; [done|lia|]. intros k u Hk. lia.
Qed.

Lemma cut_off_released deadline events : released_at (cut_off deadline events) <= deadline.
Proof.
  induction events as [|[t [r|]] events IH]; cbn; [lia| |];
    destruct (Z.ltb_spec deadline t); cbn; lia.
Qed.

Lemma sent_in_time deadline events r :
  In r (sent_responses (cut_off deadline events)) -> exists t, In (t, Responded r) events /\ t <= deadline.
Proof.
  induction events as [|[t [r'|]] events IH]; cbn; [done| |]; destruct (Z.ltb_spec deadline t); cbn; try done.
  intros [->|Hr]; [exists t; auto|]. destruct (IH Hr) as (u & Hu & Hle). eauto.
Qed.

(** Once a connection is let in, and its deadline can be computed, what is
    written in time on a connection that is not over is sent. *)
Lemma response_sent (serve : Builder -> served R) (globals : Globals) (config : ServerConfig) (previous : Z) i t r :
  previous < max_clients globals -> timeout globals + from_secs 1 <= Duration_MAX ->
  in_order (serve (build config)) -> serve (build config) !! i = Some (t, Responded r) ->
  t <= timeout globals + from_secs 1 -> (forall j t', serve (build config) !! j = Some (t', Over) -> (i < j)%nat) ->
  exists c, client_serve serve globals config previous = Ok (Some c) /\ sent_responses c !! i = Some r.
Proof.
  intros Hp Hd Ho Hi Ht Hj. unfold client_serve, client_serve_reserved, Duration_add. cmp_simpl. cbn.
  eexists. split; [done|]. apply cut_off_spec; [done|]. by exists t.
Qed.

End connection.

(** ** Failing over *)
Section failover.
Context `{BO : ByteOrder}.
Context (exchange_single : bytes -> Upstream.t -> outcome DoHError.t bytes) (elapsed : nat -> Duration).
Context (query : bytes) (upstreams : list Upstream.t).
Hypothesis time_passes : forall i, 0 <= elapsed i.

(** The load balancer asks one upstream after the other. *)
Definition total_time (l : list nat) : Duration := foldr Z.add 0 (map elapsed l).
Definition balance_time (tried : list nat) (winner : option nat) : Duration :=
  total_time tried + total_time (option_list winner).

Lemma total_time_cons i l : total_time (i :: l) = elapsed i + total_time l.
Proof. done. Qed.

Lemma total_time_nonneg l : 0 <= total_time l.
Proof. induction l as [|i l IH]; [done|]. rewrite total_time_cons. pose proof (time_passes i). lia. Qed.

Lemma total_time_app l k : total_time (l ++ k) = total_time l + total_time k.
Proof. induction l as [|i l IH]; [done|]. rewrite <- app_comm_cons, !total_time_cons. lia. Qed.

Lemma total_time_in i l : i ∈ l -> elapsed i <= total_time l.
Proof.
  intros (a & b & ->)%list_elem_of_split. rewrite total_time_app, total_time_cons.
  pose proof (total_time_nonneg a). pose proof (total_time_nonneg b). lia.
Qed.

Lemma total_time_two i j l : i <> j -> i ∈ l -> j ∈ l -> elapsed i + elapsed j <= total_time l.
Proof.
  intros Hij (a & b & ->)%list_elem_of_split Hj. rewrite total_time_app, total_time_cons.
  assert (j ∈ a ++ b) as Hj'. { rewrite elem_of_app, elem_of_cons in Hj. apply elem_of_app. naive_solver. }
  apply total_time_in in Hj'. rewrite total_time_app in Hj'. lia.
Qed.

(** When two upstreams have run into the timeout, of more than a second, the
    connection of the client is over before the load balancer has an answer,
    whatever the other upstreams say. *)
Lemma failover_cut {R : Type} (globals : Globals) (randoms : nat -> f64) (stats : rtt_stats) (s : served R) :
  all_end exchange_single query upstreams -> (2 <= length upstreams)%nat -> from_secs 1 < timeout globals ->
  exists oc tried winner,
    exchange_load_balance exchange_single elapsed randoms query upstreams stats =
      (Ok oc, stats_after elapsed upstreams tried winner stats) /\
    exchanged exchange_single elapsed query upstreams oc tried winner /\
    forall i j, i ∈ tried -> j ∈ tried -> i <> j ->
      timeout globals <= elapsed i -> timeout globals <= elapsed j ->
      (forall t r, In (t, Responded r) s -> balance_time tried winner <= t) ->
      sent_responses (cut_off (timeout globals + from_secs 1) s) = [].
Proof.
  intros Hall Hn Ht.
  pose proof (load_balance_outcome exchange_single elapsed randoms query upstreams stats Hall) as H.
  unfold load_balance_result in H.
  assert (exists oc tried winner,
    exchange_load_balance exchange_single elapsed randoms query upstreams stats =
      (Ok oc, stats_after elapsed upstreams tried winner stats) /\
    exchanged exchange_single elapsed query upstreams oc tried winner) as (oc & tried & w & Heq & Hex).
  { destruct upstreams as [|u [|u' us]]; [cbn in Hn; lia|cbn in Hn; lia|].
    destruct H as (oc & tried & w & Heq & Hex & _). by exists oc, tried, w. }
  exists oc, tried, w. split; [done|]. split; [done|]. intros i j Hi Hj Hij Hei Hej Hs.
  pose proof (total_time_two i j tried Hij Hi Hj) as Htwo.
  pose proof (total_time_nonneg (option_list w)) as Hw.
  destruct (sent_responses _) as [|r l] eqn:Hsent; [done|].
  assert (In r (sent_responses (cut_off (timeout globals + from_secs 1) s))) as Hr by (rewrite Hsent; by left).
  apply sent_in_time in Hr as (t & Hin & Hle). specialize (Hs t r Hin). unfold balance_time in Hs.
  lia.
Qed.
End failover.

(** ** At a concrete input *)


