(* ===== verification/Process.v ===== *)
(** * The process: src/main.rs, and [entrypoint] of src/libdoh/src/lib.rs

    From the start of the program to its exit.  The machine it runs on is an
    argument: how the program has been built, whether the runtime starts, the
    random numbers of the first key, what the option parser makes of the
    command line, which addresses can be bound, the certificate files over
    time, the connections each listener accepts, and what becomes of the
    tasks that are modelled elsewhere. *)

From S2P Require Import Prelude Bytes Text Net Errors Upstream Config Serve Odoh Connection.
From S2P Require Proxy Http.

(** ** The settings, as the components read them *)
Definition globals_of (s : Settings) : Proxy.Globals := {|
  Proxy.local_bind_address := local_bind s; Proxy.upstreams := all_upstreams s;
  Proxy.upstream_mode := mode s; Proxy.max_clients := clients_limit s; Proxy.timeout := timeout_ns s;
  Proxy.min_ttl := ttl_min s; Proxy.max_ttl := ttl_max s; Proxy.err_ttl := ttl_err s;
  Proxy.enable_ecs := ecs s; Proxy.ecs_prefix_v4 := ecs_v4 s; Proxy.ecs_prefix_v6 := ecs_v6 s |}.

(** The handlers of a connection from [remote_addr]. *)
Definition http_config_of (s : Settings) (remote_addr : option SocketAddr) : Http.HttpConfig := {|
  Http.path := doh_path s; Http.odoh_configs_path := ODOH_CONFIGS_PATH; Http.disable_post := no_post s;
  Http.allow_odoh_post := odoh_post s; Http.http_enable_ecs := ecs s; Http.remote_addr := remote_addr |}.

Definition server_config_of (s : Settings) : ServerConfig :=
  {| Connection.keepalive := Config.keepalive s;
     Connection.max_concurrent_streams := Config.max_concurrent_streams s |}.

(** ** Panics *)

(** The profiles of src/Cargo.toml: [panic = "abort"] is set for a release,
    and a panic then ends the process, in whichever task it happens;
    otherwise it ends its task only. *)
Inductive profile := Dev | Release.

Definition panic_aborts (p : profile) : bool := match p with Release => true | Dev => false end.

Definition is_panic {E A : Type} (task : outcome E A) : bool := match task with Panic => true | _ => false end.

Definition any_aborts {E A : Type} (p : profile) (tasks : list (outcome E A)) : bool :=
  panic_aborts p && existsb is_panic tasks.

(** [join_all(handles)], whose result is thrown away: a task that panics has
    ended, too, unless the process aborts. *)
Definition task_over {E A : Type} (task : outcome E A) : bool :=
  match task with Diverge => false | _ => true end.
Definition join_all {E A : Type} (p : profile) (handles : list (outcome E A)) : outcome DoHError.t unit :=
  if any_aborts p handles then Panic else if forallb task_over handles then Ok tt else Diverge.

(** ** The listeners *)

(** [serve_listener_without_tls]: what each accept gives, an error or a
    connection, with what [increment()] returns for it and what hyper makes
    of it.  The deadline of a connection is computed in the listener's task,
    where an overflow panics. *)
Fixpoint serve_listener_without_tls {R : Type} (globals : Proxy.Globals) (server_config : ServerConfig)
    (accepts : list (io_error + Z * (Builder -> served R))) : outcome Empty_set unit :=
  match accepts with
  | [] => Diverge
  | inl _ :: _ => Ok tt
  | inr (previous, serve_connection) :: accepts =>
      _ ← client_serve serve_connection globals server_config previous;
      serve_listener_without_tls globals server_config accepts
  end.

(** A task for each listener; the server is done when all have ended. *)
Definition start_without_tls {R : Type} (p : profile) (globals : Proxy.Globals) (server_config : ServerConfig)
    (accepts : SocketAddr -> list (io_error + Z * (Builder -> served R))) (listeners : list SocketAddr)
    : outcome DoHError.t unit :=
  let handles := map (fun a => serve_listener_without_tls globals server_config (accepts a)) listeners in
  join_all p handles.

(** A connection to a TLS listener: what [increment()] returns, the
    handshake, and what hyper makes of the rest. *)
Record tls_connection {R : Type} := {
  tls_previous : Z;
  tls_handshake : option (Duration * bool);
  tls_serve : Builder -> served R
}.
#[global] Arguments tls_connection : clear implicits.

(** [start_https_service]: the tasks it spawns, one for each connection. *)
Definition start_https_service {R : Type} (globals : Proxy.Globals) (server_config : ServerConfig)
    (accepts : list (io_error + tls_connection R)) : list (outcome Empty_set unit) :=
  map (fun c => _ ← https_task (tls_serve c) globals server_config (tls_previous c) (tls_handshake c); Ok tt)
    (fst (accept_loop accepts)).

(** ** The process *)

(** [Aborts]: a panic has ended it. *)
Inductive process :=
  | Exits (code : Z) (message : bytes)
  | Aborts
  | Runs.

Section process.
Context `{UA : UrlApi} `{OA : OdohApi} {R Cert Key Acceptor File : Type}.
Context (pkcs8 rsa : bytes -> io_error + list Key) (with_single_cert : list Cert -> Key -> option Acceptor).

(** [command_line]: the values of the options, or the code with which the
    option parser exits.  [other_tasks]: what becomes, while the program
    runs, of the tasks that no listener waits for: the handlers of requests,
    those of HTTP/3 and the renewal of the key. *)
Record machine := {
  built : profile;
  runtime_error : option io_error;
  rng : Rng;
  command_line : Z + Matches;
  to_socket_addrs : bytes -> bytes + list SocketAddr;
  bind : SocketAddr -> option io_error;
  certificates : list (@tls_files Cert File);
  accepts : SocketAddr -> list (io_error + Z * (Builder -> served R));
  tls_accepts : SocketAddr -> list (io_error + tls_connection R);
  other_tasks : list (outcome Empty_set unit)
}.

(** The tasks of the connections, once there is a certificate. *)
Definition tls_tasks (k : machine) (s : Settings) (acceptor : option Acceptor) (listeners : list SocketAddr)
    : list (outcome Empty_set unit) :=
  match acceptor with
  | None => []
  | Some _ =>
      flat_map (fun a => start_https_service (globals_of s) (server_config_of s) (tls_accepts k a)) listeners
  end.

(** [doh.entrypoint()] to its end *)
Definition serve (k : machine) (s : Settings) : outcome DoHError.t unit :=
  '(listeners, how) ← entrypoint (bind k) (listen_addresses s) (tls_cert_path s) (tls_cert_key_path s);
  if any_aborts (built k) (other_tasks k) then Panic
  else
    match how with
    | Https =>
        let '(result, acceptor) :=
          start_with_tls pkcs8 rsa with_single_cert (tls_cert_path s) (tls_cert_key_path s) (certificates k) in
        if any_aborts (built k) (tls_tasks k s acceptor listeners) then Panic else result
    | Http => start_without_tls (built k) (globals_of s) (server_config_of s) (accepts k) listeners
    end.

(** A panic of the main thread: the code is that of the standard library. *)
Definition main_panics (k : machine) : process :=
  if panic_aborts (built k) then Aborts else Exits 101 [].

Definition main (k : machine) : process :=
  match runtime_error k with
  | Some e => Exits 1 (ascii_bytes "Failed to create Tokio runtime: " ++ io_text e)
  | None =>
      match ODoHRotator_new (rng k) with
      | Ok _ =>
          match command_line k with
          | inl code => Exits code []
          | inr m =>
              match configure (to_socket_addrs k) m with
              | Ok (s, _) =>
                  match serve k s with
                  | Ok _ => Exits 0 []
                  | Err e => Exits 1 (ascii_bytes "Failed to start DoH server: " ++ DoHError.fmt e)
                  | Panic => Aborts
                  | Diverge => Runs
                  end
              | Err message => Exits 1 message
              | Panic => main_panics k
              | Diverge => Runs
              end
          end
      | Err e => Exits 1 (ascii_bytes "Failed to create ODoH rotator: " ++ DoHError.fmt e)
      | Panic => main_panics k
      | Diverge => Runs
      end
  end.
End process.
