(* ===== verification/ProcessProps.v ===== *)
(** * Properties of the process *)

From S2P Require Import Prelude Bytes Text Net Headers Errors Upstream Config ConfigProps Serve ServeProps.
From S2P Require Import Odoh Connection Process.
From S2P Require Proxy.
From S2P Require HttpProps.

(** ** The start *)
Lemma configure_outcome `{UL : UrlLaws} (resolver to_socket_addrs : bytes -> bytes + list SocketAddr) (m : Matches) :
  verified resolver m ->
  match configure to_socket_addrs m with
  | Ok (s, stamps) => well_formed to_socket_addrs m s
  | Err _ => True
  | _ => False
  end.
Proof.
  intros Hv. unfold configure.
  pose proof (parse_opts_total resolver to_socket_addrs m Hv) as Ht.
  assert (forall n a, is_Some (parse_socket_addr a) -> exists x, parse_address n a = Ok x) as Hp.
  { intros n a [x Hx]. exists x. by apply parse_address_Ok. }
  destruct (Hp "default listen address"%string LISTEN_ADDRESS ltac:(by eexists; vm_compute)) as (x & ->).
  destruct (Hp "default server address"%string SERVER_ADDRESS ltac:(by eexists; vm_compute)) as (y & ->).
  cbn [mbind outcome_bind]. destruct (parse_opts to_socket_addrs m) as [[s stamps]|e| |] eqn:Hs; try done.
  by eapply parse_opts_parsed.
Qed.

(** ** Panics *)
Lemma any_aborts_iff {E A : Type} (p : profile) (tasks : list (outcome E A)) :
  any_aborts p tasks = true <-> p = Release /\ In Panic tasks.
Proof.
  unfold any_aborts. rewrite andb_true_iff, existsb_exists. unfold panic_aborts, is_panic. split.
  - intros [Hp (t & Hin & Ht)]. destruct p; [done|]. by destruct t.
  - intros [-> Hin]. split; [done|]. by exists Panic.
Qed.

Section process.
Context `{UL : UrlLaws} `{OA : OdohApi} {R Cert Key Acceptor File : Type}.
Context (pkcs8 rsa : bytes -> io_error + list Key) (with_single_cert : list Cert -> Key -> option Acceptor).
Abbreviation machine := (@machine OA R Cert File).
Abbreviation main := (Process.main pkcs8 rsa with_single_cert).

(** The runtime and the first key are there, and the options are accepted. *)
Definition configured (k : machine) (m : Matches) (s : Settings) : Prop :=
  runtime_error k = None /\ (exists c, serialize_configs (key_pair_new (rng k)) = inr c) /\
  command_line k = inr m /\ exists stamps, configure (to_socket_addrs k) m = Ok (s, stamps).
(** The addresses that can be bound. *)
Definition bound (k : machine) (s : Settings) : list SocketAddr :=
  List.filter (bindable (bind k)) (listen_addresses s).

(** The deadline of a connection cannot be computed. *)
Definition deadline_overflows (s : Settings) : Prop := Duration_MAX < timeout_ns s + from_secs 1.

(** The task of a listener has panicked: a client was let in although its
    deadline cannot be computed. *)
Definition listener_panics (s : Settings) (l : list (io_error + Z * (Builder -> served R))) : Prop :=
  deadline_overflows s /\
  exists earlier previous serve later, l = map inr earlier ++ inr (previous, serve) :: later /\ previous < clients_limit s.

(** It has ended because an accept has failed. *)
Definition accept_failed (s : Settings) (l : list (io_error + Z * (Builder -> served R))) : Prop :=
  exists earlier e later, l = map inr earlier ++ inl e :: later /\
    (deadline_overflows s -> Forall (fun c => clients_limit s <= fst c) earlier).

Lemma client_serve_cases (s : Settings) (sv : Builder -> served R) previous :
  (exists r, client_serve sv (globals_of s) (server_config_of s) previous = Ok r /\
     (deadline_overflows s -> clients_limit s <= previous)) \/
  client_serve sv (globals_of s) (server_config_of s) previous = Panic /\
    deadline_overflows s /\ previous < clients_limit s.
Proof.
  unfold client_serve, client_serve_reserved, Duration_add, deadline_overflows.
  change (Proxy.max_clients (globals_of s)) with (clients_limit s).
  change (Proxy.timeout (globals_of s)) with (timeout_ns s).
  destruct (Z.leb_spec (clients_limit s) previous); [left; by eexists|].
  destruct (Z.leb_spec (timeout_ns s + from_secs 1) Duration_MAX); cbn; [left|right; auto].
  eexists. split; [done|]. lia.
Qed.

Lemma listener_outcome (s : Settings) (l : list (io_error + Z * (Builder -> served R))) :
  match serve_listener_without_tls (globals_of s) (server_config_of s) l with
  | Ok _ => accept_failed s l /\ ~ listener_panics s l
  | Panic => listener_panics s l /\ ~ accept_failed s l
  | Diverge => ~ accept_failed s l /\ ~ listener_panics s l
  | Err _ => False
  end.
Proof.
  induction l as [|[e|[previous sv]] l IH]; cbn [serve_listener_without_tls].
  - split; [intros ([|] & ? & ? & [=] & _)|intros (_ & [|] & ? & ? & ? & [=] & _)].
  - split; [by exists [], e, l|]. intros (_ & [|c earlier] & p & sv & later & [=] & _).
  - assert (accept_failed s (inr (previous, sv) :: l) <->
      accept_failed s l /\ (deadline_overflows s -> clients_limit s <= previous)) as Hf.
    { split.
      - intros ([|c earlier] & e & later & [= <- ->] & Hall).
        split; [exists earlier, e, later; split; [done|]; intros Hd|intros Hd]; by apply Forall_cons in Hall as [? ?].
      - intros [(earlier & e & later & -> & Hall) Hp]. exists ((previous, sv) :: earlier), e, later.
        split; [done|]. intros Hd. constructor; [by apply Hp|by apply Hall]. }
    assert (listener_panics s (inr (previous, sv) :: l) <->
      deadline_overflows s /\ previous < clients_limit s \/ listener_panics s l) as Hn.
    { split.
      - intros (Hd & [|c earlier] & p & sv' & later & He & Hp); cbn in He; injection He; intros; subst; [by left|].
        right. split; [done|]. by exists earlier, p, sv', later.
      - intros [[Hd Hp]|(Hd & earlier & p & sv' & later & -> & Hp)]; (split; [done|]).
        + by exists [], previous, sv, l.
        + by exists ((previous, sv) :: earlier), p, sv', later. }
    destruct (client_serve_cases s sv previous) as [(r & -> & Hr)|(-> & Hd & Hp)]; cbn [mbind outcome_bind].
    + assert (~ (deadline_overflows s /\ previous < clients_limit s)) by (intros [? ?]; specialize (Hr ltac:(done)); lia).
      destruct (serve_listener_without_tls _ _ l); tauto.
    + split; [apply Hn; auto|]. intros [_ H]%Hf. specialize (H Hd). lia.
Qed.

(** A connection to a TLS listener has panicked. *)
Definition connection_panics (s : Settings) (l : list (io_error + tls_connection R)) : Prop :=
  deadline_overflows s /\
  exists earlier c t later, l = map inr earlier ++ inr c :: later /\
    tls_previous c < clients_limit s /\ tls_handshake c = Some (t, true).

Lemma https_task_panics (s : Settings) (c : tls_connection R) :
  https_task (tls_serve c) (globals_of s) (server_config_of s) (tls_previous c) (tls_handshake c) = Panic <->
  deadline_overflows s /\ tls_previous c < clients_limit s /\ exists t, tls_handshake c = Some (t, true).
Proof.
  unfold https_task, client_serve_reserved, Duration_add, deadline_overflows.
  change (Proxy.max_clients (globals_of s)) with (clients_limit s).
  change (Proxy.timeout (globals_of s)) with (timeout_ns s).
  destruct (Z.leb_spec (clients_limit s) (tls_previous c)); [split; [done|lia]|].
  destruct (tls_handshake c) as [[t []]|]; [|split; [done|by intros (_ & _ & ? & ?)]..].
  destruct (Z.leb_spec (timeout_ns s + from_secs 1) Duration_MAX); cbn; [split; [done|lia]|].
  split; [eauto|done].
Qed.

Lemma https_service_panics (s : Settings) (l : list (io_error + tls_connection R)) :
  In Panic (start_https_service (globals_of s) (server_config_of s) l) <-> connection_panics s l.
Proof.
  unfold start_https_service. rewrite in_map_iff.
  assert (forall c, In c (fst (accept_loop l)) <-> exists earlier later, l = map inr earlier ++ inr c :: later) as Hin.
  { intros c. induction l as [|[e|c'] l IH]; cbn [accept_loop].
    - split; [done|]. intros ([|] & ? & [=]).
    - split; [done|]. intros ([|] & ? & [=]).
    - destruct (accept_loop l) as [sv ended]. cbn [fst In] in *. rewrite IH. split.
      + intros [->|(earlier & later & ->)]; [by exists [], l|by exists (c' :: earlier), later].
      + intros ([|c'' earlier] & later & He); cbn in He; injection He; intros; subst; [by left|].
        right. by exists earlier, later. }
  split.
  - intros (c & Ht & Hc). apply Hin in Hc as (earlier & later & Hl).
    assert (https_task (tls_serve c) (globals_of s) (server_config_of s) (tls_previous c) (tls_handshake c) = Panic) as Hp.
    { by destruct (https_task _ _ _ _ _); cbn in Ht. }
    apply https_task_panics in Hp as (Hd & Hp & t & Hh). split; [done|]. by exists earlier, c, t, later.
  - intros (Hd & earlier & c & t & later & Hl & Hp & Hh). exists c. split; [|apply Hin; eauto].
    assert (https_task (tls_serve c) (globals_of s) (server_config_of s) (tls_previous c) (tls_handshake c) = Panic) as ->.
    { apply https_task_panics. eauto. }
    done.
Qed.

(** A task of the server panics: that of a listener, that of a connection,
    once there is a certificate, or another. *)
Definition task_panics (k : machine) (s : Settings) : Prop :=
  In Panic (other_tasks k) \/
  match tls_cert_path s, tls_cert_key_path s with
  | Some cert, Some key =>
      is_Some (last (omap (fun fs => to_option (create_tls_acceptor pkcs8 rsa with_single_cert fs cert key))
        (certificates k))) /\
      Exists (fun a => connection_panics s (tls_accepts k a)) (bound k s)
  | _, _ => Exists (fun a => listener_panics s (accepts k a)) (bound k s)
  end.

(** Every listener has ended: its accept has failed, or it has panicked. *)
Definition all_stopped (k : machine) (s : Settings) : Prop :=
  Forall (fun a => accept_failed s (accepts k a) \/ listener_panics s (accepts k a)) (bound k s).

Lemma listeners_panic (k : machine) (s : Settings) (l : list SocketAddr) :
  In Panic (map (fun a => serve_listener_without_tls (globals_of s) (server_config_of s) (accepts k a)) l) <->
  Exists (fun a => listener_panics s (accepts k a)) l.
Proof.
  rewrite in_map_iff, Exists_exists. setoid_rewrite list_elem_of_In.
  split; intros (a & Ha & Hb); exists a; pose proof (listener_outcome s (accepts k a)) as Ho.
  - rewrite Ha in Ho. tauto.
  - destruct (serve_listener_without_tls _ _ _); tauto.
Qed.

Lemma listeners_over (k : machine) (s : Settings) (l : list SocketAddr) :
  forallb task_over (map (fun a => serve_listener_without_tls (globals_of s) (server_config_of s) (accepts k a)) l) = true
  <-> Forall (fun a => accept_failed s (accepts k a) \/ listener_panics s (accepts k a)) l.
Proof.
  rewrite forallb_forall, Forall_forall. setoid_rewrite in_map_iff. setoid_rewrite list_elem_of_In.
  split.
  - intros H a Ha. pose proof (listener_outcome s (accepts k a)) as Ho.
    specialize (H _ (ex_intro _ a (conj eq_refl Ha))). destruct (serve_listener_without_tls _ _ _); try done; tauto.
  - intros H t (a & <- & Ha). pose proof (listener_outcome s (accepts k a)) as Ho.
    specialize (H a Ha). destruct (serve_listener_without_tls _ _ _); try done; tauto.
Qed.

Lemma rotator_new_outcome (g : Rng) :
  match ODoHRotator_new g with
  | Ok _ => exists c, serialize_configs (key_pair_new g) = inr c
  | Panic => exists e, serialize_configs (key_pair_new g) = inl e
  | _ => False
  end.
Proof.
  unfold ODoHRotator_new, ODoHPublicKey_new. destruct (serialize_configs _) as [e|c]; [by exists e|by exists c].
Qed.

(** The acceptor the HTTPS service has in the end. *)
Lemma acceptor_last cert key attempts :
  is_Some (snd (start_with_tls pkcs8 rsa with_single_cert (Some cert) (Some key) attempts)) <->
  is_Some (last (omap (fun fs => to_option (@create_tls_acceptor Cert Key Acceptor File pkcs8 rsa with_single_cert fs cert key)) attempts)).
Proof.
  unfold start_with_tls. induction attempts as [|fs l IH]; [done|]. cbn [initial_acceptor omap list_omap].
  destruct (create_tls_acceptor pkcs8 rsa with_single_cert fs cert key) as [a|e| |]; cbn [to_option]; try exact IH.
  rewrite last_cons. split; [intros _; by destruct (last _); eexists|by eexists].
Qed.

Lemma tls_tasks_panic (k : machine) (s : Settings) acceptor :
  In Panic (tls_tasks k s acceptor (bound k s)) <->
  is_Some (acceptor : option Acceptor) /\ Exists (fun a => connection_panics s (tls_accepts k a)) (bound k s).
Proof.
  unfold tls_tasks. destruct acceptor as [a|]; cbn; [|split; [done|by intros [[? ?] _]]].
  rewrite in_flat_map, Exists_exists. setoid_rewrite https_service_panics. setoid_rewrite list_elem_of_In.
  split; [intros H; by split; [eexists|]|tauto].
Qed.

Lemma serve_outcome (k : machine) m s :
  well_formed (to_socket_addrs k) m s ->
  match serve pkcs8 rsa with_single_cert k s with
  | Ok _ => bound k s <> [] /\ tls_cert_path s = None /\ all_stopped k s /\ ~ (built k = Release /\ task_panics k s)
  | Err _ => bound k s = []
  | Panic => bound k s <> [] /\ built k = Release /\ task_panics k s
  | Diverge => bound k s <> [] /\ ~ (built k = Release /\ task_panics k s) /\
      (is_Some (tls_cert_path s) \/ ~ all_stopped k s)
  end.
Proof.
  intros Hw. unfold serve. pose proof (entrypoint_outcome (to_socket_addrs k) m s (bind k) Hw) as He.
  unfold entrypoint_result in He. destruct (entrypoint _ _ _ _) as [[served how]| | |]; try done.
  destruct He as (Hb & -> & Hhow). fold (bound k s) in *. cbn [mbind outcome_bind]. unfold task_panics.
  destruct (any_aborts (built k) (other_tasks k)) eqn:Hother.
  { apply any_aborts_iff in Hother as [Hr Ho]. tauto. }
  assert (~ (built k = Release /\ In Panic (other_tasks k))) as Hno.
  { intros H%any_aborts_iff. congruence. }
  destruct how.
  - destruct (proj1 Hhow eq_refl) as [c Hc]. destruct (wf_key _ _ _ Hw ltac:(by exists c)) as [key Hk].
    rewrite Hc, Hk. pose proof (acceptor_last c key (certificates k)) as Ha.
    destruct (start_with_tls _ _ _ _ _ _) as [result acceptor] eqn:Hst. cbn [snd] in Ha.
    assert (result = Diverge) as ->.
    { unfold start_with_tls in Hst. destruct (initial_acceptor _ _ _ _ _ _) as [[]|]; by injection Hst as <- _. }
    pose proof (tls_tasks_panic k s acceptor) as Ht. rewrite Ha in Ht.
    destruct (any_aborts _ (tls_tasks k s acceptor (bound k s))) eqn:Hany.
    + apply any_aborts_iff in Hany as [Hr Hp]. tauto.
    + assert (~ (built k = Release /\ In Panic (tls_tasks k s acceptor (bound k s)))) as Hn.
      { intros H%any_aborts_iff. congruence. }
      split; [done|]. split; [tauto|]. left. by eexists.
  - assert (tls_cert_path s = None) as Hn.
    { destruct (tls_cert_path s) as [c|]; [|done]. by assert (Http = Https) by (apply Hhow; by exists c). }
    rewrite Hn. unfold start_without_tls, join_all, all_stopped.
    pose proof (listeners_panic k s (bound k s)) as Hp. pose proof (listeners_over k s (bound k s)) as Hover.
    destruct (any_aborts _ (map _ _)) eqn:Hany.
    + apply any_aborts_iff in Hany as [Hr Hl]. tauto.
    + assert (~ (built k = Release /\ Exists (fun a => listener_panics s (accepts k a)) (bound k s))) as Hq.
      { rewrite <- Hp. intros H%any_aborts_iff. congruence. }
      destruct (forallb _ _); cbn; [tauto|]. split; [done|]. split; [tauto|]. right. rewrite <- Hover. done.
Qed.

(** C15: the life of the process, for option values the option parser has
    accepted.  It exits with the parser's own code; with 1 when the runtime
    does not start, an option is refused, or no address can be bound; with 0
    only without a certificate and once every listener has stopped, because
    an accept has failed, or, in a development build, because a client was
    let in with a timeout too large for its deadline.  In a release build,
    where a panic aborts, it aborts exactly when there is no first key or a
    task panics: one of the listeners or of the TLS connections, because of
    such a timeout, or another; in a development build the lack of a key
    makes it exit with 101.  Otherwise it runs. *)
Theorem main_spec (k : machine) :
  (forall m, command_line k = inr m -> exists resolver, verified resolver m) ->
  let no_key := runtime_error k = None /\ exists e, serialize_configs (key_pair_new (rng k)) = inl e in
  let started := runtime_error k = None /\ exists c, serialize_configs (key_pair_new (rng k)) = inr c in
  let aborts s := built k = Release /\ task_panics k s in
  match main k with
  | Exits code message =>
      (started /\ command_line k = inl code /\ message = []) \/
      (code = 1 /\
       (is_Some (runtime_error k) \/
        (started /\ exists m, command_line k = inr m /\ configure (to_socket_addrs k) m = Err message) \/
        exists m s, configured k m s /\ bound k s = [])) \/
      (code = 101 /\ built k = Dev /\ no_key) \/
      (code = 0 /\ exists m s, configured k m s /\ bound k s <> [] /\ tls_cert_path s = None /\
         all_stopped k s /\ ~ aborts s)
  | Aborts => built k = Release /\
      (no_key \/ exists m s, configured k m s /\ bound k s <> [] /\ task_panics k s)
  | Runs => exists m s, configured k m s /\ bound k s <> [] /\ ~ aborts s /\
      (is_Some (tls_cert_path s) \/ ~ all_stopped k s)
  end.
Proof.
  intros Hv no_key started aborts. unfold Process.main. destruct (runtime_error k) as [e|] eqn:Hr; [right; left; eauto|].
  pose proof (rotator_new_outcome (rng k)) as Hrot. destruct (ODoHRotator_new (rng k)); try done.
  2: { unfold main_panics. destruct (built k); cbn; [right; right; left; by split_and!|by split; [|left]]. }
  assert started as Hst by done.
  destruct (command_line k) as [code|m] eqn:Hc; [by left|]. destruct (Hv m eq_refl) as [resolver Hm].
  pose proof (configure_outcome resolver (to_socket_addrs k) m Hm) as Hconf.
  destruct (configure (to_socket_addrs k) m) as [[s stamps]|e| |] eqn:Hs; try done; [|right; left; eauto 7].
  pose proof (serve_outcome k m s Hconf) as Hserve.
  assert (configured k m s) as Hk by (split_and!; [done..|by exists stamps]).
  destruct (serve _ _ _ k s); [|naive_solver..].
  destruct Hserve as (H1 & H2 & H3 & H4). right. right. right. split; [done|]. by exists m, s.
Qed.
End process.

(** ** At concrete inputs *)

(** The defaults, one address, on which the first accept fails; and a release
    with such a timeout that the first client ends it. *)
Definition sample_machine (p : profile) (m : Matches)
    (l : list (io_error + Z * (Builder -> served unit))) : @machine HttpProps.open_odoh unit unit unit :=
  let OA := HttpProps.open_odoh in {|
  built := p; runtime_error := None; rng := x07; command_line := inr m; to_socket_addrs := quad9;
  bind := fun _ => None; certificates := []; accepts := fun _ => l; tls_accepts := fun _ => []; other_tasks := [] |}.
Definition failed_accept := sample_machine Release default_matches [inl (io_error_new ErrorKind.InvalidInput [])].

Definition longest_timeout : Matches := {|
  listen_address := None; upstream_mode_arg := ascii_bytes "load_balance"; upstream_args := None;
  local_bind_arg := None; bootstrap := None; path_arg := PATH; max_clients_arg := decimal MAX_CLIENTS;
  timeout_arg := decimal u64_max; max_concurrent := decimal MAX_CONCURRENT_STREAMS;
  min_ttl_arg := decimal MIN_TTL; max_ttl_arg := decimal MAX_TTL; err_ttl_arg := decimal ERR_TTL;
  disable_keepalive := false; disable_post_arg := false; allow_odoh_post_arg := false;
  enable_ecs_arg := false; ecs_prefix_v4_arg := ascii_bytes "24"; ecs_prefix_v6_arg := ascii_bytes "56";
  tls_cert_path_arg := None; tls_cert_key_path_arg := None; hostname := None; public_address := [];
  public_port := None |}.
Definition first_client := sample_machine Release longest_timeout [inr (0, fun _ => [])].

Abbreviation sample_main :=
  (Process.main (UA := one_url_api) (fun _ => inr []) (fun _ => inr []) (fun _ (_ : unit) => @None unit)).

Lemma main_spec_witness :
  (sample_main failed_accept = Exits 0 [] /\
   exists m s, @configured one_url_api HttpProps.open_odoh unit unit unit failed_accept m s /\ tls_cert_path s = None) /\
  sample_main first_client = Aborts /\
  exists m s, @configured one_url_api HttpProps.open_odoh unit unit unit first_client m s /\
    task_panics (fun _ => inr []) (fun _ => inr []) (fun _ (_ : unit) => @None unit) first_client s.
Proof.
  pose proof (@main_spec one_url_api one_url_laws HttpProps.open_odoh unit unit unit unit unit (fun _ => inr [])
    (fun _ => inr []) (fun _ _ => None)) as H.
  split.
  - assert (sample_main failed_accept = Exits 0 []) as Hm by by vm_compute.
    specialize (H failed_accept). cbn zeta in H. rewrite Hm in H. split; [exact Hm|].
    destruct H as [(_ & H & _)|[[H _]|[[H _]|(_ & m & s & Hc & _ & Ht & _)]]]; try discriminate H.
    + intros m [= <-]. exists quad9. exact default_verified.
    + exists m, s. split; [exact Hc|exact Ht].
  - assert (sample_main first_client = Aborts) as Hm by by vm_compute.
    specialize (H first_client). cbn zeta in H. rewrite Hm in H. split; [exact Hm|].
    destruct H as [_ [[_ [e He]]|(m & s & Hc & _ & Hp)]].
    + intros m [= <-]. exists quad9. by split.
    + discriminate He.
    + exists m, s. split; [exact Hc|exact Hp].
Defined.
