(* ===== verification/Server.v ===== *)
(** * The server as one function

    The path of a query through the components: from the HTTP handlers
    (Http.v) to [proxy] and the exchange (Proxy.v), to one upstream over UDP
    and TCP, TLS or HTTPS (Proxy.v, DohClient.v), whose host name is looked
    up (Bootstrap.v).

    A [world] says what the network and the other tasks do at each of these
    places, and in what state the query finds what it shares with others. *)

From S2P Require Import Prelude Bytes Net Headers Errors Bootstrap Upstream Breaker H3Pending DohPool DohClient.
From S2P Require Import FastestAddr DnsJson Proxy Odoh.
From S2P Require Http H3Server.

(** One look-up of an upstream's addresses: the order in which the bootstrap
    resolvers are done, the run of each, the cache it finds, what the
    system's resolver finds, and the UDP sockets that try the addresses. *)
Record lookup := {
  done_order : list SocketAddr -> list SocketAddr;
  run_of : SocketAddr -> resolver_run;
  cache_found : cache;
  lookup_host : bytes -> Z -> option (list SocketAddr);
  udp_sockets : SocketAddr -> UdpSocket
}.

(** An exchange over UDP and TCP. *)
Record dns_world := {
  dns_udp : UdpEndpoint;
  dns_clients_count : Z;
  dns_tcp_socket : TcpSocket;
  dns_tcp_stream : stream
}.

(** An exchange over TLS. *)
Record dot_world := {
  dot_name_ok : bool;
  dot_config_ok : bool;
  dot_lookup : lookup;
  dot_socket_to : SocketAddr -> TcpSocket;
  dot_nodelay_to : SocketAddr -> option io_error;
  dot_handshake_with : SocketAddr -> option stream
}.

(** An exchange over HTTPS: the state it finds, the probes, and each attempt
    over HTTP/2 and over HTTP/3. *)
Record probe_world := {
  probe_lookup : lookup;
  probe_quic : QuicProbe;
  probe_over_tls : TlsProbe;
  probe_first : option bool;
  probe_meanwhile : state -> state
}.
Record h2_world := {
  h2_lookup : lookup;
  h2_roots_ok : bool;
  h2_name_ok : bool;
  h2_during_lookup : state -> state;
  h2_net : DohH2Client -> h2_request -> h2_answer;
  h2_during_request : state -> state
}.
Record h3_attempt := {
  h3_request_id : Z;
  h3_lookup : lookup;
  h3_socket : UdpSocket;
  h3_socket_wrapped : option io_error;
  h3_connects : std_error + Z;
  h3_pool_others : nat -> pool_state -> pool_state;
  h3_pool_in_map : bool;
  h3_exchange_on : Z -> h3_exchange;
  h3_others : option Z -> state -> state
}.
Record doh_world := {
  doh_state : state;
  doh_probe : probe_world;
  doh_h2 : nat -> h2_world;
  doh_h3 : nat -> h3_attempt;
  doh_breaker_others : disturbance
}.

Record world := {
  dns_at : SocketAddr -> dns_world;
  dot_at : DotUpstream -> dot_world;
  doh_at : DohUpstream -> doh_world;
  ends_in_time : Upstream.t -> bool
}.

Section server.
Context `{BO : ByteOrder}.
(** [uri_ok]: whether a text is a URI *)
Context (globals : Globals) (bootstrap_dns : list SocketAddr) (uri_ok : bytes -> bool).

(** ** Looking up *)
Definition run_against (l : lookup) (a : SocketAddr) : resolver_run :=
  let r := run_of l a in
  {| resolver := a; id_a := id_a r; id_aaaa := id_aaaa r; socket_a := socket_a r;
     socket_aaaa := socket_aaaa r; load_at := load_at r; store_at := store_at r |}.
Definition bootstrap_runs (l : lookup) : list resolver_run := map (run_against l) (done_order l bootstrap_dns).

Definition look_up (l : lookup) (host : bytes) (port : Z) : outcome DoHError.t (list SocketAddr) :=
  fst (resolve_upstream_addrs (local_bind_address globals) (timeout globals) (lookup_host l) host port
         (bootstrap_runs l) (cache_found l)).
Definition look_up_doh (l : lookup) (upstream : DohUpstream) : outcome DoHError.t SocketAddr :=
  fst (resolve_doh_addr (local_bind_address globals) (timeout globals) (lookup_host l) (doh_host upstream)
         (doh_port upstream) (bootstrap_runs l) (udp_sockets l) (cache_found l)).

(** ** The three kinds of upstream *)
Definition ask_dns (w : dns_world) (query : bytes) (server : SocketAddr) : outcome DoHError.t bytes :=
  proxy_dns_udp_tcp globals query server (dns_udp w) (dns_clients_count w) (dns_tcp_socket w) (dns_tcp_stream w).

Definition dot_peer (w : dot_world) (a : SocketAddr) : DotPeer := {|
  dot_addr := a; dot_socket := dot_socket_to w a; dot_nodelay := dot_nodelay_to w a;
  dot_handshake := dot_handshake_with w a |}.
Definition ask_dot (w : dot_world) (query : bytes) (upstream : DotUpstream) : outcome DoHError.t bytes :=
  proxy_dot globals query (dot_name_ok w) (dot_config_ok w)
    (addrs ← look_up (dot_lookup w) (dot_host upstream) (dot_port upstream); Ok (map (dot_peer w) addrs)).

Definition h2_once (w : nat -> h2_world) (query : bytes) (upstream : DohUpstream) (n : nat)
    : on_state H2Failure.t bytes :=
  let has_bootstrap_dns := match bootstrap_dns with [] => false | _ => true end in
  doh_post_h2_once (local_bind_address globals) has_bootstrap_dns uri_ok (h2_net (w n)) (h2_during_request (w n))
    upstream query
    {| upstream_addrs := look_up (h2_lookup (w n)) (doh_host upstream) (doh_port upstream);
       native_roots_ok := h2_roots_ok (w n); host_is_server_name := h2_name_ok (w n);
       during_resolve := h2_during_lookup (w n) |}.

Definition h3_once (w : nat -> h3_attempt) (upstream : DohUpstream) (n : nat) : on_state H3Failure.t bytes :=
  doh_post_h3_once (local_bind_address globals) upstream (h3_request_id (w n))
    {| creation := {| doh_addr := look_up_doh (h3_lookup (w n)) upstream; h3_udp := h3_socket (w n);
                      h3_from_udp := h3_socket_wrapped (w n); quic_connection := h3_connects (w n) |};
       pool_others := h3_pool_others (w n); pool_kept := h3_pool_in_map (w n); exchange_on := h3_exchange_on (w n);
       others_meanwhile := h3_others (w n) |}.

Definition probes (w : probe_world) (upstream : DohUpstream) : selection := {|
  peer := look_up_doh (probe_lookup w) upstream; quic := probe_quic w; tls := probe_over_tls w;
  quic_first := probe_first w; meanwhile := probe_meanwhile w |}.

Definition ask_doh (w : doh_world) (query : bytes) (upstream : DohUpstream) : outcome DoHError.t bytes * state :=
  proxy_doh (timeout globals) (local_bind_address globals) upstream (h2_once (doh_h2 w) query upstream)
    (h3_once (doh_h3 w) upstream) (probes (doh_probe w) upstream) (doh_breaker_others w)
    (doh_state w).

(** ** A query *)
Definition ask_upstream (w : world) (query : bytes) (upstream : Upstream.t) : outcome DoHError.t bytes :=
  exchange_single (fun query server => ask_dns (dns_at w server) query server)
    (fun query upstream => fst (ask_doh (doh_at w upstream) query upstream))
    (fun query upstream => ask_dot (dot_at w upstream) query upstream)
    (ends_in_time w) globals query upstream.

Definition answer_query (w : world) (elapsed : nat -> Duration) (sched : schedule) (query : bytes)
    (client_ip : option IpAddr) : mutates shared DoHError.t DnsResponse :=
  proxy globals (exchange (ask_upstream w) elapsed sched globals) query client_ip.

(** ** A request *)
Context `{HA : HeaderApi} `{OA : OdohApi}.
Context (base64_decode urlencoding_decode : bytes -> option bytes) (base64_std_encode : bytes -> bytes).
Context (to_json : DnsJsonResponse -> option bytes) (json_comment : Z -> bytes -> bytes).

Definition answer_request (w : world) (elapsed : nat -> Duration) (sched : schedule) (config : Http.HttpConfig)
    (odoh_rotator : ODoHRotator) (response_nonce : ResponseNonce) (random0 random1 : byte) (req : Http.Request)
    : mutates shared Empty_set Http.Response :=
  Http.call base64_decode (answer_query w elapsed sched) config odoh_rotator response_nonce urlencoding_decode
    to_json json_comment random0 random1 base64_std_encode req.

(** A request over HTTP/3, with the frames of its body and its stream. *)
Definition answer_h3_request (w : world) (elapsed : nat -> Duration) (sched : schedule) (config : Http.HttpConfig)
    (odoh_rotator : ODoHRotator) (response_nonce : ResponseNonce) (random0 random1 : byte)
    (headers : list (bytes * bytes)) (recv : H3Server.inbound)
    : mutates (shared * H3Server.outbound) DoHError.t unit :=
  H3Server.handle_h3_request base64_decode (answer_query w elapsed sched) config odoh_rotator response_nonce
    urlencoding_decode to_json json_comment random0 random1 base64_std_encode headers recv.
End server.
