(* ===== verification/ServerProps.v ===== *)
(** * Every query is answered

    With a timeout, whatever the upstreams and the network do. *)

From S2P Require Import Prelude Bytes Net Headers Errors Bootstrap BootstrapFacts Upstream UpstreamFacts Breaker.
From S2P Require Import H3Pending DohPool DohPoolProps DohClient DohClientFacts DohClientProps FastestIpCache.
From S2P Require Import FastestAddr DnsJson Dns Msg MsgFacts Proxy ProxyFacts ProxyProps Odoh Server.
From S2P Require MsgProps BootstrapProps Http HttpProps.

(** What is assumed of a world: random ids are 16-bit numbers, and what the
    other tasks do to the state they share keeps its invariant. *)
Definition lookup_ok (l : lookup) : Prop := forall a, ids_ok (run_of l a).

Record h3_ok (w : h3_attempt) : Prop := {
  h3_lookup_ok : lookup_ok (h3_lookup w);
  h3_pool_kept : forall n s, pool_ok s -> pool_ok (h3_pool_others w n s);
  h3_state_kept : respects_holding (h3_others w)
}.
Record h2_ok (w : h2_world) : Prop := {
  h2_lookup_ok : lookup_ok (h2_lookup w);
  h2_lookup_kept : respects (h2_during_lookup w);
  h2_state_kept : respects (h2_during_request w)
}.
Record doh_ok (w : doh_world) : Prop := {
  found_ok : state_ok (doh_state w);
  probe_lookup_ok : lookup_ok (probe_lookup (doh_probe w));
  probe_state_kept : respects (probe_meanwhile (doh_probe w));
  all_h2_ok : forall n, h2_ok (doh_h2 w n);
  all_h3_ok : forall n, h3_ok (doh_h3 w n)
}.
Record world_ok (w : world) : Prop := {
  dot_ok : forall u, lookup_ok (dot_lookup (dot_at w u));
  all_doh_ok : forall u, doh_ok (doh_at w u)
}.

Section server.
Context `{BO : ByteOrder}.
Context (globals : Globals) (bootstrap_dns : list SocketAddr) (uri_ok : bytes -> bool).
Hypothesis has_timeout : timeout globals <> 0.

(** ** Looking up does not panic *)
Lemma runs_ok l : lookup_ok l -> Forall ids_ok (bootstrap_runs bootstrap_dns l).
Proof. intros Hl. apply List.Forall_map, Forall_forall. intros a _. apply Hl. Qed.

Lemma look_up_not_panic l host port : lookup_ok l -> look_up globals bootstrap_dns l host port <> Panic.
Proof. intros Hl. by apply resolve_upstream_safe, runs_ok. Qed.

Lemma look_up_doh_not_panic l upstream : lookup_ok l -> look_up_doh globals bootstrap_dns l upstream <> Panic.
Proof. intros Hl. by apply resolve_doh_safe, runs_ok. Qed.

(** ** One upstream *)
Lemma ask_dns_not_panic w query server : ask_dns globals w query server <> Panic.
Proof. by eapply safe_not_panic, udp_tcp_safe. Qed.

Lemma ask_dot_not_panic w query upstream :
  lookup_ok (dot_lookup w) -> ask_dot globals bootstrap_dns w query upstream <> Panic.
Proof.
  intros Hl. apply proxy_dot_not_panic.
  pose proof (look_up_not_panic (dot_lookup w) (dot_host upstream) (dot_port upstream) Hl).
  by destruct (look_up _ _ _ _ _).
Qed.

Lemma ask_doh_keeps w query upstream :
  doh_ok w ->
  let r := ask_doh globals bootstrap_dns uri_ok w query upstream in total (fst r) /\ state_ok (snd r).
Proof.
  intros [Hs Hl Hm H2 H3] r.
  assert (keeps (proxy_doh (timeout globals) (local_bind_address globals) upstream
    (h2_once globals bootstrap_dns uri_ok (doh_h2 w) query upstream)
    (h3_once globals bootstrap_dns (doh_h3 w) upstream) (probes globals bootstrap_dns (doh_probe w) upstream)
    (doh_breaker_others w))) as Hk.
  { apply keeps_proxy_doh; [| |by apply look_up_doh_not_panic|done].
    - intros n. apply keeps_post_h2; [by apply look_up_not_panic, H2|apply H2|apply H2].
    - intros n. apply keeps_post_h3; [by apply look_up_doh_not_panic, H3|apply H3|apply H3]. }
  destruct (Hk _ Hs) as [Hk1 Hk2]. split; [|done].
  pose proof (proj1 (doh_query_cut_off (local_bind_address globals) upstream (timeout globals)
    (h2_once globals bootstrap_dns uri_ok (doh_h2 w) query upstream)
    (h3_once globals bootstrap_dns (doh_h3 w) upstream) (probes globals bootstrap_dns (doh_probe w) upstream)
    (doh_breaker_others w) (doh_state w) has_timeout)) as Hd.
  unfold r, ask_doh, total. by destruct (fst _).
Qed.

Lemma ask_upstream_total w query upstream :
  world_ok w -> total (ask_upstream globals bootstrap_dns uri_ok w query upstream).
Proof.
  intros [Hdot Hdoh]. destruct upstream as [server|doh|dot]; cbn.
  - by apply run_with_timeout_total, ask_dns_not_panic.
  - by apply ask_doh_keeps.
  - by apply run_with_timeout_total, ask_dot_not_panic.
Qed.

Lemma validate_total packet : total (validate_exchange_packet packet).
Proof.
  unfold validate_exchange_packet, validate_response_packet, validate_packet.
  pose proof (unpack_returns packet) as Hu.
  by destruct (unpack packet) as [m|e| |]; cbn in *; repeat case_match.
Qed.

Lemma ask_total w query upstream : world_ok w -> total (ask (ask_upstream globals bootstrap_dns uri_ok w) query upstream).
Proof.
  intros Hw. unfold ask. apply returns_bind. eapply returns_mono; [by apply ask_upstream_total|].
  intros packet _ _. apply validate_total.
Qed.
End server.

(** ** A query and a request *)
Section query.
Context `{BO : ByteOrder}.
Context (globals : Globals) (bootstrap_dns : list SocketAddr) (uri_ok : bytes -> bool).
Context (w : world) (elapsed : nat -> Duration) (sched : schedule).
Abbreviation ask_upstream := (Server.ask_upstream globals bootstrap_dns uri_ok w).
Abbreviation answer_query := (Server.answer_query globals bootstrap_dns uri_ok w elapsed sched).

(** [p] is what some upstream sent in answer to [q], if need be with its
    addresses rewritten. *)
Definition reply_of_upstream (q p : bytes) : Prop := exists i r,
  UpstreamFacts.answers ask_upstream q (upstreams globals) i r /\
  (p = r \/ upstream_mode globals = UpstreamMode.FastestAddr /\
            exists ip, rewrite_answer_ips_in_place r ip = (Ok tt, p)).

(** Why a query has no reply. *)
Definition no_reply (query : bytes) (client_ip : option IpAddr) (e : DoHError.t) : Prop :=
  (len query < MIN_DNS_PACKET_LEN /\ e = DoHError.Incomplete) \/
  exists q, upstream_query globals client_ip query = Ok q /\
    (Forall (fun u => exists e, ask ask_upstream q u = Err e) (upstreams globals) \/
     e = DoHError.UpstreamIssue /\ exists p, reply_of_upstream q p /\ ~ failing p /\
       forall ttl, Dns.min_ttl p (min_ttl globals) (max_ttl globals) (err_ttl globals) <> Ok ttl).

(** What the client of a query is given. *)
Definition answered (query : bytes) (client_ip : option IpAddr) (r : outcome DoHError.t DnsResponse) : Prop :=
  match r with
  | Ok r => exists q p, upstream_query globals client_ip query = Ok q /\ reply_of_upstream q p /\
      resp_packet r = snd (add_edns_padding p)
  | Err e => no_reply query client_ip e
  | _ => False
  end.

Lemma answer_query_answers query client_ip s :
  timeout globals <> 0 -> 0 <= max_ttl globals -> subnets_fit globals client_ip query ->
  world_ok w -> good_schedule sched (length (upstreams globals)) ->
  answered query client_ip (fst (answer_query query client_ip s)).
Proof.
  intros Ht Hmax Hecs Hw Hsched.
  assert (forall q s, exists oc s', exchange ask_upstream elapsed sched globals q s = (Ok oc, s') /\
    exchange_result ask_upstream globals q oc) as Hex.
  { intros q s'. apply exchange_outcome; [|done]. apply Forall_forall. intros u _. by apply ask_total. }
  assert (forall q s oc s', exchange ask_upstream elapsed sched globals q s = (Ok oc, s') ->
    exchange_result ask_upstream globals q oc) as Hres.
  { intros q s1 oc s2 Heq. destruct (Hex q s1) as (oc' & s2' & Heq' & Hr). congruence. }
  pose proof (proxy_outcome globals (exchange ask_upstream elapsed sched globals) query client_ip s Hmax Hecs) as Hp.
  specialize (Hp ltac:(intros q s1; destruct (Hex q s1) as (oc & s2 & Heq & _ & Hoc); exists oc, s2;
    split; [done|]; destruct (packet oc); [done|by destruct Hoc])).
  unfold Server.answer_query, proxy_result in *.
  destruct (proxy _ _ _ _ _) as [[r|e| |] s']; try done; cbn [fst answered].
  - destruct Hp as (q & oc & p & _ & Hq & Heq & Hpk & _ & Hr & _). exists q, p. split; [done|].
    apply Hres in Heq as [_ Heq]. rewrite Hpk in Heq. split; [|done].
    destruct Heq as (_ & i & r' & Ha & Hr'). by exists i, r'.
  - destruct Hp as [(Hl & -> & _)|(q & oc & _ & Hq & Heq & Hoc)]; [by left|]. right. exists q. split; [done|].
    apply Hres in Heq as [_ Heq]. destruct Hoc as [Hpk|(p & Hpk & -> & Hf & Hm)]; rewrite Hpk in Heq.
    + by left.
    + right. split; [done|]. exists p. split; [|done]. destruct Heq as (_ & i & r & Ha & Hr). by exists i, r.
Qed.

Lemma answer_query_total query client_ip s :
  timeout globals <> 0 -> 0 <= max_ttl globals -> subnets_fit globals client_ip query ->
  world_ok w -> good_schedule sched (length (upstreams globals)) ->
  total (fst (answer_query query client_ip s)).
Proof.
  intros Ht Hmax Hecs Hw Hsched. pose proof (answer_query_answers query client_ip s Ht Hmax Hecs Hw Hsched) as H.
  by destruct (fst _).
Qed.

Context `{HA : HeaderApi} `{OA : OdohApi}.
Context (base64_decode urlencoding_decode : bytes -> option bytes) (base64_std_encode : bytes -> bytes).
Context (to_json : DnsJsonResponse -> option bytes) (json_comment : Z -> bytes -> bytes).
Context (config : Http.HttpConfig) (rotator : ODoHRotator) (nonce : ResponseNonce) (random0 random1 : byte).
Abbreviation answer_request := (Server.answer_request globals bootstrap_dns uri_ok base64_decode urlencoding_decode
  base64_std_encode to_json json_comment w elapsed sched config rotator nonce random0 random1).
Abbreviation answer_h3_request := (Server.answer_h3_request globals bootstrap_dns uri_ok base64_decode
  urlencoding_decode base64_std_encode to_json json_comment w elapsed sched config rotator nonce random0 random1).

(** Every query has a response: with status 200 and the padded packet some
    upstream sent in answer to it, or the status of an error, for a reason. *)
Definition reply_for (query : bytes) (ip : option IpAddr) (resp : Http.Response) : Prop :=
  Http.status resp = 200 /\ exists q p, upstream_query globals ip query = Ok q /\
    reply_of_upstream q p /\ Http.body resp = snd (add_edns_padding p).

Lemma request_outcome (req : Http.Request) (query : bytes) (s : shared) :
  let ip := Http.client_ip config (Http.req_headers req) in
  timeout globals <> 0 -> 0 <= max_ttl globals -> subnets_fit globals ip query ->
  world_ok w -> good_schedule sched (length (upstreams globals)) ->
  Http.uri_path req = Http.path config ->
  Http.parse_content_type (Http.req_headers req) = inr Http.DoHType.Standard ->
  HttpProps.carries base64_decode (negb (Http.disable_post config)) req query ->
  exists resp s', answer_request req s = (Ok resp, s') /\
    (reply_for query ip resp \/
     exists e, resp = Http.http_error (DoHError.status_code e) /\ no_reply query ip e).
Proof.
  intros ip Ht Hmax Hecs Hw Hsched Hpath Htype Hq.
  pose proof (answer_query_answers query ip s Ht Hmax Hecs Hw Hsched) as Ha.
  unfold Server.answer_request. rewrite (HttpProps.call_carries _ _ _ _ _ _ _ _ _ _ _ req query) by done.
  fold ip. rewrite HttpProps.serve_doh_query_eq. unfold HttpProps.replied.
  destruct (answer_query query ip s) as [[r|e| |] s']; try done; cbn [fst answered] in Ha; do 2 eexists.
  - split; [done|]. left. split; [done|]. destruct Ha as (q & p & Hu & Hr & Hp). by exists q, p.
  - split; [done|]. right. by exists e.
Qed.

(** Over HTTP/3 the response is sent, and nothing instead of an error. *)
Lemma h3_request_outcome (hs : list (bytes * bytes)) (recv : H3Server.inbound) (query : bytes) (s : shared)
    (out : H3Server.outbound) :
  let ip := HttpProps.h3_client_ip config in
  timeout globals <> 0 -> 0 <= max_ttl globals -> subnets_fit globals ip query ->
  world_ok w -> good_schedule sched (length (upstreams globals)) ->
  Http.path config <> Http.odoh_configs_path config -> ~ In x3f (Http.path config) -> H3Server.room out = None ->
  Http.parse_h3_content_type (H3Server.h3_header_value hs (ascii_bytes "content-type"))
    (H3Server.h3_header_value hs (ascii_bytes "accept")) = inr Http.DoHType.Standard ->
  HttpProps.h3_carries base64_decode config hs recv query ->
  exists s',
    (exists resp fs, answer_h3_request hs recv (s, out) =
        (Ok tt, (s', {| H3Server.frames := H3Server.frames out ++ fs; H3Server.room := None |})) /\
      HttpProps.carried_by resp fs /\ reply_for query ip resp) \/
    (exists e, answer_h3_request hs recv (s, out) = (Err e, (s', out)) /\ no_reply query ip e).
Proof.
  intros ip Ht Hmax Hecs Hw Hsched Hconfigs Hmark Hroom Htype Hq.
  pose proof (answer_query_answers query ip s Ht Hmax Hecs Hw Hsched) as Ha.
  unfold Server.answer_h3_request. rewrite (HttpProps.handle_h3_carries _ _ _ _ _ _ _ _ _ _ _ hs recv query) by done.
  pose proof (HttpProps.handle_payload answer_query config rotator nonce query (s, out) Hroom) as H.
  cbn [fst snd] in H. fold ip in H |- *.
  destruct (answer_query query ip s) as [[r|e| |] s']; try done; cbn [fst answered] in Ha; exists s'.
  - left. destruct H as (fs & Hs & Hf). do 2 eexists. split; [done|]. split; [done|]. split; [done|].
    destruct Ha as (q & p & Hu & Hr & Hp). by exists q, p.
  - right. by exists e.
Qed.
End query.

(** ** At a concrete input *)

(** Nothing is cached, nobody interferes, and nothing answers but the UDP
    upstreams, which send one packet. *)
Definition sample_lookup : lookup := {|
  done_order := fun l => l;
  run_of := fun a =>
    {| resolver := a; id_a := 1; id_aaaa := 2; socket_a := quic_udp (quic some_selection);
       socket_aaaa := quic_udp (quic some_selection); load_at := 0; store_at := 0 |};
  cache_found := ∅; lookup_host := fun _ _ => None; udp_sockets := fun _ => quic_udp (quic some_selection) |}.
Definition sample_world : world := {|
  dns_at := fun server => {|
    dns_udp := {| ep_bind := fun _ => None; ep_send_to := fun _ _ => None;
                  ep_recv_from := fun _ => DatagramFrom MsgProps.sample_packet server |};
    dns_clients_count := 0; dns_tcp_socket := tls_socket (tls some_selection);
    dns_tcp_stream := {| nodelay_error := None; write_errors := []; flush_error := None; sent := [];
                         incoming := []; at_end := None |} |};
  dot_at := fun _ => {|
    dot_name_ok := true; dot_config_ok := true; dot_lookup := sample_lookup;
    dot_socket_to := fun _ => tls_socket (tls some_selection); dot_nodelay_to := fun _ => None;
    dot_handshake_with := fun _ => None |};
  doh_at := fun _ => {|
    doh_state := some_state;
    doh_probe := {| probe_lookup := sample_lookup; probe_quic := quic some_selection;
                    probe_over_tls := tls some_selection; probe_first := None; probe_meanwhile := fun s => s |};
    doh_h2 := fun _ => {| h2_lookup := sample_lookup; h2_roots_ok := true; h2_name_ok := true;
                          h2_during_lookup := fun s => s; h2_net := fun _ _ => H2Silent;
                          h2_during_request := fun s => s |};
    doh_h3 := fun n => {| h3_request_id := Z.of_nat n; h3_lookup := sample_lookup;
                          h3_socket := quic_udp (quic some_selection); h3_socket_wrapped := None;
                          h3_connects := inr 1; h3_pool_others := fun _ s => s; h3_pool_in_map := true;
                          h3_exchange_on := fun _ => {| send_request := None; body_sender := None;
                                                        send_body := None; loop_answer := None |};
                          h3_others := fun _ s => s |};
    doh_breaker_others := undisturbed |};
  ends_in_time := fun _ => true |}.

Lemma sample_world_ok : world_ok sample_world.
Proof.
  assert (lookup_ok sample_lookup) as Hl by (intros a; by split).
  split; [done|]. intros u. split; try done.
  - by intros s.
  - intros n. split; [done|by intros s|by intros s].
Qed.

Definition sample_doh_get : Http.Request := {|
  Http.method := ascii_bytes "GET"; Http.uri_path := ascii_bytes "/dns-query";
  Http.uri_query := Some (ascii_bytes "dns=AAAB");
  Http.req_headers := HttpProps.sample_types Http.DoHType.Standard;
  Http.req_body := {| Http.size_upper := None; Http.collected := Ok [] |} |}.
(** All texts decode to one query of 17 octets. *)
Definition sample_text (s : bytes) : option bytes := Some sample_query.
