(* ===== verification/ProgramProps.v ===== *)
(** * The program, from its options to its answers

    The server of Server.v with the settings that [configure] of Config.v
    makes of the command line. *)

From S2P Require Import Prelude Bytes Text Net Headers Errors Upstream UpstreamFacts DnsJson Dns Proxy ProxyFacts ProxyProps.
From S2P Require Import Odoh Server ServerProps Config ConfigProps Connection ConnectionProps Process ProcessProps.
From S2P Require BootstrapProps DohClientProps Http H3Server HttpProps HttpSafety.

Section program.
Context `{UL : UrlLaws} `{BO : ByteOrder} `{HA : HeaderApi} `{OA : OdohApi}.
Context (to_socket_addrs : bytes -> bytes + list SocketAddr) (uri_ok : bytes -> bool).
Context (base64_decode urlencoding_decode : bytes -> option bytes) (base64_std_encode : bytes -> bytes).
Context (to_json : DnsJsonResponse -> option bytes) (json_comment : Z -> bytes -> bytes).
Context (m : Matches) (settings : Settings) (remote_addr : option SocketAddr).
Context (w : world) (elapsed : nat -> Duration) (sched : schedule).
Context (rotator : ODoHRotator) (nonce : ResponseNonce) (random0 random1 : byte).
Abbreviation globals := (globals_of settings).
Abbreviation config := (http_config_of settings remote_addr).

(** The program as it is configured, and the requests it answers. *)
Definition answer (req : Http.Request) : mutates shared Empty_set Http.Response :=
  answer_request globals (bootstrap_dns settings) uri_ok base64_decode urlencoding_decode base64_std_encode to_json
    json_comment w elapsed sched config rotator nonce random0 random1 req.
Definition answer_h3 (hs : list (bytes * bytes)) (recv : H3Server.inbound)
    : mutates (shared * H3Server.outbound) DoHError.t unit :=
  answer_h3_request globals (bootstrap_dns settings) uri_ok base64_decode urlencoding_decode base64_std_encode to_json
    json_comment w elapsed sched config rotator nonce random0 random1 hs recv.
Abbreviation reply_for := (ServerProps.reply_for globals (bootstrap_dns settings) uri_ok w).
Abbreviation no_reply := (ServerProps.no_reply globals (bootstrap_dns settings) uri_ok w).

(** The program runs with these settings, with a timeout, and its
    surroundings behave. *)
Record running : Prop := {
  options_accepted : exists resolver, verified resolver m;
  settings_made : exists stamps, configure to_socket_addrs m = Ok (settings, stamps);
  with_timeout : timeout_ns settings <> 0;
  world_behaves : world_ok w;
  schedule_good : good_schedule sched (length (all_upstreams settings))
}.

Lemma running_numbers : running ->
  0 <= ttl_max settings /\ 0 <= ecs_v4 settings /\ 0 <= ecs_v6 settings.
Proof.
  intros [[resolver Hv] [stamps Hs] _ _ _].
  pose proof (configure_outcome resolver to_socket_addrs m Hv) as Hw. rewrite Hs in Hw.
  pose proof (wf_numbers _ _ _ Hw). lia.
Qed.

Lemma subnets_fit_of ip query : running ->
  ecs settings = false \/ well_formed_query query -> subnets_fit globals ip query.
Proof. intros Hr [He|Hq]; [by left|]. right. right. by destruct (running_numbers Hr) as (_ & H4 & H6). Qed.

(** C1: every query is answered.  With the settings the program makes of its
    command line, when they have a timeout, the handler of an HTTP/1 or HTTP/2
    request that carries a DoH query always returns a response, whatever the
    upstreams (of any kind and in any mode), the resolvers and the network do,
    and whatever other tasks do to the state it shares with them; with client
    subnets on, if the query is well formed.  The response has status 200
    and the padded packet some upstream sent in answer to this query, or it
    is the status of an error, and then the query was too short, every
    upstream has failed, or the reply's records do not parse.  The client is
    sent it if the connection was let in, its deadline can be computed, and
    the response is written by that deadline, the timeout and one second
    after the start of the connection, while the connection is not over;
    otherwise the connection is cut without it. *)
Theorem request_answered (req : Http.Request) (query : bytes) (s : shared) :
  let ip := Http.client_ip config (Http.req_headers req) in
  running -> ecs settings = false \/ well_formed_query query ->
  Http.uri_path req = doh_path settings ->
  Http.parse_content_type (Http.req_headers req) = inr Http.DoHType.Standard ->
  HttpProps.carries base64_decode (negb (no_post settings)) req query ->
  exists resp s', answer req s = (Ok resp, s') /\
    (reply_for query ip resp \/
     exists e, resp = Http.http_error (DoHError.status_code e) /\ no_reply query ip e) /\
    forall (serve : Builder -> served Http.Response) previous i t,
      let events := serve (build (server_config_of settings)) in
      let deadline := timeout_ns settings + from_secs 1 in
      previous < clients_limit settings -> deadline <= Duration_MAX -> in_order events ->
      events !! i = Some (t, Responded resp) -> t <= deadline ->
      (forall j t', events !! j = Some (t', Over) -> (i < j)%nat) ->
      exists c, client_serve serve globals (server_config_of settings) previous = Ok (Some c) /\
        sent_responses c !! i = Some resp.
Proof.
  intros ip Hr Hecs Hpath Htype Hq.
  assert (exists resp s', answer req s = (Ok resp, s') /\
    (reply_for query ip resp \/
     exists e, resp = Http.http_error (DoHError.status_code e) /\ no_reply query ip e)) as (resp & s' & Ha & Hresp).
  { unfold answer. apply (request_outcome globals (bootstrap_dns settings) uri_ok w elapsed sched base64_decode);
      try assumption.
    - exact (with_timeout Hr).
    - by apply running_numbers.
    - by apply subnets_fit_of.
    - exact (world_behaves Hr).
    - exact (schedule_good Hr). }
  exists resp, s'. split; [exact Ha|]. split; [exact Hresp|].
  intros serve previous i t events deadline Hp Hd Ho Hi Ht Hover.
  by apply (response_sent serve globals (server_config_of settings) previous i t resp).
Qed.

(** C5: the same over HTTP/3, with the frames of the response sent on the
    stream; but nothing at all is sent instead of an error.  A path with a
    query string in it, and that of the ODoH configurations, is not served. *)
Theorem h3_request_answered (hs : list (bytes * bytes)) (recv : H3Server.inbound) (query : bytes) (s : shared)
    (out : H3Server.outbound) :
  let ip := HttpProps.h3_client_ip config in
  running -> ecs settings = false \/ well_formed_query query ->
  doh_path settings <> ODOH_CONFIGS_PATH -> ~ In x3f (doh_path settings) -> H3Server.room out = None ->
  Http.parse_h3_content_type (H3Server.h3_header_value hs (ascii_bytes "content-type"))
    (H3Server.h3_header_value hs (ascii_bytes "accept")) = inr Http.DoHType.Standard ->
  HttpProps.h3_carries base64_decode config hs recv query ->
  exists s',
    (exists resp fs, answer_h3 hs recv (s, out) =
        (Ok tt, (s', {| H3Server.frames := H3Server.frames out ++ fs; H3Server.room := None |})) /\
      HttpProps.carried_by resp fs /\ reply_for query ip resp) \/
    (exists e, answer_h3 hs recv (s, out) = (Err e, (s', out)) /\ no_reply query ip e).
Proof.
  intros ip Hr Hecs Hconfigs Hmark Hroom Htype Hq. unfold answer_h3.
  apply (h3_request_outcome globals (bootstrap_dns settings) uri_ok w elapsed sched base64_decode); try assumption.
  - exact (with_timeout Hr).
  - by apply running_numbers.
  - by apply subnets_fit_of.
  - exact (world_behaves Hr).
  - exact (schedule_good Hr).
Qed.

Lemma answer_query_total_off query ip s :
  running -> ecs settings = false ->
  total (fst (answer_query globals (bootstrap_dns settings) uri_ok w elapsed sched query ip s)).
Proof.
  intros Hr He. apply answer_query_total.
  - exact (with_timeout Hr).
  - by apply running_numbers.
  - by left.
  - exact (world_behaves Hr).
  - exact (schedule_good Hr).
Qed.

(** Some reply sends the JSON decoder into an endless loop. *)
Abbreviation reply_loops := (HttpSafety.reply_loops
  (answer_query globals (bootstrap_dns settings) uri_ok w elapsed sched) base64_std_encode).

(** C2: no request stops the server.  With a timeout and without client
    subnets, the handler of any request at all, over HTTP/1, HTTP/2 or HTTP/3,
    to any path, with any method, headers and body, never panics; over HTTP/1
    and HTTP/2 it returns a response.  Only two things keep it from returning:
    the client never ends the body, or the reply sends the JSON decoder into
    an endless loop.  (Whether the connection still lives to send the response
    is another matter.) *)
Theorem no_request_panics (req : Http.Request) (hs : list (bytes * bytes)) (recv : H3Server.inbound)
    (s : shared) (out : H3Server.outbound) :
  running -> ecs settings = false -> Http.collected (Http.req_body req) <> Panic ->
  match fst (answer req s) with
  | Ok _ => True
  | Diverge =>
      Http.collected (Http.req_body req) = Diverge \/ Http.method req = ascii_bytes "GET" /\ reply_loops
  | _ => False
  end /\
  match fst (answer_h3 hs recv (s, out)) with
  | Ok _ | Err _ => True
  | Panic => False
  | Diverge => H3Server.ends recv = false \/ reply_loops
  end.
Proof.
  intros Hr He Hbody.
  assert (forall q ip s, total (fst (answer_query globals (bootstrap_dns settings) uri_ok w elapsed sched q ip s)))
    as Ht by (intros; by apply answer_query_total_off).
  split.
  - pose proof (HttpSafety.call_settled base64_decode _ config rotator nonce urlencoding_decode to_json json_comment
      random0 random1 base64_std_encode Ht req s Hbody) as Hc. unfold HttpSafety.settled in Hc.
    unfold answer, answer_request. by destruct (fst _) as [|[]| |].
  - pose proof (HttpSafety.h3_settled base64_decode _ config rotator nonce urlencoding_decode to_json json_comment
      random0 random1 base64_std_encode Ht hs recv (s, out)) as Hc. unfold HttpSafety.settled in Hc.
    unfold answer_h3, answer_h3_request. by destruct (fst _).
Qed.
End program.

(** ** At a concrete input *)

(** A parser that knows two URLs. *)
#[local] Instance two_urls : UrlApi := {|
  Url := one_url;
  Url_parse := fun arg =>
    inr {| one_scheme := ascii_bytes (if starts_with (ascii_bytes "tls://") arg then "tls" else "h3");
           one_port := None |};
  as_str := fun u => one_scheme u ++ ascii_bytes "://dns.example/";
  scheme := one_scheme;
  host_str := fun _ => Some (ascii_bytes "dns.example");
  url_host := fun _ => Some (Domain (ascii_bytes "dns.example"));
  url_port := one_port;
  port_or_known_default := fun u => Some (default 443 (one_port u));
  url_path := fun _ => [x2f];
  url_query := fun _ => None
|}.
#[local] Instance two_url_laws : UrlLaws.
Proof. split; [done|done|by right|done]. Qed.

(** An upstream of each kind, all asked at once: HTTPS and TLS fail first. *)
Definition mixed_matches : Matches := {|
  listen_address := None; upstream_mode_arg := ascii_bytes "parallel";
  upstream_args := Some [ascii_bytes "9.9.9.9:53"; ascii_bytes "h3://dns.example/"; ascii_bytes "tls://dns.example/"];
  local_bind_arg := None; bootstrap := Some [ascii_bytes "9.9.9.9:53"]; path_arg := PATH;
  max_clients_arg := decimal MAX_CLIENTS; timeout_arg := decimal TIMEOUT_SEC;
  max_concurrent := decimal MAX_CONCURRENT_STREAMS; min_ttl_arg := decimal MIN_TTL;
  max_ttl_arg := decimal MAX_TTL; err_ttl_arg := decimal ERR_TTL; disable_keepalive := false;
  disable_post_arg := false; allow_odoh_post_arg := false; enable_ecs_arg := false;
  ecs_prefix_v4_arg := ascii_bytes "24"; ecs_prefix_v6_arg := ascii_bytes "56"; tls_cert_path_arg := None;
  tls_cert_key_path_arg := None; hostname := None; public_address := []; public_port := None |}.
Definition mixed_settings : Settings :=
  match configure quad9 mixed_matches with Ok (s, _) => s | _ => ServeProps.one_settings end.
Definition mixed_schedule : schedule := {|
  randoms := fun _ => F64.zero; rx := {| arrivals := [1; 2; 0]%nat; closed := false |};
  hash_order := fun l => l; clock := fun _ => 0; others := fun _ c => c; pings_in_time := fun _ => [] |}.

Lemma mixed_verified : verified quad9 mixed_matches.
Proof.
  split; try done; intros values; cbn.
  - intros [= <-]. split; [done|]. by repeat constructor.
  - intros [= <-]. by repeat constructor.
Qed.

Lemma mixed_schedule_good : good_schedule mixed_schedule 3.
Proof. split; [|done|constructor]. cbn. by rewrite (Permutation_app_comm [1; 2]%nat [0%nat]). Qed.

Lemma mixed_running : running quad9 mixed_matches mixed_settings sample_world mixed_schedule.
Proof.
  split.
  - exists quad9. exact mixed_verified.
  - eexists. vm_compute. reflexivity.
  - done.
  - exact sample_world_ok.
  - exact mixed_schedule_good.
Qed.

Definition mixed_answer : Http.Request -> mutates shared Empty_set Http.Response :=
  answer (OA := HttpProps.open_odoh) (fun _ => true) sample_text sample_text (fun b => b) (fun _ => None)
    (fun _ c => c) mixed_settings None sample_world (fun _ => 20000000) mixed_schedule
    (HttpProps.sample_rotator x07) tt x00 x00.
Definition mixed_h3 : list (bytes * bytes) -> H3Server.inbound -> mutates (shared * H3Server.outbound) DoHError.t unit :=
  answer_h3 (OA := HttpProps.open_odoh) (fun _ => true) sample_text sample_text (fun b => b) (fun _ => None)
    (fun _ c => c) mixed_settings None sample_world (fun _ => 20000000) mixed_schedule
    (HttpProps.sample_rotator x07) tt x00 x00.

Lemma sample_doh_get_carries : HttpProps.carries sample_text true sample_doh_get sample_query.
Proof.
  apply (HttpProps.carries_get _ _ _ _ [] (ascii_bytes "AAAB") []); try done; try constructor.
  - by cbv; intuition discriminate.
  - by cbv; intuition discriminate.
Qed.

Lemma request_answered_witness :
  exists resp s', mixed_answer sample_doh_get sample_shared = (Ok resp, s') /\ Http.status resp = 200.
Proof.
  destruct (request_answered (OA := HttpProps.open_odoh) quad9 (fun _ => true) sample_text sample_text (fun b => b)
    (fun _ => None) (fun _ c => c) mixed_matches mixed_settings None sample_world (fun _ => 20000000) mixed_schedule
    (HttpProps.sample_rotator x07) tt x00 x00 sample_doh_get sample_query sample_shared mixed_running
    ltac:(by left) eq_refl ltac:(by vm_compute) sample_doh_get_carries) as (resp & s' & H & _).
  exists resp, s'. split; [exact H|].
  assert (match fst (mixed_answer sample_doh_get sample_shared) with
          | Ok resp => Http.status resp | _ => 0 end = 200) as Hs by by vm_compute.
  unfold mixed_answer in Hs. rewrite H in Hs. exact Hs.
Defined.

Definition sample_out : H3Server.outbound := {| H3Server.frames := []; H3Server.room := None |}.
Definition sample_post : H3Server.inbound :=
  {| H3Server.received := [Some (sample_query, true)]; H3Server.ends := false |}.

Lemma h3_request_answered_witness :
  exists s' out, mixed_h3 HttpProps.sample_h3_headers sample_post (sample_shared, sample_out) = (Ok tt, (s', out)) /\
    length (H3Server.frames out) = 2%nat.
Proof.
  destruct (h3_request_answered (OA := HttpProps.open_odoh) quad9 (fun _ => true) sample_text sample_text (fun b => b)
    (fun _ => None) (fun _ c => c) mixed_matches mixed_settings None sample_world (fun _ => 20000000) mixed_schedule
    (HttpProps.sample_rotator x07) tt x00 x00 HttpProps.sample_h3_headers sample_post sample_query sample_shared
    sample_out mixed_running ltac:(by left)) as (s' & [(resp & fs & H & _)|(e & H & _)]).
  - by vm_compute.
  - by cbv; intuition discriminate.
  - done.
  - by vm_compute.
  - by apply (HttpProps.h3_carries_post _ _ _ _ _ [] sample_query []).
  - do 2 eexists. split; [exact H|].
    assert (match snd (mixed_h3 HttpProps.sample_h3_headers sample_post (sample_shared, sample_out)) with
            | (_, out) => length (H3Server.frames out) end = 2%nat) as Hs by by vm_compute.
    unfold mixed_h3 in Hs. rewrite H in Hs. exact Hs.
  - exfalso.
    assert (match fst (mixed_h3 HttpProps.sample_h3_headers sample_post (sample_shared, sample_out)) with
            | Ok _ => True | _ => False end) as Hs by by vm_compute.
    unfold mixed_h3 in Hs. by rewrite H in Hs.
Defined.

Lemma no_request_panics_witness :
  match fst (mixed_answer sample_doh_get sample_shared) with Ok _ => True | _ => False end /\
  fst (mixed_h3 HttpProps.sample_h3_headers {| H3Server.received := []; H3Server.ends := true |}
         (sample_shared, sample_out)) <> Panic.
Proof.
  destruct (no_request_panics (OA := HttpProps.open_odoh) quad9 (fun _ => true) sample_text sample_text (fun b => b)
    (fun _ => None) (fun _ c => c) mixed_matches mixed_settings None sample_world (fun _ => 20000000) mixed_schedule
    (HttpProps.sample_rotator x07) tt x00 x00 sample_doh_get HttpProps.sample_h3_headers
    {| H3Server.received := []; H3Server.ends := true |} sample_shared sample_out mixed_running eq_refl) as [H1 H2].
  - by vm_compute.
  - split.
    + by vm_compute.
    + intros Hp. unfold mixed_h3 in Hp. rewrite Hp in H2. exact H2.
Defined.
